(* ===== verification/_CoqProject ===== *)
-Q . S2P
Prelude.v
Double.v
Bytes.v
Posix.v
IperfTime.v
Timer.v
TimerLists.v
TimerSpec.v
TimerRun.v
TimerProps.v
Net.v
CJson.v
CString.v
CStringProps.v
Printf.v
JsonText.v
Texts.v
JsonParse.v
CJsonOps.v
CJsonLinks.v
NumberProps.v
JsonTextProps.v
Queue.v
Units.v
Dscp.v
Auth.v
AuthProps.v
JsonParseProps.v
CJsonOpsProps.v
MinifyProps.v
CJsonLinksProps.v
Test.v
JsonTree.v
Udp.v
UdpProps.v
Api.v
Stats.v
StatsProps.v
Stream.v
Accounting.v
StreamProps.v
Params.v
ParamsProps.v
Results.v
ResultsProps.v
Sockets.v
Dial.v
Connect.v
ConnectProps.v
Sctp.v
Util.v
Packet.v
Ncp.v
Rcv.v
TransferProps.v
Lifecycle.v
LifecycleProps.v
Args.v
ErrorText.v
ArgsProps.v
Prog.v
Output.v
OutputProps.v
Report.v
ReportProps.v
Callbacks.v
Session.v
Server.v
Client.v
SessionProps.v
Main.v
ServerProps.v
PairingProps.v
TimeoutProps.v
AuthorizeProps.v
ConversationProps.v
