(* ===== verification/Prelude.v ===== *)
(** * iperf 3.10.1 and ncp/rcv (src/proj4/iperf-3.10.1/src, src/proj1): a verification library

    iperf measures the throughput of a network path.  A client and a server hold
    one control connection and any number of test streams; the server announces
    the states of the test as single bytes on the control connection, both ends
    exchange parameters before the test and results after it as JSON texts behind
    a length, and in between a [select] loop moves data and runs timers.  This
    library models the program as it is built on Linux for x86-64 with OpenSSL and
    without SCTP, and proves what makes its parts correct.  ncp and rcv of proj1
    are two small programs that copy a file over UDP; they are modelled too.

    ** The parts and the files that model them

    - Foundations.  [Prelude]: machine integers as [Z] with their wrap-around
      written out, functional record update, tactics.  [Double]: IEEE binary64,
      executable.  [Bytes]: buffers and network byte order.  [Posix], [Sockets]: the
      system calls as type classes over a kernel state, with the laws of their manual
      pages as further classes and small kernels ([Pipe], [Host], [Disk]) that satisfy
      them.  [CString], [CStringProps], [Printf]: the functions of the C library on
      characters, strings and numbers, and its formatted printing.
    - Clock values (iperf_time.c): [IperfTime].
    - Timers (timer.c): [Timer] has the heap of [Timer] blocks with both linked
      lists and every operation; [TimerLists], [TimerSpec], [TimerRun] relate the heap
      to a queue ordered by expiry; [TimerProps] has the theorems about the interface.
    - Moving bytes and framing (net.c, [JSON_write]/[JSON_read] of iperf_api.c): [Net].
    - cJSON (cjson.c): [CJson] has the values, their construction and lookup,
      [JsonText] the printer with its buffer, [JsonParse] the parser, [CJsonOps] kinds,
      arrays, copies, comparison and [cJSON_Minify], [CJsonLinks] items in memory and
      the pointers between them; [NumberProps], [JsonTextProps], [JsonParseProps],
      [CJsonOpsProps], [MinifyProps], [CJsonLinksProps] have the theorems.  The control
      messages are carried by [Net] as these texts.
    - Lists of the system (queue.h): [Queue].
    - The data of a test (iperf.h) and its accessors (iperf_api.c): [Test], [Api].
    - The command line: [Args] ([iperf_parse_arguments]), [Units] (units.c), [Dscp]
      (dscp.c); [ArgsProps].
    - Credentials (iperf_auth.c): [Auth], [AuthProps], [AuthorizeProps].
    - Streams: [Udp], [UdpProps] (iperf_udp.c), [Stream], [StreamProps]
      (iperf_tcp.c and the loops of iperf_api.c), [Stats], [StatsProps],
      [Accounting] (the interval statistics, tcp_info.c).
    - The control exchanges (iperf_api.c): [Params], [ParamsProps]; [Results],
      [ResultsProps].
    - Connections: [Dial] (net.c), [Connect], [ConnectProps] (iperf_tcp.c,
      iperf_udp.c), [Sctp] (iperf_sctp.c), [Util] (iperf_util.c).
    - The life of a test and of its streams (iperf_api.c): [Lifecycle],
      [LifecycleProps].
    - What is printed: [Texts] (iperf_locale.c), [ErrorText] (iperf_error.c), [JsonTree]
      (the JSON output of a test), [Output] (the lines of [iperf_printf], errors, the
      log file), [Report] (the reports of intervals and of a test), [Callbacks] (what
      [on_connect] and its like print); [OutputProps], [ReportProps].
    - A running session: [Prog] has the state of a process and the monad of the
      functions that change it; [Session] the control messages and the timer procedures;
      [Server] is iperf_server_api.c and [Client] is iperf_client_api.c, their
      [select] loops included; [Main] is main.c, the process around them.
      [SessionProps] has the rules for reasoning about sessions; [ServerProps],
      [PairingProps], [TimeoutProps], [ConversationProps] the theorems.
    - Copying a file over UDP (proj1): [Packet] (utils), [Ncp] (ncp.cpp), [Rcv]
      (rcv.cpp), [TransferProps].

    A definition has the name of the C function, struct or constant it translates,
    a struct member the name of the member behind a prefix of its struct.  A
    function that may crash answers an option, [None] being undefined behaviour
    (a null or dangling pointer, an access outside a block, a conversion of a
    number that does not fit); a function that fails answers -1 and leaves
    [i_errno] in the test, as in C.

    ** What is shown

    - Timers: every sequence of interface calls behaves as a priority queue,
      [tmr_run] fires what is due and nothing else, in order, the timeout is the
      earliest deadline, nothing is freed twice; and how a procedure that cancels
      another timer breaks [tmr_run].
    - Bytes on the wire: [Nread]/[Nwrite] move prefixes, a control message read is
      the one written, datagram headers and files arrive unchanged; where a length
      or a partial write breaks this.
    - JSON: the printer writes the text of the value and stays in its buffer, the parser
      ends and stays in its own, what is printed is read back; comparison, minified text
      and the chains of children are what they should be, and where detaching loses
      children.
    - Accounting: loss and reordering counters of UDP, the intervals of a stream
      adding up to its totals, the bound on overshooting a byte limit, the moving
      average behind the rate limit.
    - The command line and credentials: what an accepted command line guarantees, how
      numbers with suffixes are scaled, and whom a server admits.
    - Exchanges: the server takes over exactly what the client asked for, each end
      learns what the other counted, both ends finish the exchange of results;
      which messages crash the receiver.
    - Resources: which descriptors and address records each function leaves
      allocated on success and on every error path; what a test leaves behind for
      the next one.
    - Reports: they do not fail, they change nothing but what is reported, and the
      server keeps for its client what it wrote.
    - Sessions: a busy server denies, a waiting server wakes up, a silent client is
      dropped, the streams of the two ends pair up.
    - Copying a file: it arrives whatever the network does, and can always still arrive;
      and where the two programs fail.

    ** Bounds and fuel

    The loops of [Net] run with as much fuel as the request has bytes, plus one, and
    are shown never to run out; so are the parser, the comparison and [cJSON_Minify],
    whose fuel is a function of their input.  [tmr_run_loop] has a step per timer that
    can be due.  The [select] loops of [Server] and [Client] run for as many rounds as
    they are given; the theorems about them speak of single rounds or give the rounds a
    concrete conversation needs.

    ** Not modelled

    - What --debug prints, and the warnings, the usage and the version that are printed
      while the options are read, or by [iperf_tcp_connect] and its like about pacing and
      buffer sizes.
    - The installation of signal handlers; a signal is [iperf_got_sigend].
    - The memory mapping behind a stream's buffer; port numbers are passed to
      [getaddrinfo] as text of at most five digits.
    - Tests over SCTP as part of a session, which the build leaves out: the functions of
      iperf_sctp.c are modelled on their own.
    - Of cJSON the hooks for allocation, the pointer to an error and the version; of
      queue.h the macros the program does not use.
    - The test programs of iperf, the socket tutorial, the TCP variants of proj1, proj2
      and the experiments of proj4. *)

From stdpp Require Export base numbers list option relations.
From stdpp Require Export gmap.
From Stdlib Require Export ZArith Lia.

#[global] Set Default Goal Selector "!".
#[global] Open Scope Z_scope.

(** ** Machine integers

    A C integer of width w is a [Z]; every conversion the source performs is
    one of the six functions below, written out where the C code converts. *)

Definition uint (w x : Z) : Z := x mod 2 ^ w.

Definition sint (w x : Z) : Z := (x + 2 ^ (w - 1)) mod 2 ^ w - 2 ^ (w - 1).

Abbreviation u8 := (uint 8).
Abbreviation u16 := (uint 16).
Abbreviation u32 := (uint 32).
Abbreviation u64 := (uint 64).
Abbreviation i8 := (sint 8).
Abbreviation i32 := (sint 32).
Abbreviation i64 := (sint 64).

Definition is_uint (w x : Z) : Prop := 0 <= x < 2 ^ w.
Definition is_sint (w x : Z) : Prop := - 2 ^ (w - 1) <= x < 2 ^ (w - 1).

Create HintDb cint discriminated.
#[global] Create Rewrite HintDb cint.

Lemma uint_range w x : 0 <= w -> is_uint w (uint w x).
Proof. intros Hw. apply Z.mod_pos_bound, Z.pow_pos_nonneg; lia. Qed.

Lemma uint_id w x : is_uint w x -> uint w x = x.
Proof. intros H. by apply Z.mod_small. Qed.

Lemma sint_range w x : 0 < w -> is_sint w (sint w x).
Proof.
  intros Hw. unfold is_sint, sint.
  assert (2 ^ w = 2 * 2 ^ (w - 1)) as E.
  { rewrite <- (Z.pow_succ_r 2 (w - 1)) by lia. f_equal. lia. }
  pose proof (Z.mod_pos_bound (x + 2 ^ (w - 1)) (2 ^ w)
                (Z.pow_pos_nonneg 2 w ltac:(lia) ltac:(lia))). lia.
Qed.

Lemma sint_id w x : 0 < w -> is_sint w x -> sint w x = x.
Proof.
  intros Hw H. unfold is_sint in H. unfold sint.
  assert (2 ^ w = 2 * 2 ^ (w - 1)) as E.
  { rewrite <- (Z.pow_succ_r 2 (w - 1)) by lia. f_equal. lia. }
  rewrite Z.mod_small; lia.
Qed.

Lemma uint_add_l w x y : uint w (uint w x + y) = uint w (x + y).
Proof. unfold uint. apply Zplus_mod_idemp_l. Qed.

Lemma uint_add_r w x y : uint w (x + uint w y) = uint w (x + y).
Proof. unfold uint. apply Zplus_mod_idemp_r. Qed.

Lemma sint_add_l w x y : sint w (sint w x + y) = sint w (x + y).
Proof.
  unfold sint.
  replace ((x + 2 ^ (w - 1)) mod 2 ^ w - 2 ^ (w - 1) + y + 2 ^ (w - 1))
    with ((x + 2 ^ (w - 1)) mod 2 ^ w + y) by lia.
  rewrite Zplus_mod_idemp_l. do 2 f_equal. lia.
Qed.

Lemma sint_add_r w x y : sint w (x + sint w y) = sint w (x + y).
Proof. by rewrite Z.add_comm, sint_add_l, Z.add_comm. Qed.

#[export] Hint Resolve uint_range sint_range : cint.
#[export] Hint Rewrite uint_add_l uint_add_r sint_add_l sint_add_r : cint.

(** [cint_fold] removes the wrap-around of values that [lia] can see to fit. *)
Ltac cint_fold :=
  repeat match goal with
    | |- context [uint ?w ?x] => rewrite (uint_id w x) by (unfold is_uint; lia)
    | |- context [sint ?w ?x] =>
        rewrite (sint_id w x) by first [lia | unfold is_sint; lia]
    end.

Ltac case_bool :=
  repeat match goal with
    | |- context [Z.ltb ?a ?b] => destruct (Z.ltb_spec a b)
    | |- context [Z.leb ?a ?b] => destruct (Z.leb_spec a b)
    | |- context [Z.eqb ?a ?b] => destruct (Z.eqb_spec a b)
    | |- context [Z.gtb ?a ?b] => rewrite (Z.gtb_ltb a b)
    | |- context [Z.geb ?a ?b] => rewrite (Z.geb_leb a b)
    end.

(** ** Options *)

Lemma obind_assoc {A B C} (o : option A) (f : A -> option B) (g : B -> option C) :
  (o ≫= f) ≫= g = o ≫= (fun x => f x ≫= g).
Proof. by destruct o. Qed.

(** ** Functional record update

    [r <| f := v |>] is C's assignment to one member of a struct.  A record
    opts in with an [Eta] instance that lists its members in order. *)

Class Eta (R : Type) := eta : R -> R.
Arguments eta {R Eta} r /.

Class Setter {R T : Type} (f : R -> T) := set : (T -> T) -> R -> R.
Arguments set {R T} f {Setter} g r.

Ltac derive_setter :=
  match goal with
  | |- @Setter ?R ?T ?f =>
      let E := constr:(_ : Eta R) in
      let g := fresh "g" in
      let r := fresh "r" in
      unfold Setter; intros g r;
      let b := eval hnf in (E r) in
      let b := eval pattern (f r) in b in
      match b with
      | ?ctx _ => let t := eval cbv beta in (ctx (g (f r))) in exact t
      end
  end.

#[export] Hint Extern 1 (Setter _) => derive_setter : typeclass_instances.

Declare Scope record_scope.
Delimit Scope record_scope with record.
Notation "r <| f := v |>" := (set f (fun _ => v) r)
  (at level 12, left associativity, f at next level, v at level 200,
   format "r  <| f  :=  v |>") : record_scope.
Notation "r <| f ::= g |>" := (set f g r)
  (at level 12, left associativity, f at next level, g at level 200,
   format "r  <| f  ::=  g |>") : record_scope.
#[global] Open Scope record_scope.
