(* ===== verification/Double.v ===== *)
(** * C doubles

    The C type [double] is IEEE binary64 with round-to-nearest-even.  A double
    is a [spec_float] of the Standard Library's executable specification of
    floating point with 53 bits of mantissa and the exponents of binary64, so
    every operation below rounds exactly as the machine does.  The file holds
    the operations the program uses, the conversions between integers and
    doubles, and the one fact its integer fields rely on: an integer of less
    than 53 bits survives a trip through a double. *)

From Stdlib Require Import Floats.SpecFloat.
From S2P Require Import Prelude.

Abbreviation double := spec_float.

Definition prec : Z := 53.
Definition emax : Z := 1024.

(** ** Operations *)

Definition d_add (x y : double) : double := SFadd prec emax x y.
Definition d_sub (x y : double) : double := SFsub prec emax x y.
Definition d_mul (x y : double) : double := SFmul prec emax x y.
Definition d_div (x y : double) : double := SFdiv prec emax x y.
Definition d_opp (x : double) : double := SFopp x.
Definition d_abs (x : double) : double := SFabs x.
Definition d_lt (x y : double) : bool := SFltb x y.
Definition d_le (x y : double) : bool := SFleb x y.
Definition d_eq (x y : double) : bool := SFeqb x y.

(** [(double) z] for an integer [z]. *)
Definition d_of_Z (z : Z) : double := binary_normalize prec emax z 0 false.

(** The integer part of a double, truncated towards zero; [None] for an
    infinity or a NaN, whose conversion C leaves undefined. *)
Definition d_trunc (x : double) : option Z :=
  match x with
  | S754_zero _ => Some 0
  | S754_finite s m e =>
      let a := if 0 <=? e then Z.pos m * 2 ^ e else Z.pos m / 2 ^ (- e) in
      Some (if s then - a else a)
  | _ => None
  end.

Definition d_zero : double := S754_zero false.

(** [(uint64_t) x] and [(int) x]; [None] where C leaves the value undefined. *)
Definition d_to_u64 (x : double) : option Z :=
  z ← d_trunc x; if (0 <=? z) && (z <? 2 ^ 64) then Some z else None.

Definition d_to_int (x : double) : option Z :=
  z ← d_trunc x; if (- 2 ^ 31 <=? z) && (z <? 2 ^ 31) then Some z else None.

(** [(float) x], as a double that fits a float: rounded to 24 bits. *)
Definition d_to_float (x : double) : double :=
  match x with
  | S754_finite s m e => binary_normalize 24 128 (if s then Z.neg m else Z.pos m) e s
  | _ => x
  end.

(** ** Integers of less than 53 bits are exact *)

Lemma digits2_pos_log2 m : Z.pos (digits2_pos m) = Z.log2 (Z.pos m) + 1.
Proof.
  induction m as [m IH|m IH|]; [| |done].
  - cbn [digits2_pos]. rewrite Pos2Z.inj_succ, IH.
    rewrite (Pos2Z.inj_xI m), (Z.log2_succ_double (Z.pos m)) by lia. lia.
  - cbn [digits2_pos]. rewrite Pos2Z.inj_succ, IH.
    rewrite (Pos2Z.inj_xO m), (Z.log2_double (Z.pos m)) by lia. lia.
Qed.

Lemma Zdigits2_pow z k :
  0 < z -> 0 <= k -> Zdigits2 (z * 2 ^ k) = Zdigits2 z + k.
Proof.
  intros Hz Hk.
  assert (0 < z * 2 ^ k) as Hp.
  { apply Z.mul_pos_pos; [lia|]. apply Z.pow_pos_nonneg; lia. }
  destruct z as [|z|z]; [lia| |lia].
  destruct (Z.pos z * 2 ^ k) as [|q|q] eqn:E; [lia| |lia].
  cbn [Zdigits2]. rewrite !digits2_pos_log2, <- E.
  rewrite Z.log2_mul_pow2 by lia. lia.
Qed.

Lemma iter_xO m p : Z.pos (Pos.iter xO m p) = Z.pos m * 2 ^ Z.pos p.
Proof.
  revert m. induction p as [|p IH] using Pos.peano_ind; intros m.
  - cbn. lia.
  - rewrite Pos.iter_succ, Pos2Z.inj_xO, IH, Pos2Z.inj_succ.
    rewrite Z.pow_succ_r by lia. lia.
Qed.

(** A mantissa that already has its 53 bits is not rounded. *)
Lemma binary_round_aux_exact s m e :
  Zdigits2 (Z.pos m) = prec -> - 1074 <= e <= 971 ->
  binary_round_aux prec emax s (Z.pos m) e loc_Exact = S754_finite s m e.
Proof.
  intros Hd He. unfold binary_round_aux, shr_fexp, shr_record_of_loc.
  rewrite Hd.
  assert (fexp prec emax (prec + e) - e = 0) as ->.
  { unfold fexp, emin, prec, emax. lia. }
  cbn [shr shr_m loc_of_shr_record shr_r shr_s round_nearest_even].
  rewrite Hd.
  assert (fexp prec emax (prec + e) - e = 0) as ->.
  { unfold fexp, emin, prec, emax. lia. }
  cbn [shr shr_m].
  destruct (Z.leb_spec e (emax - prec)); [done|]. unfold emax, prec in *. lia.
Qed.

Lemma binary_round_exact s m :
  Z.pos m < 2 ^ prec ->
  exists m' k, 0 <= k <= 52 /\ Z.pos m' = Z.pos m * 2 ^ k /\
    Zdigits2 (Z.pos m') = prec /\
    binary_round prec emax s m 0 = S754_finite s m' (- k).
Proof.
  intros Hm.
  assert (Z.log2 (Z.pos m) < prec) as Hlog by (apply Z.log2_lt_pow2; lia).
  pose proof (Z.log2_nonneg (Z.pos m)) as Hnn.
  unfold binary_round.
  assert (fexp prec emax (Z.pos (digits2_pos m) + 0)
          = Z.log2 (Z.pos m) + 1 - prec) as ->.
  { rewrite digits2_pos_log2. unfold fexp, emin, prec, emax in *. lia. }
  unfold shl_align. rewrite Z.sub_0_r.
  destruct (Z.log2 (Z.pos m) + 1 - prec) as [|p|p] eqn:E.
  - exists m, 0. assert (Zdigits2 (Z.pos m) = prec) as Hd.
    { cbn [Zdigits2]. rewrite digits2_pos_log2. lia. }
    repeat split; [lia|lia|lia|done|].
    apply binary_round_aux_exact; [done|lia].
  - unfold prec in *. lia.
  - exists (Pos.iter xO m p), (Z.pos p).
    assert (Zdigits2 (Z.pos (Pos.iter xO m p)) = prec) as Hd.
    { rewrite iter_xO, Zdigits2_pow by lia. cbn [Zdigits2].
      rewrite digits2_pos_log2. lia. }
    repeat split; [lia|unfold prec in *; lia|apply iter_xO|done|].
    rewrite binary_round_aux_exact; [done|done|unfold prec in *; lia].
Qed.

Lemma trunc_scaled m m' k :
  0 <= k -> Z.pos m' = Z.pos m * 2 ^ k ->
  (if 0 <=? - k then Z.pos m' * 2 ^ (- k) else Z.pos m' / 2 ^ (- - k)) = Z.pos m.
Proof.
  intros Hk E. destruct (Z.leb_spec 0 (- k)) as [H|H].
  - replace k with 0 in * by lia. cbn in *. lia.
  - rewrite Z.opp_involutive, E. apply Z.div_mul.
    apply Z.pow_nonzero; lia.
Qed.

Lemma d_trunc_of_Z z : Z.abs z < 2 ^ prec -> d_trunc (d_of_Z z) = Some z.
Proof.
  intros Hz. destruct z as [|m|m]; [done| |].
  - unfold d_of_Z, binary_normalize.
    destruct (binary_round_exact false m) as (m' & k & Hk & E & _ & ->); [lia|].
    unfold d_trunc. by rewrite (trunc_scaled m m' k) by lia.
  - unfold d_of_Z, binary_normalize.
    destruct (binary_round_exact true m) as (m' & k & Hk & E & _ & ->); [lia|].
    unfold d_trunc. by rewrite (trunc_scaled m m' k) by lia.
Qed.

(** Integers of less than 53 bits are strictly between the two bounds cJSON
    saturates at, [(double) LLONG_MIN] and [(double) LLONG_MAX]. *)
Lemma d_of_Z_below_llong_max z :
  Z.abs z < 2 ^ prec -> d_le (d_of_Z (2 ^ 63 - 1)) (d_of_Z z) = false.
Proof.
  intros Hz. change (d_of_Z (2 ^ 63 - 1)) with (S754_finite false (2 ^ 52)%positive 11).
  destruct z as [|m|m]; [done| |]; unfold d_of_Z, binary_normalize.
  - destruct (binary_round_exact false m) as (m' & k & Hk & _ & _ & ->); [lia|].
    unfold d_le, SFleb, SFcompare. by destruct (Z.compare_spec 11 (- k)); try lia.
  - destruct (binary_round_exact true m) as (m' & k & Hk & _ & _ & ->); [lia|].
    done.
Qed.

Lemma d_of_Z_above_llong_min z :
  Z.abs z < 2 ^ prec -> d_le (d_of_Z z) (d_of_Z (- 2 ^ 63)) = false.
Proof.
  intros Hz. change (d_of_Z (- 2 ^ 63)) with (S754_finite true (2 ^ 52)%positive 11).
  destruct z as [|m|m]; [done| |]; unfold d_of_Z, binary_normalize.
  - destruct (binary_round_exact false m) as (m' & k & Hk & _ & _ & ->); [lia|].
    done.
  - destruct (binary_round_exact true m) as (m' & k & Hk & _ & _ & ->); [lia|].
    unfold d_le, SFleb, SFcompare. by destruct (Z.compare_spec (- k) 11); try lia.
Qed.

#[export] Hint Resolve d_of_Z_below_llong_max d_of_Z_above_llong_min : cint.
