(* ===== verification/Bytes.v ===== *)
(** * Bytes and byte order

    A byte is a [Z] in 0..255 and a buffer a list of bytes.  The program puts
    integers on the wire with [htonl]/[htobe64] followed by [memcpy] and takes
    them off with [memcpy] followed by [ntohl]/[be64toh]; whatever the byte
    order of the host, the bytes are the big-endian ones. *)

From S2P Require Import Prelude.

Inductive endianness := LittleEndian | BigEndian.

(** The [n] low-order bytes of [v], least significant first. *)
Fixpoint le_bytes (n : nat) (v : Z) : list Z :=
  match n with
  | O => []
  | S n => u8 v :: le_bytes n (v / 256)
  end.

Fixpoint le_val (bs : list Z) : Z :=
  match bs with
  | [] => 0
  | b :: bs => b + 256 * le_val bs
  end.

Definition be_bytes (n : nat) (v : Z) : list Z := reverse (le_bytes n v).
Definition be_val (bs : list Z) : Z := le_val (reverse bs).

(** [memcpy(p, &v, n)] and [memcpy(&v, p, n)] on a host. *)
Definition mem_store (h : endianness) (n : nat) (v : Z) : list Z :=
  match h with LittleEndian => le_bytes n v | BigEndian => be_bytes n v end.
Definition mem_load (h : endianness) (bs : list Z) : Z :=
  match h with LittleEndian => le_val bs | BigEndian => be_val bs end.

(** [htonl], [ntohl] (n = 4), [htobe64], [be64toh] (n = 8): a byte swap on a
    little-endian host, nothing on a big-endian one. *)
Definition hton (h : endianness) (n : nat) (v : Z) : Z :=
  match h with
  | LittleEndian => le_val (reverse (le_bytes n v))
  | BigEndian => v
  end.

Definition is_byte (b : Z) : Prop := is_uint 8 b.

Lemma length_le_bytes n v : length (le_bytes n v) = n.
Proof. revert v. induction n as [|n IH]; intros v; cbn; [done|by rewrite IH]. Qed.

Lemma length_be_bytes n v : length (be_bytes n v) = n.
Proof. unfold be_bytes. by rewrite length_reverse, length_le_bytes. Qed.

Lemma le_bytes_byte n v : Forall is_byte (le_bytes n v).
Proof.
  revert v. induction n as [|n IH]; intros v; cbn; constructor; [|done].
  by apply uint_range.
Qed.

Lemma be_bytes_byte n v : Forall is_byte (be_bytes n v).
Proof. apply Forall_reverse, le_bytes_byte. Qed.

Lemma le_val_bytes n v : 0 <= v -> le_val (le_bytes n v) = v mod 256 ^ Z.of_nat n.
Proof.
  revert v. induction n as [|n IH]; intros v Hv; cbn [le_bytes le_val].
  - by rewrite Z.mod_1_r.
  - rewrite IH by (apply Z.div_pos; lia).
    rewrite Nat2Z.inj_succ, Z.pow_succ_r by lia.
    rewrite Z.rem_mul_r by (try apply Z.pow_pos_nonneg; lia).
    unfold uint. change (2 ^ 8) with 256. lia.
Qed.

Lemma le_bytes_val bs : Forall is_byte bs -> le_bytes (length bs) (le_val bs) = bs.
Proof.
  induction bs as [|b bs IH]; intros H; cbn [length le_bytes le_val]; [done|].
  apply Forall_cons in H as [Hb H]. unfold is_byte, is_uint in Hb.
  change (2 ^ 8) with 256 in Hb. f_equal.
  - unfold uint. change (2 ^ 8) with 256.
    rewrite Z.mul_comm, Z_mod_plus_full, Z.mod_small; lia.
  - rewrite Z.mul_comm, Z.div_add, Z.div_small by lia. rewrite Z.add_0_l. auto.
Qed.

Lemma le_val_range bs : Forall is_byte bs -> 0 <= le_val bs < 256 ^ Z.of_nat (length bs).
Proof.
  induction bs as [|b bs IH]; intros H; cbn [length le_val]; [lia|].
  apply Forall_cons in H as [Hb H]. specialize (IH H).
  unfold is_byte, is_uint in Hb. change (2 ^ 8) with 256 in Hb.
  rewrite Nat2Z.inj_succ, Z.pow_succ_r by lia. lia.
Qed.

Lemma pow256 n : 256 ^ Z.of_nat n = 2 ^ (8 * Z.of_nat n).
Proof. change 256 with (2 ^ 8). rewrite <- Z.pow_mul_r by lia. done. Qed.

Lemma be_val_bytes n v :
  is_uint (8 * Z.of_nat n) v -> be_val (be_bytes n v) = v.
Proof.
  intros H. unfold is_uint in H. unfold be_val, be_bytes.
  rewrite reverse_involutive, le_val_bytes by lia.
  rewrite pow256. by apply Z.mod_small.
Qed.

Lemma be_bytes_val bs : Forall is_byte bs -> be_bytes (length bs) (be_val bs) = bs.
Proof.
  intros H. unfold be_val, be_bytes. rewrite <- (length_reverse bs).
  rewrite le_bytes_val by (by apply Forall_reverse). apply reverse_involutive.
Qed.

Lemma be_val_range bs : Forall is_byte bs -> is_uint (8 * Z.of_nat (length bs)) (be_val bs).
Proof.
  intros H. unfold is_uint, be_val. rewrite <- pow256, <- length_reverse.
  by apply le_val_range, Forall_reverse.
Qed.

(** Storing a converted integer puts its big-endian bytes in memory. *)
Lemma store_hton h n v : mem_store h n (hton h n v) = be_bytes n v.
Proof.
  destruct h; cbn; [|done].
  pose proof (le_bytes_val (reverse (le_bytes n v))) as H.
  rewrite length_reverse, length_le_bytes in H. apply H.
  apply Forall_reverse, le_bytes_byte.
Qed.

(** Converting a loaded integer reads big-endian bytes. *)
Lemma load_ntoh h bs :
  Forall is_byte bs -> hton h (length bs) (mem_load h bs) = be_val bs.
Proof.
  intros H. destruct h; cbn; [|done]. by rewrite le_bytes_val.
Qed.

#[export] Hint Resolve be_bytes_byte le_bytes_byte : cint.
#[export] Hint Rewrite length_be_bytes length_le_bytes store_hton : cint.

(** ** memcpy into and out of a buffer *)

(** [memcpy(buf + off, bs, length bs)]; [None] is an access out of bounds. *)
Definition put (off : nat) (bs buf : list Z) : option (list Z) :=
  if decide (off + length bs <= length buf)%nat
  then Some (take off buf ++ bs ++ drop (off + length bs) buf) else None.

(** [memcpy(x, buf + off, n)] *)
Definition get (off n : nat) (buf : list Z) : option (list Z) :=
  if decide (off + n <= length buf)%nat then Some (take n (drop off buf)) else None.

Lemma put_length off bs buf buf' : put off bs buf = Some buf' -> length buf' = length buf.
Proof.
  unfold put. case_decide; [|done]. intros [= <-].
  rewrite !length_app, length_take, length_drop. lia.
Qed.

Lemma put_get off bs buf buf' :
  put off bs buf = Some buf' -> get off (length bs) buf' = Some bs.
Proof.
  intros H. pose proof (put_length _ _ _ _ H) as HL. revert H.
  unfold put, get. case_decide as Hd; [|done]. intros [= <-].
  rewrite decide_True by lia.
  rewrite drop_app_length' by (rewrite length_take; lia).
  by rewrite take_app_length.
Qed.

Lemma put_get_other off bs off' n buf buf' :
  put off bs buf = Some buf' ->
  (off' + n <= off \/ off + length bs <= off')%nat ->
  get off' n buf' = get off' n buf.
Proof.
  intros H Ho. pose proof (put_length _ _ _ _ H) as HL. revert H.
  unfold put, get. case_decide as Hd; [|done]. intros [= <-].
  rewrite HL. case_decide as Hn; [|done]. f_equal.
  apply list_eq. intros i. destruct (decide (i < n)%nat) as [Hi|Hi].
  - rewrite !lookup_take_lt by done. rewrite !lookup_drop.
    destruct Ho as [Ho|Ho].
    + rewrite lookup_app_l by (rewrite length_take; lia).
      by rewrite lookup_take_lt by lia.
    + rewrite lookup_app_r by (rewrite length_take; lia).
      rewrite lookup_app_r by (rewrite length_take; lia).
      rewrite lookup_drop, length_take. f_equal. lia.
  - by rewrite !lookup_take_ge by lia.
Qed.
