(* ===== verification/Posix.v ===== *)
(** * The operating system as the program sees it

    System calls are not part of the program.  [Posix W] lists the calls the
    modelled code makes on a kernel state [W]; [PosixLaws] states what their
    manual pages promise about sizes; [StreamLaws] adds what a stream socket
    promises about the bytes: reading takes a prefix of what is waiting, writing
    appends a prefix of what is offered.  The code is verified against these
    classes, and [Pipe] is a small kernel that satisfies them. *)

From S2P Require Import Prelude.

(** The result of a call: a value, or -1 with an [errno]. *)
Inductive sysres (A : Type) :=
| Ok (a : A)
| Err (errno : Z).
Arguments Ok {A}.
Arguments Err {A}.

(** The errno values the code tells apart, as Linux numbers them. *)
Definition EINTR : Z := 4.
Definition EAGAIN : Z := 11.
Definition EWOULDBLOCK : Z := EAGAIN.
Definition ENOMEM : Z := 12.
Definition ENOBUFS : Z := 105.

Class Posix (W : Type) := {
  sys_read : Z -> Z -> W -> sysres (list Z) * W;
  sys_write : Z -> list Z -> W -> sysres Z * W;
  sys_sendfile : Z -> Z -> Z -> Z -> W -> sysres Z * W }.

Class PosixLaws (W : Type) `{Posix W} := {
  read_bound fd n w data w' :
    sys_read fd n w = (Ok data, w') -> Z.of_nat (length data) <= Z.max 0 n;
  write_bound fd data w k w' :
    sys_write fd data w = (Ok k, w') -> 0 <= k <= Z.of_nat (length data);
  sendfile_bound out_fd in_fd off n w k w' :
    sys_sendfile out_fd in_fd off n w = (Ok k, w') -> 0 <= k <= Z.max 0 n }.

(** What is waiting to be read from, and what was written to, a descriptor. *)
Class StreamLaws (W : Type) `{Posix W} := {
  inbox : W -> Z -> list Z;
  outbox : W -> Z -> list Z;
  read_ok fd n w data w' :
    sys_read fd n w = (Ok data, w') ->
    inbox w fd = data ++ inbox w' fd /\ outbox w' = outbox w;
  read_err fd n w e w' :
    sys_read fd n w = (Err e, w') -> inbox w' = inbox w /\ outbox w' = outbox w;
  write_ok fd data w k w' :
    sys_write fd data w = (Ok k, w') ->
    outbox w' fd = outbox w fd ++ take (Z.to_nat k) data /\ inbox w' = inbox w;
  write_err fd data w e w' :
    sys_write fd data w = (Err e, w') -> inbox w' = inbox w /\ outbox w' = outbox w }.

(** A descriptor in blocking mode on a healthy connection: a read returns at
    least one waiting byte, a write accepts at least one byte. *)
Class ReliableLaws (W : Type) `{StreamLaws W} := {
  read_progress fd n w :
    0 < n -> inbox w fd <> [] ->
    exists data w', sys_read fd n w = (Ok data, w') /\ data <> [];
  write_progress fd data w :
    data <> [] ->
    exists k w', sys_write fd data w = (Ok k, w') /\ 0 < k }.

(** The clock of [clock_gettime(CLOCK_MONOTONIC)], seconds and nanoseconds, and
    what an uninitialised local of two 32-bit words happens to hold. *)
Class Clock (W : Type) := {
  sys_clock : W -> option (Z * Z) * W;
  stack_word : W -> Z }.

(** Reading the clock does not touch the streams. *)
Class ClockLaws (W : Type) `{StreamLaws W} `{Clock W} := {
  clock_inbox (w w' : W) c : sys_clock w = (c, w') -> inbox w' = inbox w;
  clock_outbox (w w' : W) c : sys_clock w = (c, w') -> outbox w' = outbox w }.

(** Descriptors that end, regular files and connections the peer has closed: a read at
    the end returns no bytes. *)
Class FileLaws (W : Type) `{StreamLaws W} := {
  ends : Z -> Prop;
  read_eof fd n (w : W) :
    ends fd -> inbox w fd = [] -> exists w', sys_read fd n w = (Ok [], w') }.

(** Descriptors whose writes are never short, as a regular file's on a disk with room. *)
Class WholeWrites (W : Type) `{Posix W} := {
  whole : Z -> Prop;
  write_whole fd data (w : W) :
    whole fd -> exists w', sys_write fd data w = (Ok (Z.of_nat (length data)), w') }.

(** ** A kernel that satisfies the laws

    One connected descriptor per direction; every call moves at most [chunk]
    bytes, so that longer transfers take several calls. *)
Module Pipe.
Record pipe := mk_pipe { chunk : positive; incoming : list Z; outgoing : list Z }.

Definition read (fd n : Z) (w : pipe) : sysres (list Z) * pipe :=
  let k := Z.to_nat (Z.min n (Z.pos (chunk w))) in
  (Ok (take k (incoming w)), mk_pipe (chunk w) (drop k (incoming w)) (outgoing w)).

Definition write (fd : Z) (data : list Z) (w : pipe) : sysres Z * pipe :=
  let k := Z.min (Z.of_nat (length data)) (Z.pos (chunk w)) in
  (Ok k, mk_pipe (chunk w) (incoming w) (outgoing w ++ take (Z.to_nat k) data)).

Definition sendfile (out_fd in_fd off n : Z) (w : pipe) : sysres Z * pipe :=
  (Ok (Z.max 0 (Z.min n (Z.pos (chunk w)))), w).

#[global] Instance pipe_posix : Posix pipe := {|
  sys_read := read; sys_write := write; sys_sendfile := sendfile |}.

(** The pipe's clock stands still at one second. *)
#[global] Instance pipe_clock : Clock pipe := {|
  sys_clock := fun w => (Some (1, 0), w); stack_word := fun _ => 0 |}.

#[global] Instance pipe_laws : PosixLaws pipe.
Proof.
  split; cbn.
  - intros fd n w data w' [= <- <-]. rewrite length_take. lia.
  - intros fd data w k w' [= <- <-]. lia.
  - intros o i off n w k w' [= <- <-]. lia.
Qed.

#[global] Instance pipe_stream : StreamLaws pipe.
Proof.
  refine {| inbox := fun w _ => incoming w; outbox := fun w _ => outgoing w |}; cbn.
  - intros fd n w data w' [= <- <-]. cbn. by rewrite take_drop.
  - done.
  - intros fd data w k w' [= <- <-]. done.
  - done.
Defined.

#[global] Instance pipe_reliable : ReliableLaws pipe.
Proof.
  split; cbn.
  - intros fd n w Hn Hne. eexists _, _. split; [done|].
    destruct (incoming w) as [|b l]; [done|].
    destruct (Z.to_nat (Z.min n (Z.pos (chunk w)))) eqn:E; [lia|done].
  - intros fd data w Hne. eexists _, _. split; [done|].
    destruct data; [done|]. cbn [length]. lia.
Qed.
#[global] Instance pipe_files : FileLaws pipe.
Proof.
  refine {| ends := fun _ => True |}. cbn. intros fd n w _ Hin. unfold read. rewrite Hin.
  rewrite take_nil. by eexists.
Defined.

#[global] Instance pipe_clock_laws : ClockLaws pipe.
Proof. by split; cbn; intros w w' c [= _ <-]. Qed.
End Pipe.
