(* ===== verification/IperfTime.v ===== *)
(** * iperf_time.c: timestamps

    [struct iperf_time] is a pair of 32-bit unsigned counters.  The operations
    are translated with their wrap-around; [to_us] is the time a stamp stands
    for, and the lemmas relate each operation to arithmetic on [to_us]. *)

From S2P Require Import Prelude Double.

Record iperf_time := mk_time { secs : Z; usecs : Z }.

#[export] Instance iperf_time_eq_dec : EqDecision iperf_time.
Proof. solve_decision. Defined.

(** Both fields fit [uint32_t]. *)
Definition time_wf (t : iperf_time) : Prop :=
  is_uint 32 (secs t) /\ is_uint 32 (usecs t).

(** In addition the microseconds are less than a second. *)
Definition time_norm (t : iperf_time) : Prop :=
  is_uint 32 (secs t) /\ 0 <= usecs t < 1000000.

(** The number of microseconds a timestamp stands for. *)
Definition to_us (t : iperf_time) : Z := secs t * 1000000 + usecs t.

(** [clock_gettime] answers 0 and a [struct timespec], or -1. *)
Definition iperf_time_now (clock : option (Z * Z)) (time1 : iperf_time)
    : Z * iperf_time :=
  match clock with
  | Some (tv_sec, tv_nsec) => (0, mk_time (u32 tv_sec) (u32 tv_nsec / 1000))
  | None => (-1, time1)
  end.

Definition iperf_time_add_usecs (time1 : iperf_time) (us : Z) : iperf_time :=
  let us := u64 us in
  let s := u32 (secs time1 + us / 1000000) in
  let u := u32 (usecs time1 + us mod 1000000) in
  if u >=? 1000000
  then mk_time (u32 (s + u / 1000000)) (u32 (u mod 1000000))
  else mk_time s u.

Definition iperf_time_in_usecs (time : iperf_time) : Z :=
  u64 (i64 (secs time * 1000000 + usecs time)).

Definition iperf_time_in_secs (time : iperf_time) : double :=
  d_add (d_of_Z (secs time)) (d_div (d_of_Z (usecs time)) (d_of_Z 1000000)).

Definition iperf_time_compare (time1 time2 : iperf_time) : Z :=
  if secs time1 <? secs time2 then -1
  else if secs time1 >? secs time2 then 1
  else if usecs time1 <? usecs time2 then -1
  else if usecs time1 >? usecs time2 then 1
  else 0.

(** The subtraction both branches of [iperf_time_diff] perform, [big] being
    the later time: every assignment to a field wraps to 32 bits. *)
Definition time_sub (big small : iperf_time) : iperf_time :=
  let s := u32 (secs big - secs small) in
  let u := usecs big in
  let '(s, u) := if u <? usecs small then (u32 (s - 1), u32 (u + 1000000))
                 else (s, u) in
  mk_time s (u32 (u - usecs small)).

Definition iperf_time_diff (time1 time2 : iperf_time) : Z * iperf_time :=
  let cmp := iperf_time_compare time1 time2 in
  if cmp =? 0 then (1, mk_time 0 0)
  else if cmp =? 1 then (0, time_sub time1 time2)
  else (1, time_sub time2 time1).

(** ** Facts *)

Lemma time_norm_wf t : time_norm t -> time_wf t.
Proof. unfold time_norm, time_wf, is_uint. lia. Qed.

Lemma time_eta_us t1 t2 :
  time_norm t1 -> time_norm t2 -> to_us t1 = to_us t2 -> t1 = t2.
Proof.
  destruct t1, t2. unfold time_norm, to_us, is_uint. cbn. intros.
  f_equal; lia.
Qed.

Lemma to_us_range t : time_norm t -> 0 <= to_us t < 2 ^ 32 * 1000000.
Proof. unfold time_norm, to_us, is_uint. lia. Qed.

#[export] Hint Resolve time_norm_wf to_us_range : cint.

(** The comparison is the comparison of the microseconds. *)
Lemma compare_spec t1 t2 :
  time_norm t1 -> time_norm t2 ->
  iperf_time_compare t1 t2 =
    match to_us t1 ?= to_us t2 with Lt => -1 | Eq => 0 | Gt => 1 end.
Proof.
  unfold time_norm, is_uint, to_us, iperf_time_compare. intros H1 H2.
  case_bool; destruct (Z.compare_spec (secs t1 * 1000000 + usecs t1)
                         (secs t2 * 1000000 + usecs t2)); lia.
Qed.

Lemma compare_lt0 t1 t2 :
  time_norm t1 -> time_norm t2 ->
  (iperf_time_compare t1 t2 <? 0) = (to_us t1 <? to_us t2).
Proof.
  intros H1 H2. rewrite compare_spec by done.
  case_bool; destruct (Z.compare_spec (to_us t1) (to_us t2)); lia.
Qed.

Lemma compare_gt0 t1 t2 :
  time_norm t1 -> time_norm t2 ->
  (iperf_time_compare t1 t2 >? 0) = (to_us t2 <? to_us t1).
Proof.
  intros H1 H2. rewrite compare_spec by done.
  case_bool; destruct (Z.compare_spec (to_us t1) (to_us t2)); lia.
Qed.

(** Adding microseconds to a normalised stamp is addition, as long as the
    seconds do not leave 32 bits. *)
Lemma add_usecs_spec t us :
  time_norm t -> 0 <= us -> to_us t + us < 2 ^ 32 * 1000000 ->
  time_norm (iperf_time_add_usecs t us) /\
  to_us (iperf_time_add_usecs t us) = to_us t + us.
Proof.
  unfold time_norm, to_us, iperf_time_add_usecs, is_uint. intros [Hs Hu] Hus Hb.
  rewrite (uint_id 64 us) by (unfold is_uint; lia).
  assert (0 <= us / 1000000) by (apply Z.div_pos; lia).
  pose proof (Z.mod_pos_bound us 1000000 ltac:(lia)).
  pose proof (Z.div_mod us 1000000 ltac:(lia)).
  rewrite (uint_id 32 (usecs t + us mod 1000000)) by (unfold is_uint; lia).
  rewrite (uint_id 32 (secs t + us / 1000000)) by (unfold is_uint; lia).
  case_bool; cbn [secs usecs]; [|lia].
  pose proof (Z.mod_pos_bound (usecs t + us mod 1000000) 1000000 ltac:(lia)).
  pose proof (Z.div_mod (usecs t + us mod 1000000) 1000000 ltac:(lia)).
  assert ((usecs t + us mod 1000000) / 1000000 = 1) as E by lia.
  rewrite E in *.
  rewrite !uint_id by (unfold is_uint; lia). lia.
Qed.

(** Subtraction of a smaller time. *)
Lemma time_sub_spec big small :
  time_norm big -> time_norm small -> to_us small <= to_us big ->
  time_norm (time_sub big small) /\
  to_us (time_sub big small) = to_us big - to_us small.
Proof.
  unfold time_norm, to_us, time_sub, is_uint. intros H1 H2 Hle.
  case_bool; cbn [secs usecs].
  - assert (secs small < secs big) by lia.
    rewrite (uint_id 32 (secs big - secs small)) by (unfold is_uint; lia).
    rewrite (uint_id 32 (usecs big + 1000000)) by (unfold is_uint; lia).
    rewrite !uint_id by (unfold is_uint; lia). lia.
  - rewrite !uint_id by (unfold is_uint; lia). lia.
Qed.

Lemma in_usecs_spec t : time_wf t -> iperf_time_in_usecs t = to_us t.
Proof.
  unfold time_wf, is_uint, iperf_time_in_usecs, to_us. intros H.
  rewrite sint_id by (unfold is_sint; lia).
  by rewrite uint_id by (unfold is_uint; lia).
Qed.

Lemma diff_full t1 t2 :
  time_norm t1 -> time_norm t2 ->
  time_norm (iperf_time_diff t1 t2).2 /\
  to_us (iperf_time_diff t1 t2).2 = Z.abs (to_us t1 - to_us t2) /\
  (iperf_time_diff t1 t2).1 = (if to_us t1 <=? to_us t2 then 1 else 0).
Proof.
  intros H1 H2. unfold iperf_time_diff. rewrite compare_spec by done.
  destruct (Z.compare_spec (to_us t1) (to_us t2)) as [E|L|G]; cbn [fst snd].
  - rewrite E, Z.sub_diag, Z.leb_refl, Z.eqb_refl. cbn [fst snd].
    split; [unfold time_norm, is_uint; cbn [secs usecs]; lia|done].
  - destruct (time_sub_spec t2 t1 H2 H1 ltac:(lia)) as [Hn E].
    cbn. case_bool; try lia. repeat split; [apply Hn..|lia].
  - destruct (time_sub_spec t1 t2 H1 H2 ltac:(lia)) as [Hn E].
    cbn. case_bool; try lia. repeat split; [apply Hn..|lia].
Qed.

(** The two results of [iperf_time_diff], the second in microseconds. *)
Lemma diff_spec t1 t2 :
  time_norm t1 -> time_norm t2 ->
  (iperf_time_diff t1 t2).1 = (if to_us t1 <=? to_us t2 then 1 else 0) /\
  iperf_time_in_usecs (iperf_time_diff t1 t2).2 = Z.abs (to_us t1 - to_us t2).
Proof.
  intros H1 H2. destruct (diff_full t1 t2 H1 H2) as (Hn & E & Hp).
  split; [done|]. by rewrite in_usecs_spec by auto with cint.
Qed.

(** ** Properties *)

(** [iperf_time_add_usecs] keeps a timestamp normalised and advances it by
    exactly the requested microseconds, provided the result still fits the
    32-bit seconds counter. *)
Theorem add_usecs_exact t us :
  time_norm t -> 0 <= us -> to_us t + us < 2 ^ 32 * 1000000 ->
  time_norm (iperf_time_add_usecs t us) /\
  iperf_time_in_usecs (iperf_time_add_usecs t us) = iperf_time_in_usecs t + us.
Proof.
  intros H Hus Hb. destruct (add_usecs_spec t us H Hus Hb) as [Hn E].
  split; [done|]. rewrite !in_usecs_spec by auto with cint. done.
Qed.

Lemma add_usecs_exact_witness :
  time_norm (mk_time 4294967294 999999) /\
  iperf_time_in_usecs (iperf_time_add_usecs (mk_time 4294967294 999999) 1)
  = iperf_time_in_usecs (mk_time 4294967294 999999) + 1.
Proof.
  assert (time_norm (mk_time 4294967294 999999)) as H.
  { unfold time_norm, is_uint. cbn. lia. }
  split; [exact H|].
  apply (add_usecs_exact (mk_time 4294967294 999999) 1 H); unfold to_us; cbn [secs usecs]; lia.
Defined.

(** [iperf_time_diff] returns the distance between two timestamps as a
    normalised timestamp, whichever is later, and its result is 1 exactly when
    the first one is not later than the second. *)
Theorem diff_is_distance t1 t2 :
  time_norm t1 -> time_norm t2 ->
  time_norm (iperf_time_diff t1 t2).2 /\
  iperf_time_in_usecs (iperf_time_diff t1 t2).2 = Z.abs (to_us t1 - to_us t2) /\
  (iperf_time_diff t1 t2).1 = (if to_us t1 <=? to_us t2 then 1 else 0).
Proof.
  intros H1 H2. destruct (diff_full t1 t2 H1 H2) as (Hn & _ & Hp).
  destruct (diff_spec t1 t2 H1 H2) as [_ E]. auto.
Qed.

Lemma diff_is_distance_witness :
  iperf_time_in_usecs (iperf_time_diff (mk_time 3 999999) (mk_time 5 1)).2 = 1000002.
Proof.
  assert (time_norm (mk_time 3 999999)) as H1 by (unfold time_norm, is_uint; cbn; lia).
  assert (time_norm (mk_time 5 1)) as H2 by (unfold time_norm, is_uint; cbn; lia).
  destruct (diff_is_distance _ _ H1 H2) as (_ & E & _). exact E.
Defined.
