(* ===== verification/Timer.v ===== *)
(** * timer.c: the timer package

    The package keeps two lists threaded through heap-allocated [Timer]
    structs: [timers], doubly linked and sorted by expiry, and [free_timers],
    singly linked.  This file holds the memory model and the operations; the
    proofs are in [TimerLists] and the files behind it.  An operation is a partial function on the
    heap: [None] is undefined behaviour in C (a null or dangling pointer), and
    the refinement theorems show it is never reached. *)

From S2P Require Import Prelude Double IperfTime.

Abbreviation loc := positive.
Abbreviation ptr := (option positive).

Section Timer.
(** [P] names the callbacks ([TimerProc *]), [D] is [TimerClientData]. *)
Context {P D : Type}.

(** The C struct, without the field [hash] that no code reads or writes. *)
Record Timer := mk_timer {
  timer_proc : P;
  client_data : D;
  tm_usecs : Z;
  periodic : Z;
  tm_time : iperf_time;
  tm_prev : ptr;
  tm_next : ptr }.

Record tmr_state := mk_tmr {
  heap : gmap loc Timer;
  timers : ptr;
  free_timers : ptr }.

Definition set_prev (p : ptr) (t : Timer) : Timer :=
  mk_timer (timer_proc t) (client_data t) (tm_usecs t) (periodic t)
    (tm_time t) p (tm_next t).
Definition set_next (p : ptr) (t : Timer) : Timer :=
  mk_timer (timer_proc t) (client_data t) (tm_usecs t) (periodic t)
    (tm_time t) (tm_prev t) p.
Definition set_time (x : iperf_time) (t : Timer) : Timer :=
  mk_timer (timer_proc t) (client_data t) (tm_usecs t) (periodic t)
    x (tm_prev t) (tm_next t).

(** ** Memory accesses *)

Definition load (t : loc) (s : tmr_state) : option Timer := heap s !! t.

Definition upd (t : loc) (f : Timer -> Timer) (s : tmr_state) : option tmr_state :=
  match heap s !! t with
  | Some _ => Some (mk_tmr (alter f t (heap s)) (timers s) (free_timers s))
  | None => None
  end.

Definition with_timers (p : ptr) (s : tmr_state) : tmr_state :=
  mk_tmr (heap s) p (free_timers s).
Definition with_free (p : ptr) (s : tmr_state) : tmr_state :=
  mk_tmr (heap s) (timers s) p.

(** ** The active list *)

(** The [for] loop of [list_add]: [t2prev] is the node before [t2]. *)
Fixpoint list_add_walk (fuel : nat) (t t2prev : loc) (t2 : ptr) (s : tmr_state)
    : option tmr_state :=
  match fuel with
  | O => None
  | S fuel =>
      match t2 with
      | None =>
          s ← upd t2prev (set_next (Some t)) s;
          s ← upd t (set_prev (Some t2prev)) s;
          upd t (set_next None) s
      | Some t2 =>
          nt ← load t s;
          n2 ← load t2 s;
          if iperf_time_compare (tm_time nt) (tm_time n2) <? 0 then
            s ← upd t2prev (set_next (Some t)) s;
            s ← upd t (set_prev (Some t2prev)) s;
            s ← upd t (set_next (Some t2)) s;
            upd t2 (set_prev (Some t)) s
          else list_add_walk fuel t t2 (tm_next n2) s
      end
  end.

Definition list_add (t : loc) (s : tmr_state) : option tmr_state :=
  match timers s with
  | None =>
      let s := with_timers (Some t) s in
      s ← upd t (set_next None) s;
      upd t (set_prev None) s
  | Some hd =>
      nt ← load t s;
      nh ← load hd s;
      if iperf_time_compare (tm_time nt) (tm_time nh) <? 0 then
        s ← upd t (set_prev None) s;
        s ← upd t (set_next (Some hd)) s;
        s ← upd hd (set_prev (Some t)) s;
        Some (with_timers (Some t) s)
      else list_add_walk (S (size (heap s))) t hd (tm_next nh) s
  end.

Definition list_remove (t : loc) (s : tmr_state) : option tmr_state :=
  n ← load t s;
  s ← match tm_prev n with
      | None => Some (with_timers (tm_next n) s)
      | Some p => upd p (set_next (tm_next n)) s
      end;
  n ← load t s;
  match tm_next n with
  | None => Some s
  | Some q => upd q (set_prev (tm_prev n)) s
  end.

Definition list_resort (t : loc) (s : tmr_state) : option tmr_state :=
  s ← list_remove t s;
  list_add t s.

(** ** The interface *)

(** [malloc_result] is what [malloc] answers when it is asked. *)
Definition tmr_create (malloc_result : ptr) (now : iperf_time) (proc : P)
    (data : D) (us : Z) (per : Z) (s : tmr_state) : option (ptr * tmr_state) :=
  let fill (t : loc) (s : tmr_state) : option (ptr * tmr_state) :=
    s ← upd t (fun n => mk_timer proc data us per
                 (iperf_time_add_usecs now us) (tm_prev n) (tm_next n)) s;
    s ← list_add t s;
    Some (Some t, s) in
  match free_timers s with
  | Some t => n ← load t s; fill t (with_free (tm_next n) s)
  | None =>
      match malloc_result with
      | None => Some (None, s)
      | Some t =>
          (* uninitialised storage: every field is overwritten before use *)
          let junk := mk_timer proc data us per now None None in
          fill t (mk_tmr (<[t := junk]> (heap s)) (timers s) (free_timers s))
      end
  end.

(** The timeout as (tv_sec, tv_usec); [Some None] is the null pointer. *)
Definition tmr_timeout (now : iperf_time) (s : tmr_state)
    : option (option (Z * Z)) :=
  match timers s with
  | None => Some None
  | Some t =>
      n ← load t s;
      let '(past, diff) := iperf_time_diff (tm_time n) now in
      let us := if past =? 0 then i64 (iperf_time_in_usecs diff) else 0 in
      Some (Some (Z.quot us 1000000, Z.rem us 1000000))
  end.

Definition tmr_cancel (t : loc) (s : tmr_state) : option tmr_state :=
  s ← list_remove t s;
  s ← upd t (set_next (free_timers s)) s;
  upd t (set_prev None) (with_free (Some t) s).

Definition tmr_reset (now : iperf_time) (t : loc) (s : tmr_state)
    : option tmr_state :=
  n ← load t s;
  s ← upd t (set_time (iperf_time_add_usecs now (tm_usecs n))) s;
  list_resort t s.

Section Run.
(** A callback runs on the timer state and the rest of the program. *)
Context {W : Type}.
Context (call : P -> D -> iperf_time -> tmr_state * W -> option (tmr_state * W)).

Fixpoint tmr_run_loop (fuel : nat) (now : iperf_time) (t : ptr)
    (sw : tmr_state * W) : option (tmr_state * W) :=
  match fuel with
  | O => None
  | S fuel =>
      match t with
      | None => Some sw
      | Some t =>
          n ← load t sw.1;
          let next := tm_next n in
          if iperf_time_compare (tm_time n) now >? 0 then Some sw
          else
            sw ← call (timer_proc n) (client_data n) now sw;
            n ← load t sw.1;
            if negb (periodic n =? 0) then
              s ← upd t (set_time (iperf_time_add_usecs (tm_time n) (tm_usecs n)))
                    sw.1;
              s ← list_resort t s;
              tmr_run_loop fuel now next (s, sw.2)
            else
              s ← tmr_cancel t sw.1;
              tmr_run_loop fuel now next (s, sw.2)
      end
  end.

Definition tmr_run (fuel : nat) (now : iperf_time) (sw : tmr_state * W)
    : option (tmr_state * W) :=
  tmr_run_loop fuel now (timers sw.1) sw.
End Run.

Fixpoint tmr_cleanup_loop (fuel : nat) (s : tmr_state) : option tmr_state :=
  match fuel with
  | O => None
  | S fuel =>
      match free_timers s with
      | None => Some s
      | Some t =>
          n ← load t s;
          let s := with_free (tm_next n) s in
          tmr_cleanup_loop fuel
            (mk_tmr (delete t (heap s)) (timers s) (free_timers s))
      end
  end.

Definition tmr_cleanup (s : tmr_state) : option tmr_state :=
  tmr_cleanup_loop (S (size (heap s))) s.

Fixpoint cancel_all (fuel : nat) (s : tmr_state) : option tmr_state :=
  match fuel with
  | O => None
  | S fuel =>
      match timers s with
      | None => Some s
      | Some t => s ← tmr_cancel t s; cancel_all fuel s
      end
  end.

Definition tmr_destroy (s : tmr_state) : option tmr_state :=
  s ← cancel_all (S (size (heap s))) s;
  tmr_cleanup s.
End Timer.

Arguments Timer : clear implicits.
Arguments tmr_state : clear implicits.
