(* ===== verification/TimerLists.v ===== *)
(** * Linked lists in the timer heap

    The shape predicates of the two timer lists and what the elementary
    operations of timer.c do to them.  [dseg h pp p l qn] says that the nodes
    [l] form a doubly linked segment that starts at [p], is preceded by [pp]
    and followed by [qn]; [fseg] is the singly linked free list.  A payload is
    a node without its two links; the abstract list of a segment pairs each
    node with its payload. *)

From Stdlib Require Import Sorting.Sorted.
From S2P Require Import Prelude Double IperfTime Timer.

Section Lists.
Context {P D : Type}.
Implicit Types (h : gmap loc (Timer P D)) (s : tmr_state P D)
  (l : list loc) (n : Timer P D).

Fixpoint dseg h (pp p : ptr) l (qn : ptr) : Prop :=
  match l with
  | [] => p = qn
  | a :: l' =>
      p = Some a /\
      exists n, h !! a = Some n /\ tm_prev n = pp /\
        dseg h (Some a) (tm_next n) l' qn
  end.

Fixpoint fseg h (p : ptr) l : Prop :=
  match l with
  | [] => p = None
  | a :: l' => p = Some a /\ exists n, h !! a = Some n /\ fseg h (tm_next n) l'
  end.

(** The last node of [l], or [pp] when [l] is empty. *)
Definition last_or (pp : ptr) l : ptr :=
  match last l with Some a => Some a | None => pp end.

(** The first node of [l], or [qn]. *)
Definition head_or l (qn : ptr) : ptr :=
  match l with [] => qn | a :: _ => Some a end.

Lemma last_or_cons pp a l : last_or pp (a :: l) = last_or (Some a) l.
Proof. unfold last_or. rewrite last_cons. by destruct (last l). Qed.

Lemma last_or_snoc pp l a : last_or pp (l ++ [a]) = Some a.
Proof. unfold last_or. by rewrite last_snoc. Qed.

Lemma dseg_head h pp p l qn : dseg h pp p l qn -> p = head_or l qn.
Proof. destruct l; cbn; [done|]. by intros [-> _]. Qed.

Lemma dseg_app h pp p l1 l2 qn :
  dseg h pp p (l1 ++ l2) qn <->
  exists m, dseg h pp p l1 m /\ dseg h (last_or pp l1) m l2 qn.
Proof.
  revert pp p. induction l1 as [|a l1 IH]; intros pp p; cbn [app dseg].
  - split; [by exists p|]. intros (m & -> & H). exact H.
  - rewrite last_or_cons. split.
    + intros (-> & n & Hn & Hp & H). apply IH in H as (m & H1 & H2).
      exists m. split; [|done]. eauto.
    + intros (m & (-> & n & Hn & Hp & H1) & H2). split; [done|].
      exists n. repeat split; [done..|]. apply IH. eauto.
Qed.

Lemma dseg_frame h h' pp p l qn :
  (forall a, a ∈ l -> h' !! a = h !! a) ->
  dseg h pp p l qn -> dseg h' pp p l qn.
Proof.
  revert pp p. induction l as [|a l IH]; intros pp p Hf; cbn; [done|].
  intros (-> & n & Hn & Hp & H). split; [done|]. exists n.
  rewrite Hf by set_solver. repeat split; [done..|].
  apply IH; [|done]. intros b Hb. apply Hf. set_solver.
Qed.

Lemma fseg_frame h h' p l :
  (forall a, a ∈ l -> h' !! a = h !! a) -> fseg h p l -> fseg h' p l.
Proof.
  revert p. induction l as [|a l IH]; intros p Hf; cbn; [done|].
  intros (-> & n & Hn & H). split; [done|]. exists n.
  rewrite Hf by set_solver. split; [done|].
  apply IH; [|done]. intros b Hb. apply Hf. set_solver.
Qed.

Lemma dseg_lookup h pp p l qn a :
  dseg h pp p l qn -> a ∈ l -> is_Some (h !! a).
Proof.
  revert pp p. induction l as [|b l IH]; intros pp p; cbn; [set_solver|].
  intros (-> & n & Hn & _ & H) Ha. apply elem_of_cons in Ha as [->|Ha]; eauto.
Qed.

Lemma fseg_lookup h p l a : fseg h p l -> a ∈ l -> is_Some (h !! a).
Proof.
  revert p. induction l as [|b l IH]; intros p; cbn; [set_solver|].
  intros (-> & n & Hn & H) Ha. apply elem_of_cons in Ha as [->|Ha]; eauto.
Qed.

(** Redirecting the link that leaves a segment on its right. *)
Lemma dseg_relink_right h pp p l a qn qn' :
  a ∉ l ->
  dseg h pp p (l ++ [a]) qn ->
  dseg (alter (set_next qn') a h) pp p (l ++ [a]) qn'.
Proof.
  intros Ha H. apply dseg_app in H as (m & H1 & H2). apply dseg_app.
  exists m. split.
  - eapply dseg_frame; [|done]. intros b Hb.
    rewrite lookup_alter_ne; [done|]. intros ->. done.
  - cbn in *. destruct H2 as (-> & n & Hn & Hp & Hq). split; [done|].
    exists (set_next qn' n). rewrite lookup_alter_eq, Hn. done.
Qed.

(** Redirecting the link that leaves a segment on its left. *)
Lemma dseg_relink_left h pp pp' p a l qn :
  a ∉ l ->
  dseg h pp p (a :: l) qn ->
  dseg (alter (set_prev pp') a h) pp' p (a :: l) qn.
Proof.
  intros Ha (-> & n & Hn & Hp & H). split; [done|].
  exists (set_prev pp' n). rewrite lookup_alter_eq, Hn. repeat split.
  eapply dseg_frame; [|done]. intros b Hb.
  rewrite lookup_alter_ne; [done|]. intros ->. done.
Qed.

(** Both at once, for the two neighbours of an insertion or deletion. *)
Definition relink_right (qn' : ptr) l h :=
  match last l with Some a => alter (set_next qn') a h | None => h end.
Definition relink_left (pp' : ptr) l h :=
  match l with a :: _ => alter (set_prev pp') a h | [] => h end.

Lemma relink_right_spec h pp p l qn qn' :
  NoDup l -> dseg h pp p l qn ->
  dseg (relink_right qn' l h) pp (head_or l qn') l qn'.
Proof.
  intros Hnd H. unfold relink_right.
  destruct l as [|a l _] using rev_ind; [done|].
  rewrite last_snoc.
  assert (head_or (l ++ [a]) qn' = p) as ->.
  { apply dseg_head in H. rewrite H. by destruct l. }
  apply dseg_relink_right with qn; [|done].
  apply NoDup_app in Hnd as (_ & Hd & _). set_solver.
Qed.

Lemma relink_left_spec h pp pp' p l qn :
  NoDup l -> dseg h pp p l qn -> dseg (relink_left pp' l h) pp' p l qn.
Proof.
  intros Hnd H. destruct l as [|a l]; [done|].
  apply dseg_relink_left with pp; [|done]. by apply NoDup_cons in Hnd as [? _].
Qed.

Lemma relink_right_ne qn' l h a : a ∉ l -> relink_right qn' l h !! a = h !! a.
Proof.
  intros Ha. unfold relink_right. destruct (last l) as [b|] eqn:E; [|done].
  apply lookup_alter_ne. intros ->. by apply Ha, last_Some_elem_of.
Qed.

Lemma relink_left_ne pp' l h a : a ∉ l -> relink_left pp' l h !! a = h !! a.
Proof.
  intros Ha. destruct l as [|b l]; [done|]. apply lookup_alter_ne. set_solver.
Qed.

(** ** Payloads *)

(** What list surgery does not touch. *)
Record entry := mk_entry {
  e_proc : P; e_data : D; e_usecs : Z; e_periodic : Z; e_time : iperf_time }.

Definition payload n : entry :=
  mk_entry (timer_proc n) (client_data n) (tm_usecs n) (periodic n) (tm_time n).

Definition pay h (a : loc) : option entry := payload <$> h !! a.

Lemma pay_alter h f a b :
  (forall n, payload (f n) = payload n) -> pay (alter f a h) b = pay h b.
Proof.
  intros Hf. unfold pay. rewrite lookup_alter. case_decide as E; [|done].
  subst. destruct (h !! b); cbn; [|done]. by rewrite Hf.
Qed.

Lemma pay_set_prev h a b p : pay (alter (set_prev p) a h) b = pay h b.
Proof. by apply pay_alter. Qed.

Lemma pay_set_next h a b p : pay (alter (set_next p) a h) b = pay h b.
Proof. by apply pay_alter. Qed.

Lemma pay_relink_right qn' l h b : pay (relink_right qn' l h) b = pay h b.
Proof. unfold relink_right. destruct (last l); [by apply pay_set_next|done]. Qed.

Lemma pay_relink_left pp' l h b : pay (relink_left pp' l h) b = pay h b.
Proof. destruct l; [done|by apply pay_set_prev]. Qed.

(** ** Insertion and deletion *)

(** The heap after [t] is linked in between [l1] and [l2]. *)
Definition link_in (t : loc) l1 l2 h :=
  relink_left (Some t) l2
    (alter (set_next (head_or l2 None)) t
      (alter (set_prev (last_or None l1)) t
        (relink_right (Some t) l1 h))).

(** The heap after the node between [l1] and [l2] is unlinked. *)
Definition link_out l1 l2 h :=
  relink_left (last_or None l1) l2 (relink_right (head_or l2 None) l1 h).

Lemma pay_link_in t l1 l2 h b : pay (link_in t l1 l2 h) b = pay h b.
Proof.
  unfold link_in.
  by rewrite pay_relink_left, pay_set_next, pay_set_prev, pay_relink_right.
Qed.

Lemma pay_link_out l1 l2 h b : pay (link_out l1 l2 h) b = pay h b.
Proof. unfold link_out. by rewrite pay_relink_left, pay_relink_right. Qed.

Lemma link_in_ne t l1 l2 h a :
  a ∉ l1 ++ l2 -> a <> t -> link_in t l1 l2 h !! a = h !! a.
Proof.
  intros Ha Ht. unfold link_in.
  rewrite relink_left_ne by set_solver.
  rewrite !lookup_alter_ne by done. rewrite relink_right_ne by set_solver. done.
Qed.

Lemma link_out_ne l1 l2 h a : a ∉ l1 ++ l2 -> link_out l1 l2 h !! a = h !! a.
Proof.
  intros Ha. unfold link_out.
  rewrite relink_left_ne by set_solver. rewrite relink_right_ne by set_solver. done.
Qed.

Lemma link_in_spec h l1 l2 t p :
  NoDup (l1 ++ l2) -> t ∉ l1 ++ l2 -> is_Some (h !! t) ->
  dseg h None p (l1 ++ l2) None ->
  dseg (link_in t l1 l2 h) None (head_or l1 (Some t)) (l1 ++ t :: l2) None.
Proof.
  intros Hnd Ht [n Hn] H. apply dseg_app in H as (m & H1 & H2).
  apply NoDup_app in Hnd as (Hn1 & Hdis & Hn2).
  apply dseg_app. exists (Some t). split.
  - eapply dseg_frame; [|by apply relink_right_spec with (qn' := Some t) in H1].
    intros a Ha. unfold link_in. rewrite relink_left_ne by set_solver.
    rewrite !lookup_alter_ne by set_solver. done.
  - cbn. split; [done|].
    exists (set_next (head_or l2 None) (set_prev (last_or None l1) n)).
    unfold link_in. rewrite relink_left_ne by set_solver.
    rewrite !lookup_alter_eq, relink_right_ne, Hn by set_solver.
    repeat split. cbn. rewrite (dseg_head _ _ _ _ _ H2) in H2.
    apply relink_left_spec with (last_or None l1); [done|].
    eapply dseg_frame; [|done]. intros a Ha.
    rewrite !lookup_alter_ne by set_solver. apply relink_right_ne. set_solver.
Qed.

Lemma link_out_spec h l1 l2 t p :
  NoDup (l1 ++ t :: l2) -> dseg h None p (l1 ++ t :: l2) None ->
  dseg (link_out l1 l2 h) None (head_or l1 (head_or l2 None)) (l1 ++ l2) None.
Proof.
  intros Hnd H. apply dseg_app in H as (m & H1 & H2).
  cbn in H2. destruct H2 as (-> & n & Hn & _ & H2).
  apply NoDup_app in Hnd as (Hn1 & Hdis & [Ht Hn2]%NoDup_cons).
  apply dseg_app. exists (head_or l2 None). split.
  - eapply dseg_frame;
      [|by apply relink_right_spec with (qn' := head_or l2 None) in H1].
    intros a Ha. unfold link_out. apply relink_left_ne. set_solver.
  - rewrite (dseg_head _ _ _ _ _ H2) in H2.
    apply relink_left_spec with (Some t); [done|].
    eapply dseg_frame; [|done]. intros a Ha. apply relink_right_ne. set_solver.
Qed.

(** The links a node of a segment holds. *)
Lemma dseg_node h p l1 t l2 :
  dseg h None p (l1 ++ t :: l2) None ->
  exists n, h !! t = Some n /\ tm_prev n = last_or None l1 /\
    tm_next n = head_or l2 None.
Proof.
  intros H. apply dseg_app in H as (m & _ & H). cbn in H.
  destruct H as (-> & n & Hn & Hp & H2).
  exists n. repeat split; [done..|]. by apply dseg_head in H2.
Qed.
End Lists.

Arguments entry : clear implicits.

(** * The operations on the list

    The timer package refines an abstract queue: a list of (timer, payload)
    pairs sorted by expiry, plus the list of recycled structs.  [tmr_inv] is
    the representation invariant; each operation of [Timer.v] is shown to be
    free of undefined behaviour, to preserve the invariant, and to compute
    what the abstract operation computes. *)

(** ** The abstract queue *)

Section Abstract.
Context {P D : Type}.
Implicit Types (x y : loc * entry P D) (L : list (loc * entry P D)).

(** When the timer expires, in microseconds. *)
Definition at_us x : Z := to_us (e_time x.2).

(** A new timer goes after all timers that do not expire later. *)
Fixpoint insert_sorted x L : list (loc * entry P D) :=
  match L with
  | [] => [x]
  | y :: L' => if at_us x <? at_us y then x :: L else y :: insert_sorted x L'
  end.

Definition sorted L : Prop := StronglySorted (fun x y => at_us x <= at_us y) L.

Definition norm_entry x : Prop := time_norm (e_time x.2).

(** The entry after its deadline moved to [time]. *)
Definition set_etime (time : iperf_time) (e : entry P D) : entry P D :=
  mk_entry (e_proc e) (e_data e) (e_usecs e) (e_periodic e) time.

Lemma insert_sorted_split x L :
  exists A B, L = A ++ B /\ insert_sorted x L = A ++ x :: B /\
    Forall (fun y => at_us y <= at_us x) A /\
    match B with [] => True | y :: _ => at_us x < at_us y end.
Proof.
  induction L as [|y L (A & B & HL & HI & HA & HB)]; cbn.
  - exists [], []. done.
  - destruct (Z.ltb_spec (at_us x) (at_us y)) as [Hlt|Hge].
    + exists [], (y :: L). done.
    + exists (y :: A), B. subst L. rewrite HI. repeat split; auto.
Qed.

Lemma insert_sorted_perm x L : insert_sorted x L ≡ₚ x :: L.
Proof.
  destruct (insert_sorted_split x L) as (A & B & -> & -> & _ & _).
  by rewrite Permutation_middle.
Qed.

Lemma sorted_app_inv A B :
  sorted (A ++ B) <->
  sorted A /\ sorted B /\ (forall x y, x ∈ A -> y ∈ B -> at_us x <= at_us y).
Proof.
  unfold sorted. induction A as [|a A IH]; cbn.
  - split; [|tauto]. intros H. repeat split; [constructor|done|set_solver].
  - split.
    + intros H. apply StronglySorted_inv in H as [H Hall].
      apply IH in H as (HA & HB & HAB). apply Forall_app in Hall as [H1 H2].
      repeat split; [by constructor|done|].
      intros x y Hx Hy. rewrite Forall_forall in H2.
      apply elem_of_cons in Hx as [->|Hx]; [by apply H2|by apply HAB].
    + intros (HA & HB & HAB). apply StronglySorted_inv in HA as [HA Hall].
      constructor.
      * apply IH. repeat split; [done..|]. intros x y Hx Hy.
        apply HAB; [by right|done].
      * apply Forall_app. split; [done|]. apply Forall_forall. intros y Hy.
        apply HAB; [by left|done].
Qed.

Lemma insert_sorted_sorted x L : sorted L -> sorted (insert_sorted x L).
Proof.
  intros H. destruct (insert_sorted_split x L) as (A & B & -> & -> & HA & HB).
  apply sorted_app_inv in H as (H1 & H2 & H12). apply sorted_app_inv.
  rewrite Forall_forall in HA.
  assert (forall y, y ∈ B -> at_us x < at_us y) as HxB.
  { destruct B as [|b B]; [set_solver|]. intros y Hy.
    apply StronglySorted_inv in H2 as [_ Hb]. rewrite Forall_forall in Hb.
    apply elem_of_cons in Hy as [->|Hy]; [done|]. specialize (Hb _ Hy). lia. }
  repeat split; [done| |].
  - constructor; [done|]. apply Forall_forall. intros y Hy.
    specialize (HxB y Hy). lia.
  - intros a b Ha Hb. apply elem_of_cons in Hb as [->|Hb]; auto.
Qed.

Lemma insert_sorted_forall (Q : loc * entry P D -> Prop) x L :
  Q x -> Forall Q L -> Forall Q (insert_sorted x L).
Proof. intros Hx HL. rewrite insert_sorted_perm. by constructor. Qed.

(** Where a re-inserted timer lands relative to a cursor between [B] and
    [A]: the cursor keeps pointing at the head of [A]. *)
Lemma insert_sorted_cursor x B A :
  sorted (B ++ A) ->
  exists B' A', insert_sorted x (B ++ A) = B' ++ A' /\
    match A' with [] => None | y :: _ => Some y.1 end
    = match A with [] => None | y :: _ => Some y.1 end /\
    ((B' ≡ₚ x :: B /\ A' = A) \/ (B' = B /\ A' ≡ₚ x :: A)).
Proof.
  intros Hs. destruct A as [|y A].
  { exists (insert_sorted x B), []. rewrite !app_nil_r. repeat split.
    left. split; [apply insert_sorted_perm|done]. }
  destruct (Z.ltb_spec (at_us x) (at_us y)) as [Hlt|Hge].
  - exists (insert_sorted x B), (y :: A). split; [|split; [done|]].
    + induction B as [|b B IH]; cbn.
      * by destruct (Z.ltb_spec (at_us x) (at_us y)); [|lia].
      * destruct (at_us x <? at_us b); [done|]. cbn. f_equal. apply IH.
        by apply StronglySorted_inv in Hs as [? _].
    + left. split; [apply insert_sorted_perm|done].
  - exists B, (y :: insert_sorted x A). split; [|split; [done|]].
    + induction B as [|b B IH]; cbn.
      * by destruct (Z.ltb_spec (at_us x) (at_us y)); [lia|].
      * apply StronglySorted_inv in Hs as [Hs Hb].
        assert (at_us b <= at_us y) as Hby.
        { rewrite Forall_forall in Hb. apply Hb.
          rewrite elem_of_app, elem_of_cons. auto. }
        destruct (Z.ltb_spec (at_us x) (at_us b)); [lia|]. f_equal. by apply IH.
    + right. split; [done|]. rewrite insert_sorted_perm. constructor.
Qed.

Lemma sorted_remove A x B : sorted (A ++ x :: B) -> sorted (A ++ B).
Proof.
  rewrite !sorted_app_inv. intros (HA & HB & HAB).
  apply StronglySorted_inv in HB as [HB _]. repeat split; [done..|]. set_solver.
Qed.
End Abstract.

(** ** The representation *)

Section Refinement.
Context {P D : Type}.
Implicit Types (L : list (loc * entry P D)) (F X : list loc)
  (s : tmr_state P D) (e : entry P D).

(** The heap [s] holds the active timers [L], the recycled structs [F] and
    the structs [X] that an operation has taken off both lists. *)
Record tmr_rep s X L F : Prop := {
  rep_nodup : NoDup (X ++ L.*1 ++ F);
  rep_active : dseg (heap s) None (timers s) L.*1 None;
  rep_free : fseg (heap s) (free_timers s) F;
  rep_pay : forall a e, (a, e) ∈ L -> pay (heap s) a = Some e;
  rep_dom : forall a, is_Some (heap s !! a) <-> a ∈ X ++ L.*1 ++ F }.

Record tmr_inv s X L F : Prop := {
  inv_rep : tmr_rep s X L F;
  inv_sorted : sorted L;
  inv_norm : Forall norm_entry L }.

Lemma upd_live s a f :
  is_Some (heap s !! a) ->
  upd a f s = Some (mk_tmr (alter f a (heap s)) (timers s) (free_timers s)).
Proof. intros [n Hn]. unfold upd. by rewrite Hn. Qed.

Lemma pay_load s a e :
  pay (heap s) a = Some e -> exists n, load a s = Some n /\ payload n = e.
Proof. unfold pay, load. intros (n & -> & Hn)%fmap_Some. eauto. Qed.

Lemma pay_time n e : payload n = e -> tm_time n = e_time e.
Proof. by intros <-. Qed.

Ltac live := cbn [heap]; rewrite ?lookup_alter_is_Some; eauto.
Ltac upds := repeat (rewrite upd_live by live; cbn [mbind option_bind heap timers free_timers]).

Lemma alter_prev_next (h : gmap loc (Timer P D)) t p q :
  alter (set_prev p) t (alter (set_next q) t h)
  = alter (set_next q) t (alter (set_prev p) t h).
Proof.
  apply map_eq. intros a. destruct (decide (t = a)) as [->|Hne].
  - rewrite !lookup_alter_eq. by destruct (h !! a).
  - by rewrite !lookup_alter_ne.
Qed.

(** The heap and head pointer after [t] was inserted between [A] and [B]. *)
Definition linked (t : loc) (A B : list loc) s : tmr_state P D :=
  mk_tmr (link_in t A B (heap s)) (head_or A (Some t)) (free_timers s).

(** The insertion loop, entered after the nodes [A] and [p]. *)
Lemma walk_spec s t nt A p B fuel :
  load t s = Some nt -> (length B < fuel)%nat -> is_Some (heap s !! p) ->
  NoDup (A ++ p :: B.*1) ->
  dseg (heap s) (Some p) (head_or B.*1 None) B.*1 None ->
  (forall b eb, (b, eb) ∈ B -> pay (heap s) b = Some eb) ->
  Forall norm_entry B -> time_norm (tm_time nt) ->
  timers s = head_or (A ++ [p]) None ->
  exists B1 B2, B = B1 ++ B2 /\
    insert_sorted (t, payload nt) B = B1 ++ (t, payload nt) :: B2 /\
    list_add_walk fuel t p (head_or B.*1 None) s
    = Some (linked t (A ++ p :: B1.*1) B2.*1 s).
Proof.
  intros Ht. revert A p fuel. induction B as [|[b eb] B IH];
    intros A p fuel Hf Hp Hnd HB Hpay Hnorm Hte Htm;
    (destruct fuel as [|fuel]; [lia|]); cbn [list_add_walk].
  - exists [], []. split; [done|]. split; [done|]. cbn [fmap list_fmap head_or].
    assert (is_Some (heap s !! t)) as Hlt by (unfold load in Ht; eauto).
    upds. unfold linked, link_in, relink_right. cbn [relink_left].
    rewrite last_snoc, last_or_snoc.
    f_equal. f_equal. rewrite Htm. by destruct A.
  - cbn [fmap list_fmap head_or fst]. cbn in HB.
    destruct HB as (_ & n & Hn & Hpn & HB).
    assert (payload n = eb) as Hpl.
    { specialize (Hpay b eb ltac:(set_solver)). unfold pay in Hpay.
      rewrite Hn in Hpay. by injection Hpay. }
    rewrite Ht. unfold load at 1. rewrite Hn. cbn [mbind option_bind].
    apply Forall_cons in Hnorm as [Hnb Hnorm].
    rewrite compare_lt0 by (subst eb; done).
    assert ((to_us (tm_time nt) <? to_us (tm_time n))
            = (at_us (t, payload nt) <? at_us (b, eb))) as -> by (by subst eb).
    cbn [insert_sorted].
    destruct (at_us (t, payload nt) <? at_us (b, eb)) eqn:E.
    + exists [], ((b, eb) :: B). split; [done|]. split; [done|].
      assert (is_Some (heap s !! t)) as Hlt by (unfold load in Ht; eauto).
      upds. unfold linked, link_in, relink_right. cbn [relink_left fmap list_fmap].
      rewrite last_snoc, last_or_snoc.
      f_equal. f_equal. rewrite Htm. by destruct A.
    + destruct (IH (A ++ [p]) b fuel) as (B1 & B2 & HBeq & HI & HW).
      * cbn in Hf. lia.
      * eauto.
      * by rewrite <- app_assoc.
      * by rewrite (dseg_head _ _ _ _ _ HB) in HB.
      * intros c ec Hc. apply Hpay. set_solver.
      * done.
      * done.
      * rewrite Htm. by destruct A.
      * exists ((b, eb) :: B1), B2. rewrite HBeq. split; [done|].
        rewrite <- HBeq, HI. split; [done|].
        rewrite (dseg_head _ _ _ _ _ HB), HW. by rewrite <- app_assoc.
Qed.

(** [list_add] links the node in where [insert_sorted] puts it. *)
Lemma list_add_linked s t nt L F :
  tmr_inv s [t] L F -> load t s = Some nt -> time_norm (tm_time nt) ->
  exists A B, L = A ++ B /\
    insert_sorted (t, payload nt) L = A ++ (t, payload nt) :: B /\
    list_add t s = Some (linked t A.*1 B.*1 s).
Proof.
  intros [[Hnd Hact Hfree Hpay Hdom] Hs Hnorm] Ht Hte.
  assert (is_Some (heap s !! t)) as Hlt by (unfold load in Ht; eauto).
  unfold list_add. destruct L as [|[hd eh] L]; cbn in Hact.
  - exists [], []. rewrite Hact. split; [done|]. split; [done|].
    unfold with_timers. upds. unfold linked, link_in, relink_right. cbn.
    by rewrite alter_prev_next.
  - destruct Hact as (Htm & n & Hn & Hpn & Hact). rewrite Htm, Ht.
    unfold load at 1. rewrite Hn. cbn [mbind option_bind].
    assert (payload n = eh) as Hpl.
    { specialize (Hpay hd eh ltac:(by left)). unfold pay in Hpay.
      rewrite Hn in Hpay. by injection Hpay. }
    apply Forall_cons in Hnorm as [Hnh Hnorm].
    rewrite compare_lt0 by (subst eh; done).
    assert ((to_us (tm_time nt) <? to_us (tm_time n))
            = (at_us (t, payload nt) <? at_us (hd, eh))) as -> by (by subst eh).
    cbn [insert_sorted].
    destruct (at_us (t, payload nt) <? at_us (hd, eh)).
    + exists [], ((hd, eh) :: L). split; [done|]. split; [done|]. upds. done.
    + destruct (walk_spec s t nt [] hd L (S (size (heap s))))
        as (B1 & B2 & HB & HI & HW).
      * done.
      * apply NoDup_app in Hnd as (_ & _ & Hnd). cbn in Hnd.
        apply NoDup_cons in Hnd as [_ [Hnd _]%NoDup_app].
        rewrite <- (length_fmap fst L). apply Nat.lt_succ_r.
        rewrite <- (size_list_to_set (C := gset loc)) by done.
        rewrite <- (size_dom (D := gset loc)). apply subseteq_size.
        intros a Ha%elem_of_list_to_set. apply elem_of_dom, Hdom.
        cbn. rewrite !elem_of_cons, elem_of_app. auto.
      * eauto.
      * apply NoDup_app in Hnd as (_ & _ & Hnd).
        by apply NoDup_app in Hnd as (Hnd & _).
      * by rewrite (dseg_head _ _ _ _ _ Hact) in Hact.
      * intros b eb Hb. apply Hpay. by right.
      * done.
      * done.
      * done.
      * exists ((hd, eh) :: B1), B2. rewrite HI, HB. split; [done|].
        split; [done|]. rewrite (dseg_head _ _ _ _ _ Hact). exact HW.
Qed.

Lemma list_add_spec s t e L F :
  tmr_inv s [t] L F -> pay (heap s) t = Some e -> time_norm (e_time e) ->
  exists s', list_add t s = Some s' /\
    tmr_inv s' [] (insert_sorted (t, e) L) F /\
    (forall a, pay (heap s') a = pay (heap s) a).
Proof.
  intros Hinv He Hte. destruct (pay_load _ _ _ He) as (nt & Ht & <-).
  destruct (list_add_linked s t nt L F Hinv Ht Hte) as (A & B & -> & HI & HL).
  destruct Hinv as [[Hnd Hact Hfree Hpay Hdom] Hs Hnorm].
  exists (linked t A.*1 B.*1 s). split; [done|].
  rewrite fmap_app in *.
  assert (t ∉ A.*1 ++ B.*1 ++ F) as Hnin.
  { apply NoDup_app in Hnd as (_ & Hd & _). rewrite app_assoc.
    apply Hd. set_solver. }
  apply NoDup_app in Hnd as (_ & _ & Hnd).
  split; [|intros a; apply pay_link_in].
  split; [split| |].
  - cbn [app]. rewrite HI, fmap_app. cbn [fmap list_fmap fst].
    assert ((A.*1 ++ t :: B.*1) ++ F ≡ₚ t :: (A.*1 ++ B.*1) ++ F) as ->.
    { rewrite <- !app_assoc. cbn. by rewrite <- Permutation_middle. }
    constructor; [|done]. by rewrite <- app_assoc.
  - rewrite HI, fmap_app. cbn [linked timers heap fmap list_fmap fst].
    eapply link_in_spec; [|set_solver| |done].
    + by apply NoDup_app in Hnd as (Hnd & _).
    + apply Hdom. set_solver.
  - eapply fseg_frame; [|exact Hfree]. intros a Ha. cbn [linked heap].
    apply link_in_ne; [|set_solver].
    apply NoDup_app in Hnd as (_ & Hd & _). intros Hx. by apply (Hd a).
  - intros a ea Ha. cbn [linked heap]. rewrite pay_link_in.
    rewrite HI in Ha. apply elem_of_app in Ha as [Ha|Ha]; [apply Hpay; set_solver|].
    apply elem_of_cons in Ha as [[= -> ->]|Ha]; [done|apply Hpay; set_solver].
  - intros a. rewrite <- (fmap_is_Some payload). fold (pay (heap (linked t A.*1 B.*1 s)) a).
    cbn [linked heap]. rewrite pay_link_in. unfold pay. rewrite fmap_is_Some, Hdom.
    rewrite HI, fmap_app. cbn. set_solver.
  - by apply insert_sorted_sorted.
  - by apply insert_sorted_forall.
Qed.

(** The code of [list_remove] computes [link_out]. *)
Lemma unlink_code s t n A B :
  heap s !! t = Some n ->
  tm_prev n = last_or None A -> tm_next n = head_or B None ->
  t ∉ A ++ B -> NoDup B -> (forall a, a ∈ A ++ B -> is_Some (heap s !! a)) ->
  timers s = head_or A (Some t) ->
  list_remove t s
  = Some (mk_tmr (link_out A B (heap s)) (head_or A (head_or B None))
            (free_timers s)).
Proof.
  intros Hn Hp Hnx Ht HndB Hlive Htm. unfold list_remove, load.
  rewrite Hn. cbn [mbind option_bind]. rewrite Hp.
  unfold link_out, relink_right.
  destruct A as [|a A _] using rev_ind.
  - cbn. rewrite Hn. cbn. rewrite Hnx, Hp. destruct B as [|b B]; cbn.
    + done.
    + rewrite upd_live by (apply Hlive; set_solver). done.
  - rewrite last_or_snoc, last_snoc.
    rewrite upd_live by (apply Hlive; set_solver).
    cbn [mbind option_bind heap timers free_timers].
    rewrite lookup_alter_ne, Hn by set_solver. cbn [mbind option_bind].
    rewrite Hnx, Hp, last_or_snoc.
    assert (forall q, head_or (A ++ [a]) q = timers s) as Hhd.
    { intros q. rewrite Htm. by destruct A. }
    rewrite Hhd. destruct B as [|b B]; cbn [head_or relink_left]; [done|].
    rewrite upd_live.
    + done.
    + cbn [heap]. rewrite lookup_alter_is_Some. apply Hlive. set_solver.
Qed.

(** Membership in the heap only depends on the payloads. *)
Lemma pay_is_Some (h h' : gmap loc (Timer P D)) a :
  pay h' a = pay h a -> is_Some (h' !! a) <-> is_Some (h !! a).
Proof. unfold pay. intros E. by rewrite <- (fmap_is_Some payload), E, fmap_is_Some. Qed.

Lemma rep_live s X L F a : tmr_rep s X L F -> a ∈ L.*1 -> is_Some (heap s !! a).
Proof.
  intros H Ha. apply (rep_dom _ _ _ _ H). rewrite !elem_of_app. auto.
Qed.

(** [list_remove] unlinks the node and leaves it in the heap. *)
Lemma list_remove_rep s A t e B F :
  tmr_rep s [] (A ++ (t, e) :: B) F ->
  exists s', list_remove t s = Some s' /\ tmr_rep s' [t] (A ++ B) F /\
    (forall a, pay (heap s') a = pay (heap s) a).
Proof.
  intros Hrep. pose proof Hrep as [Hnd Hact Hfree Hpay Hdom].
  cbn [app] in Hnd. rewrite fmap_app in Hnd, Hact.
  cbn [fmap list_fmap fst] in Hnd, Hact.
  pose proof Hnd as (Hnd1 & Hdis & _)%NoDup_app.
  destruct (dseg_node _ _ _ _ _ Hact) as (n & Hn & Hp & Hnx).
  assert (t ∉ A.*1 ++ B.*1) as Ht.
  { rewrite <- Permutation_middle in Hnd1. by apply NoDup_cons in Hnd1 as [? _]. }
  exists (mk_tmr (link_out A.*1 B.*1 (heap s))
            (head_or A.*1 (head_or B.*1 None)) (free_timers s)).
  split; [|split; [split|intros a; apply pay_link_out]].
  - apply unlink_code with n; [done..| | |].
    + by apply NoDup_app in Hnd1 as (_ & _ & [_ ?]%NoDup_cons).
    + intros a Ha. apply (rep_live s [] (A ++ (t, e) :: B) F); [done|].
      rewrite fmap_app. cbn. set_solver +Ha.
    + rewrite (dseg_head _ _ _ _ _ Hact). by destruct A.
  - cbn [app]. rewrite fmap_app. constructor.
    + rewrite elem_of_app. intros [?|Hf]; [done|].
      apply (Hdis t); [|done]. rewrite elem_of_app, elem_of_cons. auto.
    + rewrite <- app_assoc in *. cbn in Hnd.
      rewrite <- (Permutation_middle A.*1 (B.*1 ++ F) t) in Hnd.
      by apply NoDup_cons in Hnd as [_ Hnd].
  - rewrite fmap_app. cbn [heap timers]. eapply link_out_spec; done.
  - eapply fseg_frame; [|exact Hfree]. intros a Ha. cbn [heap].
    apply link_out_ne. intros Hx. apply (Hdis a); [|done].
    rewrite elem_of_app in *. rewrite elem_of_cons. tauto.
  - intros a ea Ha. cbn [heap]. rewrite pay_link_out. apply Hpay.
    rewrite elem_of_app in *. rewrite elem_of_cons. tauto.
  - intros a. cbn [heap]. rewrite (pay_is_Some (heap s)) by apply pay_link_out.
    rewrite Hdom, !fmap_app. cbn. set_solver +.
Qed.

(** The payload a well-formed list pairs a node with is unique. *)
Lemma nodup_entry A t e ea B F :
  NoDup ([] ++ (A ++ (t, e) :: B).*1 ++ F) ->
  (t, ea) ∈ A ++ (t, e) :: B -> e = ea.
Proof.
  intros Hnd. cbn [app] in Hnd. apply NoDup_app in Hnd as (Hnd & _).
  rewrite fmap_app in Hnd. cbn in Hnd.
  rewrite <- Permutation_middle in Hnd. apply NoDup_cons in Hnd as [Hnin _].
  rewrite elem_of_app, elem_of_cons. intros [H|[[= ->]|H]]; [|done|];
    exfalso; apply Hnin; rewrite elem_of_app; [left|right];
    by apply (list_elem_of_fmap_2 fst) in H.
Qed.

(** Writing a field that is not a link. *)
Lemma dseg_alter_links (h : gmap loc (Timer P D)) f t pp p l qn :
  (forall n, tm_prev (f n) = tm_prev n /\ tm_next (f n) = tm_next n) ->
  dseg h pp p l qn -> dseg (alter f t h) pp p l qn.
Proof.
  intros Hf. revert pp p. induction l as [|a l IH]; intros pp p; cbn; [done|].
  intros (-> & n & Hn & Hp & H). split; [done|].
  destruct (decide (t = a)) as [->|Hne].
  - exists (f n). rewrite lookup_alter_eq, Hn. destruct (Hf n) as [E1 E2].
    rewrite E1, E2. auto.
  - exists n. rewrite lookup_alter_ne by done. auto.
Qed.

Lemma fseg_alter_links (h : gmap loc (Timer P D)) f t p l :
  (forall n, tm_next (f n) = tm_next n) -> fseg h p l -> fseg (alter f t h) p l.
Proof.
  intros Hf. revert p. induction l as [|a l IH]; intros p; cbn; [done|].
  intros (-> & n & Hn & H). split; [done|].
  destruct (decide (t = a)) as [->|Hne].
  - exists (f n). rewrite lookup_alter_eq, Hn, Hf. auto.
  - exists n. rewrite lookup_alter_ne by done. auto.
Qed.

Lemma upd_rep s A t e e' B F f :
  tmr_rep s [] (A ++ (t, e) :: B) F ->
  (forall n, payload n = e -> payload (f n) = e') ->
  (forall n, tm_prev (f n) = tm_prev n /\ tm_next (f n) = tm_next n) ->
  exists s1, upd t f s = Some s1 /\ tmr_rep s1 [] (A ++ (t, e') :: B) F /\
    pay (heap s1) t = Some e' /\
    (forall a, a <> t -> pay (heap s1) a = pay (heap s) a).
Proof.
  intros [Hnd Hact Hfree Hpay Hdom] Hf Hlinks.
  assert (pay (heap s) t = Some e) as He.
  { apply Hpay. rewrite elem_of_app, elem_of_cons. auto. }
  assert (is_Some (heap s !! t)) as Hlive.
  { rewrite <- (fmap_is_Some payload). fold (pay (heap s) t). rewrite He. eauto. }
  assert (forall a, a <> t -> pay (alter f t (heap s)) a = pay (heap s) a) as Hne.
  { intros a Ha. unfold pay. by rewrite lookup_alter_ne. }
  assert (pay (alter f t (heap s)) t = Some e') as Ht.
  { unfold pay in *. rewrite lookup_alter_eq.
    destruct (heap s !! t) as [n|]; [|done]. injection He as He. cbn.
    f_equal. auto. }
  exists (mk_tmr (alter f t (heap s)) (timers s) (free_timers s)).
  rewrite upd_live by done. split; [done|]. split; [|by split].
  assert ((A ++ (t, e') :: B).*1 = (A ++ (t, e) :: B).*1) as HL.
  { by rewrite !fmap_app. }
  split.
  - by rewrite HL.
  - rewrite HL. by apply dseg_alter_links.
  - apply fseg_alter_links; [|done]. intros n. apply Hlinks.
  - intros a ea Ha. cbn [heap]. destruct (decide (a = t)) as [->|Hat].
    + rewrite Ht. f_equal. apply (nodup_entry A t e' ea B F); [|done].
      by rewrite HL.
    + rewrite Hne by done. apply Hpay. rewrite elem_of_app, elem_of_cons in *.
      destruct Ha as [?|[E|?]]; [auto| |auto]. by injection E as ->.
  - intros a. cbn [heap]. by rewrite lookup_alter_is_Some, HL.
Qed.

(** A struct that is on neither list may be written freely. *)
Lemma inv_alter_limbo s t f L F :
  tmr_inv s [t] L F ->
  tmr_inv (mk_tmr (alter f t (heap s)) (timers s) (free_timers s)) [t] L F.
Proof.
  intros [[Hnd Hact Hfree Hpay Hdom] Hs Hnorm]. pose proof Hnd as Hnd'.
  cbn [app] in Hnd'. apply NoDup_cons in Hnd' as [Hnin _].
  split; [split| |]; cbn [heap timers free_timers]; try done.
  - eapply dseg_frame; [|done]. intros a Ha. apply lookup_alter_ne.
    intros ->. apply Hnin. set_solver +Ha.
  - eapply fseg_frame; [|done]. intros a Ha. apply lookup_alter_ne.
    intros ->. apply Hnin. set_solver +Ha.
  - intros a e Ha. unfold pay. rewrite lookup_alter_ne; [by apply Hpay|].
    intros ->. apply Hnin, elem_of_app. left.
    by apply (list_elem_of_fmap_2 fst) in Ha.
  - intros a. by rewrite lookup_alter_is_Some.
Qed.

(** A node that got a new deadline is moved to its sorted place. *)
Lemma list_resort_spec s A t e e' B F f :
  tmr_inv s [] (A ++ (t, e) :: B) F -> time_norm (e_time e') ->
  (forall n, payload n = e -> payload (f n) = e') ->
  (forall n, tm_prev (f n) = tm_prev n /\ tm_next (f n) = tm_next n) ->
  exists s1 s', upd t f s = Some s1 /\ list_resort t s1 = Some s' /\
    tmr_inv s' [] (insert_sorted (t, e') (A ++ B)) F.
Proof.
  intros [Hrep Hs Hnorm] He' Hf Hlinks.
  destruct (upd_rep s A t e e' B F f Hrep Hf Hlinks) as (s1 & HU & Hrep1 & Ht1 & _).
  destruct (list_remove_rep s1 A t e' B F Hrep1) as (s2 & HR & Hrep2 & Hpay2).
  apply Forall_app in Hnorm as [HnA [_ HnB]%Forall_cons].
  apply sorted_remove in Hs.
  destruct (list_add_spec s2 t e' (A ++ B) F) as (s' & HA & Hinv & _).
  - split; [done|done|by apply Forall_app].
  - by rewrite Hpay2.
  - done.
  - exists s1, s'. split; [done|]. unfold list_resort. by rewrite HR.
Qed.
End Refinement.
