(* ===== verification/TimerSpec.v ===== *)
(** * timer.c: the interface theorems

    What [tmr_create], [tmr_cancel], [tmr_reset], [tmr_timeout], [tmr_run] and
    [tmr_destroy] do to the abstract queue of [TimerLists]. *)

From Stdlib Require Import Sorting.Sorted.
From S2P Require Import Prelude Double IperfTime Timer TimerLists.

Section Interface.
Context {P D : Type}.
Implicit Types (L A B : list (loc * entry P D)) (F : list loc)
  (s : tmr_state P D) (e : entry P D).

(** ** Cancelling *)

Lemma upd_eq s t f n :
  heap s !! t = Some n ->
  upd t f s = Some (mk_tmr (alter f t (heap s)) (timers s) (free_timers s)).
Proof. intros H. unfold upd. by rewrite H. Qed.

Lemma tmr_cancel_spec s A t e B F :
  tmr_inv s [] (A ++ (t, e) :: B) F ->
  exists s', tmr_cancel t s = Some s' /\ tmr_inv s' [] (A ++ B) (t :: F) /\
    (forall a, pay (heap s') a = pay (heap s) a).
Proof.
  intros [Hrep Hs Hnorm].
  destruct (list_remove_rep s A t e B F Hrep) as (s1 & HR & Hrep1 & Hpay1).
  destruct Hrep1 as [Hnd Hact Hfree Hpay Hdom].
  assert (is_Some (heap s1 !! t)) as [n Hn] by (apply Hdom; by left).
  unfold tmr_cancel. rewrite HR. cbn [mbind option_bind].
  rewrite (upd_eq s1 t _ n Hn). cbn [mbind option_bind with_free].
  rewrite (upd_eq _ t _ (set_next (free_timers s1) n))
    by (cbn [heap with_free]; by rewrite lookup_alter_eq, Hn).
  cbn [with_free heap timers free_timers].
  eexists. split; [done|].
  assert (forall a, pay (alter (set_prev None) t
            (alter (set_next (free_timers s1)) t (heap s1))) a
          = pay (heap s1) a) as Hp.
  { intros a. by rewrite pay_set_prev, pay_set_next. }
  apply NoDup_cons in Hnd as [Hnin Hnd].
  split; [|intros a; cbn [heap]; by rewrite Hp].
  split; [split| |].
  - cbn [app]. rewrite <- Permutation_middle. by constructor.
  - cbn [heap timers]. eapply dseg_frame; [|done]. intros a Ha.
    rewrite !lookup_alter_ne; [done|..]; intros ->; apply Hnin; set_solver +Ha.
  - cbn [heap free_timers fseg]. split; [done|].
    exists (set_prev None (set_next (free_timers s1) n)).
    rewrite !lookup_alter_eq, Hn. split; [done|].
    eapply fseg_frame; [|done]. intros a Ha.
    rewrite !lookup_alter_ne; [done|..]; intros ->; apply Hnin; set_solver +Ha.
  - intros a ea Ha. cbn [heap]. rewrite Hp. by apply Hpay.
  - intros a. cbn [heap]. rewrite !lookup_alter_is_Some, Hdom. set_solver +.
  - by apply sorted_remove in Hs.
  - apply Forall_app in Hnorm as [HnA [_ HnB]%Forall_cons]. by apply Forall_app.
Qed.

(** ** Moving a deadline *)

(** The deadline [now + us] is representable. *)
Definition fits (now : iperf_time) (us : Z) : Prop :=
  time_norm now /\ 0 <= us /\ to_us now + us < 2 ^ 32 * 1000000.

Lemma fits_norm now us : fits now us -> time_norm (iperf_time_add_usecs now us).
Proof. intros (H1 & H2 & H3). by apply add_usecs_spec. Qed.

Lemma fits_us now us :
  fits now us -> to_us (iperf_time_add_usecs now us) = to_us now + us.
Proof. intros (H1 & H2 & H3). by apply add_usecs_spec. Qed.

Lemma tmr_reset_spec s now A t e B F :
  tmr_inv s [] (A ++ (t, e) :: B) F -> fits now (e_usecs e) ->
  let e' := set_etime (iperf_time_add_usecs now (e_usecs e)) e in
  exists s', tmr_reset now t s = Some s' /\
    tmr_inv s' [] (insert_sorted (t, e') (A ++ B)) F.
Proof.
  intros Hinv Hfits e'.
  assert (pay (heap s) t = Some e) as He.
  { apply (rep_pay _ _ _ _ (inv_rep _ _ _ _ Hinv)).
    rewrite elem_of_app, elem_of_cons. auto. }
  destruct (pay_load _ _ _ He) as (n & Hn & Hpn).
  destruct (list_resort_spec s A t e e' B F
              (set_time (iperf_time_add_usecs now (e_usecs e))) Hinv)
    as (s1 & s' & HU & HR & Hinv').
  - by apply fits_norm.
  - intros m <-. done.
  - done.
  - exists s'. split; [|done]. unfold tmr_reset. rewrite Hn. cbn [mbind option_bind].
    assert (tm_usecs n = e_usecs e) as -> by (by subst e).
    by rewrite HU.
Qed.

(** ** Creating *)

Lemma tmr_create_spec s mr now proc data us per L F :
  tmr_inv s [] L F -> fits now us ->
  (forall t, mr = Some t -> heap s !! t = None) ->
  let e := mk_entry proc data us per (iperf_time_add_usecs now us) in
  (F = [] /\ mr = None /\ tmr_create mr now proc data us per s = Some (None, s)) \/
  (exists t F' s', (F = t :: F' \/ (F = [] /\ F' = [] /\ mr = Some t)) /\
     tmr_create mr now proc data us per s = Some (Some t, s') /\
     tmr_inv s' [] (insert_sorted (t, e) L) F').
Proof.
  intros [Hrep Hs Hnorm] Hfits Hmr e. destruct Hrep as [Hnd Hact Hfree Hpay Hdom].
  cbn [app] in *.
  set (fillf := fun n : Timer P D => mk_timer proc data us per
                  (iperf_time_add_usecs now us) (tm_prev n) (tm_next n)).
  (* both ways of getting a struct leave it off both lists *)
  assert (forall t F' s0, is_Some (heap s0 !! t) ->
    tmr_inv s0 [t] L F' ->
    exists s', (s1 ← upd t fillf s0; s2 ← list_add t s1; Some (Some t, s2))
               = Some (Some t, s') /\ tmr_inv s' [] (insert_sorted (t, e) L) F')
    as Hfill.
  { intros t F' s0 [n Hn] Hinv0. rewrite (upd_eq s0 t _ n Hn). cbn [mbind option_bind].
    destruct (list_add_spec (mk_tmr (alter fillf t (heap s0)) (timers s0)
                (free_timers s0)) t e L F') as (s' & HA & Hinv' & _).
    - by apply inv_alter_limbo.
    - cbn [heap]. unfold pay. by rewrite lookup_alter_eq, Hn.
    - by apply fits_norm.
    - exists s'. rewrite HA. done. }
  unfold tmr_create. destruct F as [|t F]; cbn [fseg] in Hfree.
  - rewrite Hfree. destruct mr as [t|]; [|by left]. right.
    specialize (Hmr t eq_refl).
    destruct (Hfill t [] (mk_tmr (<[t := mk_timer proc data us per now None None]>
                            (heap s)) (timers s) None)) as (s' & HS & Hinv').
    + cbn [heap]. rewrite lookup_insert_eq. eauto.
    + assert (t ∉ L.*1) as Hnin.
      { intros Ht. assert (is_Some (heap s !! t)) as [? Hx]; [|congruence].
        apply Hdom. rewrite app_nil_r. done. }
      split; [split| |]; cbn [heap timers free_timers app].
      * rewrite app_nil_r in *. by constructor.
      * eapply dseg_frame; [|done]. intros a Ha.
        rewrite lookup_insert_ne; [done|]. by intros ->.
      * done.
      * intros a ea Ha. unfold pay. rewrite lookup_insert_ne; [by apply Hpay|].
        intros ->. apply Hnin. by apply (list_elem_of_fmap_2 fst) in Ha.
      * intros a. rewrite lookup_insert_is_Some', Hdom. set_solver +.
      * done.
      * done.
    + exists t, [], s'. split; [by right|]. split; [|done].
      rewrite <- HS. by rewrite <- Hfree.
  - destruct Hfree as (Hft & n & Hn & Hfree). rewrite Hft. right.
    destruct (Hfill t F (with_free (tm_next n) s)) as (s' & HS & Hinv').
    + cbn [heap with_free]. eauto.
    + split; [split| |]; cbn [heap timers free_timers with_free]; try done.
      * cbn [app]. by rewrite Permutation_middle.
      * intros a. rewrite Hdom. set_solver +.
    + exists t, F, s'. split; [by left|]. split; [|done].
      unfold load. rewrite Hn. exact HS.
Qed.

(** ** Asking for a timeout *)

Lemma sorted_head_min x L y : sorted (x :: L) -> y ∈ x :: L -> at_us x <= at_us y.
Proof.
  intros [_ Hx]%StronglySorted_inv. rewrite Forall_forall in Hx.
  intros [->|Hy]%elem_of_cons; [lia|auto].
Qed.
End Interface.
