(* ===== verification/TimerRun.v ===== *)
(** * timer.c: running and destroying timers

    [tmr_run] against [runs], a relation that says which timers fire in which order
    and what becomes of each, termination included, and [tmr_destroy].  The callbacks of [tmr_run] are those that leave the timer
    lists alone, as the reporter, statistics, pacing and end-of-test callbacks
    of the program do. *)

From Stdlib Require Import Sorting.Sorted.
From S2P Require Import Prelude Double IperfTime Timer TimerLists TimerSpec.

#[local] Set Default Proof Using "Type".

Section Run.
Context {P D W : Type}.
Context (act : P -> D -> iperf_time -> W -> W).

Implicit Types (L A B : list (loc * entry P D)) (F : list loc)
  (s : tmr_state P D) (e : entry P D) (w : W).

(** A periodic timer after its deadline advanced by one period. *)
Definition advance e : entry P D :=
  set_etime (iperf_time_add_usecs (e_time e) (e_usecs e)) e.

(** A run from a cursor: the timers of [B] have been passed, those of [A] are ahead.
    The first of [A] is fired when it is due; a periodic timer goes back into the list, behind
    the cursor or ahead of it. The list after [w] holds the timers fired, in order. *)
Inductive runs (now : iperf_time) :
    list (loc * entry P D) -> list (loc * entry P D) -> W ->
    list (loc * entry P D) -> list (loc * entry P D) -> W -> Prop :=
| runs_end B w : runs now B [] w [] B w
| runs_wait B x A w : to_us now < at_us x -> runs now B (x :: A) w [] (B ++ x :: A) w
| runs_once B t e A w fired L' w' :
    to_us (e_time e) <= to_us now -> e_periodic e = 0 ->
    runs now B A (act (e_proc e) (e_data e) now w) fired L' w' ->
    runs now B ((t, e) :: A) w ((t, e) :: fired) L' w'
| runs_periodic B t e A w B' A' fired L' w' :
    to_us (e_time e) <= to_us now -> e_periodic e <> 0 ->
    at_us (t, e) <= at_us (t, advance e) ->
    insert_sorted (t, advance e) (B ++ A) = B' ++ A' ->
    (B' ≡ₚ (t, advance e) :: B /\ A' = A) \/ (B' = B /\ A' ≡ₚ (t, advance e) :: A) ->
    runs now B' A' (act (e_proc e) (e_data e) now w) fired L' w' ->
    runs now B ((t, e) :: A) w ((t, e) :: fired) L' w'.

(** ** What a run does *)

(** The effects of the callbacks, one after the other. *)
Definition effects (now : iperf_time) (fired : list (loc * entry P D)) w : W :=
  foldl (fun w x => act (e_proc x.2) (e_data x.2) now w) w fired.

Lemma runs_effects now B A w fired L' w' :
  runs now B A w fired L' w' -> w' = effects now fired w.
Proof. induction 1; by cbn. Qed.

Lemma runs_due now B A w fired L' w' :
  runs now B A w fired L' w' -> Forall (fun x => at_us x <= to_us now) fired.
Proof. induction 1; by repeat constructor. Qed.

(** The list ahead stays sorted. *)
Lemma ahead_sorted t e e' B A B' A' :
  sorted (B ++ (t, e) :: A) -> insert_sorted (t, e') (B ++ A) = B' ++ A' -> sorted (B' ++ A').
Proof. intros Hs <-. by apply insert_sorted_sorted, (sorted_remove B (t, e)). Qed.

Lemma runs_above now B A w fired L' w' :
  runs now B A w fired L' w' -> sorted (B ++ A) -> forall b,
  Forall (fun x => b <= at_us x) A -> Forall (fun x => b <= at_us x) fired.
Proof.
  induction 1 as [| |B t e A w fired L' w' Hdue Hp Hr IH
                 |B t e A w B' A' fired L' w' Hdue Hp Hat HI HP Hr IH];
    intros Hs b Hb; try constructor; apply Forall_cons in Hb as [Hbx Hb]; try done.
  - apply IH; [by eapply sorted_remove|done].
  - apply IH; [by eapply ahead_sorted|].
    destruct HP as [[_ ->]|[_ ->]]; [done|]. constructor; [lia|done].
Qed.

(** Timers are fired in the order of their deadlines. *)
Lemma runs_in_order now B A w fired L' w' :
  runs now B A w fired L' w' -> sorted (B ++ A) -> sorted fired.
Proof.
  induction 1 as [| |B t e A w fired L' w' Hdue Hp Hr IH
                 |B t e A w B' A' fired L' w' Hdue Hp Hat HI HP Hr IH];
    intros Hs; try constructor;
    pose proof Hs as (_ & [_ Hm]%StronglySorted_inv & _)%sorted_app_inv.
  - apply IH. by eapply sorted_remove.
  - eapply runs_above; [exact Hr|by eapply sorted_remove|done].
  - apply IH. by eapply ahead_sorted.
  - eapply runs_above; [exact Hr|by eapply ahead_sorted|].
    destruct HP as [[_ ->]|[_ ->]]; [done|]. by constructor.
Qed.

(** No timer is made up. *)
Lemma runs_origin now B A w fired L' w' :
  runs now B A w fired L' w' ->
  fired.*1 ⊆ (B ++ A).*1 /\ L'.*1 ⊆ (B ++ A).*1.
Proof.
  induction 1 as [| |B t e A w fired L' w' Hdue Hp Hr [IH1 IH2]
                 |B t e A w B' A' fired L' w' Hdue Hp Hat HI HP Hr [IH1 IH2]].
  - rewrite app_nil_r. split; [set_solver|done].
  - split; [set_solver|done].
  - rewrite fmap_app in *. set_solver.
  - rewrite <- HI, insert_sorted_perm in IH1, IH2. rewrite fmap_cons, fmap_app in IH1, IH2.
    rewrite fmap_app. set_solver.
Qed.

(** The [n] firings of a timer from the entry [x] on. *)
Fixpoint firings (n : nat) (x : loc * entry P D) : list (loc * entry P D) :=
  match n with O => [] | S n => x :: firings n (x.1, advance x.2) end.

(** What becomes of a timer: it is fired some times, each time at the deadline that
    it then has; it is still there with its deadline advanced that often,
    or gone if it was fired and is not periodic. *)
Definition outcome (fired L' : list (loc * entry P D)) (x : loc * entry P D) : Prop :=
  exists n, filter (fun y => y.1 = x.1) fired = firings n x /\
    if (n =? 0)%nat then x ∈ L'
    else if e_periodic x.2 =? 0 then n = 1%nat /\ x.1 ∉ L'.*1
    else (x.1, Nat.iter n advance x.2) ∈ L'.

(** One more firing of a periodic timer. *)
Lemma outcome_again fired L' t e :
  e_periodic e <> 0 -> outcome fired L' (t, advance e) -> outcome ((t, e) :: fired) L' (t, e).
Proof.
  intros Hp (n & Hn & H). exists (S n). cbn [fst snd firings] in *.
  rewrite filter_cons_True by done. rewrite Hn. split; [done|]. cbn [Nat.eqb].
  apply Z.eqb_neq in Hp. change (e_periodic (advance e)) with (e_periodic e) in H.
  rewrite Hp in *. destruct n; [done|]. cbn [Nat.eqb] in H.
  by rewrite Nat.iter_succ_r.
Qed.

Lemma outcome_other fired L' x y : x.1 <> y.1 -> outcome fired L' x -> outcome (y :: fired) L' x.
Proof.
  intros Hne (n & Hn & H). exists n. rewrite filter_cons_False by congruence. by split.
Qed.

Lemma nodup_other (B A : list (loc * entry P D)) t e x :
  NoDup (B ++ (t, e) :: A).*1 -> x ∈ B ++ A -> x.1 <> t.
Proof.
  rewrite <- Permutation_middle. intros [Hn _]%NoDup_cons Hx <-. apply Hn.
  by apply (list_elem_of_fmap_2 fst) in Hx.
Qed.

Lemma never_fired (fired : list (loc * entry P D)) t :
  t ∉ fired.*1 -> filter (fun y => y.1 = t) fired = [].
Proof.
  induction fired as [|y fired IH]; [done|]. intros Hn. rewrite filter_cons_False; [|set_solver].
  apply IH. set_solver.
Qed.

Lemma runs_outcome now B A w fired L' w' :
  runs now B A w fired L' w' -> NoDup (B ++ A).*1 -> forall x, x ∈ B ++ A -> outcome fired L' x.
Proof.
  induction 1 as [|B y A w Hlt|B t e A w fired L' w' Hdue Hp Hr IH
                 |B t e A w B' A' fired L' w' Hdue Hp Hat HI HP Hr IH]; intros Hnd x Hx.
  - exists 0%nat. by rewrite app_nil_r in Hx.
  - by exists 0%nat.
  - pose proof Hnd as Hnd'. rewrite <- Permutation_middle in Hnd'. apply NoDup_cons in Hnd' as [Hnin Hnd'].
    rewrite <- Permutation_middle in Hx. apply elem_of_cons in Hx as [->|Hx].
    + apply runs_origin in Hr as [H1 H2]. exists 1%nat. cbn [fst snd firings Nat.eqb].
      rewrite filter_cons_True by done. rewrite Hp. split; [f_equal|split; [done|]; intros Ht; by apply Hnin, H2].
      apply never_fired. intros Ht. by apply Hnin, H1.
    + apply outcome_other; [by eapply nodup_other|]. by apply IH.
  - assert (B' ++ A' ≡ₚ (t, advance e) :: B ++ A) as Hperm by by rewrite <- HI, insert_sorted_perm.
    assert (NoDup (B' ++ A').*1) as Hnd'.
    { rewrite Hperm. rewrite <- Permutation_middle in Hnd. exact Hnd. }
    specialize (IH Hnd'). rewrite <- Permutation_middle in Hx. apply elem_of_cons in Hx as [->|Hx].
    + apply outcome_again; [done|]. apply IH. rewrite Hperm. by left.
    + apply outcome_other; [by eapply nodup_other|]. apply IH. rewrite Hperm. by right.
Qed.

(** Every timer ahead that is due is fired. *)
Lemma runs_fires now B A w fired L' w' :
  runs now B A w fired L' w' -> sorted (B ++ A) ->
  forall x, x ∈ A -> at_us x <= to_us now -> x ∈ fired.
Proof.
  induction 1 as [|B y A w Hlt|B t e A w fired L' w' Hdue Hp Hr IH
                 |B t e A w B' A' fired L' w' Hdue Hp Hat HI HP Hr IH]; intros Hs x Hx Hle.
  - set_solver.
  - apply sorted_app_inv in Hs as (_ & Hs & _). pose proof (sorted_head_min _ _ _ Hs Hx). lia.
  - apply elem_of_cons in Hx as [->|Hx]; [by left|right].
    apply IH; [by eapply sorted_remove|done|done].
  - apply elem_of_cons in Hx as [->|Hx]; [by left|right].
    apply IH; [by eapply ahead_sorted| |done].
    destruct HP as [[_ ->]|[_ ->]]; [done|by right].
Qed.
(** ** The loop is such a run *)

Context (call : P -> D -> iperf_time -> tmr_state P D * W ->
                option (tmr_state P D * W)).
Hypothesis quiet : forall p d now s w, call p d now (s, w) = Some (s, act p d now w).

(** Periods are positive and the next deadline is representable. *)
Definition period_ok (now : iperf_time) (x : loc * entry P D) : Prop :=
  e_periodic x.2 <> 0 ->
  0 < e_usecs x.2 /\ to_us now + e_usecs x.2 < 2 ^ 32 * 1000000.

(** How many microseconds of backlog the timers of a list have. *)
Definition backlog (now : iperf_time) (x : loc * entry P D) : nat :=
  Z.to_nat (to_us now + 1 - at_us x).
Definition work (now : iperf_time) L : nat := sum_list_with (backlog now) L.

Lemma work_insert now x L : work now (insert_sorted x L) = (backlog now x + work now L)%nat.
Proof. unfold work. by rewrite insert_sorted_perm. Qed.

Lemma advance_spec now t e :
  time_norm (e_time e) -> to_us (e_time e) <= to_us now ->
  0 < e_usecs e -> to_us now + e_usecs e < 2 ^ 32 * 1000000 ->
  norm_entry (t, advance e) /\
  at_us (t, advance e) = to_us (e_time e) + e_usecs e /\
  (S (backlog now (t, advance e)) <= backlog now (t, e))%nat.
Proof.
  intros Hn Hle Hp Hb.
  destruct (add_usecs_spec (e_time e) (e_usecs e) Hn) as [H1 H2]; [lia..|].
  split; [done|]. split; [done|]. unfold backlog, at_us in *. cbn [snd e_time] in *.
  unfold advance, set_etime. cbn [e_time]. lia.
Qed.

(** Where the loop stands: everything before the cursor is periodic, and the
    backlog from the cursor on is below the fuel. *)
Lemma run_loop_spec fuel now s w B A F :
  tmr_inv s [] (B ++ A) F -> time_norm now ->
  Forall (period_ok now) (B ++ A) ->
  Forall (fun x => e_periodic x.2 <> 0) B ->
  (work now A < fuel)%nat ->
  exists s' w' L' F' fired,
    tmr_run_loop call fuel now (head_or A.*1 None) (s, w) = Some (s', w') /\
    tmr_inv s' [] L' F' /\ runs now B A w fired L' w' /\
    Forall (fun x => e_periodic x.2 = 0 -> to_us now < at_us x) L'.
Proof using quiet.
  revert s w B A F. induction fuel as [|fuel IH];
    intros s w B A F Hinv Hnow Hok HB Hfuel; [lia|].
  destruct A as [|[t e] A]; cbn [fmap list_fmap head_or fst tmr_run_loop].
  { exists s, w, (B ++ []), F, []. rewrite app_nil_r in *.
    repeat split; [by apply Hinv..|constructor|].
    eapply Forall_impl; [exact HB|]. intros x Hx Hx0. done. }
  pose proof (inv_rep _ _ _ _ Hinv) as Hrep.
  assert (pay (heap s) t = Some e) as He.
  { apply (rep_pay _ _ _ _ Hrep). rewrite elem_of_app, elem_of_cons. auto. }
  destruct (pay_load _ _ _ He) as (n & Hn & Hpn).
  pose proof (rep_active _ _ _ _ Hrep) as Hact.
  rewrite fmap_app in Hact. cbn [fmap list_fmap fst] in Hact.
  destruct (dseg_node _ _ _ _ _ Hact) as (n' & Hn' & _ & Hnext).
  assert (n' = n) as -> by (unfold load in Hn; congruence).
  cbn [fst]. rewrite Hn. cbn [mbind option_bind].
  pose proof (inv_norm _ _ _ _ Hinv) as Hnorm.
  pose proof Hnorm as [HnB [Hne HnA]%Forall_cons]%Forall_app.
  pose proof Hok as [HokB [Hoke HokA]%Forall_cons]%Forall_app.
  assert (tm_time n = e_time e) as -> by (by subst e).
  rewrite compare_gt0 by done.
  destruct (Z.ltb_spec (to_us now) (to_us (e_time e))) as [Hlt|Hdue].
  { (* the first timer that is not ready ends the run *)
    exists s, w, (B ++ (t, e) :: A), F, []. repeat split; [by apply Hinv..|by constructor|].
    apply Forall_app. split.
    { eapply Forall_impl; [exact HB|]. intros x Hx Hx0. done. }
    apply Forall_forall. intros x Hx _.
    pose proof (inv_sorted _ _ _ _ Hinv) as (_ & Hs & _)%sorted_app_inv.
    pose proof (sorted_head_min _ _ _ Hs Hx) as Hm. unfold at_us in *.
    cbn [snd] in *. lia. }
  rewrite quiet. cbn [mbind option_bind fst snd]. rewrite Hn. cbn [mbind option_bind].
  assert (timer_proc n = e_proc e) as -> by (by subst e).
  assert (client_data n = e_data e) as -> by (by subst e).
  assert (tm_usecs n = e_usecs e) as -> by (by subst e).
  assert (periodic n = e_periodic e) as -> by (by subst e).
  assert (tm_time n = e_time e) as -> by (by subst e).
  rewrite Hnext.
  destruct (Z.eqb_spec (e_periodic e) 0) as [Hper|Hper]; cbn [negb].
  - (* one-shot *)
    destruct (tmr_cancel_spec s B t e A F Hinv) as (s1 & HC & Hinv1 & _).
    rewrite HC. cbn [mbind option_bind].
    destruct (IH s1 (act (e_proc e) (e_data e) now w) B A (t :: F))
      as (s' & w' & L' & F' & fired & HR & Hinv' & Hruns & Hpost); try done.
    + by apply Forall_app.
    + unfold work in *. cbn [sum_list_with] in Hfuel.
      unfold backlog at 1, at_us in Hfuel. cbn [snd] in Hfuel. lia.
    + exists s', w', L', F', ((t, e) :: fired). split; [done|]. split; [done|]. split; [|done].
      by apply runs_once.
  - (* periodic *)
    destruct (Hoke Hper) as [Hpos Hfit].
    destruct (advance_spec now t e Hne Hdue Hpos Hfit) as (Hna & Hat & Hbl).
    destruct (list_resort_spec s B t e (advance e) A F
                (set_time (iperf_time_add_usecs (e_time e) (e_usecs e))) Hinv)
      as (s0 & s1 & HU & HR1 & Hinv1); [done|by intros m <-|done|].
    rewrite HU. cbn [mbind option_bind]. rewrite HR1. cbn [mbind option_bind].
    destruct (insert_sorted_cursor (t, advance e) B A) as (B' & A' & HI & HH & HP).
    { by apply (sorted_remove B (t, e)), (inv_sorted _ _ _ _ Hinv). }
    destruct (IH s1 (act (e_proc e) (e_data e) now w) B' A' F)
      as (s' & w' & L' & F' & fired & HR & Hinv' & Hruns & Hpost); try done.
    + by rewrite <- HI.
    + rewrite <- HI. apply insert_sorted_forall; [|by apply Forall_app].
      intros _. cbn [snd advance set_etime e_usecs]. done.
    + destruct HP as [[HP _]|[-> _]]; [|done]. rewrite HP. by constructor.
    + assert (work now A' <= backlog now (t, advance e) + work now A)%nat.
      { destruct HP as [[_ ->]|[_ HP]]; [lia|]. unfold work. rewrite HP. done. }
      unfold work in *. cbn [sum_list_with] in Hfuel. lia.
    + assert (head_or A'.*1 None = head_or A.*1 None) as EH by (by destruct A', A).
      rewrite EH in HR. exists s', w', L', F', ((t, e) :: fired).
      split; [done|]. split; [done|]. split; [|done].
      eapply runs_periodic; [done..| |exact HI|exact HP|exact Hruns].
      rewrite Hat. unfold at_us. cbn [snd] in *. lia.
Qed.

Lemma tmr_run_spec fuel now s w L F :
  tmr_inv s [] L F -> time_norm now -> Forall (period_ok now) L ->
  (work now L < fuel)%nat ->
  exists s' w' L' F' fired,
    tmr_run call fuel now (s, w) = Some (s', w') /\
    tmr_inv s' [] L' F' /\ runs now [] L w fired L' w' /\
    Forall (fun x => e_periodic x.2 = 0 -> to_us now < at_us x) L'.
Proof using quiet.
  intros Hinv Hnow Hok Hf. unfold tmr_run. cbn [fst].
  rewrite (dseg_head _ _ _ _ _ (rep_active _ _ _ _ (inv_rep _ _ _ _ Hinv))).
  by apply (run_loop_spec fuel now s w [] L F).
Qed.

End Run.

(** ** Destroying *)

Section Destroy.
Context {P D : Type}.
Implicit Types (L : list (loc * entry P D)) (F : list loc) (s : tmr_state P D).

Lemma rep_size s L F :
  tmr_rep s [] L F -> (length L + length F = size (heap s))%nat.
Proof.
  intros [Hnd _ _ _ Hdom]. cbn [app] in *.
  assert (dom (heap s) = list_to_set (L.*1 ++ F)) as E.
  { apply set_eq. intros a. by rewrite elem_of_dom, Hdom, elem_of_list_to_set. }
  rewrite <- (size_dom (D := gset loc)), E, size_list_to_set by done.
  by rewrite length_app, length_fmap.
Qed.

Lemma cancel_all_spec fuel s L F :
  tmr_inv s [] L F -> (length L < fuel)%nat ->
  exists s' F', cancel_all fuel s = Some s' /\ tmr_inv s' [] [] F' /\
    (length F' = length L + length F)%nat.
Proof.
  revert s L F. induction fuel as [|fuel IH]; intros s L F Hinv Hf; [lia|].
  cbn [cancel_all].
  rewrite (dseg_head _ _ _ _ _ (rep_active _ _ _ _ (inv_rep _ _ _ _ Hinv))).
  destruct L as [|[t e] L]; cbn [fmap list_fmap head_or fst]; [by exists s, F|].
  destruct (tmr_cancel_spec s [] t e L F Hinv) as (s1 & HC & Hinv1 & _).
  rewrite HC. cbn [mbind option_bind]. cbn in Hf.
  destruct (IH s1 L (t :: F) Hinv1) as (s' & F' & HR & Hinv' & Hlen); [lia|].
  exists s', F'. repeat split; [done|by apply Hinv'..|]. cbn in *. lia.
Qed.

Lemma cleanup_spec fuel s F :
  tmr_rep s [] [] F -> (length F < fuel)%nat ->
  tmr_cleanup_loop fuel s = Some (mk_tmr ∅ None None).
Proof.
  revert s F. induction fuel as [|fuel IH]; intros s F Hrep Hf; [lia|].
  destruct Hrep as [Hnd Hact Hfree Hpay Hdom]. cbn in *.
  destruct F as [|t F]; cbn in Hfree.
  - rewrite Hfree. f_equal. destruct s as [h ts fs]. cbn in *. subst. f_equal.
    apply map_eq. intros a. rewrite lookup_empty. apply eq_None_not_Some.
    rewrite Hdom. set_solver +.
  - destruct Hfree as (Hft & n & Hn & Hfree). rewrite Hft. unfold load. rewrite Hn.
    cbn [mbind option_bind]. apply NoDup_cons in Hnd as [Hnin Hnd].
    apply IH with F; [|cbn in Hf; lia].
    split; cbn [heap timers free_timers with_free]; try done.
    + cbn. apply fseg_frame with (heap s); [|done]. intros a Ha.
      apply lookup_delete_ne. by intros ->.
    + intros a e Ha. set_solver +Ha.
    + intros a. rewrite lookup_delete_is_Some, Hdom. cbn.
      split; [intros [? ?]; set_solver|].
      intros Ha. split; [by intros ->|]. set_solver +Ha.
Qed.

Lemma tmr_destroy_spec s L F :
  tmr_inv s [] L F -> tmr_destroy s = Some (mk_tmr ∅ None None).
Proof.
  intros Hinv. unfold tmr_destroy.
  pose proof (rep_size s L F (inv_rep _ _ _ _ Hinv)) as Hsz.
  destruct (cancel_all_spec (S (size (heap s))) s L F Hinv)
    as (s' & F' & HC & Hinv' & Hlen); [lia|].
  rewrite HC. cbn [mbind option_bind]. unfold tmr_cleanup.
  pose proof (rep_size s' [] F' (inv_rep _ _ _ _ Hinv')) as Hsz'. cbn in Hsz'.
  apply cleanup_spec with F'; [apply Hinv'|lia].
Qed.
End Destroy.
