(* ===== verification/TimerProps.v ===== *)
(** * timer.c: properties

    The timer package as an abstract data type: every sequence of interface
    calls that is meaningful on the abstract queue runs without undefined
    behaviour on the linked lists and leaves them representing the abstract
    result; running, timeouts and destruction do what their comments say. *)

From S2P Require Import Prelude Double IperfTime Timer TimerLists TimerSpec TimerRun.

Section Simulation.
Context {P D : Type}.
Implicit Types (L : list (loc * entry P D)) (F : list loc) (s : tmr_state P D).

(** The calls of the interface that change the lists. *)
Inductive op :=
| Create (malloc_result : ptr) (now : iperf_time) (proc : P) (data : D) (us per : Z)
| Cancel (t : loc)
| Reset (now : iperf_time) (t : loc).

Definition exec (o : op) s : option (tmr_state P D) :=
  match o with
  | Create mr now proc data us per => r ← tmr_create mr now proc data us per s; Some r.2
  | Cancel t => tmr_cancel t s
  | Reset now t => tmr_reset now t s
  end.

Fixpoint exec_all (os : list op) s : option (tmr_state P D) :=
  match os with
  | [] => Some s
  | o :: os => s ← exec o s; exec_all os s
  end.

(** ** The specification *)

(** The queue with timer [t] taken out, and its entry. *)
Fixpoint take_out (t : loc) L : option (entry P D * list (loc * entry P D)) :=
  match L with
  | [] => None
  | (a, e) :: L' =>
      if decide (a = t) then Some (e, L')
      else '(e', L'') ← take_out t L'; Some (e', (a, e) :: L'')
  end.

Definition fitsb (now : iperf_time) (us : Z) : bool :=
  (0 <=? secs now) && (secs now <? 2 ^ 32) && (0 <=? usecs now)
  && (usecs now <? 1000000) && (0 <=? us) && (to_us now + us <? 2 ^ 32 * 1000000).

(** One call on the queue and the recycled structs; [None] when the call is
    outside the contract: an unknown timer, a deadline that does not fit the
    32-bit seconds, or a [malloc] that answers storage in use. *)
Definition aexec (o : op) (c : list (loc * entry P D) * list loc)
    : option (list (loc * entry P D) * list loc) :=
  let '(L, F) := c in
  match o with
  | Create mr now proc data us per =>
      let e := mk_entry proc data us per (iperf_time_add_usecs now us) in
      if fitsb now us then
        match F, mr with
        | t :: F', None => Some (insert_sorted (t, e) L, F')
        | t :: F', Some x =>
            if decide (x ∈ L.*1 ++ F) then None
            else Some (insert_sorted (t, e) L, F')
        | [], None => Some (L, [])
        | [], Some t =>
            if decide (t ∈ L.*1 ++ F) then None
            else Some (insert_sorted (t, e) L, [])
        end
      else None
  | Cancel t => '(_, L') ← take_out t L; Some (L', t :: F)
  | Reset now t =>
      '(e, L') ← take_out t L;
      if fitsb now (e_usecs e) then
        Some (insert_sorted
                (t, set_etime (iperf_time_add_usecs now (e_usecs e)) e) L', F)
      else None
  end.

Fixpoint aexec_all (os : list op) c : option (list (loc * entry P D) * list loc) :=
  match os with
  | [] => Some c
  | o :: os => c ← aexec o c; aexec_all os c
  end.

Lemma fitsb_spec now us : fitsb now us = true -> fits now us.
Proof.
  unfold fitsb, fits, time_norm, is_uint. rewrite !andb_true_iff.
  rewrite !Z.leb_le, !Z.ltb_lt. lia.
Qed.

Lemma take_out_split t L e L' :
  take_out t L = Some (e, L') ->
  exists A B, L = A ++ (t, e) :: B /\ L' = A ++ B.
Proof.
  revert e L'. induction L as [|[a e0] L IH]; intros e L'; cbn; [done|].
  case_decide as Hd.
  - intros [= <- <-]. subst. by exists [], L.
  - destruct (take_out t L) as [[e1 L1]|]; cbn; [|done]. intros [= <- <-].
    destruct (IH e1 L1 eq_refl) as (A & B & -> & ->). by exists ((a, e0) :: A), B.
Qed.

Lemma fresh_heap s L F t : tmr_rep s [] L F -> t ∉ L.*1 ++ F -> heap s !! t = None.
Proof. intros H Ht. apply eq_None_not_Some. by rewrite (rep_dom _ _ _ _ H). Qed.

Lemma exec_simulates o s L F L' F' :
  tmr_inv s [] L F -> aexec o (L, F) = Some (L', F') ->
  exists s', exec o s = Some s' /\ tmr_inv s' [] L' F'.
Proof.
  intros Hinv. pose proof (inv_rep _ _ _ _ Hinv) as Hrep.
  destruct o as [mr now proc data us per|t|now t]; cbn [aexec exec].
  - destruct (fitsb now us) eqn:Hfit; [|done]. apply fitsb_spec in Hfit.
    intros Ha.
    assert (forall t, mr = Some t -> heap s !! t = None) as Hmr.
    { intros t ->. destruct F; case_decide; try done; by eapply fresh_heap. }
    destruct (tmr_create_spec s mr now proc data us per L F Hinv Hfit Hmr)
      as [(-> & -> & HC)|(t & F1 & s' & HF & HC & Hinv')]; rewrite HC; cbn.
    + injection Ha as <- <-. eauto.
    + exists s'. split; [done|].
      destruct HF as [->|(-> & -> & ->)].
      * destruct mr; [case_decide; [done|]|]; by injection Ha as <- <-.
      * case_decide; [done|]. by injection Ha as <- <-.
  - destruct (take_out t L) as [[e L1]|] eqn:E; cbn; [|done]. intros [= <- <-].
    apply take_out_split in E as (A & B & -> & ->).
    destruct (tmr_cancel_spec s A t e B F Hinv) as (s' & HC & Hinv' & _). eauto.
  - destruct (take_out t L) as [[e L1]|] eqn:E; cbn; [|done].
    destruct (fitsb now (e_usecs e)) eqn:Hfit; [|done]. intros [= <- <-].
    apply fitsb_spec in Hfit. apply take_out_split in E as (A & B & -> & ->).
    destruct (tmr_reset_spec s now A t e B F Hinv Hfit) as (s' & HC & Hinv'). eauto.
Qed.

(** C1: forward simulation. Any sequence of [tmr_create], [tmr_cancel] and
    [tmr_reset] calls that respects the contract of the abstract queue runs on
    the linked lists without a null or dangling pointer access, and leaves
    lists that represent exactly the queue the specification computes: sorted
    by deadline, doubly linked, disjoint from the recycled structs. *)
Theorem timer_refines_queue os s L F L' F' :
  tmr_inv s [] L F -> aexec_all os (L, F) = Some (L', F') ->
  exists s', exec_all os s = Some s' /\ tmr_inv s' [] L' F'.
Proof.
  revert s L F. induction os as [|o os IH]; intros s L F Hinv;
    cbn [aexec_all exec_all].
  - intros [= <- <-]. eauto.
  - destruct (aexec o (L, F)) as [[L1 F1]|] eqn:E; [|done]. intros Ha.
    destruct (exec_simulates o s L F L1 F1 Hinv E) as (s1 & HE & Hinv1).
    rewrite HE. by apply (IH s1 L1 F1).
Qed.

Lemma init_inv : tmr_inv (mk_tmr ∅ None None : tmr_state P D) [] [] [].
Proof.
  split; [split|constructor|constructor]; cbn; try done.
  - constructor.
  - set_solver +.
  - intros a. rewrite lookup_empty. split; [by intros [? ?]|set_solver +].
Qed.
End Simulation.

Arguments op : clear implicits.

(** Three timers are created, one is cancelled and its struct reused, and one
    is reset behind the others. *)
Definition ex_ops : list (op nat nat) :=
  [Create (Some 1%positive) (mk_time 5 0) 0%nat 0%nat 1000000 1;
   Create (Some 2%positive) (mk_time 5 0) 1%nat 0%nat 500000 0;
   Create (Some 3%positive) (mk_time 5 0) 2%nat 7%nat 1000000 1;
   Cancel 2%positive;
   Create None (mk_time 6 0) 3%nat 0%nat 2000000 0;
   Reset (mk_time 9 0) 1%positive].

Lemma timer_refines_queue_witness :
  exists s', exec_all ex_ops (mk_tmr ∅ None None) = Some s' /\
    timers s' = Some 3%positive /\
    exists L' F', L'.*1 = [3; 2; 1]%positive /\ tmr_inv s' [] L' F'.
Proof.
  destruct (timer_refines_queue ex_ops _ [] [] _ _ init_inv eq_refl)
    as (s' & HE & Hinv).
  exists s'. split; [exact HE|]. split.
  - vm_compute in HE. injection HE as <-. reflexivity.
  - eexists _, _. split; [|exact Hinv]. reflexivity.
Defined.

Section Timeout.
Context {P D : Type}.
Implicit Types (L : list (loc * entry P D)) (s : tmr_state P D).

(** [tmr_timeout] answers the null pointer exactly when no timer is
    active, and otherwise a normalised [struct timeval] that is the time to
    the earliest deadline of all active timers, 0 when that has passed. *)
Theorem timeout_is_earliest s L F now :
  tmr_inv s [] L F -> time_norm now ->
  exists r, tmr_timeout now s = Some r /\
  match r with
  | None => L = []
  | Some (sec, us) =>
      0 <= sec /\ 0 <= us < 1000000 /\
      (forall x, x ∈ L -> sec * 1000000 + us <= Z.max 0 (at_us x - to_us now)) /\
      (exists x, x ∈ L /\ sec * 1000000 + us = Z.max 0 (at_us x - to_us now))
  end.
Proof.
  intros Hinv Hnow. pose proof (inv_rep _ _ _ _ Hinv) as Hrep.
  unfold tmr_timeout. rewrite (dseg_head _ _ _ _ _ (rep_active _ _ _ _ Hrep)).
  destruct L as [|[t e] L]; cbn [fmap list_fmap head_or fst]; [by exists None|].
  assert (pay (heap s) t = Some e) as He by (apply (rep_pay _ _ _ _ Hrep); by left).
  destruct (pay_load _ _ _ He) as (n & Hn & Hpn). rewrite Hn. cbn [mbind option_bind].
  assert (tm_time n = e_time e) as -> by (by subst e).
  pose proof (inv_norm _ _ _ _ Hinv) as [Hne _]%Forall_cons.
  unfold norm_entry in Hne. cbn [snd] in Hne.
  set (us := Z.max 0 (to_us (e_time e) - to_us now)).
  assert (0 <= us < 2 ^ 32 * 1000000) as Hus.
  { pose proof (to_us_range _ Hne). pose proof (to_us_range _ Hnow). lia. }
  assert ((let '(past, diff) := iperf_time_diff (e_time e) now in
           if past =? 0 then i64 (iperf_time_in_usecs diff) else 0) = us) as E.
  { pose proof (diff_spec (e_time e) now Hne Hnow) as (H1 & H2).
    destruct (iperf_time_diff (e_time e) now) as [past diff]. cbn [fst snd] in *.
    subst past. destruct (Z.leb_spec (to_us (e_time e)) (to_us now)); cbn; [lia|].
    rewrite H2, sint_id by (unfold is_sint; lia). lia. }
  destruct (iperf_time_diff (e_time e) now) as [past diff]. rewrite E.
  eexists. split; [done|]. cbn beta iota.
  pose proof (Z.quot_rem' us 1000000). pose proof (Z.rem_bound_pos us 1000000).
  pose proof (Z.quot_pos us 1000000).
  split; [lia|]. split; [lia|]. split.
  - intros x Hx. pose proof (sorted_head_min _ _ _ (inv_sorted _ _ _ _ Hinv) Hx) as Hm.
    unfold at_us in *. cbn [snd] in *. lia.
  - exists (t, e). split; [by left|]. unfold at_us. cbn [snd]. lia.
Qed.
End Timeout.

(** A concrete state: what the calls of [ex_ops] leave. *)
Definition ex_queue : list (loc * entry nat nat) * list loc :=
  default ([], []) (aexec_all ex_ops ([], [])).
Definition ex_state : tmr_state nat nat :=
  default (mk_tmr ∅ None None) (exec_all ex_ops (mk_tmr ∅ None None)).

Lemma ex_state_inv : tmr_inv ex_state [] ex_queue.1 ex_queue.2.
Proof.
  assert (forall os s L F L' F', tmr_inv s [] L F ->
    aexec_all os (L, F) = Some (L', F') ->
    exists s', exec_all (P := nat) (D := nat) os s = Some s' /\ tmr_inv s' [] L' F') as Hsim.
  { induction os as [|o os IH]; intros s L F L' F' Hinv; cbn [aexec_all exec_all].
    - intros [= <- <-]. eauto.
    - destruct (aexec o (L, F)) as [[L1 F1]|] eqn:E; [|done]. intros Ha.
      destruct (exec_simulates o s L F L1 F1 Hinv E) as (s1 & HE & Hinv1).
      rewrite HE. by apply (IH s1 L1 F1). }
  destruct (Hsim ex_ops (mk_tmr ∅ None None) [] [] ex_queue.1 ex_queue.2 init_inv)
    as (s' & HE & Hinv).
  - vm_compute. reflexivity.
  - assert (ex_state = s') as -> by (unfold ex_state; by rewrite HE). exact Hinv.
Qed.

Lemma timeout_is_earliest_witness :
  exists r, tmr_timeout (mk_time 7 250000) ex_state = Some (Some r) /\
    r = (0, 0) /\ exists x, x ∈ ex_queue.1 /\ at_us x <= to_us (mk_time 7 250000).
Proof.
  assert (time_norm (mk_time 7 250000)) as Hn.
  { unfold time_norm, is_uint. cbn [secs usecs]. lia. }
  destruct (timeout_is_earliest ex_state _ _ _ ex_state_inv Hn) as (r & E & Hr).
  assert (tmr_timeout (mk_time 7 250000) ex_state = Some (Some (0, 0))) as E0
    by (vm_compute; reflexivity).
  rewrite E0 in E. injection E as <-. exists (0, 0).
  split; [exact E0|]. split; [reflexivity|].
  destruct Hr as (_ & _ & _ & x & Hx & Hxe). exists x. split; [exact Hx|].
  revert Hxe. generalize (to_us (mk_time 7 250000)). intros n Hxe. lia.
Defined.

Section RunProps.
Context {P D W : Type}.
Context (call : P -> D -> iperf_time -> tmr_state P D * W ->
                option (tmr_state P D * W)).
Context (act : P -> D -> iperf_time -> W -> W).

(** C9: with callbacks that leave the timer lists alone and positive periods,
    [tmr_run] terminates without undefined behaviour whatever the number of
    timers. It calls the procedures of the timers of [fired], one after the other,
    in the order of their deadlines, all of which have passed; every
    timer that was due is among them, none is that was not. A
    timer that was not fired is still there, unchanged; a one-shot timer that was is
    gone; a periodic timer that was fired [n] times, each time at the deadline it then had, is
    there with its deadline [n] periods later. Afterwards no one-shot timer is due. *)
Theorem run_fires_due s w L F now fuel :
  (forall p d n s w, call p d n (s, w) = Some (s, act p d n w)) ->
  tmr_inv s [] L F -> time_norm now -> Forall (period_ok now) L ->
  (work now L < fuel)%nat ->
  exists s' w' L' F' fired,
    tmr_run call fuel now (s, w) = Some (s', w') /\
    tmr_inv s' [] L' F' /\ w' = effects act now fired w /\
    sorted fired /\ Forall (fun x => at_us x <= to_us now) fired /\
    (forall x, x ∈ L -> at_us x <= to_us now -> x ∈ fired) /\
    (forall x, x ∈ L -> outcome fired L' x) /\
    fired.*1 ⊆ L.*1 /\ L'.*1 ⊆ L.*1 /\
    (forall x, x ∈ L' -> e_periodic x.2 = 0 -> to_us now < at_us x).
Proof.
  intros Hq Hinv Hnow Hok Hf.
  destruct (tmr_run_spec act call Hq fuel now s w L F Hinv Hnow Hok Hf)
    as (s' & w' & L' & F' & fired & HR & Hinv' & Hruns & Hpost).
  rewrite Forall_forall in Hpost. pose proof (inv_sorted _ _ _ _ Hinv) as Hs.
  pose proof (rep_nodup _ _ _ _ (inv_rep _ _ _ _ Hinv)) as Hnd.
  cbn [app] in Hnd. apply NoDup_app in Hnd as [Hnd _].
  destruct (runs_origin act _ _ _ _ _ _ _ Hruns) as [Ho1 Ho2].
  exists s', w', L', F', fired. split_and!; try done.
  - by eapply runs_effects.
  - by eapply runs_in_order.
  - by eapply runs_due.
  - by eapply runs_fires.
  - exact (runs_outcome act _ [] L _ _ _ _ Hruns Hnd).
Qed.
End RunProps.

(** A callback that only logs its own name. *)
Definition log_call (p d : nat) (now : iperf_time) (sw : tmr_state nat nat * list nat)
    : option (tmr_state nat nat * list nat) := Some (sw.1, p :: sw.2).

(** A periodic timer fires; two other timers are not due. *)
Lemma run_fires_due_witness :
  exists s' w', tmr_run log_call 10 (mk_time 6 5) (ex_state, []) = Some (s', w') /\
    exists L' F' fired, tmr_inv s' [] L' F' /\ sorted fired /\
      w' = effects (fun p _ _ w => p :: w) (mk_time 6 5) fired [] /\
      (forall x, x ∈ ex_queue.1 -> outcome fired L' x).
Proof.
  destruct (run_fires_due log_call (fun p _ _ w => p :: w) ex_state [] ex_queue.1
              ex_queue.2 (mk_time 6 5) 10)
    as (s' & w' & L' & F' & fired & HR & Hinv & Hw & Hs & _ & _ & Ho & _).
  - intros p d n s w. reflexivity.
  - exact ex_state_inv.
  - unfold time_norm, is_uint. cbn [secs usecs]. lia.
  - apply Forall_forall. intros x Hx.
    assert (Forall (fun x : loc * entry nat nat => 0 < e_usecs x.2 <= 2000000) ex_queue.1)
      as Ha.
    { let q := eval vm_compute in ex_queue.1 in change (ex_queue.1) with q.
      repeat constructor; cbn [snd e_usecs]; lia. }
    rewrite Forall_forall in Ha. specialize (Ha x Hx). intros _. unfold to_us.
    cbn [secs usecs]. lia.
  - apply Nat.ltb_lt. vm_compute. reflexivity.
  - exists s', w'. split; [exact HR|]. exists L', F', fired.
    split; [exact Hinv|split; [exact Hs|split; [exact Hw|exact Ho]]].
Defined.

(** C28: [tmr_destroy] leaves no timer struct behind: whatever timers are active
    or recycled, it terminates, every struct the package allocated is freed
    exactly once and both list heads are null. *)
Theorem destroy_frees_everything {P D : Type} (s : tmr_state P D) L F :
  tmr_inv s [] L F -> tmr_destroy s = Some (mk_tmr ∅ None None).
Proof. apply tmr_destroy_spec. Qed.

Lemma destroy_frees_everything_witness :
  size (heap ex_state) = 3%nat /\ tmr_destroy ex_state = Some (mk_tmr ∅ None None).
Proof.
  split; [vm_compute; reflexivity|].
  exact (destroy_frees_everything ex_state _ _ ex_state_inv).
Defined.

(** A callback that, when timer procedure 0 runs, cancels the timer that
    follows, as [server_timer_proc] cancels the pacing timers of the streams it
    frees; other procedures only log their name. *)
Definition cancelling_call (p d : nat) (now : iperf_time)
    (sw : tmr_state nat nat * list nat) : option (tmr_state nat nat * list nat) :=
  match p with
  | O => s ← tmr_cancel 2%positive sw.1; Some (s, p :: sw.2)
  | _ => Some (sw.1, p :: sw.2)
  end.

Definition two_timers : list (op nat nat) :=
  [Create (Some 1%positive) (mk_time 1 0) 0%nat 0%nat 10 0;
   Create (Some 2%positive) (mk_time 1 0) 1%nat 0%nat 10 0].

(** [tmr_run] keeps the address of the next timer across a callback, so a
    callback that cancels that timer does not stop it: in this run procedure 0
    cancels the timer of procedure 1, procedure 1 is called all the same, its
    struct is put on the free list a second time, and [tmr_destroy] then
    dereferences storage it has already freed. *)
Theorem run_fires_cancelled_timer :
  exists s s',
    exec_all two_timers (mk_tmr ∅ None None) = Some s /\
    (exists s1, cancelling_call O O (mk_time 2 0) (s, []) = Some (s1, [O]) /\
       timers s1 = Some 1%positive /\ (tm_next <$> load 1%positive s1) = Some None) /\
    tmr_run cancelling_call 3 (mk_time 2 0) (s, []) = Some (s', [1; 0])%nat /\
    tmr_destroy s' = None.
Proof.
  eexists _, _. split; [vm_compute; reflexivity|]. split.
  - eexists. vm_compute. split; [reflexivity|]. split; reflexivity.
  - split; vm_compute; reflexivity.
Qed.
