(* ===== verification/Net.v ===== *)
(** * net.c: moving bytes

    [Nread], [Nwrite] and [Nsendfile] repeat a system call until the request is
    met or the call stops making progress.  Each loop runs with as much fuel as
    the request has bytes, plus one; [None] would mean that the fuel ran out,
    and the first theorems show that it cannot. *)

From S2P Require Import Prelude Bytes Posix.

Definition NET_SOFTERROR : Z := -1.
Definition NET_HARDERROR : Z := -2.

Section Net.
Context {W : Type} {posix : Posix W}.

(** The loop of [Nread]; [buf] is what was stored so far.  The result is the
    return value, the bytes stored in the caller's buffer, and the kernel. *)
Fixpoint Nread_loop (fuel : nat) (fd count nleft : Z) (buf : list Z) (w : W)
    : option (Z * list Z * W) :=
  match fuel with
  | O => None
  | S fuel =>
      if 0 <? nleft then
        match sys_read fd nleft w with
        | (Err e, w) =>
            if (e =? EINTR) || (e =? EAGAIN) || (e =? EWOULDBLOCK)
            then Some (i32 (count - nleft), buf, w)
            else Some (NET_HARDERROR, buf, w)
        | (Ok data, w) =>
            if Z.of_nat (length data) =? 0 then Some (i32 (count - nleft), buf, w)
            else Nread_loop fuel fd count (nleft - Z.of_nat (length data))
                   (buf ++ data) w
        end
      else Some (i32 (count - nleft), buf, w)
  end.

Definition Nread (fd count : Z) (w : W) : option (Z * list Z * W) :=
  Nread_loop (S (Z.to_nat count)) fd count count [] w.

(** The loop of [Nwrite]; [buf] is what is left to write. *)
Fixpoint Nwrite_loop (fuel : nat) (fd : Z) (buf : list Z) (count nleft : Z) (w : W)
    : option (Z * W) :=
  match fuel with
  | O => None
  | S fuel =>
      if 0 <? nleft then
        match sys_write fd buf w with
        | (Err e, w) =>
            if (e =? EINTR) || (e =? EAGAIN) || (e =? EWOULDBLOCK)
            then Some (i32 (count - nleft), w)
            else if e =? ENOBUFS then Some (NET_SOFTERROR, w)
            else Some (NET_HARDERROR, w)
        | (Ok r, w) =>
            if r =? 0 then Some (NET_SOFTERROR, w)
            else Nwrite_loop fuel fd (drop (Z.to_nat r) buf) count (nleft - r) w
        end
      else Some (i32 count, w)
  end.

Definition Nwrite (fd : Z) (buf : list Z) (w : W) : option (Z * W) :=
  let count := Z.of_nat (length buf) in
  Nwrite_loop (S (length buf)) fd buf count count w.

Fixpoint Nsendfile_loop (fuel : nat) (fromfd tofd count nleft : Z) (w : W)
    : option (Z * W) :=
  match fuel with
  | O => None
  | S fuel =>
      if 0 <? nleft then
        match sys_sendfile tofd fromfd (count - nleft) nleft w with
        | (Err e, w) =>
            if (e =? EINTR) || (e =? EAGAIN) || (e =? EWOULDBLOCK) then
              if count =? nleft then Some (NET_SOFTERROR, w)
              else Some (i32 (count - nleft), w)
            else if (e =? ENOBUFS) || (e =? ENOMEM) then Some (NET_SOFTERROR, w)
            else Some (NET_HARDERROR, w)
        | (Ok r, w) =>
            if r =? 0 then Some (NET_SOFTERROR, w)
            else Nsendfile_loop fuel fromfd tofd count (nleft - r) w
        end
      else Some (i32 count, w)
  end.

Definition Nsendfile (fromfd tofd count : Z) (w : W) : option (Z * W) :=
  Nsendfile_loop (S (Z.to_nat count)) fromfd tofd count count w.
End Net.

(** ** Facts *)

Section Facts.
Context {W : Type} {posix : Posix W} {laws : PosixLaws W}.

Lemma Nread_loop_total fuel fd count nleft buf w :
  (Z.to_nat nleft < fuel)%nat ->
  exists r, Nread_loop fuel fd count nleft buf w = Some r.
Proof.
  revert nleft buf w. induction fuel as [|fuel IH]; intros nleft buf w Hf; [lia|].
  cbn [Nread_loop]. destruct (Z.ltb_spec 0 nleft) as [Hn|]; [|eauto].
  destruct (sys_read fd nleft w) as [[data|e] w'] eqn:E; [|case_match; eauto].
  apply read_bound in E. destruct (Z.eqb_spec (Z.of_nat (length data)) 0); [eauto|].
  apply IH. lia.
Qed.

(** The loop only appends to what is already stored. *)
Lemma Nread_loop_extends fuel fd count nleft buf w r d w' :
  Nread_loop fuel fd count nleft buf w = Some (r, d, w') -> exists g, d = buf ++ g.
Proof.
  revert nleft buf w. induction fuel as [|fuel IH]; intros nleft buf w;
    cbn [Nread_loop]; [done|].
  assert (exists g, buf = buf ++ g) as Hstop by (exists []; by rewrite app_nil_r).
  destruct (0 <? nleft); [|by intros [= _ <- _]].
  destruct (sys_read fd nleft w) as [[data|e] w1].
  - case_match; [by intros [= _ <- _]|].
    intros (g & ->)%IH. exists (data ++ g). by rewrite app_assoc.
  - case_match; by intros [= _ <- _].
Qed.

Lemma Nwrite_loop_total fuel fd buf count nleft w :
  nleft = Z.of_nat (length buf) -> (length buf < fuel)%nat ->
  exists r, Nwrite_loop fuel fd buf count nleft w = Some r.
Proof.
  revert buf nleft w. induction fuel as [|fuel IH]; intros buf nleft w -> Hf; [lia|].
  cbn [Nwrite_loop]. destruct (Z.ltb_spec 0 (Z.of_nat (length buf))) as [Hn|]; [|eauto].
  destruct (sys_write fd buf w) as [[k|e] w'] eqn:E; [|repeat case_match; eauto].
  apply write_bound in E. destruct (Z.eqb_spec k 0); [eauto|].
  apply IH; rewrite length_drop; lia.
Qed.

Lemma Nread_total fd count w : exists r data w', Nread fd count w = Some (r, data, w').
Proof.
  destruct (Nread_loop_total (S (Z.to_nat count)) fd count count [] w) as [[[r data] w'] H];
    [lia|]. by exists r, data, w'.
Qed.

Lemma Nwrite_total fd buf w : exists r w', Nwrite fd buf w = Some (r, w').
Proof.
  destruct (Nwrite_loop_total (S (length buf)) fd buf (Z.of_nat (length buf))
              (Z.of_nat (length buf)) w eq_refl) as [[r w'] H]; [lia|]. by exists r, w'.
Qed.

Lemma Nsendfile_loop_total fuel fromfd tofd count nleft w :
  (Z.to_nat nleft < fuel)%nat ->
  exists r, Nsendfile_loop fuel fromfd tofd count nleft w = Some r.
Proof.
  revert nleft w. induction fuel as [|fuel IH]; intros nleft w Hf; [lia|].
  cbn [Nsendfile_loop]. destruct (Z.ltb_spec 0 nleft) as [Hn|]; [|eauto].
  destruct (sys_sendfile tofd fromfd (count - nleft) nleft w) as [[k|e] w'] eqn:E;
    [|repeat case_match; eauto].
  apply sendfile_bound in E. destruct (Z.eqb_spec k 0); [eauto|]. apply IH. lia.
Qed.
End Facts.

Section Streams.
Context {W : Type} {posix : Posix W} {laws : PosixLaws W} {stream : StreamLaws W}.

(** What [Nread] has done when it returns: it stored a prefix of what was
    waiting and consumed exactly that; a non-negative result counts it. *)
Lemma Nread_loop_spec fuel fd count nleft buf w r data w' :
  count < 2 ^ 31 -> 0 <= nleft -> Z.of_nat (length buf) = count - nleft ->
  Nread_loop fuel fd count nleft buf w = Some (r, data, w') ->
  exists got, data = buf ++ got /\ Z.of_nat (length got) <= nleft /\
    inbox w fd = got ++ inbox w' fd /\ outbox w' = outbox w /\
    (r = Z.of_nat (length data) \/ r = NET_HARDERROR).
Proof.
  intros Hc. revert nleft buf w.
  induction fuel as [|fuel IH]; intros nleft buf w Hn Hb; cbn [Nread_loop]; [done|].
  assert (i32 (count - nleft) = count - nleft) as Hi.
  { apply sint_id; [lia|]. unfold is_sint. lia. }
  assert (forall w1, inbox w1 = inbox w -> outbox w1 = outbox w ->
    exists got, buf = buf ++ got /\ Z.of_nat (length got) <= nleft /\
      inbox w fd = got ++ inbox w1 fd /\ outbox w1 = outbox w) as Hstop.
  { intros w1 E1 E2. exists []. rewrite app_nil_r, E1. cbn. auto with lia. }
  destruct (Z.ltb_spec 0 nleft) as [Hpos|].
  - destruct (sys_read fd nleft w) as [[d|e] w1] eqn:E.
    + pose proof (read_bound _ _ _ _ _ E) as Hd. apply read_ok in E as [E1 E2].
      destruct (Z.eqb_spec (Z.of_nat (length d)) 0) as [H0|H0].
      * intros [= <- <- <-]. destruct d; [|cbn in H0; lia].
        exists []. rewrite app_nil_r. cbn. repeat split; [lia|done|done|left; lia].
      * intros HL. apply IH in HL as (got & -> & Hlen & Hin & Hout & Hr);
          [|lia|rewrite length_app; lia].
        exists (d ++ got). split; [by rewrite app_assoc|].
        split; [rewrite length_app; lia|]. split; [by rewrite E1, Hin, app_assoc|].
        split; [congruence|done].
    + apply read_err in E as [E1 E2]. destruct (Hstop w1 E1 E2) as (got & Hg).
      case_match; intros [= <- <- <-]; exists got; destruct_and!;
        repeat split; auto. left. lia.
  - intros [= <- <- <-]. destruct (Hstop w eq_refl eq_refl) as (got & Hg).
    exists got. destruct_and!. repeat split; auto. left. lia.
Qed.

(** What [Nwrite] has done when it returns: it sent a prefix of the buffer; a
    non-negative result is its length. *)
Lemma Nwrite_loop_spec fuel fd buf count nleft w r w' :
  count < 2 ^ 31 -> nleft = Z.of_nat (length buf) -> nleft <= count ->
  Nwrite_loop fuel fd buf count nleft w = Some (r, w') ->
  exists k, (k <= length buf)%nat /\
    outbox w' fd = outbox w fd ++ take k buf /\ inbox w' = inbox w /\
    (r = count - nleft + Z.of_nat k \/ r = NET_HARDERROR \/ r = NET_SOFTERROR).
Proof.
  intros Hc. revert buf nleft w.
  induction fuel as [|fuel IH]; intros buf nleft w -> Hb; cbn [Nwrite_loop]; [done|].
  assert (forall n, 0 <= n <= count -> i32 n = n) as Hi.
  { intros n ?. apply sint_id; [lia|]. unfold is_sint. lia. }
  destruct (Z.ltb_spec 0 (Z.of_nat (length buf))) as [Hpos|Hz].
  - destruct (sys_write fd buf w) as [[d|e] w1] eqn:E.
    + pose proof (write_bound _ _ _ _ _ E) as Hd. apply write_ok in E as [E1 E2].
      destruct (Z.eqb_spec d 0) as [->|H0].
      * intros [= <- <-]. exists O. cbn in *. rewrite app_nil_r in *. auto with lia.
      * intros HL. apply IH in HL as (k & Hk & Hout & Hin & Hr);
          [|rewrite length_drop; lia|lia].
        exists (Z.to_nat d + k)%nat. rewrite length_drop in Hk.
        rewrite Hout, E1, Hin, E2, <- app_assoc, take_take_drop.
        repeat split; [lia|]. destruct Hr as [->|Hr]; [left; lia|auto].
    + apply write_err in E as [E1 E2]. rewrite <- E1, <- E2.
      assert (exists k, (k <= length buf)%nat /\
        outbox w1 fd = outbox w1 fd ++ take k buf /\ inbox w1 = inbox w1 /\ k = O)
        as (k & Hk & Ho & _ & Hk0).
      { exists O. rewrite app_nil_r. auto with lia. }
      repeat case_match; intros [= <- <-]; exists k; repeat split; auto.
      left. rewrite Hi by lia. lia.
  - intros [= <- <-]. exists O. rewrite app_nil_r.
    repeat split; [lia|]. left. rewrite Hi by lia. lia.
Qed.

Lemma Nwrite_result fd buf w :
  Z.of_nat (length buf) < 2 ^ 31 ->
  exists r w', Nwrite fd buf w = Some (r, w') /\ r <= Z.of_nat (length buf).
Proof.
  intros Hb. unfold Nwrite.
  destruct (Nwrite_loop_total (S (length buf)) fd buf (Z.of_nat (length buf))
              (Z.of_nat (length buf)) w eq_refl) as [[r w'] HL]; [lia|].
  rewrite HL. exists r, w'. split; [done|].
  apply Nwrite_loop_spec in HL as (k & Hk & _ & _ & Hr); [|lia..].
  unfold NET_HARDERROR, NET_SOFTERROR in Hr. lia.
Qed.
End Streams.

(** * What the functions do

    The byte-moving loops of [Net.v], and [JSON_write]/[JSON_read] of
    iperf_api.c, which put a JSON text on the control connection behind its
    length. *)

(** ** JSON_write and JSON_read (iperf_api.c) *)

(** The C string a buffer holds: the bytes before the first NUL. *)
Fixpoint cstr (bs : list Z) : list Z :=
  match bs with
  | [] => []
  | b :: bs => if b =? 0 then [] else b :: cstr bs
  end.

Section Frame.
Context {W : Type} {posix : Posix W}.

(** [str] is what [cJSON_PrintUnformatted] answered. *)
Definition JSON_write (h : endianness) (fd : Z) (str : option (list Z)) (w : W)
    : option (Z * W) :=
  match str with
  | None => Some (-1, w)
  | Some str =>
      let hsize := u32 (Z.of_nat (length str)) in
      let nsize := hton h 4 hsize in
      '(r, w) ← Nwrite fd (mem_store h 4 nsize) w;
      if r <? 0 then Some (-1, w)
      else
        '(r, w) ← Nwrite fd (take (Z.to_nat hsize) str) w;
        if r <? 0 then Some (-1, w) else Some (0, w)
  end.

(** [nsize0] is what the uninitialised variable [nsize] holds, [calloc_ok]
    whether [calloc] succeeds, [parse] is [cJSON_Parse]. A [None] is a store
    past the end of the allocated buffer. *)
Definition JSON_read {J : Type} (h : endianness) (parse : list Z -> option J)
    (nsize0 : list Z) (calloc_ok : bool) (fd : Z) (w : W) : option (option J * W) :=
  '(r, nbytes, w) ← Nread fd 4 w;
  if 0 <=? r then
    let nsize := mem_load h (nbytes ++ drop (length nbytes) nsize0) in
    let hsize := hton h 4 nsize in
    let size := u32 (hsize + 1) in
    if calloc_ok then
      '(rc, data, w) ← Nread fd hsize w;
      if size <? Z.of_nat (length data) then None
      else if (0 <=? rc) && (u32 rc =? hsize) then Some (parse (cstr data), w)
      else Some (None, w)
    else Some (None, w)
  else Some (None, w).
End Frame.

(** ** Reliable descriptors *)

Section Reliable.
Context {W : Type} {posix : Posix W} {laws : PosixLaws W} {stream : StreamLaws W}
  {reliable : ReliableLaws W}.

Lemma Nread_loop_reliable fuel fd count nleft buf w :
  count < 2 ^ 31 -> 0 <= nleft <= count -> (Z.to_nat nleft < fuel)%nat ->
  nleft <= Z.of_nat (length (inbox w fd)) ->
  exists w', Nread_loop fuel fd count nleft buf w
    = Some (count, buf ++ take (Z.to_nat nleft) (inbox w fd), w') /\
    inbox w' fd = drop (Z.to_nat nleft) (inbox w fd) /\ outbox w' = outbox w.
Proof.
  intros Hc. revert nleft buf w. induction fuel as [|fuel IH];
    intros nleft buf w Hn Hf Hin; [lia|]. cbn [Nread_loop].
  destruct (Z.ltb_spec 0 nleft) as [Hpos|Hz].
  - destruct (read_progress fd nleft w) as (d & w1 & E & Hd).
    { done. } { intros E. rewrite E in Hin. cbn in Hin. lia. }
    rewrite E. pose proof (read_bound _ _ _ _ _ E) as Hb.
    apply read_ok in E as [E1 E2].
    assert (length d <> 0%nat) as Hd0 by (by destruct d).
    destruct (Z.eqb_spec (Z.of_nat (length d)) 0) as [|_]; [lia|].
    rewrite E1, length_app in Hin.
    destruct (IH (nleft - Z.of_nat (length d)) (buf ++ d) w1) as (w' & HL & Hi & Ho);
      [lia..|].
    exists w'. rewrite HL, <- app_assoc, E1.
    assert (Z.to_nat nleft
            = (length d + Z.to_nat (nleft - Z.of_nat (length d)))%nat) as -> by lia.
    rewrite take_app_add, drop_app_add. repeat split; [done|congruence].
  - exists w. replace nleft with 0 in * by lia. cbn. rewrite app_nil_r, Z.sub_0_r.
    rewrite sint_id by (unfold is_sint; lia). done.
Qed.

Lemma Nread_reliable fd n w :
  0 <= n < 2 ^ 31 -> n <= Z.of_nat (length (inbox w fd)) ->
  exists w', Nread fd n w = Some (n, take (Z.to_nat n) (inbox w fd), w') /\
    inbox w' fd = drop (Z.to_nat n) (inbox w fd) /\ outbox w' = outbox w.
Proof. intros Hn Hin. apply (Nread_loop_reliable _ fd n n [] w); lia. Qed.

Lemma Nwrite_loop_reliable fuel fd buf count w :
  count < 2 ^ 31 -> Z.of_nat (length buf) <= count -> (length buf < fuel)%nat ->
  exists w', Nwrite_loop fuel fd buf count (Z.of_nat (length buf)) w = Some (count, w') /\
    outbox w' fd = outbox w fd ++ buf /\ inbox w' = inbox w.
Proof.
  intros Hc. revert buf w. induction fuel as [|fuel IH]; intros buf w Hb Hf; [lia|].
  cbn [Nwrite_loop]. destruct (Z.ltb_spec 0 (Z.of_nat (length buf))) as [Hpos|Hz].
  - destruct (write_progress fd buf w) as (k & w1 & E & Hk).
    { by destruct buf. }
    rewrite E. pose proof (write_bound _ _ _ _ _ E) as Hkb.
    apply write_ok in E as [E1 E2]. destruct (Z.eqb_spec k 0) as [|_]; [lia|].
    destruct (IH (drop (Z.to_nat k) buf) w1) as (w' & HL & Ho & Hi);
      [rewrite length_drop; lia..|].
    exists w'. rewrite length_drop in HL.
    replace (Z.of_nat (length buf) - k)
      with (Z.of_nat (length buf - Z.to_nat k)%nat) by lia.
    rewrite HL. split; [done|]. rewrite Ho, E1, <- app_assoc, take_drop.
    split; [done|congruence].
  - destruct buf; [|cbn in Hz; lia]. exists w. rewrite app_nil_r.
    rewrite sint_id; [done|lia|]. unfold is_sint. cbn in Hb. lia.
Qed.

Lemma Nwrite_reliable fd buf w :
  Z.of_nat (length buf) < 2 ^ 31 ->
  exists w', Nwrite fd buf w = Some (Z.of_nat (length buf), w') /\
    outbox w' fd = outbox w fd ++ buf /\ inbox w' = inbox w.
Proof. intros H. apply Nwrite_loop_reliable; lia. Qed.
End Reliable.

(** The bytes of one control message. *)
Definition frame (str : list Z) : list Z := be_bytes 4 (Z.of_nat (length str)) ++ str.

Lemma cstr_id bs : Forall (fun b => b <> 0) bs -> cstr bs = bs.
Proof.
  induction 1 as [|b bs Hb _ IH]; cbn; [done|].
  destruct (Z.eqb_spec b 0); [done|]. by rewrite IH.
Qed.

Lemma JSON_write_frame {W : Type} {posix : Posix W} {laws : PosixLaws W}
    {stream : StreamLaws W} {reliable : ReliableLaws W} h fd str (w : W) :
  Z.of_nat (length str) < 2 ^ 31 ->
  exists w', JSON_write h fd (Some str) w = Some (0, w') /\
    outbox w' fd = outbox w fd ++ frame str /\ inbox w' = inbox w.
Proof.
  intros Hlen. unfold JSON_write.
  rewrite uint_id by (unfold is_uint; lia). rewrite store_hton.
  destruct (Nwrite_reliable fd (be_bytes 4 (Z.of_nat (length str))) w)
    as (w1 & -> & Ho1 & Hi1); [rewrite length_be_bytes; lia|].
  cbn [mbind option_bind]. rewrite length_be_bytes. cbn [Z.ltb Z.of_nat Z.compare].
  rewrite Nat2Z.id, take_ge by done.
  destruct (Nwrite_reliable fd str w1) as (w2 & -> & Ho2 & Hi2); [done|].
  cbn [mbind option_bind]. destruct (Z.ltb_spec (Z.of_nat (length str)) 0); [lia|].
  exists w2. split; [done|]. unfold frame. rewrite Ho2, Ho1, app_assoc.
  split; [done|congruence].
Qed.

(** Reading the length prefix. *)
Lemma header_read {W : Type} {posix : Posix W} {laws : PosixLaws W}
    {stream : StreamLaws W} {reliable : ReliableLaws W} h junk fd n body (w : W) :
  length junk = 4%nat -> is_uint 32 n -> inbox w fd = be_bytes 4 n ++ body ->
  exists w', Nread fd 4 w = Some (4, be_bytes 4 n, w') /\
    hton h 4 (mem_load h (be_bytes 4 n ++ drop (length (be_bytes 4 n)) junk)) = n /\
    inbox w' fd = body /\ outbox w' = outbox w.
Proof.
  intros Hj Hn Hin.
  destruct (Nread_reliable fd 4 w) as (w1 & HR & Hi & Ho); [lia| |].
  { rewrite Hin, length_app, length_be_bytes. lia. }
  rewrite Hin in HR, Hi. change (Z.to_nat 4) with 4%nat in *.
  rewrite take_app_length' in HR by (by rewrite length_be_bytes).
  rewrite drop_app_length' in Hi by (by rewrite length_be_bytes).
  exists w1. split; [done|]. split; [|done].
  rewrite length_be_bytes, (drop_ge junk) by lia. rewrite app_nil_r.
  pose proof (load_ntoh h (be_bytes 4 n) (be_bytes_byte 4 n)) as HL.
  rewrite length_be_bytes in HL. rewrite HL. by apply be_val_bytes.
Qed.

(** A read of a positive number of waiting bytes stores at least one. *)
Lemma Nread_stores {W : Type} {posix : Posix W} {laws : PosixLaws W}
    {stream : StreamLaws W} {reliable : ReliableLaws W} fd n (w : W) :
  0 < n -> inbox w fd <> [] ->
  exists r d w', Nread fd n w = Some (r, d, w') /\ d <> [].
Proof.
  intros Hn Hin. destruct (read_progress fd n w Hn Hin) as (d & w1 & E & Hd).
  unfold Nread. destruct (Z.to_nat n) as [|k] eqn:Ek; [lia|]. cbn [Nread_loop].
  destruct (Z.ltb_spec 0 n); [|lia]. rewrite E.
  pose proof (read_bound _ _ _ _ _ E) as Hb.
  assert (length d <> 0%nat) as Hd0 by (by destruct d).
  destruct (Z.eqb_spec (Z.of_nat (length d)) 0); [lia|].
  destruct (Nread_loop_total (S k) fd n (n - Z.of_nat (length d)) ([] ++ d) w1)
    as [[[r d'] w'] HL]; [lia|].
  exists r, d', w'. split; [exact HL|]. apply Nread_loop_extends in HL as (g & ->).
  by destruct d.
Qed.

Lemma JSON_read_frame {W J : Type} {posix : Posix W} {laws : PosixLaws W}
    {stream : StreamLaws W} {reliable : ReliableLaws W} h (parse : list Z -> option J)
    junk fd str rest (w : W) :
  Z.of_nat (length str) < 2 ^ 31 -> Forall (fun b => b <> 0) str ->
  length junk = 4%nat -> inbox w fd = frame str ++ rest ->
  exists w', JSON_read h parse junk true fd w = Some (parse str, w') /\
    inbox w' fd = rest /\ outbox w' = outbox w.
Proof.
  intros Hlen Hnz Hj Hin. unfold frame in Hin. rewrite <- app_assoc in Hin.
  destruct (header_read h junk fd (Z.of_nat (length str)) (str ++ rest) w)
    as (w1 & HR & Hh & Hi1 & Ho1); [done|unfold is_uint; lia|done|].
  unfold JSON_read. rewrite HR. cbn [mbind option_bind Z.leb Z.compare].
  rewrite Hh.
  destruct (Nread_reliable fd (Z.of_nat (length str)) w1) as (w2 & -> & Hi2 & Ho2);
    [lia|rewrite Hi1, length_app; lia|].
  cbn [mbind option_bind]. rewrite Hi1, Nat2Z.id in *.
  rewrite take_app_length, drop_app_length in *.
  rewrite !uint_id by (unfold is_uint; lia).
  destruct (Z.ltb_spec (Z.of_nat (length str) + 1) (Z.of_nat (length str))); [lia|].
  rewrite Z.eqb_refl. destruct (Z.leb_spec 0 (Z.of_nat (length str))); [|lia].
  cbn [andb]. rewrite cstr_id by done. exists w2. split; [done|]. split; [done|congruence].
Qed.

(** ** Properties *)

Section Props.
Context {W : Type} {posix : Posix W} {laws : PosixLaws W} {stream : StreamLaws W}.

(** [Nread] always returns. It never stores more than [count] bytes, what
    it stores is exactly the prefix of the stream it consumed, and its result
    is the number of stored bytes, or [NET_HARDERROR] after an error of the
    system call, in which case bytes may have been consumed all the same. *)
Theorem Nread_prefix fd count (w : W) :
  0 <= count < 2 ^ 31 ->
  exists r data w', Nread fd count w = Some (r, data, w') /\
    Z.of_nat (length data) <= count /\
    inbox w fd = data ++ inbox w' fd /\ outbox w' = outbox w /\
    (r = Z.of_nat (length data) \/ r = NET_HARDERROR).
Proof.
  intros Hc. destruct (Nread_loop_total (S (Z.to_nat count)) fd count count [] w)
    as [[[r data] w'] HL]; [lia|].
  exists r, data, w'. split; [exact HL|].
  apply Nread_loop_spec in HL as (got & -> & ?); [|cbn; lia..]. done.
Qed.

(** [Nwrite] always returns. What it sent is a prefix of the buffer; a
    non-negative result is the length of that prefix and never more than the
    buffer's; [NET_SOFTERROR] and [NET_HARDERROR] say nothing about how much
    was sent before the error. *)
Theorem Nwrite_prefix fd buf (w : W) :
  Z.of_nat (length buf) < 2 ^ 31 ->
  exists r w' k, Nwrite fd buf w = Some (r, w') /\
    (k <= length buf)%nat /\
    outbox w' fd = outbox w fd ++ take k buf /\ inbox w' = inbox w /\
    (r = Z.of_nat k \/ r = NET_HARDERROR \/ r = NET_SOFTERROR).
Proof.
  intros Hc. unfold Nwrite.
  destruct (Nwrite_loop_total (S (length buf)) fd buf (Z.of_nat (length buf))
              (Z.of_nat (length buf)) w eq_refl) as [[r w'] HL]; [lia|].
  rewrite HL. apply Nwrite_loop_spec in HL as (k & Hk & Ho & Hi & Hr); [|lia..].
  exists r, w', k. rewrite Z.sub_diag in Hr. auto.
Qed.
End Props.

Definition ex_pipe : Pipe.pipe := Pipe.mk_pipe 3 [10; 20; 30; 40; 50; 60; 70] [].

Lemma Nread_prefix_witness :
  exists r data w', Nread 5 4 ex_pipe = Some (r, data, w') /\
    r = 4 /\ data = [10; 20; 30; 40] /\ inbox ex_pipe 5 = data ++ inbox w' 5.
Proof.
  destruct (Nread_prefix 5 4 ex_pipe) as (r & data & w' & HR & _ & Hi & _); [lia|].
  exists r, data, w'. split; [exact HR|]. vm_compute in HR.
  injection HR as <- <- <-. split; [reflexivity|]. split; [reflexivity|]. exact Hi.
Defined.

Lemma Nwrite_prefix_witness :
  exists w', Nwrite 5 [1; 2; 3; 4; 5] ex_pipe = Some (5, w') /\
    outbox w' 5 = [1; 2; 3; 4; 5].
Proof.
  destruct (Nwrite_prefix 5 [1; 2; 3; 4; 5] ex_pipe)
    as (r & w' & k & HR & _); [cbn; lia|].
  exists w'. vm_compute in HR. injection HR as <- <-.
  split; vm_compute; reflexivity.
Defined.

(** C10: a control message survives the connection. On kernels whose descriptors
    make progress, [JSON_write] succeeds and puts one frame on the wire, and
    [JSON_read] on the other side, whatever the byte orders of the two hosts and
    however the kernels split the stream into reads and writes, parses exactly
    the text that was written and leaves exactly what followed it. *)
Theorem control_message_roundtrip {W1 W2 J : Type}
    {p1 : Posix W1} {l1 : PosixLaws W1} {s1 : StreamLaws W1} {r1 : ReliableLaws W1}
    {p2 : Posix W2} {l2 : PosixLaws W2} {s2 : StreamLaws W2} {r2 : ReliableLaws W2}
    (h1 h2 : endianness) (parse : list Z -> option J) nsize0 fd1 fd2 str rest
    (w1 : W1) (w2 : W2) :
  Z.of_nat (length str) < 2 ^ 31 -> Forall (fun b => b <> 0) str ->
  length nsize0 = 4%nat ->
  exists w1' msg,
    JSON_write h1 fd1 (Some str) w1 = Some (0, w1') /\
    outbox w1' fd1 = outbox w1 fd1 ++ msg /\
    (inbox w2 fd2 = msg ++ rest ->
     exists w2', JSON_read h2 parse nsize0 true fd2 w2 = Some (parse str, w2') /\
       inbox w2' fd2 = rest).
Proof.
  intros Hlen Hnz Hj.
  destruct (JSON_write_frame h1 fd1 str w1 Hlen) as (w1' & HW & Ho & _).
  exists w1', (frame str). split; [done|]. split; [done|]. intros Hin.
  destruct (JSON_read_frame h2 parse nsize0 fd2 str rest w2 Hlen Hnz Hj Hin)
    as (w2' & HR & Hi & _). eauto.
Qed.

Lemma control_message_roundtrip_witness :
  exists w1' msg,
    JSON_write LittleEndian 4 (Some [123; 125]) (Pipe.mk_pipe 1 [] []) = Some (0, w1') /\
    msg = [0; 0; 0; 2; 123; 125] /\
    exists w2', JSON_read BigEndian Some [7; 7; 7; 7] true 4
                  (Pipe.mk_pipe 5 (msg ++ [1]) []) = Some (Some [123; 125], w2') /\
      Pipe.incoming w2' = [1].
Proof.
  destruct (control_message_roundtrip LittleEndian BigEndian Some [7; 7; 7; 7] 4 4
              [123; 125] [1] (Pipe.mk_pipe 1 [] [])
              (Pipe.mk_pipe 5 ([0; 0; 0; 2; 123; 125] ++ [1]) []))
    as (w1' & msg & HW & Ho & HR).
  - cbn. lia.
  - repeat constructor; lia.
  - reflexivity.
  - exists w1', msg. split; [exact HW|].
    assert (msg = [0; 0; 0; 2; 123; 125]) as ->.
    { vm_compute in HW. injection HW as <-. vm_compute in Ho. symmetry. exact Ho. }
    split; [reflexivity|]. destruct HR as (w2' & E & Hi); [reflexivity|].
    exists w2'. split; [exact E|exact Hi].
Defined.

(** The length prefix ff ff ff ff makes [JSON_read] write past the end of
    its buffer: the size it allocates, [hsize + 1], wraps to 0 in 32 bits, and
    the read that follows stores the rest of the message there. Every shorter
    length is stored within the allocation. *)
Theorem JSON_read_overflow {W J : Type} {posix : Posix W} {laws : PosixLaws W}
    {stream : StreamLaws W} {reliable : ReliableLaws W} h (parse : list Z -> option J)
    nsize0 fd n body (w : W) :
  length nsize0 = 4%nat -> is_uint 32 n -> body <> [] ->
  inbox w fd = be_bytes 4 n ++ body ->
  n < 2 ^ 31 \/ n = 2 ^ 32 - 1 ->
  JSON_read h parse nsize0 true fd w = None <-> n = 2 ^ 32 - 1.
Proof.
  intros Hj Hn Hbody Hin Hcase.
  destruct (header_read h nsize0 fd n body w Hj Hn Hin) as (w1 & HR & Hh & Hi1 & _).
  unfold JSON_read. rewrite HR. cbn [mbind option_bind Z.leb Z.compare]. rewrite Hh.
  destruct Hcase as [Hs| ->].
  - split; [|intros ->; lia]. unfold is_uint in Hn.
    destruct (Nread_loop_total (S (Z.to_nat n)) fd n n [] w1) as [[[r d] w2] HL]; [lia|].
    unfold Nread. rewrite HL. cbn [mbind option_bind].
    apply Nread_loop_spec in HL as (got & -> & Hg & _); [|cbn; lia..].
    cbn [app]. rewrite uint_id by (unfold is_uint; lia).
    destruct (Z.ltb_spec (n + 1) (Z.of_nat (length got))); [lia|].
    by case_match.
  - split; [done|]. intros _.
    destruct (Nread_stores fd (2 ^ 32 - 1) w1) as (r & d & w2 & -> & Hd); [lia| |].
    { by rewrite Hi1. }
    cbn [mbind option_bind]. change (u32 (2 ^ 32 - 1 + 1)) with 0.
    destruct (Z.ltb_spec 0 (Z.of_nat (length d))); [done|].
    destruct d; [done|cbn in *; lia].
Qed.

Lemma JSON_read_overflow_witness :
  JSON_read (J := unit) LittleEndian (fun _ => None) [0; 0; 0; 0] true 3
    (Pipe.mk_pipe 16 [255; 255; 255; 255; 65; 65] []) = None.
Proof.
  apply (JSON_read_overflow LittleEndian (fun _ => None) [0; 0; 0; 0] 3 (2 ^ 32 - 1)
           [65; 65]).
  - reflexivity.
  - unfold is_uint. lia.
  - discriminate.
  - vm_compute. reflexivity.
  - right. reflexivity.
  - reflexivity.
Defined.
