(* ===== verification/CJson.v ===== *)
(** * cjson.c: the JSON values of the control messages

    The part of the vendored cJSON library the program's own code works with:
    building objects and arrays, and looking members up. The texts of values are in
    [JsonText] and [JsonParse], the rest of the library in [CJsonOps] and
    [CJsonLinks]. *)

From Stdlib Require Export Ascii.
From stdpp Require Export strings.
From S2P Require Import Prelude Double.

#[local] Open Scope Z_scope.

(** A [cJSON] item; the members of an object in the order they were added. A
    number carries [valueint] and [valuedouble]; the parser sets the [valueint] of
    a true it reads as well, and [cJSON_CreateTrue] does not. *)
Inductive cJSON :=
| JNull
| JBool (b : bool) (valueint : Z)
| JNumber (valueint : Z) (valuedouble : double)
| JString (s : string)
| JArray (items : list cJSON)
| JObject (members : list (string * cJSON)).

(** The struct members of an item whatever its type is: zero, or a null pointer,
    where they were not set. *)
Definition valueint (j : cJSON) : Z :=
  match j with JNumber z _ | JBool _ z => z | _ => 0 end.
Definition valuedouble (j : cJSON) : double :=
  match j with JNumber _ d => d | _ => d_zero end.
Definition valuestring (j : cJSON) : option string :=
  match j with JString s => Some s | _ => None end.

Definition LLONG_MAX : Z := 2 ^ 63 - 1.
Definition LLONG_MIN : Z := - 2 ^ 63.

(** Saturated conversion. C leaves the [valueint] of a NaN undefined; this is what
    the conversion instruction of x86-64 answers. *)
Definition cJSON_CreateNumber (num : double) : cJSON :=
  JNumber
    (if d_le (d_of_Z LLONG_MAX) num then LLONG_MAX
     else if d_le num (d_of_Z LLONG_MIN) then LLONG_MIN
     else default LLONG_MIN (d_trunc num)) num.

(** ** Lookup *)

Definition tolower (c : ascii) : ascii :=
  let n := nat_of_ascii c in
  if ((65 <=? n) && (n <=? 90))%nat then ascii_of_nat (n + 32) else c.

(** Whether [case_insensitive_strcmp] answers 0. *)
Fixpoint case_insensitive_eq (s1 s2 : string) : bool :=
  match s1, s2 with
  | EmptyString, EmptyString => true
  | String c1 s1, String c2 s2 =>
      if decide (tolower c1 = tolower c2) then case_insensitive_eq s1 s2 else false
  | _, _ => false
  end.

Fixpoint get_member (name : string) (ms : list (string * cJSON)) : option cJSON :=
  match ms with
  | [] => None
  | (key, item) :: ms =>
      if case_insensitive_eq name key then Some item else get_member name ms
  end.

(** The children of an array have no name, so none of them is ever found. *)
Definition cJSON_GetObjectItem (j : cJSON) (name : string) : option cJSON :=
  match j with JObject ms => get_member name ms | _ => None end.

(** [cJSON_GetArrayItem] and [cJSON_GetArraySize] walk the children. *)
Definition children (j : cJSON) : list cJSON :=
  match j with JArray items => items | JObject ms => ms.*2 | _ => [] end.

Definition cJSON_GetArraySize (j : cJSON) : Z := Z.of_nat (length (children j)).
Definition cJSON_GetArrayItem (j : cJSON) (i : nat) : option cJSON := children j !! i.

(** [cJSON_DetachItemFromObject]: the item, and the object without it. *)
Fixpoint detach_member (name : string) (ms : list (string * cJSON))
    : option (cJSON * list (string * cJSON)) :=
  match ms with
  | [] => None
  | (key, item) :: ms =>
      if case_insensitive_eq name key then Some (item, ms)
      else '(found, ms) ← detach_member name ms; Some (found, (key, item) :: ms)
  end.

Definition cJSON_DetachItemFromObject (j : cJSON) (name : string) : option (cJSON * cJSON) :=
  match j with
  | JObject ms => '(item, ms) ← detach_member name ms; Some (item, JObject ms)
  | _ => None
  end.

(** ** Construction *)

(** [add_item_to_object] appends; on something that is not an object it would
    still append a child, but the program does not do that. *)
Definition cJSON_AddItemToObject (j : cJSON) (name : string) (item : cJSON) : cJSON :=
  match j with JObject ms => JObject (ms ++ [(name, item)]) | _ => j end.

Definition cJSON_AddItemToArray (j : cJSON) (item : cJSON) : cJSON :=
  match j with JArray items => JArray (items ++ [item]) | _ => j end.

Definition cJSON_AddTrueToObject (j : cJSON) (name : string) : cJSON :=
  cJSON_AddItemToObject j name (JBool true 0).
Definition cJSON_AddStringToObject (j : cJSON) (name : string) (s : string) : cJSON :=
  cJSON_AddItemToObject j name (JString s).
Definition cJSON_AddNumberToObject (j : cJSON) (name : string) (d : double) : cJSON :=
  cJSON_AddItemToObject j name (cJSON_CreateNumber d).

(** ** Facts *)

(** An integer of less than 53 bits is stored exactly. *)
Lemma create_number_exact z :
  Z.abs z < 2 ^ 53 -> cJSON_CreateNumber (d_of_Z z) = JNumber z (d_of_Z z).
Proof.
  intros Hz. unfold cJSON_CreateNumber.
  rewrite d_of_Z_below_llong_max, d_of_Z_above_llong_min by done.
  by rewrite d_trunc_of_Z.
Qed.

Lemma get_member_app name ms1 ms2 :
  get_member name (ms1 ++ ms2) =
    match get_member name ms1 with Some j => Some j | None => get_member name ms2 end.
Proof.
  induction ms1 as [|[key item] ms1 IH]; [done|]. cbn [app get_member].
  by destruct (case_insensitive_eq name key).
Qed.
