(* ===== verification/CString.v ===== *)
(** * The C library's functions on characters, strings and numbers

    The functions of <ctype.h>, <string.h>, <stdlib.h> and <stdio.h> the program
    calls, in the C locale.  A string is the [string] before its terminating zero;
    a pointer into a string is the rest of the string from there on. *)

From Stdlib Require Import Floats.SpecFloat.
From S2P Require Import Prelude Double CJson.

#[local] Open Scope Z_scope.

(** ** <ctype.h> *)

Definition code (c : ascii) : Z := Z.of_N (N_of_ascii c).
Definition chr (z : Z) : ascii := ascii_of_N (Z.to_N z).

Definition isspace (c : ascii) : bool :=
  ((9 <=? code c) && (code c <=? 13)) || (code c =? 32).
Definition isdigit (c : ascii) : bool := (48 <=? code c) && (code c <=? 57).
Definition isupper (c : ascii) : bool := (65 <=? code c) && (code c <=? 90).
Definition islower (c : ascii) : bool := (97 <=? code c) && (code c <=? 122).
Definition toupper (c : ascii) : ascii := if islower c then chr (code c - 32) else c.

(** ** <string.h> *)

Definition strlen (s : string) : Z := Z.of_nat (String.length s).

(** A string as the bytes of its characters. *)
Definition bytes_string (l : list Z) : string :=
  foldr (fun b s => String (chr b) s) EmptyString l.

Fixpoint string_bytes (s : string) : list Z :=
  match s with String c s => code c :: string_bytes s | EmptyString => [] end.

(** The part of a buffer before its first zero. *)
Fixpoint until_nul (s : string) : string :=
  match s with
  | String c s' => if decide (c = Ascii.zero) then EmptyString else String c (until_nul s')
  | EmptyString => EmptyString
  end.

(** The pointers [s + n]: what remains of a string, and what stands before. *)
Fixpoint str_drop (n : nat) (s : string) : string :=
  match n, s with S n, String _ s' => str_drop n s' | _, _ => s end.
Fixpoint str_take (n : nat) (s : string) : string :=
  match n, s with S n, String c s' => String c (str_take n s') | _, _ => EmptyString end.

(** [strchr]: what stands before the first [c] and what follows it. *)
Fixpoint strchr (s : string) (c : ascii) : option (string * string) :=
  match s with
  | EmptyString => None
  | String a s' =>
      if decide (a = c) then Some (EmptyString, s')
      else '(before, after) ← strchr s' c; Some (String a before, after)
  end.

(** Whether [strcmp] and [strcasecmp] answer 0. *)
Definition strcmp_0 (s t : string) : bool := bool_decide (s = t).
Definition strcasecmp_0 (s t : string) : bool := case_insensitive_eq s t.

(** What follows a prefix, whatever the case of its letters. *)
Fixpoint after_prefix (p s : string) : option string :=
  match p, s with
  | EmptyString, _ => Some s
  | String a p, String b s => if decide (tolower a = tolower b) then after_prefix p s else None
  | _, _ => None
  end.

(** ** Reading integers *)

Fixpoint skip_spaces (s : string) : string :=
  match s with
  | String c s' => if isspace c then skip_spaces s' else s
  | EmptyString => EmptyString
  end.

(** An optional sign: whether it is a minus, and the rest. *)
Definition scan_sign (s : string) : bool * string :=
  match s with
  | String c s' =>
      if decide (c = "-"%char) then (true, s')
      else if decide (c = "+"%char) then (false, s') else (false, s)
  | EmptyString => (false, s)
  end.

(** The value of a digit of a base. *)
Definition digit (base : Z) (c : ascii) : option Z :=
  let d := if isdigit c then code c - 48
           else if islower c then code c - 87
           else if isupper c then code c - 55 else base in
  if d <? base then Some d else None.

(** The digits at the start of a string: their value added to [acc], their number
    added to [n], and the rest. *)
Fixpoint scan_digits (base acc n : Z) (s : string) : Z * Z * string :=
  match s with
  | String c s' =>
      match digit base c with
      | Some d => scan_digits base (acc * base + d) (n + 1) s'
      | None => (acc, n, s)
      end
  | EmptyString => (acc, n, s)
  end.

(** What follows a "0x" that a digit of base 16 follows. *)
Definition hex_prefix (s : string) : option string :=
  t ← after_prefix "0x" s;
  match t with
  | String c _ => _ ← digit 16 c; Some t
  | EmptyString => None
  end.

Definition clamp (lo hi x : Z) : Z := Z.max lo (Z.min hi x).

(** [strtol(s, &end, base)] for the bases 0 and 10: the value, and [*end]; when no
    number is found, 0 and the whole string. *)
Definition strtol (base : Z) (s : string) : Z * string :=
  let '(minus, t) := scan_sign (skip_spaces s) in
  let '(base, t) :=
    if base =? 0 then
      match hex_prefix t with
      | Some t => (16, t)
      | None => (match t with String c _ => if decide (c = "0"%char) then 8 else 10
                            | EmptyString => 10 end, t)
      end
    else (base, t) in
  let '(v, n, rest) := scan_digits base 0 0 t in
  if n =? 0 then (0, s)
  else (clamp (- 2 ^ 63) (2 ^ 63 - 1) (if minus then - v else v), rest).

(** [atoi] is [(int) strtol(s, NULL, 10)]. *)
Definition atoi (s : string) : Z := i32 (fst (strtol 10 s)).

(** ** Reading doubles *)

(** The double nearest to [m * 10 ^ e]. *)
Definition d_of_decimal (minus : bool) (m e : Z) : double :=
  match m with
  | Z.pos p =>
      if 0 <=? e then binary_normalize prec emax ((if minus then -1 else 1) * (m * 10 ^ e)) 0 minus
      else match 10 ^ (- e) with
           | Z.pos q => SFdiv prec emax (S754_finite minus p 0) (S754_finite false q 0)
           | _ => S754_nan
           end
  | _ => S754_zero minus
  end.

(** The double nearest to [m * 2 ^ e]. *)
Definition d_of_binary (minus : bool) (m e : Z) : double :=
  binary_normalize prec emax (if minus then - m else m) e minus.

(** Digits with an optional point: the digits as an integer, the number of them
    that follow the point, and the rest. *)
Definition scan_mantissa (base : Z) (s : string) : option (Z * Z * string) :=
  let '(v, n, rest) := scan_digits base 0 0 s in
  match strchr rest "." with
  | Some (EmptyString, after) =>
      let '(v, k, rest) := scan_digits base v 0 after in
      if n + k =? 0 then None else Some (v, k, rest)
  | _ => if n =? 0 then None else Some (v, 0, rest)
  end.

(** An optional exponent. The last component says that the letter is there but no
    digits follow. *)
Definition scan_exponent (letter : ascii) (s : string) : Z * string * bool :=
  match s with
  | String c s' =>
      if decide (tolower c = letter) then
        let '(minus, t) := scan_sign s' in
        let '(v, n, rest) := scan_digits 10 0 0 t in
        if n =? 0 then (0, s, true) else (if minus then - v else v, rest, false)
      else (0, s, false)
  | EmptyString => (0, s, false)
  end.

(** The floating-point number at the start of a string, and the rest. The last
    component says that the text goes on as a longer number would without
    completing it, on which [scanf] fails and [strtod] does not. *)
Definition scan_float (s : string) : option (double * string * bool) :=
  let '(minus, t) := scan_sign (skip_spaces s) in
  match after_prefix "infinity" t, after_prefix "inf" t, after_prefix "nan" t with
  | Some rest, _, _ => Some (S754_infinity minus, rest, false)
  | None, Some rest, _ =>
      Some (S754_infinity minus, rest,
            match after_prefix "i" rest with Some _ => true | None => false end)
  | None, None, Some rest => Some (S754_nan, rest, false)
  | None, None, None =>
      let hex :=
        h ← after_prefix "0x" t;
        '(m, k, rest) ← scan_mantissa 16 h;
        let '(e, rest, partial) := scan_exponent "p" rest in
        Some (d_of_binary minus m (e - 4 * k), rest, partial) in
      match hex with
      | Some r => Some r
      | None =>
          '(m, k, rest) ← scan_mantissa 10 t;
          let '(e, rest', partial) := scan_exponent "e" rest in
          Some (d_of_decimal minus m (e - k), rest',
                partial || match after_prefix "0x" t with Some _ => true | None => false end)
      end
  end.

(** [atof] *)
Definition atof (s : string) : double :=
  match scan_float s with Some (d, _, _) => d | None => d_zero end.

(** [sscanf(s, "%lf%c", &n, &suffix)] where [suffix] was zero before; [None] when
    [n] is not assigned. *)
Definition sscanf_lf_c (s : string) : option (double * ascii) :=
  '(n, rest, partial) ← scan_float s;
  if (partial : bool) then None
  else Some (n, match rest with String c _ => c | EmptyString => Ascii.zero end).

(** ** Printing numbers *)

Fixpoint digits_of (fuel : nat) (n : Z) (acc : string) : string :=
  match fuel with
  | O => acc
  | S fuel =>
      let acc := String (chr (48 + n mod 10)) acc in
      if n <? 10 then acc else digits_of fuel (n / 10) acc
  end.

(** "%u" and "%d"; an integer has no more decimal digits than binary ones. *)
Definition print_nat (n : Z) : string := digits_of (S (Z.to_nat (Z.log2 n))) n EmptyString.
Definition print_int (z : Z) : string :=
  if z <? 0 then String "-" (print_nat (- z)) else print_nat z.

(** "%02x" of a byte. *)
Definition hex_digit (n : Z) : ascii := chr (if n <? 10 then 48 + n else 87 + n).
Definition print_02x (b : Z) : string :=
  String (hex_digit (b / 16)) (String (hex_digit (b mod 16)) EmptyString).

(** The integer nearest to [a / b], the even one of two. *)
Definition div_nearest_even (a b : Z) : Z :=
  let q := a / b in
  match (2 * (a mod b)) ?= b with
  | Lt => q
  | Eq => if Z.even q then q else q + 1
  | Gt => q + 1
  end.

Fixpoint fill (c : ascii) (n : nat) (s : string) : string :=
  match n with O => s | S n => String c (fill c n s) end.

Definition pad_left (c : ascii) (width : nat) (s : string) : string :=
  fill c (width - String.length s) s.

(** "%.<k>f" of [m * 2 ^ e]: [glibc] prints the exact value, rounded to [k]
    decimals. *)
Definition print_fixed_pos (k : Z) (m e : Z) : string :=
  let n := if 0 <=? e then m * 2 ^ e * 10 ^ k
           else div_nearest_even (m * 10 ^ k) (2 ^ (- e)) in
  let whole := print_nat (n / 10 ^ k) in
  if k =? 0 then whole
  else (whole ++ "." ++ pad_left "0" (Z.to_nat k) (print_nat (n mod 10 ^ k)))%string.

Definition print_fixed (k : Z) (x : double) : string :=
  match x with
  | S754_nan => "nan"
  | S754_infinity s => if s then "-inf" else "inf"
  | S754_zero s => (if s then "-" else "") ++ print_fixed_pos k 0 0
  | S754_finite s m e => (if s then "-" else "") ++ print_fixed_pos k (Z.pos m) e
  end%string.

(** The decimal exponent of the positive number [num / den]: the largest power of ten
    that is not larger has this exponent. *)
Definition decimal_exponent (num den : Z) : Z :=
  if den <=? num then strlen (print_nat (num / den)) - 1
  else - strlen (print_nat ((den - 1) / num)).

(** [num / den * 10 ^ k], rounded. *)
Definition scale_decimal (num den k : Z) : Z :=
  if 0 <=? k then div_nearest_even (num * 10 ^ k) den
  else div_nearest_even num (den * 10 ^ (- k)).

(** The [P] digits "%e" prints, as an integer, and its exponent. *)
Definition significant (P num den : Z) : Z * Z :=
  let X := decimal_exponent num den in
  let n := scale_decimal num den (P - 1 - X) in
  if n =? 10 ^ P then (n / 10, X + 1) else (n, X).

Fixpoint strip_zeros (s : string) : string :=
  match s with
  | String c s' =>
      let t := strip_zeros s' in
      if strcmp_0 t EmptyString && bool_decide (c = "0"%char) then EmptyString else String c t
  | EmptyString => EmptyString
  end.

Definition fraction (digits : string) : string :=
  let t := strip_zeros digits in
  if strcmp_0 t EmptyString then EmptyString else String "." t.

Definition exponent (X : Z) : string :=
  String "e" (String (if (X <? 0)%Z then "-" else "+") (pad_left "0" 2 (print_nat (Z.abs X)))).

(** "%1.<P>g": the fixed style for the exponents from -4 to [P] - 1, zeros at the end
    of the fraction removed. *)
Definition print_g_pos (P num den : Z) : string :=
  let '(n, X) := significant P num den in
  let digits := print_nat n in
  if (-4 <=? X) && (X <? P) then
    if 0 <=? X then
      let w := S (Z.to_nat X) in (str_take w digits ++ fraction (str_drop w digits))%string
    else String "0" (fraction (fill "0" (Z.to_nat (- X - 1)) digits))
  else (str_take 1 digits ++ fraction (str_drop 1 digits) ++ exponent X)%string.

Definition print_g (P : Z) (x : double) : string :=
  match x with
  | S754_nan => "nan"
  | S754_infinity s => if s then "-inf" else "inf"
  | S754_zero s => if s then "-0" else "0"
  | S754_finite s m e =>
      (if s then "-" else "") ++
      print_g_pos P (Z.pos m * 2 ^ Z.max 0 e) (2 ^ Z.max 0 (- e))
  end%string.

(** [sscanf(s, "%lg", &x)]; [None] when nothing is assigned. *)
Definition sscanf_lg (s : string) : option double :=
  '(x, _, partial) ← scan_float s; if (partial : bool) then None else Some x.
