(* ===== verification/CStringProps.v ===== *)
(** * Numbers as text: what is printed is read back *)

From Stdlib Require Import Floats.SpecFloat.
From S2P Require Import Prelude Double CJson CString.

#[local] Open Scope Z_scope.

(** ** Digits *)

Lemma small_digits (P : Z -> Prop) :
  P 0 -> P 1 -> P 2 -> P 3 -> P 4 -> P 5 -> P 6 -> P 7 -> P 8 -> P 9 ->
  forall d, 0 <= d < 10 -> P d.
Proof.
  intros ?????????? d Hd.
  assert (d = 0 \/ d = 1 \/ d = 2 \/ d = 3 \/ d = 4 \/ d = 5 \/ d = 6 \/ d = 7 \/ d = 8 \/ d = 9)
    as H9 by lia.
  by destruct H9 as [->|[->|[->|[->|[->|[->|[->|[->|[->| ->]]]]]]]]].
Qed.

Lemma digit_chr d : 0 <= d < 10 -> digit 10 (chr (48 + d)) = Some d.
Proof. revert d. by apply small_digits. Qed.

Lemma isdigit_chr d : 0 <= d < 10 -> isdigit (chr (48 + d)) = true.
Proof. revert d. by apply small_digits. Qed.

Lemma zero_digit d : 0 <= d < 10 -> tolower "0" = tolower (chr (48 + d)) -> d = 0.
Proof.
  revert d. apply (small_digits (fun d => tolower "0" = tolower (chr (48 + d)) -> d = 0)); done.
Qed.

(** A text whose first character is not a digit. *)
Definition no_digit (s : string) : Prop :=
  match s with String c _ => digit 10 c = None | EmptyString => True end.

Lemma scan_digits_stop acc n s : no_digit s -> scan_digits 10 acc n s = (acc, n, s).
Proof. destruct s as [|c s]; [done|]. cbn. by intros ->. Qed.

Lemma tenth fuel n :
  0 <= n < 2 ^ Z.of_nat (S fuel) -> 10 <= n ->
  (0 < fuel)%nat /\ 0 <= n / 10 < 2 ^ Z.of_nat fuel.
Proof.
  intros Hn H10. destruct fuel as [|fuel]; [change (2 ^ Z.of_nat 1) with 2 in Hn; lia|].
  rewrite Nat2Z.inj_succ, Z.pow_succ_r in Hn by lia.
  split; [lia|]. split; [apply Z.div_pos; lia|]. apply Z.div_lt_upper_bound; lia.
Qed.

Lemma scan_digits_of fuel n s acc k :
  (0 < fuel)%nat -> 0 <= n < 2 ^ Z.of_nat fuel ->
  exists l, 0 < l /\
    scan_digits 10 acc k (digits_of fuel n s) = scan_digits 10 (acc * 10 ^ l + n) (k + l) s.
Proof.
  revert n s. induction fuel as [|fuel IH]; intros n s Hf Hn; cbn [digits_of]; [lia|].
  pose proof (Z.mod_pos_bound n 10 ltac:(lia)) as Hm.
  pose proof (Z.div_mod n 10 ltac:(lia)) as Hd.
  destruct (Z.ltb_spec n 10).
  - exists 1. split; [lia|]. cbn [scan_digits]. rewrite digit_chr by done.
    f_equal. rewrite Z.mod_small by lia. lia.
  - destruct (tenth fuel n) as [Hf' Hn']; [done..|].
    destruct (IH (n / 10) (String (chr (48 + n mod 10)) s) Hf' Hn') as (l & Hl & ->).
    exists (l + 1). split; [lia|]. cbn [scan_digits]. rewrite digit_chr by done.
    f_equal; [|lia]. rewrite Z.pow_add_r by lia. lia.
Qed.

Lemma print_nat_fuel n :
  0 <= n -> (0 < S (Z.to_nat (Z.log2 n)))%nat /\ 0 <= n < 2 ^ Z.of_nat (S (Z.to_nat (Z.log2 n))).
Proof.
  intros Hn. split; [lia|]. split; [done|]. pose proof (Z.log2_nonneg n).
  replace (Z.of_nat (S (Z.to_nat (Z.log2 n)))) with (Z.succ (Z.log2 n)) by lia.
  destruct (Z.eq_dec n 0) as [->|]; [done|]. apply Z.log2_spec. lia.
Qed.

(** What is printed is what the text holds in front of [s]. *)
Lemma digits_of_app fuel n s t :
  (digits_of fuel n s ++ t)%string = digits_of fuel n (s ++ t)%string.
Proof.
  revert n s. induction fuel as [|fuel IH]; intros n s; [done|]. cbn [digits_of].
  destruct (n <? 10); [done|]. by rewrite IH.
Qed.

Lemma scan_print_nat n s acc k :
  0 <= n -> no_digit s ->
  exists l, 0 < l /\
    scan_digits 10 acc k (print_nat n ++ s)%string = (acc * 10 ^ l + n, k + l, s).
Proof.
  intros Hn Hs. unfold print_nat. rewrite digits_of_app.
  destruct (print_nat_fuel n Hn) as [Hf Hn'].
  destruct (scan_digits_of _ n (EmptyString ++ s)%string acc k Hf Hn') as (l & Hl & ->).
  exists l. split; [done|]. by rewrite scan_digits_stop.
Qed.

Lemma string_app_cons c (s t : string) : (String c s ++ t)%string = String c (s ++ t).
Proof. done. Qed.

Lemma string_app_assoc (s t u : string) : ((s ++ t) ++ u = s ++ (t ++ u))%string.
Proof. induction s as [|c s IH]; [done|]. exact (f_equal (String c) IH). Qed.

Lemma string_app_nil (s : string) : (s ++ "")%string = s.
Proof. induction s as [|c s IH]; [done|]. exact (f_equal (String c) IH). Qed.

(** The first character printed is a digit, and not a zero unless the number is. *)
Lemma digits_of_head fuel n s :
  (0 < fuel)%nat -> 0 <= n < 2 ^ Z.of_nat fuel ->
  exists d t, digits_of fuel n s = String (chr (48 + d)) t /\ 0 <= d < 10 /\
    (d = 0 -> n = 0 /\ t = s).
Proof.
  revert n s. induction fuel as [|fuel IH]; intros n s Hf Hn; cbn [digits_of]; [lia|].
  pose proof (Z.mod_pos_bound n 10 ltac:(lia)).
  pose proof (Z.div_mod n 10 ltac:(lia)).
  destruct (Z.ltb_spec n 10).
  - exists (n mod 10), s. split; [done|]. split; [lia|].
    intros E. by rewrite Z.mod_small in E by lia.
  - destruct (tenth fuel n) as [Hf' Hn']; [done..|].
    destruct (IH (n / 10) (String (chr (48 + n mod 10)) s) Hf' Hn') as (d & t & -> & Hd & Hz).
    exists d, t. split; [done|]. split; [done|]. intros E. destruct (Hz E) as [E' _]. lia.
Qed.

Lemma print_nat_head n s :
  0 <= n ->
  exists d t, (print_nat n ++ s)%string = String (chr (48 + d)) t /\ 0 <= d < 10 /\
    (d = 0 -> n = 0 /\ t = s).
Proof.
  intros Hn. unfold print_nat. rewrite digits_of_app.
  destruct (print_nat_fuel n Hn). by apply digits_of_head.
Qed.

Lemma skip_spaces_digit d t :
  0 <= d < 10 -> skip_spaces (String (chr (48 + d)) t) = String (chr (48 + d)) t.
Proof. revert d. by apply small_digits. Qed.

Lemma scan_sign_digit d t :
  0 <= d < 10 -> scan_sign (String (chr (48 + d)) t) = (false, String (chr (48 + d)) t).
Proof. revert d. by apply small_digits. Qed.

Lemma after_letter_digit (a : ascii) p d t :
  tolower a ∉ (chr <$> [48; 49; 50; 51; 52; 53; 54; 55; 56; 57]) ->
  0 <= d < 10 -> after_prefix (String a p) (String (chr (48 + d)) t) = None.
Proof.
  intros Ha. revert d. cbn [after_prefix].
  apply small_digits; case_decide as E; [|done|..]; try done;
    exfalso; apply Ha; rewrite E; cbn; set_solver.
Qed.

(** ** Integers *)

Lemma strtol_print_nat n s :
  0 <= n < 2 ^ 63 -> no_digit s -> strtol 10 (print_nat n ++ s)%string = (n, s).
Proof.
  intros Hn Hs. unfold strtol.
  destruct (print_nat_head n s) as (d & t & E & Hd & _); [lia|].
  rewrite E, skip_spaces_digit, scan_sign_digit by done. cbn [Z.eqb].
  rewrite <- E. destruct (scan_print_nat n s 0 0) as (l & Hl & ->); [lia|done|].
  destruct (Z.eqb_spec (0 + l) 0); [lia|]. f_equal. unfold clamp. lia.
Qed.

Lemma strtol_print_int z s :
  - 2 ^ 63 <= z < 2 ^ 63 -> no_digit s -> strtol 10 (print_int z ++ s)%string = (z, s).
Proof.
  intros Hz Hs. unfold print_int. destruct (Z.ltb_spec z 0); [|by apply strtol_print_nat; [lia|]].
  unfold strtol.
  change (scan_sign (skip_spaces _)) with (true, (print_nat (- z) ++ s)%string). cbn [Z.eqb].
  destruct (scan_print_nat (- z) s 0 0) as (l & Hl & ->); [lia|done|].
  destruct (Z.eqb_spec (0 + l) 0); [lia|]. f_equal. unfold clamp. lia.
Qed.

Lemma atoi_print_int z s : is_sint 32 z -> no_digit s -> atoi (print_int z ++ s)%string = z.
Proof.
  intros Hz Hs. unfold is_sint in Hz. cbn in Hz. unfold atoi.
  rewrite strtol_print_int by (done || lia). by apply sint_id.
Qed.

(** ** Doubles *)

(** A text that ends a decimal number. *)
Definition ends_number (s : string) : Prop :=
  match s with
  | String c _ => digit 10 c = None /\ c <> "."%char /\ tolower c <> "e"%char /\ tolower c <> "x"%char
  | EmptyString => True
  end.

Lemma ends_number_no_digit s : ends_number s -> no_digit s.
Proof. destruct s; [done|]. by intros []. Qed.

Lemma strchr_head s c t : strchr s c = Some (EmptyString, t) -> s = String c t.
Proof.
  destruct s as [|a s]; [done|]. cbn [strchr]. case_decide as E; [intros [= ->]; by rewrite E|].
  intros H. apply bind_Some in H as ([before after] & _ & H'). done.
Qed.

Lemma scan_float_print_nat n s :
  0 <= n -> ends_number s ->
  scan_float (print_nat n ++ s)%string = Some (d_of_Z n, s, false).
Proof.
  intros Hn Hs. unfold scan_float.
  destruct (print_nat_head n s) as (d & t & E & Hd & H0); [done|].
  rewrite E, skip_spaces_digit, scan_sign_digit by done.
  rewrite !after_letter_digit by (done || (cbn; set_solver)). rewrite <- E.
  assert (after_prefix "0x" (print_nat n ++ s)%string = None) as ->.
  { rewrite E. cbn [after_prefix]. case_decide as E0; [|done].
    apply zero_digit in E0; [|done]. destruct (H0 E0) as [_ ->].
    destruct s as [|c s]; [done|].
    destruct Hs as (_ & _ & _ & Hx). rewrite decide_False; [done|]. intros Hc. by apply Hx. }
  cbn [mbind option_bind]. unfold scan_mantissa.
  destruct (scan_print_nat n s 0 0) as (l & Hl & ->); [done|by apply ends_number_no_digit|].
  assert (forall A (x : string -> A) (y : A),
            match strchr s "." with Some (EmptyString, t) => x t | _ => y end = y) as Hdot.
  { intros A x y. destruct (strchr s ".") as [[[|] t']|] eqn:Es; [|done|done].
    apply strchr_head in Es. subst s. by destruct Hs as (_ & ? & _). }
  rewrite Hdot. destruct (Z.eqb_spec (0 + l) 0); [lia|]. cbn [mbind option_bind].
  assert (scan_exponent "e" s = (0, s, false)) as ->.
  { destruct s as [|c s]; [done|]. cbn [scan_exponent].
    by rewrite decide_False by apply Hs. }
  cbn [orb]. do 3 f_equal. unfold d_of_decimal, d_of_Z.
  replace (0 * 10 ^ l + n) with n by lia. destruct n as [|p|p]; [done| |lia].
  cbn [Z.sub Z.add Z.opp Z.leb]. by rewrite Z.mul_1_r, Z.mul_1_l.
Qed.

(** ** Products of doubles that are integers *)

Lemma shr_exact p m :
  0 < m ->
  SpecFloat.iter_pos shr_1 p (Build_shr_record (m * 2 ^ Z.pos p) false false)
  = Build_shr_record m false false.
Proof.
  assert (forall m, 0 < m -> shr_1 (Build_shr_record (m * 2) false false)
                     = Build_shr_record m false false) as H1.
  { intros [|q|q] Hm; [lia| |lia]. by rewrite Z.mul_comm. }
  revert m. induction p as [p IH|p IH|]; intros m Hm; cbn [SpecFloat.iter_pos].
  - replace (2 ^ Z.pos (xI p)) with (2 ^ Z.pos p * 2 ^ Z.pos p * 2).
    2:{ rewrite (Pos2Z.inj_xI p), Z.add_1_r, Z.pow_succ_r, Z.pow_twice_r by lia. lia. }
    rewrite !Z.mul_assoc, H1, !IH; [done|lia|..]; repeat apply Z.mul_pos_pos; lia.
  - replace (2 ^ Z.pos (xO p)) with (2 ^ Z.pos p * 2 ^ Z.pos p).
    2:{ by rewrite (Pos2Z.inj_xO p), Z.pow_twice_r. }
    rewrite !Z.mul_assoc, !IH; [done|lia|]. apply Z.mul_pos_pos; lia.
  - by apply H1.
Qed.

Lemma shr_record_exact s p e :
  0 < s -> shr (Build_shr_record (s * 2 ^ Z.pos p) false false) e (Z.pos p)
           = (Build_shr_record s false false, e + Z.pos p).
Proof. intros Hs. unfold shr. by rewrite shr_exact. Qed.

(** Rounding drops zeros at the end of a mantissa that is too long. *)
Lemma binary_round_aux_zeros s m e p :
  Zdigits2 (Z.pos m) = prec -> - 1074 <= e <= 971 ->
  binary_round_aux prec emax s (Z.pos m * 2 ^ Z.pos p) (e - Z.pos p) loc_Exact
  = S754_finite s m e.
Proof.
  intros Hd He. unfold binary_round_aux, shr_fexp at 1.
  rewrite Zdigits2_pow by lia. rewrite Hd. cbn [shr_record_of_loc].
  replace (fexp prec emax (prec + Z.pos p + (e - Z.pos p)) - (e - Z.pos p)) with (Z.pos p).
  2:{ unfold fexp, emin, prec, emax in *. lia. }
  rewrite shr_record_exact by lia. cbn [shr_m loc_of_shr_record round_nearest_even].
  replace (e - Z.pos p + Z.pos p) with e by lia.
  pose proof (binary_round_aux_exact s m e Hd He) as E.
  unfold binary_round_aux in E. unfold shr_fexp in E at 1. rewrite Hd in E.
  replace (fexp prec emax (prec + e) - e) with 0 in E.
  2:{ unfold fexp, emin, prec, emax in *. lia. }
  cbn [shr_record_of_loc shr shr_m loc_of_shr_record round_nearest_even] in E. exact E.
Qed.

Lemma d_of_Z_pos n :
  0 < n < 2 ^ prec ->
  exists m k, 0 <= k <= 52 /\ Z.pos m = n * 2 ^ k /\ Zdigits2 (Z.pos m) = prec /\
    d_of_Z n = S754_finite false m (- k).
Proof.
  intros Hn. destruct n as [|p|p]; [lia| |lia].
  destruct (binary_round_exact false p) as (m & k & Hk & E & Hd & Hr); [lia|]. by exists m, k.
Qed.

Lemma d_mul_exact a b :
  0 < a < 2 ^ prec -> 0 < b < 2 ^ prec -> a * b < 2 ^ prec ->
  d_mul (d_of_Z a) (d_of_Z b) = d_of_Z (a * b).
Proof.
  intros Ha Hb Hab.
  destruct (d_of_Z_pos a Ha) as (ma & ka & Hka & Ea & Hda & ->).
  destruct (d_of_Z_pos b Hb) as (mb & kb & Hkb & Eb & Hdb & ->).
  destruct (d_of_Z_pos (a * b)) as (m & k & Hk & E & Hd & ->).
  { split; [apply Z.mul_pos_pos; lia|done]. }
  unfold d_mul, SFmul. cbn [xorb].
  assert (Z.pos (ma * mb) * 2 ^ k = Z.pos m * 2 ^ (ka + kb)) as Em.
  { rewrite Pos2Z.inj_mul, Ea, Eb, E, Z.pow_add_r by lia. lia. }
  assert (2 ^ 104 <= Z.pos (ma * mb)) as Hlow.
  { rewrite Pos2Z.inj_mul. change (2 ^ 104) with (2 ^ 52 * 2 ^ 52).
    cbn [Zdigits2] in Hda, Hdb. rewrite digits2_pos_log2 in Hda, Hdb.
    pose proof (Z.log2_spec (Z.pos ma) ltac:(lia)) as [La _].
    pose proof (Z.log2_spec (Z.pos mb) ltac:(lia)) as [Lb _].
    replace (Z.log2 (Z.pos ma)) with 52 in La by (unfold prec in *; lia).
    replace (Z.log2 (Z.pos mb)) with 52 in Lb by (unfold prec in *; lia).
    apply Z.mul_le_mono_nonneg; lia. }
  assert (Z.pos m < 2 ^ 53) as Hm.
  { cbn [Zdigits2] in Hd. rewrite digits2_pos_log2 in Hd.
    pose proof (Z.log2_spec (Z.pos m) ltac:(lia)) as [_ Lm].
    replace (Z.succ (Z.log2 (Z.pos m))) with 53 in Lm by (unfold prec in *; lia). done. }
  assert (k < ka + kb) as Hlt.
  { destruct (Z.lt_ge_cases k (ka + kb)) as [|Hge]; [done|]. exfalso.
    pose proof (Z.pow_le_mono_r 2 (ka + kb) k ltac:(lia) Hge).
    pose proof (Z.pow_pos_nonneg 2 (ka + kb) ltac:(lia) ltac:(lia)). nia. }
  destruct (ka + kb - k) as [|p|p] eqn:Ep; [lia| |lia].
  assert (Z.pos (ma * mb) = Z.pos m * 2 ^ Z.pos p) as ->.
  { replace (ka + kb) with (Z.pos p + k) in Em by lia. rewrite Z.pow_add_r in Em by lia.
    pose proof (Z.pow_pos_nonneg 2 k ltac:(lia) ltac:(lia)). nia. }
  replace (- ka + - kb) with (- k - Z.pos p) by lia.
  apply binary_round_aux_zeros; [done|lia].
Qed.

(** ** The characters of a text *)

(** Every character of a string satisfies [p]. *)
Fixpoint chars (p : ascii -> bool) (s : string) : bool :=
  match s with EmptyString => true | String c s => p c && chars p s end.

Lemma chars_app p s t : chars p (s ++ t) = chars p s && chars p t.
Proof. induction s as [|c s IH]; [done|]. rewrite string_app_cons. cbn. by rewrite <- andb_assoc, <- IH. Qed.

Lemma chars_mono (p q : ascii -> bool) s :
  (forall c, p c = true -> q c = true) -> chars p s = true -> chars q s = true.
Proof.
  intros Hpq. induction s as [|c s IH]; [done|]. cbn.
  rewrite !andb_true_iff. intros [? ?]. auto.
Qed.

(** A text without zeros is its own C string. *)
Definition no_nul (s : string) : Prop := chars (fun c => negb (bool_decide (c = Ascii.zero))) s = true.

Lemma until_nul_id s : no_nul s -> until_nul s = s.
Proof.
  unfold no_nul. induction s as [|c s IH]; [done|]. cbn. intros [Hc Hs]%andb_true_iff.
  apply negb_true_iff, bool_decide_eq_false in Hc. by rewrite decide_False, IH.
Qed.

Lemma digits_of_chars p fuel n s :
  (forall d, 0 <= d < 10 -> p (chr (48 + d)) = true) -> chars p s = true ->
  chars p (digits_of fuel n s) = true.
Proof.
  intros Hp. revert n s. induction fuel as [|fuel IH]; intros n s Hs; [done|]. cbn [digits_of].
  assert (chars p (String (chr (48 + n mod 10)) s) = true) as Hs'.
  { cbn. rewrite Hp, Hs by (apply Z.mod_pos_bound; lia). done. }
  destruct (n <? 10); [done|]. by apply IH.
Qed.

Lemma no_nul_app s t : no_nul (s ++ t) <-> no_nul s /\ no_nul t.
Proof. unfold no_nul. by rewrite chars_app, andb_true_iff. Qed.

Lemma no_nul_cons c s : no_nul (String c s) <-> c <> Ascii.zero /\ no_nul s.
Proof.
  unfold no_nul. cbn. by rewrite andb_true_iff, negb_true_iff, bool_decide_eq_false.
Qed.

Lemma no_nul_print_int z : no_nul (print_int z).
Proof.
  assert (forall n, no_nul (print_nat n)) as Hn.
  { intros n. apply digits_of_chars; [|done]. by apply small_digits. }
  unfold print_int. destruct (z <? 0); [|apply Hn]. apply no_nul_cons. split; [done|apply Hn].
Qed.

Lemma str_take_all n s : (String.length s <= n)%nat -> str_take n s = s.
Proof.
  revert s. induction n as [|n IH]; intros [|c s] H; cbn in *; [done|lia|done|].
  f_equal. apply IH. lia.
Qed.

(** ** The length of an integer's text *)

Lemma digits_of_length fuel n s k :
  0 <= n < 10 ^ Z.of_nat k -> (0 < k)%nat ->
  (String.length (digits_of fuel n s) <= k + String.length s)%nat.
Proof.
  revert n s k. induction fuel as [|fuel IH]; intros n s k Hn Hk; cbn [digits_of]; [lia|].
  destruct (Z.ltb_spec n 10); [cbn; lia|]. destruct k as [|k]; [lia|].
  rewrite Nat2Z.inj_succ, Z.pow_succ_r in Hn by lia.
  assert (0 < k)%nat by (destruct k; [change (10 ^ Z.of_nat 0) with 1 in Hn|]; lia).
  etrans; [apply (IH _ _ k)|cbn; lia]; [|done].
  split; [apply Z.div_pos; lia|]. apply Z.div_lt_upper_bound; lia.
Qed.

Lemma print_int_length z : - 2 ^ 63 <= z < 2 ^ 63 -> (String.length (print_int z) <= 20)%nat.
Proof.
  intros Hz. unfold print_int, print_nat. destruct (Z.ltb_spec z 0).
  - cbn [String.length]. apply le_n_S.
    apply (digits_of_length _ (- z) EmptyString 19); [|lia]. split; [lia|].
    change (10 ^ Z.of_nat 19) with 10000000000000000000. lia.
  - etrans; [apply (digits_of_length _ z EmptyString 19)|cbn; lia]; [|lia].
    change (10 ^ Z.of_nat 19) with 10000000000000000000. lia.
Qed.

(** ** Bytes *)

Lemma code_chr b : is_uint 8 b -> code (chr b) = b.
Proof.
  unfold is_uint, code, chr. change (2 ^ 8) with 256. intros Hb.
  rewrite N_ascii_embedding by lia. lia.
Qed.

Lemma code_range c : is_uint 8 (code c).
Proof.
  unfold is_uint, code. change (2 ^ 8) with 256. pose proof (N_ascii_bounded c). lia.
Qed.

Lemma chr_code c : chr (code c) = c.
Proof. unfold chr, code. by rewrite N2Z.id, ascii_N_embedding. Qed.

Lemma bytes_of_string s : bytes_string (string_bytes s) = s.
Proof.
  induction s as [|c s IH]; [done|]. cbn [string_bytes bytes_string foldr]. rewrite chr_code.
  by f_equal.
Qed.

(** ** Parts of strings *)

Lemma strlen_nonneg s : 0 <= strlen s.
Proof. unfold strlen. lia. Qed.

Lemma strlen_cons c s : strlen (String c s) = strlen s + 1.
Proof. unfold strlen. cbn [String.length]. lia. Qed.

Lemma length_app_string (s t : string) :
  String.length (s ++ t) = (String.length s + String.length t)%nat.
Proof. induction s as [|c s IH]; [done|]. rewrite string_app_cons. cbn [String.length]. lia. Qed.

Lemma strlen_app s t : strlen (s ++ t) = strlen s + strlen t.
Proof. unfold strlen. rewrite length_app_string. lia. Qed.

Lemma strlen_fill c n s : strlen (fill c n s) = Z.of_nat n + strlen s.
Proof. induction n as [|n IH]; [done|]. cbn [fill]. rewrite strlen_cons, IH. lia. Qed.

Lemma to_nat_strlen s : Z.to_nat (strlen s) = String.length s.
Proof. unfold strlen. lia. Qed.

Lemma str_drop_app s t : str_drop (String.length s) (s ++ t) = t.
Proof. induction s as [|c s IH]; [by destruct t|]. exact IH. Qed.

Lemma str_take_app s t : str_take (String.length s) (s ++ t) = s.
Proof. induction s as [|c s IH]; [by destruct t|]. exact (f_equal (String c) IH). Qed.

Lemma str_take_app_ge n s t :
  (String.length s <= n)%nat -> str_take n (s ++ t) = (s ++ str_take (n - String.length s) t)%string.
Proof.
  revert n. induction s as [|c s IH]; intros n H; [by rewrite Nat.sub_0_r|].
  cbn [String.length] in *. destruct n as [|n]; [lia|]. rewrite !string_app_cons. cbn [str_take].
  f_equal. apply IH. lia.
Qed.

Lemma str_drop_add n k s : str_drop (n + k) s = str_drop k (str_drop n s).
Proof.
  revert s. induction n as [|n IH]; intros s; [done|].
  destruct s as [|c s]; [by destruct k|]. apply IH.
Qed.

Lemma str_take_drop n s : (str_take n s ++ str_drop n s)%string = s.
Proof.
  revert s. induction n as [|n IH]; intros s; [done|].
  destruct s as [|c s]; [done|]. exact (f_equal (String c) (IH s)).
Qed.

Lemma no_nul_fill c n s : c <> Ascii.zero -> no_nul s -> no_nul (fill c n s).
Proof. intros Hc Hs. induction n as [|n IH]; [done|]. by apply no_nul_cons. Qed.

Lemma no_nul_until_nul s : no_nul (until_nul s).
Proof.
  induction s as [|c s IH]; [done|]. cbn [until_nul]. case_decide; [done|].
  by apply no_nul_cons.
Qed.

Lemma until_nul_app s t : no_nul s -> until_nul (s ++ t) = (s ++ until_nul t)%string.
Proof.
  induction s as [|c s IH]; [done|]. intros [Hc Hs]%no_nul_cons.
  rewrite !string_app_cons. cbn [until_nul]. rewrite decide_False by done. by rewrite IH.
Qed.

Lemma chars_cons p c s : chars p (String c s) = p c && chars p s.
Proof. done. Qed.

Lemma chars_take p n s : chars p s = true -> chars p (str_take n s) = true.
Proof.
  revert s. induction n as [|n IH]; intros s H; [done|]. destruct s as [|c s]; [done|].
  cbn [str_take]. rewrite chars_cons in *. apply andb_true_iff in H as [-> H]. by apply IH.
Qed.

Lemma chars_drop p n s : chars p s = true -> chars p (str_drop n s) = true.
Proof.
  revert s. induction n as [|n IH]; intros s H; [done|]. destruct s as [|c s]; [done|].
  rewrite chars_cons in H. apply andb_true_iff in H as [_ H]. by apply IH.
Qed.

Lemma chars_fill p c n s : p c = true -> chars p s = true -> chars p (fill c n s) = true.
Proof. intros Hc Hs. induction n as [|n IH]; [done|]. cbn [fill]. by rewrite chars_cons, Hc, IH. Qed.

Lemma chars_strip p s : chars p s = true -> chars p (strip_zeros s) = true.
Proof.
  induction s as [|c s IH]; [done|]. rewrite chars_cons. intros [Hc Hs]%andb_true_iff.
  cbn [strip_zeros]. destruct (_ && _); [done|]. by rewrite chars_cons, Hc, IH.
Qed.

Lemma chars_fraction p s : p "."%char = true -> chars p s = true -> chars p (fraction s) = true.
Proof.
  intros Hp Hs. unfold fraction. destruct (strcmp_0 _ _); [done|].
  by rewrite chars_cons, Hp, chars_strip.
Qed.

Lemma isdigit_print_nat n : chars isdigit (print_nat n) = true.
Proof. apply digits_of_chars; [apply isdigit_chr|done]. Qed.

(** The characters of a number printed with "%g". *)
Definition number_char (c : ascii) : bool :=
  isdigit c || bool_decide (c ∈ ["+"; "-"; "e"; "E"; "."]%char).

Lemma number_char_digits s : chars isdigit s = true -> chars number_char s = true.
Proof. apply chars_mono. intros c Hc. unfold number_char. by rewrite Hc. Qed.

Lemma print_g_chars P x :
  match x with S754_nan | S754_infinity _ => True | _ => chars number_char (print_g P x) = true end.
Proof.
  destruct x as [[]| | |s m e]; [done..|]. unfold print_g.
  assert (forall s, chars number_char (print_nat s) = true) as Hd.
  { intros n. apply number_char_digits, isdigit_print_nat. }
  assert (forall num den, chars number_char (print_g_pos P num den) = true) as Hp.
  { intros num den. unfold print_g_pos. destruct (significant P num den) as [n X].
    destruct (_ && _); [destruct (0 <=? X)|].
    - by rewrite chars_app, chars_take, chars_fraction by (done || by apply chars_drop).
    - by rewrite chars_cons, chars_fraction by (done || by apply chars_fill).
    - rewrite !chars_app, chars_take, chars_fraction by (done || by apply chars_drop).
      unfold exponent. rewrite !chars_cons. unfold pad_left. rewrite chars_fill by done.
      by destruct (X <? 0). }
  rewrite chars_app, Hp. by destruct s.
Qed.

Lemma length_str_take n s : String.length (str_take n s) = Nat.min n (String.length s).
Proof.
  revert s. induction n as [|n IH]; intros s; [done|]. destruct s as [|c s]; [done|].
  cbn [str_take String.length]. by rewrite IH.
Qed.

Lemma length_str_drop n s : String.length (str_drop n s) = (String.length s - n)%nat.
Proof.
  revert s. induction n as [|n IH]; intros s; [cbn; lia|]. destruct s as [|c s]; [done|].
  cbn [str_drop String.length]. by rewrite IH.
Qed.
