(* ===== verification/Printf.v ===== *)
(** * Formatted printing of the C library

    What [vsnprintf] and its relatives print for a format and a list of arguments: the
    flags, widths, precisions and conversions that the formats of the program use. An
    argument that is missing or of another kind than its conversion makes the text
    undefined. *)

From S2P Require Import Prelude Double CJson CString CStringProps.

#[local] Open Scope Z_scope.

(** The end of a line. *)
Definition nl : string := String "010" EmptyString.

(** An argument as it is passed: an [int] or [unsigned], a 64-bit integer, a double, a
    string, whose null pointer is [None]. *)
Inductive argument :=
| AInt (z : Z)
| ALong (z : Z)
| ADouble (d : double)
| AStr (s : option string).

(** What stands between the percent sign and the conversion. *)
Record directive := mk_directive {
  minus : bool;
  width : nat;
  precision : option Z;
  long : bool }.

Definition plain_directive : directive := mk_directive false 0 None false.

Definition pad_right (width : nat) (s : string) : string :=
  (s ++ fill " " (width - String.length s) EmptyString)%string.

Definition pad (sp : directive) (s : string) : string :=
  if minus sp then pad_right (width sp) s else pad_left " " (width sp) s.

(** One more character of a directive; [None] when it is the conversion. *)
Definition extend (sp : directive) (c : ascii) : option directive :=
  if decide (c = "-"%char) then Some (mk_directive true (width sp) (precision sp) (long sp))
  else if decide (c = "."%char) then Some (mk_directive (minus sp) (width sp) (Some 0) (long sp))
  else if decide (c = "l"%char) then Some (mk_directive (minus sp) (width sp) (precision sp) true)
  else if isdigit c then
    let n := code c - 48 in
    Some (match precision sp with
          | Some p => mk_directive (minus sp) (width sp) (Some (10 * p + n)) (long sp)
          | None => mk_directive (minus sp) (10 * width sp + Z.to_nat n) None (long sp)
          end)
  else None.

(** The text of one argument. A conversion to [int] of a 64-bit argument sees its low
    half, the convention of 64-bit machines; the converse is undefined. *)
Definition convert (sp : directive) (c : ascii) (a : argument) : option string :=
  if decide (c = "d"%char) then
    match a with
    | AInt z => if long sp then None else Some (print_int (i32 z))
    | ALong z => Some (print_int (if long sp then i64 z else i32 z))
    | _ => None
    end
  else if decide (c = "u"%char) then
    match a with
    | AInt z => if long sp then None else Some (print_int (u32 z))
    | ALong z => Some (print_int (if long sp then u64 z else u32 z))
    | _ => None
    end
  else if decide (c = "f"%char) then
    match a with ADouble d => Some (print_fixed (default 6 (precision sp)) d) | _ => None end
  else if decide (c = "g"%char) then
    match a with ADouble d => Some (print_g (Z.max 1 (default 6 (precision sp))) d) | _ => None end
  else if decide (c = "s"%char) then
    match a with AStr (Some s) => Some (until_nul s) | _ => None end
  else None.

(** The characters before a percent sign, or inside a directive. *)
Fixpoint vformat (inside : option directive) (format : string) (args : list argument)
    : option string :=
  match format, inside with
  | EmptyString, None => Some EmptyString
  | EmptyString, Some _ => None
  | String c format, None =>
      if decide (c = "%"%char) then vformat (Some plain_directive) format args
      else t ← vformat None format args; Some (String c t)
  | String c format, Some sp =>
      match extend sp c with
      | Some sp => vformat (Some sp) format args
      | None =>
          if decide (c = "%"%char) then t ← vformat None format args; Some (String c t)
          else
            match args with
            | [] => None
            | a :: args =>
                s ← convert sp c a;
                t ← vformat None format args;
                Some (pad sp s ++ t)%string
            end
      end
  end.

Definition printf_text (format : string) (args : list argument) : option string :=
  vformat None format args.

(** What a buffer of [size] bytes holds, and the length of the whole text. *)
Definition snprintf (size : Z) (format : string) (args : list argument)
    : option (string * Z) :=
  t ← printf_text format args;
  Some (str_take (Z.to_nat (size - 1)) t, strlen t).

(** [strncat(dest, src, n)] *)
Definition strncat (dest src : string) (n : Z) : string :=
  (dest ++ str_take (Z.to_nat n) (until_nul src))%string.

Example printf_report :
  printf_text "[%3d]%s %6.2f-%-6.2f sec (%.2g%%) %lu"
    [AInt 5; AStr (Some ""); ADouble (d_of_Z 0); ADouble (d_of_Z 10); ADouble d_zero; ALong (-1)]%string
  = Some "[  5]   0.00-10.00  sec (0%) 18446744073709551615"%string.
Proof. vm_compute. done. Qed.

(** * What is printed *)

Inductive kind := KInt | KLong | KDouble | KStr.

Definition has_kind (a : argument) (k : kind) : Prop :=
  match a, k with
  | AInt _, KInt | ALong _, KLong | ADouble _, KDouble | AStr (Some _), KStr => True
  | _, _ => False
  end.

Definition converts (sp : directive) (c : ascii) (k : kind) : bool :=
  if bool_decide (c = "d" \/ c = "u")%char then
    match k with KInt => negb (long sp) | KLong => true | _ => false end
  else if bool_decide (c = "f" \/ c = "g")%char then match k with KDouble => true | _ => false end
  else if bool_decide (c = "s"%char) then match k with KStr => true | _ => false end
  else false.

(** Whether arguments of these kinds print; more arguments than conversions do no harm. *)
Fixpoint fits (inside : option directive) (format : string) (l : list kind) : bool :=
  match format, inside with
  | EmptyString, None => true
  | EmptyString, Some _ => false
  | String c format, None =>
      fits (if decide (c = "%"%char) then Some plain_directive else None) format l
  | String c format, Some sp =>
      match extend sp c with
      | Some sp => fits (Some sp) format l
      | None =>
          if decide (c = "%"%char) then fits None format l
          else match l with k :: l => converts sp c k && fits None format l | [] => false end
      end
  end.

Lemma convert_kind sp c a k :
  has_kind a k -> converts sp c k = true -> exists t, convert sp c a = Some t.
Proof.
  unfold converts, convert. intros Ha.
  destruct (decide (c = "d"%char)) as [->|H1]; [|destruct (decide (c = "u"%char)) as [->|H2];
    [|destruct (decide (c = "f"%char)) as [->|H3]; [|destruct (decide (c = "g"%char)) as [->|H4];
      [|destruct (decide (c = "s"%char)) as [->|H5]]]]].
  1: rewrite bool_decide_eq_true_2 by auto.
  2: rewrite bool_decide_eq_true_2 by auto.
  3, 4: rewrite bool_decide_eq_false_2, bool_decide_eq_true_2 by naive_solver.
  5: rewrite !bool_decide_eq_false_2, bool_decide_eq_true_2 by naive_solver.
  1, 2: destruct a as [| | |[]], k; cbn in Ha; try done; destruct (long sp); intros Hk; cbn in Hk; try discriminate Hk; by eexists.
  1, 2: destruct a as [| | |[]], k; cbn in Ha; try done; intros Hk; by eexists.
  - destruct a as [| | |[]], k; cbn in Ha; try done; intros _. by eexists.
  - rewrite !bool_decide_eq_false_2 by tauto. done.
Qed.

Lemma fits_vformat format inside l args :
  Forall2 has_kind args l -> fits inside format l = true ->
  exists t, vformat inside format args = Some t.
Proof.
  revert inside l args. induction format as [|c format IH]; intros inside l args Hl H; cbn in *.
  { destruct inside; [done|by eexists]. }
  destruct inside as [sp|]; [|case_decide; [by eapply IH|]].
  - destruct (extend sp c) as [sp'|]; [by eapply IH|]. case_decide.
    + destruct (IH None l args) as [t ->]; [done..|]. by eexists.
    + destruct Hl as [|a k args l Ha Hl]; [done|]. apply andb_true_iff in H as [H1 H2].
      destruct (convert_kind sp c a k) as [s ->]; [done..|].
      destruct (IH None l args) as [t ->]; [done..|]. by eexists.
  - destruct (IH None l args) as [t ->]; [done..|]. by eexists.
Qed.

Definition arg_kind (a : argument) : kind :=
  match a with AInt _ => KInt | ALong _ => KLong | ADouble _ => KDouble | AStr _ => KStr end.

Lemma printf_fits format args :
  Forall (fun a => a <> AStr None) args -> fits None format (map arg_kind args) = true ->
  exists t, printf_text format args = Some t.
Proof.
  intros Ha. apply fits_vformat. induction Ha as [|a args Hn Ha IH]; constructor; [|done].
  by destruct a as [| | |[]].
Qed.
