(* ===== verification/JsonText.v ===== *)
(** * cjson.c: printing

    The printer writes into a buffer it enlarges as it goes.  The model keeps the
    buffer, its size and the offset, so that an access outside the buffer and a
    string that does not end show up; whether each allocation succeeds is given by a
    function of the number of allocations made before. *)

From Stdlib Require Import Floats.SpecFloat.
From S2P Require Import Prelude Double CJson CString.

#[local] Open Scope Z_scope.

(** ** Attempts

    A function that answers false on failure and changes a buffer otherwise: [None] is
    undefined behaviour, [Some None] is false. *)

Definition attempt (S A : Type) := S -> option (option (A * S)).

#[export] Instance attempt_ret {S} : MRet (attempt S) := fun A x s => Some (Some (x, s)).
#[export] Instance attempt_bind {S} : MBind (attempt S) := fun A B k m s =>
  match m s with
  | Some (Some (x, s)) => k x s
  | Some None => Some None
  | None => None
  end.

Section Attempt.
Context {S : Type}.
Definition undefined {A} : attempt S A := fun _ => None.
Definition refuse {A} : attempt S A := fun _ => Some None.
Definition peek {A} (f : S -> A) : attempt S A := fun s => Some (Some (f s, s)).
Definition change (f : S -> S) : attempt S unit := fun s => Some (Some (tt, f s)).
End Attempt.

(** ** The buffer *)

Definition SIZE_MAX : Z := 2 ^ 64 - 1.

Record printbuffer := mk_printbuffer {
  p_buffer : string;       (** what has been written, a prefix of the allocation *)
  p_length : Z;
  p_offset : Z;
  p_depth : Z;
  p_noalloc : bool;
  p_format : bool;
  p_allocs : nat           (** the allocations made so far *) }.

#[export] Instance eta_printbuffer : Eta printbuffer := fun p => mk_printbuffer
  (p_buffer p) (p_length p) (p_offset p) (p_depth p) (p_noalloc p) (p_format p) (p_allocs p).

Abbreviation printer := (attempt printbuffer).

Section Print.
Context (alloc : nat -> bool).

(** [ensure] succeeds when [needed] bytes and one more fit behind the offset. A buffer
    that could not be enlarged has been freed; no function looks at it again. *)
Definition ensure (needed : Z) : printer unit := fun p =>
  if (0 <? p_length p) && (p_length p <=? p_offset p) then Some None
  else
    let needed := u64 (needed + p_offset p + 1) in
    if needed <=? p_length p then Some (Some (tt, p))
    else if p_noalloc p then Some None
    else
      let newsize := if SIZE_MAX / 2 <? needed then SIZE_MAX else needed * 2 in
      if alloc (p_allocs p)
      then Some (Some (tt, p <| p_length := newsize |> <| p_allocs ::= Datatypes.S |>))
      else Some None.

(** Characters written from position [i] on. *)
Definition overwrite (i : nat) (t b : string) : string :=
  (str_take i b ++ t ++ str_drop (i + String.length t) b)%string.

Definition store (i : Z) (t : string) : printer unit := fun p =>
  if (0 <=? i) && (i + strlen t <=? p_length p) && (i <=? strlen (p_buffer p))
  then Some (Some (tt, p <| p_buffer ::= overwrite (Z.to_nat i) t |>))
  else None.

(** A string with its zero. *)
Definition terminated (t : string) : string := (t ++ String Ascii.zero EmptyString)%string.

(** [output_pointer] is where [ensure] points to. *)
Definition put (t : string) : printer unit := i ← peek p_offset; store i t.
Definition advance (n : Z) : printer unit := change (fun p => p <| p_offset ::= Z.add n |>).

(** The length of the string at a position; [None] when it has no end. *)
Fixpoint find_nul (s : string) : option Z :=
  match s with
  | EmptyString => None
  | String c s => if decide (c = Ascii.zero) then Some 0 else n ← find_nul s; Some (n + 1)
  end.

Definition update_offset : printer unit :=
  p ← peek id;
  match find_nul (str_drop (Z.to_nat (p_offset p)) (p_buffer p)) with
  | Some n => advance n
  | None => undefined
  end.

(** ** Numbers *)

Definition DBL_EPSILON : double := d_of_binary false 1 (-52).

Definition compare_double (a b : double) : bool :=
  let maxVal := if d_lt (d_abs b) (d_abs a) then d_abs a else d_abs b in
  d_le (d_abs (d_sub a b)) (d_mul maxVal DBL_EPSILON).

(** The text of [number_buffer]. *)
Definition number_text (d : double) : string :=
  match d with
  | S754_nan | S754_infinity _ => "null"
  | _ =>
      let text := print_g 15 d in
      match sscanf_lg text with
      | Some test => if compare_double test d then text else print_g 17 d
      | None => print_g 17 d
      end
  end.

(** [sprintf] must not write past the 26 bytes of [number_buffer]. *)
Definition print_number (item : cJSON) : printer unit :=
  let number_buffer := number_text (valuedouble item) in
  let length := strlen number_buffer in
  if 26 <? length + 1 then undefined
  else
    ensure (length + 1);;
    put (terminated number_buffer);;
    advance length.

(** ** Strings *)

Definition quotation : ascii := "034".
Definition backslash : ascii := "092".

Definition short_escape (c : ascii) : option ascii :=
  if decide (c = backslash) then Some backslash
  else if decide (c = quotation) then Some quotation
  else if decide (c = "008"%char) then Some "b"%char
  else if decide (c = "012"%char) then Some "f"%char
  else if decide (c = "010"%char) then Some "n"%char
  else if decide (c = "013"%char) then Some "r"%char
  else if decide (c = "009"%char) then Some "t"%char
  else None.

(** The additional characters a character needs. *)
Definition escape_length (c : ascii) : Z :=
  match short_escape c with
  | Some _ => 1
  | None => if code c <? 32 then 5 else 0
  end.

Fixpoint escape_characters (input : string) : Z :=
  match input with
  | String c input => escape_length c + escape_characters input
  | EmptyString => 0
  end.

Definition escape_char (c : ascii) : string :=
  if (31 <? code c) && negb (bool_decide (c = quotation)) && negb (bool_decide (c = backslash))
  then String c EmptyString
  else String backslash
    match short_escape c with
    | Some e => String e EmptyString
    | None => "u00" ++ print_02x (code c)
    end.

Fixpoint escape (input : string) : string :=
  match input with
  | String c input => escape_char c ++ escape input
  | EmptyString => EmptyString
  end.

Definition quote_string : string := String quotation EmptyString.

(** [None] is the null pointer. *)
Definition print_string_ptr (input : option string) : printer unit :=
  match input with
  | None => ensure 3;; put (terminated (quote_string ++ quote_string))
  | Some input =>
      let input := until_nul input in
      let escape_chars := escape_characters input in
      let output_length := strlen input + escape_chars in
      ensure (output_length + 3);;
      output ← peek p_offset;
      store output quote_string;;
      store (output + 1) (if escape_chars =? 0 then input else escape input);;
      store (output + output_length + 1) (terminated quote_string)
  end.

Definition print_string (item : cJSON) : printer unit := print_string_ptr (valuestring item).

(** ** Values *)

Definition tabs (n : Z) : string := fill "009" (Z.to_nat n) EmptyString.

Section Compound.
Context (print_value : cJSON -> printer unit).

Definition print_elements : list cJSON -> printer unit :=
  fix loop (l : list cJSON) : printer unit :=
    match l with
    | [] => mret tt
    | current_element :: next =>
        print_value current_element;;
        update_offset;;
        fmt ← peek p_format;
        match next with
        | [] => mret tt
        | _ =>
            let length := if (fmt : bool) then 2 else 1 in
            ensure (length + 1);;
            put (terminated (if (fmt : bool) then ", " else ","));;
            advance length
        end;;
        loop next
    end.

Definition print_array (child : list cJSON) : printer unit :=
  ensure 1;;
  put "[";;
  advance 1;;
  change (fun p => p <| p_depth ::= Z.add 1 |>);;
  print_elements child;;
  ensure 2;;
  put (terminated "]");;
  change (fun p => p <| p_depth ::= Z.add (-1) |>).

Definition newline : string := String "010" EmptyString.
Definition tab : string := String "009" EmptyString.

Definition print_members : list (string * cJSON) -> printer unit :=
  fix loop (l : list (string * cJSON)) : printer unit :=
    match l with
    | [] => mret tt
    | (name, current_item) :: next =>
        fmt ← peek p_format;
        (if (fmt : bool) then
           depth ← peek p_depth;
           ensure depth;;
           put (tabs depth);;
           advance depth
         else mret tt);;
        print_string_ptr (Some name);;
        update_offset;;
        let length := if (fmt : bool) then 2 else 1 in
        ensure length;;
        put (if (fmt : bool) then ":" ++ tab else ":")%string;;
        advance length;;
        print_value current_item;;
        update_offset;;
        let comma := match next with [] => EmptyString | _ => ","%string end in
        let length := (if (fmt : bool) then 1 else 0) + strlen comma in
        ensure (length + 1);;
        put (terminated (comma ++ if (fmt : bool) then newline else EmptyString));;
        advance length;;
        loop next
    end.

Definition print_object (child : list (string * cJSON)) : printer unit :=
  fmt ← peek p_format;
  let length := if (fmt : bool) then 2 else 1 in
  ensure (length + 1);;
  put ("{" ++ if (fmt : bool) then newline else EmptyString)%string;;
  change (fun p => p <| p_depth ::= Z.add 1 |>);;
  advance length;;
  print_members child;;
  depth ← peek p_depth;
  ensure (if (fmt : bool) then depth + 1 else 2);;
  put (terminated ((if (fmt : bool) then tabs (depth - 1) else EmptyString) ++ "}"));;
  change (fun p => p <| p_depth ::= Z.add (-1) |>).
End Compound.

Fixpoint print_value (item : cJSON) : printer unit :=
  match item with
  | JNull => ensure 5;; put (terminated "null")
  | JBool b _ =>
      if (b : bool) then ensure 5;; put (terminated "true")
      else ensure 6;; put (terminated "false")
  | JNumber _ _ => print_number item
  | JString _ => print_string item
  | JArray child => print_array print_value child
  | JObject child => print_object print_value child
  end.

(** ** The interface

    An answer is the text, or a null pointer. *)

Definition run_print (m : printer unit) (p : printbuffer) : option (option printbuffer) :=
  match m p with
  | Some (Some (_, p)) => Some (Some p)
  | Some None => Some None
  | None => None
  end.

Definition text_of (p : printbuffer) : string :=
  until_nul (p_buffer p).

Definition default_buffer_size : Z := 256.

Definition print (item : cJSON) (format : bool) : option (option string) :=
  if negb (alloc 0) then Some None
  else
    p ← run_print (print_value item;; update_offset)
          (mk_printbuffer EmptyString default_buffer_size 0 0 false format 1);
    match p with
    | None => Some None
    | Some p => Some (if alloc (p_allocs p) then Some (text_of p) else None)
    end.

Definition cJSON_Print (item : cJSON) : option (option string) := print item true.
Definition cJSON_PrintUnformatted (item : cJSON) : option (option string) := print item false.

Definition cJSON_PrintBuffered (item : cJSON) (prebuffer : Z) (fmt : bool)
    : option (option string) :=
  if prebuffer <? 0 then Some None
  else if negb (alloc 0) then Some None
  else
    p ← run_print (print_value item) (mk_printbuffer EmptyString prebuffer 0 0 false fmt 1);
    Some (option_map text_of p).
End Print.

(** The buffer is the caller's; nothing is allocated. *)
Definition cJSON_PrintPreallocated (item : cJSON) (length : Z) (format : bool)
    : option (option string) :=
  if length <? 0 then Some None
  else
    p ← run_print (print_value (fun _ => false) item) (mk_printbuffer EmptyString length 0 0 true format 0);
    Some (option_map text_of p).
