(* ===== verification/Texts.v ===== *)
(** * iperf_locale.c: the texts of the program

    The constants that the program uses, for a build on Linux with every optional
    feature but SCTP. *)

From S2P Require Import Prelude CJson Printf JsonText.

#[local] Open Scope string_scope.

Definition usage_shortstr : string :=
  "Usage: iperf3 [-s|-c host] [options]" ++ nl ++ "Try `iperf3 --help' for more information." ++ nl.
Definition usage_longstr : string :=
  "Usage: iperf3 [-s|-c host] [options]" ++ nl ++
  "       iperf3 [-h|--help] [-v|--version]" ++ nl ++
  nl ++
  "Server or Client:" ++ nl ++
  "  -p, --port      #         server port to listen on/connect to" ++ nl ++
  "  -f, --format   [kmgtKMGT] format to report: Kbits, Mbits, Gbits, Tbits" ++ nl ++
  "  -i, --interval  #         seconds between periodic throughput reports" ++ nl ++
  "  -I, --pidfile file        write PID file" ++ nl ++
  "  -F, --file name           xmit/recv the specified file" ++ nl ++
  "  -A, --affinity n/n,m      set CPU affinity" ++ nl ++
  "  -B, --bind      <host>    bind to the interface associated with the address <host>" ++ nl ++
  "  --bind-dev      <dev>     bind to the network interface with SO_BINDTODEVICE" ++ nl ++
  "  -V, --verbose             more detailed output" ++ nl ++
  "  -J, --json                output in JSON format" ++ nl ++
  "  --logfile f               send output to a log file" ++ nl ++
  "  --forceflush              force flushing output at every interval" ++ nl ++
  "  --timestamps<=format>     emit a timestamp at the start of each output line" ++ nl ++
  "                            (optional " ++ quote_string ++ "=" ++ quote_string ++ " and format string as per strftime(3))" ++ nl ++
  "  --rcv-timeout #           idle timeout for receiving data" ++ nl ++
  "                            (default %d ms)" ++ nl ++
  "  -d, --debug               emit debugging output" ++ nl ++
  "  -v, --version             show version information and quit" ++ nl ++
  "  -h, --help                show this message and quit" ++ nl ++
  "Server specific:" ++ nl ++
  "  -s, --server              run in server mode" ++ nl ++
  "  -D, --daemon              run the server as a daemon" ++ nl ++
  "  -1, --one-off             handle one client connection then exit" ++ nl ++
  "  --server-bitrate-limit #[KMG][/#]   server's total bit rate limit (default 0 = no limit)" ++ nl ++
  "                            (optional slash and number of secs interval for averaging" ++ nl ++
  "                            total data rate.  Default is 5 seconds)" ++ nl ++
  "  --idle-timeout #          restart idle server after # seconds in case it" ++ nl ++
  "                            got stuck (default - no timeout)" ++ nl ++
  "  --rsa-private-key-path    path to the RSA private key used to decrypt" ++ nl ++
  "                            authentication credentials" ++ nl ++
  "  --authorized-users-path   path to the configuration file containing user" ++ nl ++
  "                            credentials" ++ nl ++
  "  --time-skew-threshold     time skew threshold (in seconds) between the server" ++ nl ++
  "                            and client during the authentication process" ++ nl ++
  "Client specific:" ++ nl ++
  "  -c, --client    <host>    run in client mode, connecting to <host>" ++ nl ++
  "  -u, --udp                 use UDP rather than TCP" ++ nl ++
  "  --connect-timeout #       timeout for control connection setup (ms)" ++ nl ++
  "  -b, --bitrate #[KMG][/#]  target bitrate in bits/sec (0 for unlimited)" ++ nl ++
  "                            (default %d Mbit/sec for UDP, unlimited for TCP)" ++ nl ++
  "                            (optional slash and packet count for burst mode)" ++ nl ++
  "  --pacing-timer #[KMG]     set the timing for pacing, in microseconds (default %d)" ++ nl ++
  "  --fq-rate #[KMG]          enable fair-queuing based socket pacing in" ++ nl ++
  "                            bits/sec (Linux only)" ++ nl ++
  "  -t, --time      #         time in seconds to transmit for (default %d secs)" ++ nl ++
  "  -n, --bytes     #[KMG]    number of bytes to transmit (instead of -t)" ++ nl ++
  "  -k, --blockcount #[KMG]   number of blocks (packets) to transmit (instead of -t or -n)" ++ nl ++
  "  -l, --length    #[KMG]    length of buffer to read or write" ++ nl ++
  "                            (default %d KB for TCP, dynamic or %d for UDP)" ++ nl ++
  "  --cport         <port>    bind to a specific client port (TCP and UDP, default: ephemeral port)" ++ nl ++
  "  -P, --parallel  #         number of parallel client streams to run" ++ nl ++
  "  -R, --reverse             run in reverse mode (server sends, client receives)" ++ nl ++
  "  --bidir                   run in bidirectional mode." ++ nl ++
  "                            Client and server send and receive data." ++ nl ++
  "  -w, --window    #[KMG]    set window size / socket buffer size" ++ nl ++
  "  -C, --congestion <algo>   set TCP congestion control algorithm (Linux and FreeBSD only)" ++ nl ++
  "  -M, --set-mss   #         set TCP/SCTP maximum segment size (MTU - 40 bytes)" ++ nl ++
  "  -N, --no-delay            set TCP/SCTP no delay, disabling Nagle's Algorithm" ++ nl ++
  "  -4, --version4            only use IPv4" ++ nl ++
  "  -6, --version6            only use IPv6" ++ nl ++
  "  -S, --tos N               set the IP type of service, 0-255." ++ nl ++
  "                            The usual prefixes for octal and hex can be used," ++ nl ++
  "                            i.e. 52, 064 and 0x34 all specify the same value." ++ nl ++
  "  --dscp N or --dscp val    set the IP dscp value, either 0-63 or symbolic." ++ nl ++
  "                            Numeric values can be specified in decimal," ++ nl ++
  "                            octal and hex (see --tos above)." ++ nl ++
  "  -L, --flowlabel N         set the IPv6 flow label (only supported on Linux)" ++ nl ++
  "  -Z, --zerocopy            use a 'zero copy' method of sending data" ++ nl ++
  "  -O, --omit N              omit the first n seconds" ++ nl ++
  "  -T, --title str           prefix every output line with this string" ++ nl ++
  "  --extra-data str          data string to include in client and server JSON" ++ nl ++
  "  --get-server-output       get results from server" ++ nl ++
  "  --udp-counters-64bit      use 64-bit counters in UDP test packets" ++ nl ++
  "  --repeating-payload       use repeating pattern in payload, instead of" ++ nl ++
  "                            randomized payload (like in iperf2)" ++ nl ++
  "  --dont-fragment           set IPv4 Don't Fragment flag" ++ nl ++
  "  --username                username for authentication" ++ nl ++
  "  --rsa-public-key-path     path to the RSA public key used to encrypt" ++ nl ++
  "                            authentication credentials" ++ nl ++
  nl ++
  "[KMG] indicates options that support a K/M/G suffix for kilo-, mega-, or giga-" ++ nl ++
  nl ++
  "iperf3 homepage at: https://software.es.net/iperf/" ++ nl ++
  "Report bugs to:     https://github.com/esnet/iperf" ++ nl ++
  EmptyString.
Definition version : string := "iperf 3.10.1".
Definition test_start_time : string :=
  "Starting Test: protocol: %s, %d streams, %d byte blocks, omitting %d seconds, %d second test, tos %d" ++ nl.
Definition test_start_bytes : string :=
  "Starting Test: protocol: %s, %d streams, %d byte blocks, omitting %d seconds, %llu bytes to send, tos %d" ++ nl.
Definition test_start_blocks : string :=
  "Starting Test: protocol: %s, %d streams, %d byte blocks, omitting %d seconds, %d blocks to send, tos %d" ++ nl.
Definition report_time : string := "Time: %s" ++ nl.
Definition report_connecting : string := "Connecting to host %s, port %d" ++ nl.
Definition report_authentication_succeeded : string :=
  "Authentication succeeded for user '%s' ts %ld" ++ nl.
Definition report_authentication_failed : string :=
  "Authentication failed for user '%s' ts %ld" ++ nl.
Definition report_reverse : string := "Reverse mode, remote host %s is sending" ++ nl.
Definition report_accepted : string := "Accepted connection from %s, port %d" ++ nl.
Definition report_cookie : string := "      Cookie: %s" ++ nl.
Definition report_connected : string := "[%3d] local %s port %d connected to %s port %d" ++ nl.
Definition report_omit_done : string := "Finished omit period, starting real test" ++ nl.
Definition report_diskfile : string := "        Sent %s / %s (%d%%) of %s" ++ nl.
Definition report_done : string := "iperf Done." ++ nl.
Definition report_bw_header : string := "[ ID] Interval           Transfer     Bitrate" ++ nl.
Definition report_bw_header_bidir : string :=
  "[ ID][Role] Interval           Transfer     Bitrate" ++ nl.
Definition report_bw_retrans_header : string :=
  "[ ID] Interval           Transfer     Bitrate         Retr" ++ nl.
Definition report_bw_retrans_header_bidir : string :=
  "[ ID][Role] Interval           Transfer     Bitrate         Retr" ++ nl.
Definition report_bw_retrans_cwnd_header : string :=
  "[ ID] Interval           Transfer     Bitrate         Retr  Cwnd" ++ nl.
Definition report_bw_retrans_cwnd_header_bidir : string :=
  "[ ID][Role] Interval           Transfer     Bitrate         Retr  Cwnd" ++ nl.
Definition report_bw_udp_header : string :=
  "[ ID] Interval           Transfer     Bitrate         Jitter    Lost/Total Datagrams" ++ nl.
Definition report_bw_udp_header_bidir : string :=
  "[ ID][Role] Interval           Transfer     Bitrate         Jitter    Lost/Total Datagrams" ++ nl.
Definition report_bw_udp_sender_header : string :=
  "[ ID] Interval           Transfer     Bitrate         Total Datagrams" ++ nl.
Definition report_bw_format : string :=
  "[%3d]%s %6.2f-%-6.2f sec  %ss  %ss/sec                  %s" ++ nl.
Definition report_bw_retrans_format : string :=
  "[%3d]%s %6.2f-%-6.2f sec  %ss  %ss/sec  %3u             %s" ++ nl.
Definition report_bw_retrans_cwnd_format : string :=
  "[%3d]%s %6.2f-%-6.2f sec  %ss  %ss/sec  %3u   %ss       %s" ++ nl.
Definition report_bw_udp_format : string :=
  "[%3d]%s %6.2f-%-6.2f sec  %ss  %ss/sec  %5.3f ms  %d/%d (%.2g%%)  %s" ++ nl.
Definition report_bw_udp_sender_format : string :=
  "[%3d]%s %6.2f-%-6.2f sec  %ss  %ss/sec %s %d  %s" ++ nl.
Definition report_summary : string := "Test Complete. Summary Results:" ++ nl.
Definition report_sum_bw_format : string :=
  "[SUM]%s %6.2f-%-6.2f sec  %ss  %ss/sec                  %s" ++ nl.
Definition report_sum_bw_retrans_format : string :=
  "[SUM]%s %6.2f-%-6.2f sec  %ss  %ss/sec  %3d             %s" ++ nl.
Definition report_sum_bw_udp_format : string :=
  "[SUM]%s %6.2f-%-6.2f sec  %ss  %ss/sec  %5.3f ms  %d/%d (%.2g%%)  %s" ++ nl.
Definition report_sum_bw_udp_sender_format : string :=
  "[SUM]%s %6.2f-%-6.2f sec  %ss  %ss/sec %s %d  %s" ++ nl.
Definition report_omitted : string := "(omitted)".
Definition report_bw_separator : string :=
  "- - - - - - - - - - - - - - - - - - - - - - - - -" ++ nl.
Definition report_sum_outoforder : string :=
  "[SUM]%s %4.1f-%4.1f sec  %d datagrams received out-of-order" ++ nl.
Definition report_cpu : string :=
  "CPU Utilization: %s/%s %.1f%% (%.1f%%u/%.1f%%s), %s/%s %.1f%% (%.1f%%u/%.1f%%s)" ++ nl.
Definition report_local : string := "local".
Definition report_remote : string := "remote".
Definition report_sender : string := "sender".
Definition report_receiver : string := "receiver".
Definition report_sender_not_available_format : string :=
  "[%3d] (sender statistics not available)" ++ nl.
Definition report_sender_not_available_summary_format : string :=
  "[%3s] (sender statistics not available)" ++ nl.
Definition report_receiver_not_available_format : string :=
  "[%3d] (receiver statistics not available)" ++ nl.
Definition report_receiver_not_available_summary_format : string :=
  "[%3s] (receiver statistics not available)" ++ nl.
