(* ===== verification/JsonParse.v ===== *)
(** * cjson.c: parsing

    The parser reads a buffer through an offset.  An access outside the buffer is
    undefined, and so is a run that needs more fuel than it is given; [JsonParseProps]
    shows that neither happens to a string with its zero.  The position a failed parse
    records for [cJSON_GetErrorPtr], which the program does not call, is left out. *)

From S2P Require Import Prelude Double CJson CString JsonText.

#[local] Open Scope Z_scope.

(** [content] is all of the [length] bytes. *)
Record parse_buffer := mk_parse_buffer {
  b_content : string;
  b_offset : nat;
  b_depth : Z;
  b_allocs : nat   (** the allocations made so far *) }.

#[export] Instance eta_parse_buffer : Eta parse_buffer := fun b => mk_parse_buffer
  (b_content b) (b_offset b) (b_depth b) (b_allocs b).

Definition CJSON_NESTING_LIMIT : Z := 1000.

(** The macros. *)
Definition can_access_at_index (b : parse_buffer) (index : nat) : bool :=
  (b_offset b + index <? String.length (b_content b))%nat.
Definition can_read (b : parse_buffer) (size : nat) : bool :=
  (b_offset b + size <=? String.length (b_content b))%nat.
Definition buffer_at_offset (b : parse_buffer) : string := str_drop (b_offset b) (b_content b).

(** The character at the offset is there and is [c]. *)
Definition next_is (b : parse_buffer) (c : ascii) : bool :=
  match buffer_at_offset b with String a _ => bool_decide (a = c) | EmptyString => false end.

(** [strncmp] of a literal at the offset, with [can_read]. *)
Definition reads (b : parse_buffer) (literal : string) : bool :=
  can_read b (String.length literal) &&
  strcmp_0 (str_take (String.length literal) (buffer_at_offset b)) literal.

Abbreviation parser := (attempt parse_buffer).

Definition skip (n : nat) : parser unit := change (fun b => b <| b_offset ::= Nat.add n |>).
Definition step_back : parser unit := change (fun b => b <| b_offset ::= Nat.pred |>).

(** The character at the offset, whether it is inside the buffer or not. *)
Definition current : parser ascii := fun b =>
  match buffer_at_offset b with String c _ => Some (Some (c, b)) | EmptyString => None end.

(** ** Numbers *)

Definition in_number (c : ascii) : bool :=
  isdigit c || bool_decide (c ∈ ["+"; "-"; "e"; "E"; "."]%char).

(** The characters copied to [number_c_string]. *)
Fixpoint number_chars (n : nat) (s : string) : string :=
  match n, s with
  | S n, String c s => if in_number c then String c (number_chars n s) else EmptyString
  | _, _ => EmptyString
  end.

(** Where [strtod] finds no number, it answers the start of the text. *)
Definition parse_number : parser cJSON :=
  b ← peek id;
  let number_c_string := number_chars 63 (buffer_at_offset b) in
  match scan_float number_c_string with
  | None => refuse
  | Some (number, after_end, _) =>
      skip (String.length number_c_string - String.length after_end);;
      mret (cJSON_CreateNumber number)
  end.

(** ** Strings *)

(** Four hexadecimal digits; 0 for anything else. *)
Definition parse_hex4 (input : string) : Z :=
  match input with
  | String a (String b (String c (String d _))) =>
      match digit 16 a, digit 16 b, digit 16 c, digit 16 d with
      | Some a, Some b, Some c, Some d =>
          Z.shiftl (Z.shiftl (Z.shiftl a 4 + b) 4 + c) 4 + d
      | _, _, _, _ => 0
      end
  | _ => 0
  end.

(** The bytes of a code point, the last one first. *)
Fixpoint utf8_bytes (utf8_position : nat) (first_byte_mark codepoint : Z) (rest : string) : string :=
  match utf8_position with
  | S n =>
      utf8_bytes n first_byte_mark (Z.shiftr codepoint 6)
        (String (chr (Z.land (Z.lor codepoint 0x80) 0xBF)) rest)
  | O =>
      String (chr (if first_byte_mark =? 0 then Z.land codepoint 0x7F
                   else Z.land (Z.lor codepoint first_byte_mark) 0xFF)) rest
  end.

Definition utf8 (codepoint : Z) : option string :=
  if codepoint <? 0x80 then Some (utf8_bytes 0 0 codepoint EmptyString)
  else if codepoint <? 0x800 then Some (utf8_bytes 1 0xC0 codepoint EmptyString)
  else if codepoint <? 0x10000 then Some (utf8_bytes 2 0xE0 codepoint EmptyString)
  else if codepoint <=? 0x10FFFF then Some (utf8_bytes 3 0xF0 codepoint EmptyString)
  else None.

(** From the backslash on: the bytes, and the length of the sequence. *)
Definition utf16_literal_to_utf8 (first_sequence : string) : option (string * nat) :=
  if strlen first_sequence <? 6 then None
  else
    let first_code := parse_hex4 (str_drop 2 first_sequence) in
    if (0xDC00 <=? first_code) && (first_code <=? 0xDFFF) then None
    else if (0xD800 <=? first_code) && (first_code <=? 0xDBFF) then
      let second_sequence := str_drop 6 first_sequence in
      if strlen second_sequence <? 6 then None
      else
        match second_sequence with
        | String c0 (String c1 digits) =>
            if negb (bool_decide (c0 = backslash) && bool_decide (c1 = "u"%char)) then None
            else
              let second_code := parse_hex4 digits in
              if (second_code <? 0xDC00) || (0xDFFF <? second_code) then None
              else
                t ← utf8 (0x10000 + Z.lor (Z.shiftl (Z.land first_code 0x3FF) 10)
                                          (Z.land second_code 0x3FF));
                Some (t, 12%nat)
        | _ => None
        end
    else t ← utf8 first_code; Some (t, 6%nat).

(** From a backslash on: what the escape sequence stands for, and its length.
    Behind the last character of the literal is its quotation mark. *)
Definition escape_sequence (s : string) : option (string * nat) :=
  let c := match s with String _ (String c _) => c | _ => quotation end in
  if decide (c = "b"%char) then Some (String "008" EmptyString, 2%nat)
  else if decide (c = "f"%char) then Some (String "012" EmptyString, 2%nat)
  else if decide (c = "n"%char) then Some (String "010" EmptyString, 2%nat)
  else if decide (c = "r"%char) then Some (String "013" EmptyString, 2%nat)
  else if decide (c = "t"%char) then Some (String "009" EmptyString, 2%nat)
  else if decide (c = quotation \/ c = backslash \/ c = "/"%char)
       then Some (String c EmptyString, 2%nat)
  else if decide (c = "u"%char) then utf16_literal_to_utf8 s
  else None.

(** The loop through the literal; [skipped] characters of it belong to the sequence
    before. *)
Fixpoint unescape (skipped : nat) (s : string) : option string :=
  match s with
  | EmptyString => Some EmptyString
  | String c s' =>
      match skipped with
      | S n => unescape n s'
      | O =>
          if decide (c = backslash) then
            '(out, sequence_length) ← escape_sequence s;
            t ← unescape (pred sequence_length) s'; Some (out ++ t)%string
          else t ← unescape 0 s'; Some (String c t)
      end
  end.

(** The literal up to its quotation mark, and how many backslashes were skipped. *)
Fixpoint literal (s : string) : option (string * nat) :=
  match s with
  | EmptyString => None
  | String c s' =>
      if decide (c = quotation) then Some (EmptyString, O)
      else if decide (c = backslash) then
        match s' with
        | EmptyString => None
        | String d s'' =>
            '(l, skipped_bytes) ← literal s'';
            Some (String c (String d l), S skipped_bytes)
        end
      else '(l, skipped_bytes) ← literal s'; Some (String c l, skipped_bytes)
  end.

Section Parse.
Context (alloc : nat -> bool).

Definition allocate : parser unit := fun b =>
  if alloc (b_allocs b) then Some (Some (tt, b <| b_allocs ::= Datatypes.S |>)) else Some None.

Definition parse_string : parser string :=
  c ← current;
  if decide (c <> quotation) then refuse
  else
    b ← peek id;
    match literal (str_drop 1 (buffer_at_offset b)) with
    | None => refuse
    | Some (text, skipped_bytes) =>
        let allocation_length := (1 + String.length text - skipped_bytes)%nat in
        allocate;;
        match unescape 0 text with
        | None => refuse
        | Some output =>
            if (allocation_length + 1 <? String.length output + 1)%nat then undefined
            else skip (1 + String.length text + 1);; mret (until_nul output)
        end
    end.

(** ** Values *)

Fixpoint count_blanks (s : string) : nat :=
  match s with
  | String c s => if code c <=? 32 then S (count_blanks s) else O
  | EmptyString => O
  end.

Definition buffer_skip_whitespace : parser unit :=
  b ← peek id;
  if negb (can_access_at_index b 0) then mret tt
  else
    skip (count_blanks (buffer_at_offset b));;
    b ← peek id;
    if (b_offset b =? String.length (b_content b))%nat then step_back else mret tt.

Section Compound.
Context (parse_value : parser cJSON).

(** The loops behind the opening bracket, at the character before the next element;
    a round takes at least one character. *)
Fixpoint parse_elements (fuel : nat) : parser (list cJSON) :=
  match fuel with
  | O => undefined
  | S fuel =>
      allocate;;
      skip 1;;
      buffer_skip_whitespace;;
      current_item ← parse_value;
      buffer_skip_whitespace;;
      b ← peek id;
      if can_access_at_index b 0 && next_is b "," then
        l ← parse_elements fuel; mret (current_item :: l)
      else mret [current_item]
  end.

Fixpoint parse_members (fuel : nat) : parser (list (string * cJSON)) :=
  match fuel with
  | O => undefined
  | S fuel =>
      allocate;;
      skip 1;;
      buffer_skip_whitespace;;
      name ← parse_string;
      buffer_skip_whitespace;;
      b ← peek id;
      if negb (can_access_at_index b 0) || negb (next_is b ":") then refuse
      else
        skip 1;;
        buffer_skip_whitespace;;
        current_item ← parse_value;
        buffer_skip_whitespace;;
        b ← peek id;
        if can_access_at_index b 0 && next_is b "," then
          l ← parse_members fuel; mret ((name, current_item) :: l)
        else mret [(name, current_item)]
  end.

Definition enter : parser unit :=
  b ← peek id;
  if CJSON_NESTING_LIMIT <=? b_depth b then refuse
  else change (fun b => b <| b_depth ::= Z.add 1 |>).

(** The label [success] of both functions. *)
Definition leave {A} (x : A) : parser A :=
  change (fun b => b <| b_depth ::= Z.add (-1) |>);; skip 1;; mret x.

Definition parse_array (fuel : nat) : parser cJSON :=
  enter;;
  c ← current;
  if decide (c <> "["%char) then refuse
  else
    skip 1;;
    buffer_skip_whitespace;;
    b ← peek id;
    if can_access_at_index b 0 && next_is b "]" then leave (JArray [])
    else if negb (can_access_at_index b 0) then refuse
    else
      step_back;;
      l ← parse_elements fuel;
      b ← peek id;
      if negb (can_access_at_index b 0) || negb (next_is b "]") then refuse
      else leave (JArray l).

Definition parse_object (fuel : nat) : parser cJSON :=
  enter;;
  b ← peek id;
  if negb (can_access_at_index b 0) || negb (next_is b "{") then refuse
  else
    skip 1;;
    buffer_skip_whitespace;;
    b ← peek id;
    if can_access_at_index b 0 && next_is b "}" then leave (JObject [])
    else if negb (can_access_at_index b 0) then refuse
    else
      step_back;;
      l ← parse_members fuel;
      b ← peek id;
      if negb (can_access_at_index b 0) || negb (next_is b "}") then refuse
      else leave (JObject l).
End Compound.

Fixpoint parse_value (fuel : nat) : parser cJSON :=
  match fuel with
  | O => undefined
  | S fuel =>
      b ← peek id;
      if reads b "null" then skip 4;; mret JNull
      else if reads b "false" then skip 5;; mret (JBool false 0)
      else if reads b "true" then skip 4;; mret (JBool true 1)
      else if can_access_at_index b 0 && next_is b quotation then
        s ← parse_string; mret (JString s)
      else
        match buffer_at_offset b with
        | EmptyString => refuse
        | String c _ =>
            if bool_decide (c = "-"%char) || isdigit c then parse_number
            else if bool_decide (c = "["%char) then parse_array (parse_value fuel) fuel
            else if bool_decide (c = "{"%char) then parse_object (parse_value fuel) fuel
            else refuse
        end
  end.

(** ** The interface *)

Definition skip_utf8_bom : parser unit :=
  b ← peek id;
  if can_access_at_index b 4 &&
     strcmp_0 (str_take 3 (buffer_at_offset b)) (bytes_string [0xEF; 0xBB; 0xBF])
  then skip 3 else mret tt.

(** A recursion or a round of a loop takes at least one of the characters. *)
Definition parse_fuel (value : string) : nat := S (String.length value).

(** The [buffer_length] bytes are [value]. *)
Definition cJSON_ParseWithLengthOpts (value : string) (require_null_terminated : bool)
    : option (option cJSON) :=
  if strcmp_0 value EmptyString then Some None
  else
    r ← (allocate;;
         skip_utf8_bom;;
         buffer_skip_whitespace;;
         item ← parse_value (parse_fuel value);
         if (require_null_terminated : bool) then
           buffer_skip_whitespace;;
           b ← peek id;
           if negb (can_access_at_index b 0) || negb (next_is b Ascii.zero) then refuse
           else mret item
         else mret item) (mk_parse_buffer value 0 0 0);
    Some (option_map fst r).

(** The string and its zero. *)
Definition cJSON_ParseWithOpts (value : string) (require_null_terminated : bool)
    : option (option cJSON) :=
  cJSON_ParseWithLengthOpts (terminated (until_nul value)) require_null_terminated.

Definition cJSON_Parse (value : string) : option (option cJSON) :=
  cJSON_ParseWithOpts value false.
Definition cJSON_ParseWithLength (value : string) : option (option cJSON) :=
  cJSON_ParseWithLengthOpts value false.
End Parse.

(** ** Texts as the bytes that are sent

    A null pointer where no text or no value was made. Printing is undefined only for a
    text longer than a [size_t] counts, parsing a string never. *)
Definition print_bytes (alloc : nat -> bool) (j : cJSON) : option (list Z) :=
  string_bytes <$> mjoin (cJSON_PrintUnformatted alloc j).
Definition parse_bytes (alloc : nat -> bool) (str : list Z) : option cJSON :=
  mjoin (cJSON_Parse alloc (bytes_string str)).
