(* ===== verification/CJsonOps.v ===== *)
(** * cjson.c: kinds of items, arrays of values, copies, comparison, minified text

    What the rest of the library does with values that hang together as lists of
    children: the predicates on the type of an item, the lookups that heed upper
    and lower case, the arrays made at one stroke, the recursive copy and the
    comparison.  [cJSON_Minify] works in place on a text in memory: its model has
    the memory and the two positions, and an access outside the text shows up.
    The pointers between the children are in [CJsonLinks].  No item here is a
    reference or holds raw text. *)

From Stdlib Require Import Floats.SpecFloat.
From S2P Require Import Prelude Double CJson CString JsonText.

#[local] Open Scope Z_scope.

(** ** Kinds *)

Definition cJSON_Invalid : Z := 0.
Definition cJSON_False : Z := Z.shiftl 1 0.
Definition cJSON_True : Z := Z.shiftl 1 1.
Definition cJSON_NULL : Z := Z.shiftl 1 2.
Definition cJSON_Number : Z := Z.shiftl 1 3.
Definition cJSON_String : Z := Z.shiftl 1 4.
Definition cJSON_Array : Z := Z.shiftl 1 5.
Definition cJSON_Object : Z := Z.shiftl 1 6.
Definition cJSON_Raw : Z := Z.shiftl 1 7.

(** The [type] of an item. *)
Definition type (j : cJSON) : Z :=
  match j with
  | JNull => cJSON_NULL
  | JBool true _ => cJSON_True
  | JBool false _ => cJSON_False
  | JNumber _ _ => cJSON_Number
  | JString _ => cJSON_String
  | JArray _ => cJSON_Array
  | JObject _ => cJSON_Object
  end.

(** The predicates answer false for a null pointer, which is [None]. *)
Definition of_type (t : Z) (item : option cJSON) : bool :=
  match item with Some item => Z.land (type item) 0xFF =? t | None => false end.

Definition cJSON_IsInvalid : option cJSON -> bool := of_type cJSON_Invalid.
Definition cJSON_IsFalse : option cJSON -> bool := of_type cJSON_False.
Definition cJSON_IsTrue : option cJSON -> bool := of_type cJSON_True.
Definition cJSON_IsBool (item : option cJSON) : bool :=
  match item with
  | Some item => negb (Z.land (type item) (Z.lor cJSON_True cJSON_False) =? 0)
  | None => false
  end.
Definition cJSON_IsNull : option cJSON -> bool := of_type cJSON_NULL.
Definition cJSON_IsNumber : option cJSON -> bool := of_type cJSON_Number.
Definition cJSON_IsString : option cJSON -> bool := of_type cJSON_String.
Definition cJSON_IsArray : option cJSON -> bool := of_type cJSON_Array.
Definition cJSON_IsObject : option cJSON -> bool := of_type cJSON_Object.
Definition cJSON_IsRaw : option cJSON -> bool := of_type cJSON_Raw.

Definition cJSON_GetStringValue (item : option cJSON) : option string :=
  if cJSON_IsString item then j ← item; valuestring j else None.

Definition cJSON_GetNumberValue (item : option cJSON) : double :=
  match item with
  | Some j => if cJSON_IsNumber item then valuedouble j else S754_nan
  | None => S754_nan
  end.

(** ** Lookup *)

Fixpoint get_member_case_sensitive (name : string) (ms : list (string * cJSON)) : option cJSON :=
  match ms with
  | [] => None
  | (key, item) :: ms =>
      if strcmp_0 name key then Some item else get_member_case_sensitive name ms
  end.

Definition get_object_item (case_sensitive : bool) (name : string) (ms : list (string * cJSON))
    : option cJSON :=
  if case_sensitive then get_member_case_sensitive name ms else get_member name ms.

Definition cJSON_GetObjectItemCaseSensitive (object : cJSON) (name : string) : option cJSON :=
  match object with JObject ms => get_object_item true name ms | _ => None end.

Definition cJSON_HasObjectItem (object : cJSON) (name : string) : bool :=
  if cJSON_GetObjectItem object name then true else false.

(** ** Construction *)

Definition cJSON_CreateBool (boolean : bool) : cJSON := JBool boolean 0.

Definition cJSON_AddNullToObject (object : cJSON) (name : string) : cJSON :=
  cJSON_AddItemToObject object name JNull.
Definition cJSON_AddFalseToObject (object : cJSON) (name : string) : cJSON :=
  cJSON_AddItemToObject object name (JBool false 0).
Definition cJSON_AddBoolToObject (object : cJSON) (name : string) (boolean : bool) : cJSON :=
  cJSON_AddItemToObject object name (cJSON_CreateBool boolean).
Definition cJSON_AddObjectToObject (object : cJSON) (name : string) : cJSON :=
  cJSON_AddItemToObject object name (JObject []).
Definition cJSON_AddArrayToObject (object : cJSON) (name : string) : cJSON :=
  cJSON_AddItemToObject object name (JArray []).

(** An array of [count] items made from the [numbers] in memory. Outside is undefined
    behaviour when [numbers] has fewer than [count]; inside is the null pointer. *)
Definition create_array {A} (create : A -> cJSON) (numbers : option (list A)) (count : Z)
    : option (option cJSON) :=
  match numbers with
  | None => Some None
  | Some numbers =>
      if count <? 0 then Some None
      else if Z.of_nat (length numbers) <? count then None
      else Some (Some (JArray (map create (take (Z.to_nat count) numbers))))
  end.

Definition cJSON_CreateIntArray : option (list Z) -> Z -> option (option cJSON) :=
  create_array (fun n => cJSON_CreateNumber (d_of_Z n)).
(** Every [float] is a [double]. *)
Definition cJSON_CreateFloatArray : option (list double) -> Z -> option (option cJSON) :=
  create_array cJSON_CreateNumber.
Definition cJSON_CreateDoubleArray : option (list double) -> Z -> option (option cJSON) :=
  create_array cJSON_CreateNumber.
Definition cJSON_CreateStringArray : option (list string) -> Z -> option (option cJSON) :=
  create_array JString.

(** ** Copies

    [Some None] is the null pointer of a failed allocation; whether the [n]-th
    allocation succeeds is [alloc n], as for printing. *)

Section Duplicate.
Context (alloc : nat -> bool).

Definition allocate : attempt nat unit := fun n =>
  if alloc n then Some (Some (tt, S n)) else Some None.

(** [cJSON_strdup] of a string that is there. *)
Definition strdup (s : option string) : attempt nat unit :=
  match s with Some _ => allocate | None => mret tt end.

Section Children.
Context (duplicate : option string -> cJSON -> attempt nat cJSON).

Definition duplicate_items : list cJSON -> attempt nat (list cJSON) :=
  fix loop child :=
    match child with
    | [] => mret []
    | item :: next => newchild ← duplicate None item; rest ← loop next; mret (newchild :: rest)
    end.

Definition duplicate_members : list (string * cJSON) -> attempt nat (list (string * cJSON)) :=
  fix loop child :=
    match child with
    | [] => mret []
    | (name, item) :: next =>
        newchild ← duplicate (Some name) item; rest ← loop next; mret ((name, newchild) :: rest)
    end.
End Children.

(** The item whose [string] is [name]; the copy keeps it. *)
Fixpoint duplicate (recurse : bool) (name : option string) (item : cJSON) : attempt nat cJSON :=
  allocate;;
  strdup (valuestring item);;
  strdup name;;
  match item with
  | JArray child =>
      newchild ← (if recurse then duplicate_items (duplicate true) child else mret []);
      mret (JArray newchild)
  | JObject child =>
      newchild ← (if recurse then duplicate_members (duplicate true) child else mret []);
      mret (JObject newchild)
  | _ => mret item
  end.

Definition cJSON_Duplicate (item : option cJSON) (recurse : bool) : option cJSON :=
  item ← item;
  match duplicate recurse None item 0%nat with
  | Some (Some (newitem, _)) => Some newitem
  | _ => None
  end.
End Duplicate.

(** ** Comparison

    The items compared are not the same item in memory. Fuel runs out, [None], only
    where both items are nested deeper. *)

Section Compare.
Context (case_sensitive : bool).

Section Children.
Context (cJSON_Compare : cJSON -> cJSON -> option bool).

Definition compare_elements : list cJSON -> list cJSON -> option bool :=
  fix loop a_child b_child :=
    match a_child, b_child with
    | a_element :: a_next, b_element :: b_next =>
        equal ← cJSON_Compare a_element b_element;
        if (equal : bool) then loop a_next b_next else Some false
    | [], [] => Some true
    | _, _ => Some false
    end.

(** Each member is found in the other object, and equal there. *)
Definition compare_members (b : list (string * cJSON)) : list (string * cJSON) -> option bool :=
  fix loop a_child :=
    match a_child with
    | [] => Some true
    | (name, a_element) :: a_next =>
        match get_object_item case_sensitive name b with
        | None => Some false
        | Some b_element =>
            equal ← cJSON_Compare a_element b_element;
            if (equal : bool) then loop a_next else Some false
        end
    end.
End Children.

Fixpoint compare (fuel : nat) (a b : cJSON) : option bool :=
  match fuel with
  | O => None
  | S fuel =>
      if negb (Z.land (type a) 0xFF =? Z.land (type b) 0xFF) || cJSON_IsInvalid (Some a)
      then Some false
      else
        match a, b with
        | JNumber _ x, JNumber _ y => Some (compare_double x y)
        | JString s, JString t => Some (strcmp_0 s t)
        | JArray a_child, JArray b_child => compare_elements (compare fuel) a_child b_child
        | JObject a_child, JObject b_child =>
            found ← compare_members (compare fuel) b_child a_child;
            if (found : bool) then compare_members (compare fuel) a_child b_child else Some false
        | _, _ => Some true
        end
  end.
End Compare.

Fixpoint depth (j : cJSON) : nat :=
  match j with
  | JArray items => S (foldr Nat.max O (map depth items))
  | JObject members => S (foldr Nat.max O (map (fun m => depth (snd m)) members))
  | _ => O
  end.

Definition cJSON_Compare (a b : option cJSON) (case_sensitive : bool) : option bool :=
  match a, b with
  | Some a, Some b => compare case_sensitive (S (depth a)) a b
  | _, _ => Some false
  end.

(** ** Minified text

    The text is rewritten where it stands: [json] is where it is read and [into]
    where it is written.  Undefined behaviour is an access outside the memory. *)

Record minify_state := mk_minify_state {
  json_mem : string;
  json : nat;
  into : nat }.

#[export] Instance eta_minify_state : Eta minify_state :=
  fun s => mk_minify_state (json_mem s) (json s) (into s).

Abbreviation minifier := (attempt minify_state).

(** [json[k]] *)
Definition look (k : nat) : minifier ascii := fun s =>
  match String.get (json s + k) (json_mem s) with
  | Some c => Some (Some (c, s))
  | None => None
  end.

(** [into[k] = c] *)
Definition write (k : nat) (c : ascii) : minifier unit := fun s =>
  if decide (into s + k < String.length (json_mem s))%nat
  then Some (Some (tt, s <| json_mem ::= overwrite (into s + k) (String c EmptyString) |>))
  else None.

Definition skip_input (n : nat) : minifier unit := change (fun s => s <| json ::= Nat.add n |>).
Definition skip_output (n : nat) : minifier unit := change (fun s => s <| into ::= Nat.add n |>).

Definition slash : ascii := "/".
Definition star : ascii := "*".
Definition line_feed : ascii := "010".

Fixpoint oneline_loop (fuel : nat) : minifier unit :=
  match fuel with
  | O => undefined
  | S fuel =>
      c ← look 0;
      if decide (c = Ascii.zero) then mret tt
      else if decide (c = line_feed) then skip_input 1
      else skip_input 1;; oneline_loop fuel
  end.

Definition skip_oneline_comment (fuel : nat) : minifier unit :=
  skip_input 2;; oneline_loop fuel.

Fixpoint multiline_loop (fuel : nat) : minifier unit :=
  match fuel with
  | O => undefined
  | S fuel =>
      c ← look 0;
      if decide (c = Ascii.zero) then mret tt
      else
        closes ← (if decide (c = star) then d ← look 1; mret (bool_decide (d = slash))
                  else mret false);
        if (closes : bool) then skip_input 2
        else skip_input 1;; multiline_loop fuel
  end.

Definition skip_multiline_comment (fuel : nat) : minifier unit :=
  skip_input 2;; multiline_loop fuel.

Fixpoint string_loop (fuel : nat) : minifier unit :=
  match fuel with
  | O => undefined
  | S fuel =>
      c ← look 0;
      if decide (c = Ascii.zero) then mret tt
      else
        write 0 c;;
        c ← look 0;
        if decide (c = quotation) then
          write 0 quotation;; skip_input 1;; skip_output 1
        else
          escaped ← (if decide (c = backslash) then d ← look 1; mret (bool_decide (d = quotation))
                     else mret false);
          (if (escaped : bool) then
             d ← look 1;
             write 1 d;; skip_input 1;; skip_output 1
           else mret tt);;
          skip_input 1;; skip_output 1;;
          string_loop fuel
  end.

Definition minify_string (fuel : nat) : minifier unit :=
  c ← look 0;
  write 0 c;;
  skip_input 1;; skip_output 1;;
  string_loop fuel.

Definition blank (c : ascii) : bool :=
  bool_decide (c = " "%char) || bool_decide (c = "009"%char) ||
  bool_decide (c = "013"%char) || bool_decide (c = "010"%char).

Fixpoint minify_loop (fuel : nat) : minifier unit :=
  match fuel with
  | O => undefined
  | S fuel =>
      c ← look 0;
      if decide (c = Ascii.zero) then mret tt
      else
        (if blank c then skip_input 1
         else if decide (c = slash) then
           d ← look 1;
           if decide (d = slash) then skip_oneline_comment fuel
           else if decide (d = star) then skip_multiline_comment fuel
           else skip_input 1
         else if decide (c = quotation) then minify_string fuel
         else write 0 c;; skip_input 1;; skip_output 1);;
        minify_loop fuel
  end.

(** Every round reads at least a character, so the characters of the memory are fuel
    enough, [CJsonOpsProps]. *)
Definition cJSON_Minify (text : string) : option string :=
  let mem := terminated (until_nul text) in
  match (minify_loop (String.length mem);; write 0 Ascii.zero) (mk_minify_state mem 0 0) with
  | Some (Some (_, s)) => Some (until_nul (json_mem s))
  | _ => None
  end.
