(* ===== verification/CJsonLinks.v ===== *)
(** * cjson.c: items and the pointers between them

    The values of [CJson] are trees; in memory an item is a struct whose children are
    a chain of structs that point to the next and the previous one, the [prev] of the
    first leading to the last. The memory is a map from addresses to structs. Reading
    or writing through a null pointer or an address that holds no item is undefined
    behaviour; the strings an item owns are values and are not tracked. *)

From stdpp Require Import gmap.
From S2P Require Import Prelude Double CJson CString JsonText CJsonOps.

#[local] Open Scope Z_scope.

Abbreviation loc := positive.
(** [None] is the null pointer. *)
Abbreviation pointer := (option loc).

Record node := mk_node {
  n_next : pointer;
  n_prev : pointer;
  n_child : pointer;
  n_type : Z;
  n_valuestring : option string;
  n_valueint : Z;
  n_valuedouble : double;
  n_string : option string }.

#[export] Instance eta_node : Eta node := fun n => mk_node
  (n_next n) (n_prev n) (n_child n) (n_type n) (n_valuestring n) (n_valueint n)
  (n_valuedouble n) (n_string n).

Abbreviation heap := (gmap loc node).
Abbreviation links := (attempt heap).

(** [p->...] *)
Definition deref (p : pointer) : links node := fun h =>
  match p with
  | Some p => match h !! p with Some n => Some (Some (n, h)) | None => None end
  | None => None
  end.

(** [p->... = ...] *)
Definition assign (p : pointer) (f : node -> node) : links unit := fun h =>
  match p with
  | Some p => match h !! p with Some n => Some (Some (tt, <[p := f n]> h)) | None => None end
  | None => None
  end.

(** ** Memory *)

Definition cJSON_IsReference : Z := 256.
Definition cJSON_StringIsConst : Z := 512.

(** All bytes zero. The allocation succeeds at an address that is not in use. *)
Definition cJSON_New_Item : links pointer := fun h =>
  let p := fresh (dom h) in
  Some (Some (Some p, <[p := mk_node None None None cJSON_Invalid None 0 d_zero None]> h)).

(** A new item and what is stored in it. *)
Definition created (f : node -> node) : links pointer :=
  item ← cJSON_New_Item; assign item f;; mret item.

Definition of_kind (t : Z) : links pointer := created (fun n => n <| n_type := t |>).

Definition create_null : links pointer := of_kind cJSON_NULL.
Definition create_true : links pointer := of_kind cJSON_True.
Definition create_false : links pointer := of_kind cJSON_False.
Definition create_bool (boolean : bool) : links pointer :=
  of_kind (if boolean then cJSON_True else cJSON_False).
Definition create_array : links pointer := of_kind cJSON_Array.
Definition create_object : links pointer := of_kind cJSON_Object.

(** The saturated [valueint] is that of the value [cJSON_CreateNumber] gives. *)
Definition create_number (num : double) : links pointer :=
  created (fun n => n <| n_type := cJSON_Number |> <| n_valuedouble := num |>
                      <| n_valueint := valueint (cJSON_CreateNumber num) |>).
Definition create_string (string : string) : links pointer :=
  created (fun n => n <| n_type := cJSON_String |> <| n_valuestring := Some string |>).
Definition cJSON_CreateRaw (raw : string) : links pointer :=
  created (fun n => n <| n_type := cJSON_Raw |> <| n_valuestring := Some raw |>).

(** Items that share a string or the children of others. *)
Definition cJSON_CreateStringReference (string : string) : links pointer :=
  created (fun n => n <| n_type := Z.lor cJSON_String cJSON_IsReference |> <| n_valuestring := Some string |>).
Definition cJSON_CreateObjectReference (child : pointer) : links pointer :=
  created (fun n => n <| n_type := Z.lor cJSON_Object cJSON_IsReference |> <| n_child := child |>).
Definition cJSON_CreateArrayReference (child : pointer) : links pointer :=
  created (fun n => n <| n_type := Z.lor cJSON_Array cJSON_IsReference |> <| n_child := child |>).

Definition cJSON_SetNumberHelper (object : pointer) (number : double) : links double :=
  assign object (fun n => n <| n_valueint := valueint (cJSON_CreateNumber number) |>
                            <| n_valuedouble := number |>);;
  mret number.

(** The string stays where it is when the new one is not longer, and is copied to a new
    place otherwise; [strlen] of a null pointer is undefined. *)
Definition cJSON_SetValuestring (object : pointer) (valuestring : string) : links (option string) :=
  n ← deref object;
  if (Z.land (n_type n) cJSON_String =? 0) || negb (Z.land (n_type n) cJSON_IsReference =? 0)
  then mret None
  else
    match n_valuestring n with
    | None => undefined
    | Some _ => assign object (fun n => n <| n_valuestring := Some valuestring |>);; mret (Some valuestring)
    end.

Definition free (p : loc) : links unit := fun h =>
  match h !! p with Some _ => Some (Some (tt, delete p h)) | None => None end.

(** Fuel: every round frees an item. *)
Fixpoint delete_items (fuel : nat) (item : pointer) : links unit :=
  match item with
  | None => mret tt
  | Some p =>
      match fuel with
      | O => undefined
      | S fuel =>
          n ← deref item;
          (if (Z.land (n_type n) cJSON_IsReference =? 0) && bool_decide (n_child n <> None)
           then delete_items fuel (n_child n) else mret tt);;
          free p;;
          delete_items fuel (n_next n)
      end
  end.

Definition cJSON_Delete (item : pointer) : links unit := fun h =>
  delete_items (size h) item h.

(** ** Reading *)

Fixpoint count_children (fuel : nat) (child : pointer) : links Z :=
  match child with
  | None => mret 0
  | Some _ =>
      match fuel with
      | O => undefined
      | S fuel => n ← deref child; size ← count_children fuel (n_next n); mret (1 + size)
      end
  end.

Definition cJSON_GetArraySize_links (array : pointer) : links Z :=
  match array with
  | None => mret 0
  | Some _ =>
      a ← deref array;
      h ← peek id;
      size ← count_children (size (h : heap)) (n_child a);
      mret (i32 size)
  end.

Fixpoint nth_child (index : nat) (current_child : pointer) : links pointer :=
  match current_child with
  | None => mret None
  | Some _ =>
      match index with
      | O => mret current_child
      | S index => n ← deref current_child; nth_child index (n_next n)
      end
  end.

Definition get_array_item (array : pointer) (index : Z) : links pointer :=
  match array with
  | None => mret None
  | Some _ => a ← deref array; nth_child (Z.to_nat index) (n_child a)
  end.

Definition cJSON_GetArrayItem_links (array : pointer) (index : Z) : links pointer :=
  if index <? 0 then mret None else get_array_item array index.

(** The chain is left at the member found, or at its end. *)
Fixpoint find_member (case_sensitive : bool) (name : string) (fuel : nat) (current : pointer)
    : links pointer :=
  match current with
  | None => mret None
  | Some _ =>
      match fuel with
      | O => undefined
      | S fuel =>
          n ← deref current;
          match n_string n with
          | Some string =>
              if if case_sensitive then strcmp_0 name string else case_insensitive_eq name string
              then mret current
              else find_member case_sensitive name fuel (n_next n)
          | None =>
              if case_sensitive then mret None
              else find_member case_sensitive name fuel (n_next n)
          end
      end
  end.

Definition get_object_item_links (object : pointer) (name : option string) (case_sensitive : bool)
    : links pointer :=
  match object, name with
  | Some _, Some name =>
      a ← deref object;
      h ← peek id;
      find_member case_sensitive name (size (h : heap)) (n_child a)
  | _, _ => mret None
  end.

(** ** Adding *)

Definition suffix_object (prev item : pointer) : links unit :=
  assign prev (fun n => n <| n_next := item |>);;
  assign item (fun n => n <| n_prev := prev |>).

Fixpoint last_child (fuel : nat) (child : pointer) : links pointer :=
  match fuel with
  | O => undefined
  | S fuel =>
      n ← deref child;
      match n_next n with None => mret child | Some _ => last_child fuel (n_next n) end
  end.

Definition add_item_to_array (array item : pointer) : links bool :=
  if bool_decide (item = None) || bool_decide (array = None) || bool_decide (array = item)
  then mret false
  else
    a ← deref array;
    let child := n_child a in
    match child with
    | None =>
        assign array (fun n => n <| n_child := item |>);;
        assign item (fun n => n <| n_prev := item |> <| n_next := None |>);;
        mret true
    | Some _ =>
        c ← deref child;
        match n_prev c with
        | Some _ => suffix_object (n_prev c) item
        | None =>
            h ← peek id;
            last ← last_child (size (h : heap)) child;
            suffix_object last item
        end;;
        a ← deref array;
        assign (n_child a) (fun n => n <| n_prev := item |>);;
        mret true
    end.

(** The key is a string of the caller's when it is constant, and a copy otherwise. *)
Definition add_item_to_object (object : pointer) (string : option string) (item : pointer)
    (constant_key : bool) : links bool :=
  if bool_decide (object = None) || bool_decide (string = None) || bool_decide (item = None) ||
     bool_decide (object = item)
  then mret false
  else
    assign item (fun n =>
      n <| n_string := string |>
        <| n_type := if constant_key then Z.lor (n_type n) cJSON_StringIsConst
                     else Z.land (n_type n) (Z.lnot cJSON_StringIsConst) |>);;
    add_item_to_array object item.

(** [cJSON_AddNullToObject] and the like: an item made and added at once. *)
Definition add_new (create : links pointer) (object : pointer) (name : option string) : links pointer :=
  item ← create;
  added ← add_item_to_object object name item false;
  if (added : bool) then mret item else cJSON_Delete item;; mret None.

(** An item that shares the children of another. *)
Definition create_reference (item : pointer) : links pointer :=
  match item with
  | None => mret None
  | Some _ =>
      reference ← cJSON_New_Item;
      n ← deref item;
      assign reference (fun _ =>
        n <| n_string := None |> <| n_type := Z.lor (n_type n) cJSON_IsReference |>
          <| n_next := None |> <| n_prev := None |>);;
      mret reference
  end.

Definition cJSON_AddItemReferenceToArray (array item : pointer) : links bool :=
  match array with
  | None => mret false
  | Some _ => reference ← create_reference item; add_item_to_array array reference
  end.

Definition cJSON_AddItemReferenceToObject (object : pointer) (string : option string) (item : pointer)
    : links bool :=
  match object, string with
  | Some _, Some _ =>
      reference ← create_reference item; add_item_to_object object string reference false
  | _, _ => mret false
  end.

(** ** Detaching *)

Definition cJSON_DetachItemViaPointer (parent item : pointer) : links pointer :=
  if bool_decide (parent = None) || bool_decide (item = None) then mret None
  else
    p ← deref parent;
    (if bool_decide (item <> n_child p) then
       i ← deref item; assign (n_prev i) (fun n => n <| n_next := n_next i |>)
     else mret tt);;
    i ← deref item;
    (if bool_decide (n_next i <> None) then assign (n_next i) (fun n => n <| n_prev := n_prev i |>)
     else mret tt);;
    (if bool_decide (item = n_child p) then
       i ← deref item; assign parent (fun n => n <| n_child := n_next i |>)
     else mret tt);;
    assign item (fun n => n <| n_prev := None |> <| n_next := None |>);;
    mret item.

Definition cJSON_DetachItemFromArray (array : pointer) (which : Z) : links pointer :=
  if which <? 0 then mret None
  else item ← get_array_item array which; cJSON_DetachItemViaPointer array item.

Definition cJSON_DeleteItemFromArray (array : pointer) (which : Z) : links unit :=
  item ← cJSON_DetachItemFromArray array which; cJSON_Delete item.

Definition detach_item_from_object (object : pointer) (string : option string) (case_sensitive : bool)
    : links pointer :=
  to_detach ← get_object_item_links object string case_sensitive;
  cJSON_DetachItemViaPointer object to_detach.

Definition delete_item_from_object (object : pointer) (string : option string) (case_sensitive : bool)
    : links unit :=
  item ← detach_item_from_object object string case_sensitive; cJSON_Delete item.

(** ** Inserting and replacing *)

Definition cJSON_InsertItemInArray (array : pointer) (which : Z) (newitem : pointer) : links bool :=
  if which <? 0 then mret false
  else
    after_inserted ← get_array_item array which;
    match after_inserted with
    | None => add_item_to_array array newitem
    | Some _ =>
        after ← deref after_inserted;
        assign newitem (fun n => n <| n_next := after_inserted |> <| n_prev := n_prev after |>);;
        assign after_inserted (fun n => n <| n_prev := newitem |>);;
        a ← deref array;
        (if bool_decide (after_inserted = n_child a)
         then assign array (fun n => n <| n_child := newitem |>)
         else
           new ← deref newitem;
           assign (n_prev new) (fun n => n <| n_next := newitem |>));;
        mret true
    end.

Definition cJSON_ReplaceItemViaPointer (parent item replacement : pointer) : links bool :=
  if bool_decide (parent = None) || bool_decide (replacement = None) || bool_decide (item = None)
  then mret false
  else if bool_decide (replacement = item) then mret true
  else
    i ← deref item;
    assign replacement (fun n => n <| n_next := n_next i |> <| n_prev := n_prev i |>);;
    r ← deref replacement;
    (if bool_decide (n_next r <> None)
     then assign (n_next r) (fun n => n <| n_prev := replacement |>) else mret tt);;
    p ← deref parent;
    (if bool_decide (n_child p = item)
     then assign parent (fun n => n <| n_child := replacement |>)
     else
       r ← deref replacement;
       if bool_decide (n_prev r <> None)
       then assign (n_prev r) (fun n => n <| n_next := replacement |>) else mret tt);;
    assign item (fun n => n <| n_next := None |> <| n_prev := None |>);;
    cJSON_Delete item;;
    mret true.

Definition cJSON_ReplaceItemInArray (array : pointer) (which : Z) (newitem : pointer) : links bool :=
  if which <? 0 then mret false
  else item ← get_array_item array which; cJSON_ReplaceItemViaPointer array item newitem.

Definition replace_item_in_object (object : pointer) (string : option string) (replacement : pointer)
    (case_sensitive : bool) : links bool :=
  if bool_decide (replacement = None) || bool_decide (string = None) then mret false
  else
    assign replacement (fun n =>
      n <| n_string := string |> <| n_type := Z.land (n_type n) (Z.lnot cJSON_StringIsConst) |>);;
    item ← get_object_item_links object string case_sensitive;
    cJSON_ReplaceItemViaPointer object item replacement.
