(* ===== verification/NumberProps.v ===== *)
(** * Numbers in JSON texts

    How long the text of a double is, that the text is a numeral which is read to its
    end, and that integers come back exactly. *)

From Stdlib Require Import Floats.SpecFloat.
From S2P Require Import Prelude Double CJson CString CStringProps JsonText.

#[local] Open Scope Z_scope.

(** ** The number of digits *)

Lemma digits_of_count fuel n s :
  (0 < fuel)%nat -> 0 <= n < 2 ^ Z.of_nat fuel ->
  exists k, strlen (digits_of fuel n s) = k + strlen s /\ 0 < k /\ n < 10 ^ k /\
    (k <> 1 -> 10 ^ (k - 1) <= n).
Proof.
  revert n s. induction fuel as [|fuel IH]; intros n s Hf Hn; [lia|]. cbn [digits_of].
  destruct (Z.ltb_spec n 10).
  - exists 1. rewrite strlen_cons. repeat split; lia.
  - destruct (tenth fuel n) as [Hf' Hn']; [done..|].
    destruct (IH (n / 10) (String (chr (48 + n mod 10)) s) Hf' Hn') as (k & -> & Hk & Hlt & Hge).
    exists (k + 1). rewrite strlen_cons. split; [lia|]. split; [lia|].
    pose proof (Z.div_mod n 10 ltac:(lia)). pose proof (Z.mod_pos_bound n 10 ltac:(lia)).
    rewrite Z.pow_add_r by lia. split; [lia|]. intros _. replace (k + 1 - 1) with k by lia.
    destruct (Z.eq_dec k 1) as [->|Hk1]; [lia|]. specialize (Hge Hk1).
    replace k with (k - 1 + 1) at 1 by lia. rewrite Z.pow_add_r by lia. lia.
Qed.

Lemma print_nat_length n :
  0 <= n -> 0 < strlen (print_nat n) /\ n < 10 ^ strlen (print_nat n) /\
  (strlen (print_nat n) <> 1 -> 10 ^ (strlen (print_nat n) - 1) <= n).
Proof.
  intros Hn. unfold print_nat. destruct (print_nat_fuel n Hn) as [Hf Hn'].
  destruct (digits_of_count _ n EmptyString Hf Hn') as (k & -> & ? & ? & ?).
  change (strlen EmptyString) with 0. by rewrite Z.add_0_r.
Qed.

Lemma print_nat_short n k : 0 <= n < 10 ^ k -> 0 < k -> strlen (print_nat n) <= k.
Proof.
  intros Hn Hk. destruct (print_nat_length n) as (_ & _ & Hge); [lia|].
  destruct (Z.le_gt_cases (strlen (print_nat n)) k) as [|Hgt]; [done|]. exfalso.
  pose proof (Hge ltac:(lia)). pose proof (Z.pow_le_mono_r 10 k (strlen (print_nat n) - 1)). lia.
Qed.

(** ** The exponent and the digits of "%g" *)

Lemma decimal_exponent_above num den :
  0 < num -> 0 < den ->
  let X := decimal_exponent num den in
  if 0 <=? X + 1 then num < den * 10 ^ (X + 1) else num * 10 ^ (- (X + 1)) < den.
Proof.
  intros Hn Hd. cbv zeta. unfold decimal_exponent. destruct (Z.leb_spec den num) as [Hle|Hlt].
  - assert (0 <= num / den) as Hq by by apply Z.div_pos; lia.
    destruct (print_nat_length (num / den) Hq) as (H0 & H1 & _).
    set (k := strlen _) in *. destruct (Z.leb_spec 0 (k - 1 + 1)); [|lia].
    replace (k - 1 + 1) with k by lia.
    pose proof (Z.div_mod num den ltac:(lia)). pose proof (Z.mod_pos_bound num den ltac:(lia)). nia.
  - assert (0 <= (den - 1) / num) as Hq by by apply Z.div_pos; lia.
    destruct (print_nat_length _ Hq) as (H0 & _ & H1). set (k := strlen _) in *.
    destruct (Z.leb_spec 0 (- k + 1)).
    + replace (- k + 1) with 0 by lia. lia.
    + specialize (H1 ltac:(lia)). replace (- (- k + 1)) with (k - 1) by lia.
      pose proof (Z.mul_div_le (den - 1) num ltac:(lia)). nia.
Qed.

Lemma div_nearest_even_le a b c : 0 <= a -> 0 < b -> a <= b * c -> 0 <= div_nearest_even a b <= c.
Proof.
  intros Ha Hb Hc. unfold div_nearest_even.
  pose proof (Z.div_mod a b ltac:(lia)) as E. pose proof (Z.mod_pos_bound a b ltac:(lia)).
  assert (0 <= a / b) by (apply Z.div_pos; lia).
  destruct (Z.compare_spec (2 * (a mod b)) b); [destruct (Z.even _)|..]; nia.
Qed.

Lemma significant_bound P num den :
  0 < P -> 0 < num -> 0 < den ->
  let '(n, X) := significant P num den in
  0 <= n < 10 ^ P /\ (X = decimal_exponent num den \/ X = decimal_exponent num den + 1).
Proof.
  intros HP Hn Hd. unfold significant. set (X := decimal_exponent num den).
  pose proof (decimal_exponent_above num den Hn Hd) as Hlt. cbv zeta in Hlt. fold X in Hlt.
  assert (0 <= scale_decimal num den (P - 1 - X) <= 10 ^ P) as Hs.
  { unfold scale_decimal.
    destruct (Z.leb_spec 0 (P - 1 - X)) as [Hk|Hk], (Z.leb_spec 0 (X + 1)) as [Hx|Hx].
    - apply div_nearest_even_le; [|lia|]; [apply Z.mul_nonneg_nonneg; lia|].
      replace P with (X + 1 + (P - 1 - X)) at 2 by lia. rewrite Z.pow_add_r by lia.
      pose proof (Z.pow_pos_nonneg 10 (P - 1 - X) ltac:(lia) ltac:(lia)). nia.
    - apply div_nearest_even_le; [|lia|]; [apply Z.mul_nonneg_nonneg; lia|].
      replace (P - 1 - X) with (P + - (X + 1)) by lia. rewrite Z.pow_add_r by lia.
      pose proof (Z.pow_pos_nonneg 10 P ltac:(lia) ltac:(lia)). nia.
    - apply div_nearest_even_le; [lia|apply Z.mul_pos_pos; [lia|apply Z.pow_pos_nonneg; lia]|].
      rewrite <- Z.mul_assoc, <- Z.pow_add_r by lia.
      replace (- (P - 1 - X) + P) with (X + 1) by lia. lia.
    - lia. }
  destruct (Z.eqb_spec (scale_decimal num den (P - 1 - X)) (10 ^ P)) as [E|E].
  - split; [|by right]. rewrite E. replace P with (P - 1 + 1) by lia.
    rewrite Z.pow_add_r, Z.div_mul by lia.
    pose proof (Z.pow_pos_nonneg 10 (P - 1) ltac:(lia) ltac:(lia)). lia.
  - split; [lia|by left].
Qed.

(** ** The length of a text *)

Lemma strlen_take n s : strlen (str_take n s) + strlen (str_drop n s) = strlen s.
Proof. rewrite <- strlen_app. by rewrite str_take_drop. Qed.

Lemma strlen_strip s : strlen (strip_zeros s) <= strlen s.
Proof.
  induction s as [|c s IH]; [done|]. cbn [strip_zeros].
  pose proof (strlen_nonneg s). rewrite strlen_cons.
  destruct (_ && _); [change (strlen "") with 0; lia|]. rewrite strlen_cons. lia.
Qed.

Lemma strlen_fraction s : strlen (fraction s) <= strlen s + 1.
Proof.
  unfold fraction. pose proof (strlen_strip s). pose proof (strlen_nonneg s).
  destruct (strcmp_0 _ _); [change (strlen "") with 0; lia|]. rewrite strlen_cons. lia.
Qed.

Lemma strlen_exponent X : Z.abs X < 10 ^ 3 -> strlen (exponent X) <= 5.
Proof.
  intros HX. unfold exponent, pad_left. rewrite !strlen_cons, strlen_fill.
  pose proof (print_nat_short (Z.abs X) 3 ltac:(lia) ltac:(lia)).
  destruct (print_nat_length (Z.abs X)) as (? & _); [lia|]. unfold strlen in *. lia.
Qed.

Lemma print_g_pos_length P num den :
  4 < P -> 0 < num -> 0 < den -> Z.abs (decimal_exponent num den) < 999 ->
  strlen (print_g_pos P num den) <= P + 6.
Proof.
  intros HP Hn Hd HX. unfold print_g_pos.
  pose proof (significant_bound P num den ltac:(lia) Hn Hd) as Hs.
  destruct (significant P num den) as [n X]. destruct Hs as [Hs HX'].
  pose proof (print_nat_short n P Hs ltac:(lia)) as Hlen.
  destruct ((-4 <=? X) && (X <? P)) eqn:E; [destruct (Z.leb_spec 0 X)|].
  - rewrite strlen_app. pose proof (strlen_fraction (str_drop (S (Z.to_nat X)) (print_nat n))).
    pose proof (strlen_take (S (Z.to_nat X)) (print_nat n)). lia.
  - rewrite strlen_cons. pose proof (strlen_fraction (fill "0" (Z.to_nat (- X - 1)) (print_nat n))) as H1.
    rewrite strlen_fill in H1. apply andb_true_iff in E as [E _]. apply Z.leb_le in E. lia.
  - rewrite !strlen_app. pose proof (strlen_fraction (str_drop 1 (print_nat n))).
    pose proof (strlen_take 1 (print_nat n)). pose proof (strlen_exponent X ltac:(lia)). lia.
Qed.

(** ** Doubles *)

(** A value a [double] can have. *)
Definition valid_double (d : double) : Prop := valid_binary prec emax d = true.

Lemma valid_finite s m e :
  valid_double (S754_finite s m e) -> Z.pos m < 2 ^ 53 /\ - 1074 <= e <= 971.
Proof.
  unfold valid_double, valid_binary, bounded, canonical_mantissa. intros [H1 H2]%andb_true_iff.
  apply Zeq_is_eq_bool in H1. apply Z.leb_le in H2.
  rewrite digits2_pos_log2 in H1. unfold fexp, emin, prec, emax in *.
  split; [|lia]. apply Z.log2_lt_pow2; lia.
Qed.

Lemma exponent_bounds m e :
  Z.pos m < 2 ^ 53 -> - 1074 <= e <= 971 ->
  Z.abs (decimal_exponent (Z.pos m * 2 ^ Z.max 0 e) (2 ^ Z.max 0 (- e))) < 999.
Proof.
  intros Hm He. unfold decimal_exponent.
  assert (1 <= 2 ^ Z.max 0 (- e) <= 2 ^ 1074) as Hd.
  { split; [|apply Z.pow_le_mono_r; lia]. pose proof (Z.pow_pos_nonneg 2 (Z.max 0 (- e))). lia. }
  assert (1 <= Z.pos m * 2 ^ Z.max 0 e < 2 ^ 53 * 2 ^ 971) as Hn.
  { pose proof (Z.pow_pos_nonneg 2 (Z.max 0 e) ltac:(lia) ltac:(lia)).
    pose proof (Z.pow_le_mono_r 2 (Z.max 0 e) 971 ltac:(lia) ltac:(lia)). nia. }
  set (den := 2 ^ Z.max 0 (- e)) in *. set (num := Z.pos m * 2 ^ Z.max 0 e) in *.
  assert (2 ^ 53 * 2 ^ 971 < 10 ^ 309 /\ 2 ^ 1074 < 10 ^ 324) as [H309 H324] by by vm_compute.
  destruct (Z.leb_spec den num).
  - assert (0 <= num / den <= num) as Hq.
    { split; [apply Z.div_pos; lia|]. apply Z.div_le_upper_bound; nia. }
    destruct (print_nat_length (num / den)) as (H0 & _); [lia|].
    pose proof (print_nat_short (num / den) 309 ltac:(lia) ltac:(lia)). lia.
  - assert (0 <= (den - 1) / num <= den) as Hq.
    { split; [apply Z.div_pos; lia|]. apply Z.div_le_upper_bound; nia. }
    destruct (print_nat_length ((den - 1) / num)) as (H0 & _); [lia|].
    pose proof (print_nat_short ((den - 1) / num) 324 ltac:(lia) ltac:(lia)). lia.
Qed.

Lemma print_g_length P x :
  4 < P -> valid_double x -> strlen (print_g P x) <= P + 7.
Proof.
  intros HP Hx. destruct x as [[]|[]| |s m e]; try (unfold strlen; cbn [print_g String.length]; lia).
  destruct (valid_finite _ _ _ Hx) as [Hm He]. unfold print_g. rewrite strlen_app.
  pose proof (exponent_bounds m e Hm He) as HX.
  assert (0 < Z.pos m * 2 ^ Z.max 0 e) as Hnum by (apply Z.mul_pos_pos; [|apply Z.pow_pos_nonneg]; lia).
  assert (0 < 2 ^ Z.max 0 (- e)) as Hden by (apply Z.pow_pos_nonneg; lia).
  pose proof (print_g_pos_length P _ _ HP Hnum Hden HX).
  destruct s; [change (strlen "-") with 1|change (strlen "") with 0]; lia.
Qed.

(** ** A numeral is read to its end *)

Lemma digit_isdigit c : isdigit c = true -> digit 10 c = Some (code c - 48).
Proof.
  unfold digit. intros H. rewrite H. unfold isdigit in H. apply andb_true_iff in H as [H1 H2].
  apply Z.leb_le in H1, H2. destruct (Z.ltb_spec (code c - 48) 10); [done|lia].
Qed.

Lemma scan_digits_chars w s acc k :
  chars isdigit w = true -> no_digit s ->
  exists v, scan_digits 10 acc k (w ++ s)%string = (v, k + strlen w, s).
Proof.
  revert acc k. induction w as [|c w IH]; intros acc k Hw Hs.
  - exists acc. rewrite Z.add_0_r. by apply scan_digits_stop.
  - rewrite chars_cons in Hw. apply andb_true_iff in Hw as [Hc Hw].
    destruct (IH (acc * 10 + (code c - 48)) (k + 1) Hw Hs) as (v & Hv). exists v.
    rewrite string_app_cons. cbn [scan_digits]. rewrite digit_isdigit, Hv by done.
    rewrite strlen_cons. do 2 f_equal. lia.
Qed.

(** The parts of a numeral behind its first digits. *)
Definition fraction_part (f : string) : Prop :=
  f = EmptyString \/ exists d, f = String "." d /\ d <> EmptyString /\ chars isdigit d = true.
Definition exponent_part (x : string) : Prop :=
  x = EmptyString \/
  exists sign d, x = String "e" (String sign d) /\ (sign = "+"%char \/ sign = "-"%char) /\
    d <> EmptyString /\ chars isdigit d = true.

Lemma strlen_pos s : s <> EmptyString -> 0 < strlen s.
Proof. destruct s as [|c s]; [done|]. intros _. rewrite strlen_cons. pose proof (strlen_nonneg s). lia. Qed.

Lemma exponent_no_digit x : exponent_part x -> no_digit x.
Proof. by intros [-> | (sign & d & -> & _)]. Qed.

Lemma scan_mantissa_numeral w f x :
  chars isdigit w = true -> w <> EmptyString -> fraction_part f -> exponent_part x ->
  exists v k, scan_mantissa 10 (w ++ f ++ x)%string = Some (v, k, x).
Proof.
  intros Hw Hne Hf Hx. pose proof (strlen_pos w Hne) as Hlen. unfold scan_mantissa.
  assert (no_digit (f ++ x)) as Hnd.
  { destruct Hf as [-> | (d & -> & _)]; [by apply exponent_no_digit|done]. }
  destruct (scan_digits_chars w (f ++ x)%string 0 0 Hw Hnd) as (v & ->).
  destruct Hf as [-> | (d & -> & Hdne & Hd)].
  - change ("" ++ x)%string with x. exists v, 0.
    destruct (Z.eqb_spec (0 + strlen w) 0); [lia|].
    destruct (strchr x ".") as [[[|a b] t]|] eqn:E; [|done|done].
    apply strchr_head in E. subst x. by destruct Hx as [? | (sign & d & ? & _)].
  - rewrite string_app_cons. cbn [strchr]. rewrite decide_True by done.
    destruct (scan_digits_chars d x v 0 Hd (exponent_no_digit x Hx)) as (v' & ->).
    exists v', (0 + strlen d). pose proof (strlen_nonneg d).
    destruct (Z.eqb_spec (0 + strlen w + (0 + strlen d)) 0); [lia|done].
Qed.

Lemma scan_exponent_numeral x :
  exponent_part x ->
  exists e, scan_exponent "e" x = (e, EmptyString, false) /\ (x = EmptyString -> e = 0).
Proof.
  intros [-> | (sign & d & -> & Hs & Hne & Hd)]; [by exists 0|].
  assert (exists minus, scan_sign (String sign d) = (minus, d)) as (minus & E).
  { destruct Hs as [-> | ->]; by eexists. }
  cbn [scan_exponent]. rewrite decide_True, E by done.
  destruct (scan_digits_chars d EmptyString 0 0 Hd I) as (v & Hv).
  rewrite string_app_nil in Hv. rewrite Hv. pose proof (strlen_pos d Hne).
  destruct (Z.eqb_spec (0 + strlen d) 0); [lia|]. eexists. by split.
Qed.

(** No numeral goes on as a hexadecimal one. *)
Lemma after_0x w f x :
  chars isdigit w = true -> fraction_part f -> exponent_part x -> w <> EmptyString ->
  after_prefix "0x" (w ++ f ++ x)%string = None.
Proof.
  intros Hw Hf Hx Hne. destruct w as [|c w]; [done|]. rewrite string_app_cons. cbn [after_prefix].
  case_decide; [|done]. rewrite chars_cons in Hw. apply andb_true_iff in Hw as [_ Hw].
  destruct w as [|c' w].
  - destruct Hf as [-> | (d & -> & _)]; [|done].
    by destruct Hx as [-> | (sign & d & -> & _)].
  - rewrite string_app_cons, chars_cons in *. apply andb_true_iff in Hw as [Hc _].
    rewrite decide_False; [done|]. intros E. revert Hc E.
    by destruct c' as [[] [] [] [] [] [] [] []].
Qed.

Lemma digit_head c : isdigit c = true -> exists d, c = chr (48 + d) /\ 0 <= d < 10.
Proof.
  unfold isdigit. intros [H1 H2]%andb_true_iff. apply Z.leb_le in H1, H2.
  exists (code c - 48). replace (48 + (code c - 48)) with (code c) by lia. rewrite chr_code. split; [done|lia].
Qed.

Lemma scan_float_numeral minus w f x :
  chars isdigit w = true -> w <> EmptyString -> fraction_part f -> exponent_part x ->
  exists m k e, scan_mantissa 10 (w ++ f ++ x)%string = Some (m, k, x) /\
    (x = EmptyString -> e = 0) /\
    scan_float ((if minus : bool then "-" else "") ++ w ++ f ++ x)%string
    = Some (d_of_decimal minus m (e - k), EmptyString, false).
Proof.
  intros Hw Hne Hf Hx. destruct (scan_mantissa_numeral w f x Hw Hne Hf Hx) as (m & k & Hm).
  destruct (scan_exponent_numeral x Hx) as (e & He & He0). exists m, k, e. split; [done|]. split; [done|].
  pose proof (after_0x w f x Hw Hf Hx Hne) as H0x.
  destruct w as [|c w]; [done|]. rewrite chars_cons in Hw. apply andb_true_iff in Hw as [Hc _].
  destruct (digit_head c Hc) as (d & -> & Hd). unfold scan_float.
  assert (scan_sign (skip_spaces ((if minus then "-" else "")
            ++ String (chr (48 + d)) w ++ f ++ x))%string
          = (minus, (String (chr (48 + d)) w ++ f ++ x)%string)) as ->.
  { destruct minus; [done|]. change ("" ++ ?t)%string with t. rewrite string_app_cons.
    by rewrite skip_spaces_digit, scan_sign_digit. }
  rewrite H0x. rewrite string_app_cons in *. cbn [mbind option_bind].
  rewrite !after_letter_digit by (done || (cbn; set_solver)). rewrite Hm. cbn [mbind option_bind].
  by rewrite He.
Qed.

(** ** Scanning a number takes something *)

Lemma length_skip_spaces s : (String.length (skip_spaces s) <= String.length s)%nat.
Proof. induction s as [|c s IH]; [done|]. cbn [skip_spaces]. destruct (isspace c); cbn [String.length]; lia. Qed.

Lemma length_scan_sign s minus t :
  scan_sign s = (minus, t) -> (String.length t <= String.length s)%nat.
Proof.
  destruct s as [|c s]; [by intros [= <- <-]|]. cbn [scan_sign].
  repeat case_decide; intros [= <- <-]; cbn [String.length]; lia.
Qed.

Lemma length_after_prefix p s t :
  after_prefix p s = Some t -> (String.length t + String.length p = String.length s)%nat.
Proof.
  revert s. induction p as [|a p IH]; intros s H; [injection H as <-; cbn; lia|].
  destruct s as [|b s]; [done|]. cbn [after_prefix] in H. case_decide; [|done].
  apply IH in H. cbn [String.length]. lia.
Qed.

Lemma length_scan_digits base s acc n v n' t :
  scan_digits base acc n s = (v, n', t) ->
  n <= n' /\ Z.of_nat (String.length t) + (n' - n) = strlen s.
Proof.
  unfold strlen. revert acc n. induction s as [|c s IH]; intros acc n H; cbn [scan_digits] in H.
  - injection H as <- <- <-. cbn [String.length]. lia.
  - destruct (digit base c).
    + apply IH in H. cbn [String.length]. lia.
    + injection H as <- <- <-. lia.
Qed.

Lemma length_scan_mantissa base s v k t :
  scan_mantissa base s = Some (v, k, t) -> (String.length t < String.length s)%nat.
Proof.
  unfold scan_mantissa. destruct (scan_digits base 0 0 s) as [[v1 n1] t1] eqn:E1.
  apply length_scan_digits in E1. unfold strlen in E1.
  assert ((if n1 =? 0 then None else Some (v1, 0, t1)) = Some (v, k, t) ->
          (String.length t < String.length s)%nat) as Hplain.
  { destruct (Z.eqb_spec n1 0); [done|]. intros [= <- <- <-]. lia. }
  destruct (strchr t1 ".") as [[[|a b] after]|] eqn:Ed; [|exact Hplain..].
  apply strchr_head in Ed. subst t1.
  destruct (scan_digits base v1 0 after) as [[v2 n2] t2] eqn:E2.
  apply length_scan_digits in E2. unfold strlen in E2. cbn [String.length] in E1.
  destruct (n1 + n2 =? 0); [done|]. intros [= <- <- <-]. lia.
Qed.

Lemma length_scan_exponent letter s e t p :
  scan_exponent letter s = (e, t, p) -> (String.length t <= String.length s)%nat.
Proof.
  destruct s as [|c s]; [by intros [= <- <- <-]|]. cbn [scan_exponent].
  case_decide; [|by intros [= <- <- <-]]. destruct (scan_sign s) as [minus u] eqn:Es.
  apply length_scan_sign in Es. destruct (scan_digits 10 0 0 u) as [[v n] w] eqn:Ed.
  apply length_scan_digits in Ed. unfold strlen in Ed.
  destruct (n =? 0); intros [= <- <- <-]; cbn [String.length]; lia.
Qed.

Lemma scan_float_progress s x t p :
  scan_float s = Some (x, t, p) -> (String.length t < String.length s)%nat.
Proof.
  unfold scan_float. destruct (scan_sign (skip_spaces s)) as [minus u] eqn:Eu.
  apply length_scan_sign in Eu. pose proof (length_skip_spaces s).
  destruct (after_prefix "infinity" u) eqn:E1.
  { apply length_after_prefix in E1. cbn in E1. intros [= <- <- <-]. lia. }
  destruct (after_prefix "inf" u) eqn:E2.
  { apply length_after_prefix in E2. cbn in E2. intros [= <- <- <-]. lia. }
  destruct (after_prefix "nan" u) eqn:E3.
  { apply length_after_prefix in E3. cbn in E3. intros [= <- <- <-]. lia. }
  match goal with |- match ?h with _ => _ end = _ -> _ => destruct h as [r|] eqn:Eh end.
  - intros [= ->]. apply bind_Some in Eh as (h & Eh & H'). apply length_after_prefix in Eh.
    apply bind_Some in H' as ([[m k] rest] & Hm & H'). apply length_scan_mantissa in Hm.
    destruct (scan_exponent "p" rest) as [[e rest'] q] eqn:Ee. apply length_scan_exponent in Ee.
    injection H' as <- <- <-. cbn in Eh. lia.
  - intros H'. apply bind_Some in H' as ([[m k] rest] & Hm & H'). apply length_scan_mantissa in Hm.
    destruct (scan_exponent "e" rest) as [[e rest'] q] eqn:Ee. apply length_scan_exponent in Ee.
    injection H' as <- <- <-. lia.
Qed.

(** ** What is printed is a numeral *)

Lemma fraction_spec s : chars isdigit s = true -> fraction_part (fraction s).
Proof.
  intros Hs. unfold fraction. destruct (strcmp_0 _ _) eqn:E; [by left|]. right.
  exists (strip_zeros s). split; [done|]. split; [|by apply chars_strip].
  unfold strcmp_0 in E. by apply bool_decide_eq_false in E.
Qed.

Lemma exponent_spec X : exponent_part (exponent X).
Proof.
  right. exists (if X <? 0 then "-"%char else "+"%char), (pad_left "0" 2 (print_nat (Z.abs X))).
  split; [done|]. split; [destruct (X <? 0); auto|]. unfold pad_left. split.
  - intros E. apply (f_equal strlen) in E. rewrite strlen_fill in E. change (strlen "") with 0 in E.
    destruct (print_nat_length (Z.abs X)); lia.
  - apply chars_fill; [done|apply isdigit_print_nat].
Qed.

Lemma str_take_nonempty n s : 0 < strlen s -> str_take (S n) s <> EmptyString.
Proof. by destruct s. Qed.

Lemma print_g_pos_numeral P num den :
  0 < P -> 0 < num -> 0 < den ->
  exists w f x, print_g_pos P num den = (w ++ f ++ x)%string /\
    chars isdigit w = true /\ w <> EmptyString /\ fraction_part f /\ exponent_part x.
Proof.
  intros HP Hn Hd. unfold print_g_pos.
  pose proof (significant_bound P num den HP Hn Hd) as Hs.
  destruct (significant P num den) as [n X]. destruct Hs as [Hs _].
  destruct (print_nat_length n) as (Hlen & _); [lia|]. pose proof (isdigit_print_nat n) as Hdig.
  destruct (_ && _); [destruct (0 <=? X)|].
  - exists (str_take (S (Z.to_nat X)) (print_nat n)),
      (fraction (str_drop (S (Z.to_nat X)) (print_nat n))), EmptyString.
    rewrite string_app_nil. split; [done|]. split; [by apply chars_take|].
    split; [by apply str_take_nonempty|]. split; [by apply fraction_spec, chars_drop|by left].
  - exists "0"%string, (fraction (fill "0" (Z.to_nat (- X - 1)) (print_nat n))), EmptyString.
    rewrite string_app_nil. do 3 (split; [done|]). split; [by apply fraction_spec, chars_fill|by left].
  - exists (str_take 1 (print_nat n)), (fraction (str_drop 1 (print_nat n))), (exponent X).
    split; [done|]. split; [by apply chars_take|]. split; [by apply str_take_nonempty|].
    split; [by apply fraction_spec, chars_drop|apply exponent_spec].
Qed.

(** Whether a double is printed as a number. *)
Definition finite (d : double) : bool :=
  match d with S754_nan | S754_infinity _ => false | _ => true end.

Lemma print_g_numeral P d :
  0 < P -> finite d = true ->
  exists (minus : bool) w f x, print_g P d = ((if minus then "-" else "") ++ w ++ f ++ x)%string /\
    chars isdigit w = true /\ w <> EmptyString /\ fraction_part f /\ exponent_part x.
Proof.
  intros HP Hd. destruct d as [s| | |s m e]; [|done|done|].
  - exists s, "0"%string, EmptyString, EmptyString. split; [by destruct s|].
    split; [done|]. split; [done|]. by split; left.
  - destruct (print_g_pos_numeral P (Z.pos m * 2 ^ Z.max 0 e) (2 ^ Z.max 0 (- e)))
      as (w & f & x & E & H); [done| | |].
    + apply Z.mul_pos_pos; [|apply Z.pow_pos_nonneg]; lia.
    + apply Z.pow_pos_nonneg; lia.
    + exists s, w, f, x. split; [cbn [print_g]; by rewrite E|done].
Qed.

Lemma number_text_numeral d :
  finite d = true ->
  exists (minus : bool) w f x, number_text d = ((if minus then "-" else "") ++ w ++ f ++ x)%string /\
    chars isdigit w = true /\ w <> EmptyString /\ fraction_part f /\ exponent_part x.
Proof.
  intros Hd. assert (number_text d = print_g 15 d \/ number_text d = print_g 17 d) as [-> | ->].
  { unfold number_text. destruct d; try done; (destruct (sscanf_lg _); [destruct (compare_double _ _)|]);
      auto. }
  - by apply print_g_numeral.
  - by apply print_g_numeral.
Qed.

(** The double the text of a double stands for. *)
Definition reread (d : double) : double :=
  match scan_float (number_text d) with Some (x, _, _) => x | None => d end.

Lemma scan_number_text d :
  finite d = true -> scan_float (number_text d) = Some (reread d, EmptyString, false).
Proof.
  intros Hd. destruct (number_text_numeral d Hd) as (minus & w & f & x & E & Hw & Hne & Hf & Hx).
  unfold reread. rewrite E.
  destruct (scan_float_numeral minus w f x Hw Hne Hf Hx) as (m & k & e & _ & _ & ->). done.
Qed.

(** ** The text of a double fits its buffer *)

Theorem number_text_length d : valid_double d -> strlen (number_text d) <= 24.
Proof.
  intros Hd. unfold number_text.
  pose proof (print_g_length 15 d ltac:(done) Hd). pose proof (print_g_length 17 d ltac:(done) Hd).
  destruct d; [|by vm_compute|by vm_compute|];
    (destruct (sscanf_lg _); [destruct (compare_double _ _)|]); lia.
Qed.

(** ** Comparing a double with itself *)

Lemma shr_nonneg mrs e n : 0 <= shr_m mrs -> 0 <= shr_m (fst (shr mrs e n)).
Proof.
  assert (forall mrs, 0 <= shr_m mrs -> 0 <= shr_m (shr_1 mrs)) as H1.
  { intros [[|[p|p|]|p] r s] H; cbn in *; lia. }
  unfold shr. destruct n as [|p|p]; [done| |done]. cbn [fst]. revert mrs.
  induction p as [p IH|p IH|]; intros mrs H; cbn [SpecFloat.iter_pos]; auto.
Qed.

Lemma binary_round_aux_sign s m e l :
  0 <= m ->
  match binary_round_aux prec emax s m e l with
  | S754_zero s' | S754_infinity s' | S754_finite s' _ _ => s' = s
  | S754_nan => False
  end.
Proof.
  intros Hm. unfold binary_round_aux.
  assert (forall mrs e, 0 <= shr_m mrs -> 0 <= shr_m (fst (shr_fexp prec emax (shr_m mrs) e loc_Exact)))
    as Hf.
  { intros mrs e' H. unfold shr_fexp. apply shr_nonneg. done. }
  assert (0 <= shr_m (fst (shr_fexp prec emax m e l))) as H1.
  { unfold shr_fexp. apply shr_nonneg. by destruct l as [|[]]. }
  destruct (shr_fexp prec emax m e l) as [mrs e1]. cbn [fst] in H1.
  set (m1 := round_nearest_even _ _).
  assert (0 <= m1) as Hm1.
  { unfold m1, round_nearest_even. destruct (loc_of_shr_record mrs) as [|[]];
      [|destruct (Z.even _)| |]; lia. }
  assert (0 <= shr_m (fst (shr_fexp prec emax m1 e1 loc_Exact))) as H2.
  { unfold shr_fexp. by apply shr_nonneg. }
  destruct (shr_fexp prec emax m1 e1 loc_Exact) as [mrs2 e2]. cbn [fst] in H2.
  destruct (shr_m mrs2); [done| |lia]. by destruct (_ <=? _).
Qed.

Lemma d_sub_self s m e : d_sub (S754_finite s m e) (S754_finite s m e) = S754_zero false.
Proof.
  unfold d_sub, SFsub. rewrite Z.min_id. unfold shl_align. rewrite Z.sub_diag. cbn [fst].
  destruct s; cbn [cond_Zopp]; rewrite ?Z.sub_diag; reflexivity.
Qed.

Lemma compare_double_self s m e :
  compare_double (S754_finite s m e) (S754_finite s m e) = true.
Proof.
  unfold compare_double. rewrite d_sub_self.
  assert (forall b : bool, (if b then d_abs (S754_finite s m e) else d_abs (S754_finite s m e))
                           = S754_finite false m e) as ->.
  { by intros []. }
  unfold d_mul. assert (DBL_EPSILON = S754_finite false 4503599627370496 (-104)) as -> by by vm_compute.
  cbn [SFmul xorb].
  pose proof (binary_round_aux_sign false (Z.pos (m * 4503599627370496)) (e + -104) loc_Exact ltac:(lia))
    as H.
  destruct (binary_round_aux _ _ _ _ _ _) as [s'|s'| |s' m' e']; [done|by subst s'|done|by subst s'].
Qed.

(** ** Integers of at most 15 digits are printed in full *)

Lemma digits_of_fuel f g n s :
  (0 < f)%nat -> (0 < g)%nat -> 0 <= n < 2 ^ Z.of_nat f -> n < 2 ^ Z.of_nat g ->
  digits_of f n s = digits_of g n s.
Proof.
  revert g n s. induction f as [|f IH]; intros g n s Hf Hg Hn Hn'; [lia|].
  destruct g as [|g]; [lia|]. cbn [digits_of]. destruct (Z.ltb_spec n 10); [done|].
  destruct (tenth f n) as [Hf' Hnf]; [done..|]. destruct (tenth g n) as [Hg' Hng]; [lia|done|].
  apply IH; lia.
Qed.

Lemma print_nat_ten n : 0 < n -> print_nat (n * 10) = (print_nat n ++ "0")%string.
Proof.
  intros Hn. unfold print_nat at 1. cbn [digits_of].
  destruct (Z.ltb_spec (n * 10) 10); [lia|]. rewrite Z.div_mul, Z.mod_mul by lia.
  change (String (chr (48 + 0)) "") with ("" ++ "0")%string. rewrite <- digits_of_app. f_equal.
  destruct (print_nat_fuel n) as [H1 H2]; [lia|].
  assert (n < 2 ^ Z.log2 (n * 10)) as Hlt.
  { pose proof (Z.log2_spec n ltac:(lia)) as [_ Hl]. rewrite Z.pow_succ_r in Hl by apply Z.log2_nonneg.
    pose proof (Z.log2_le_mono (n * 2) (n * 10) ltac:(lia)) as Hm.
    rewrite Z.mul_comm, Z.log2_double in Hm by lia.
    pose proof (Z.pow_le_mono_r 2 (Z.succ (Z.log2 n)) (Z.log2 (n * 10)) ltac:(lia) Hm) as Hp.
    rewrite Z.pow_succ_r in Hp by apply Z.log2_nonneg. lia. }
  pose proof (Z.log2_pos (n * 10) ltac:(lia)). unfold print_nat.
  apply digits_of_fuel; rewrite ?Z2Nat.id by lia; lia.
Qed.

Lemma fill_end j : fill "0" (S j) "" = (fill "0" j "" ++ "0")%string.
Proof. induction j as [|j IH]; [done|]. cbn [fill] in *. by rewrite string_app_cons, IH. Qed.

Lemma print_nat_zeros n j :
  0 < n -> print_nat (n * 10 ^ Z.of_nat j) = (print_nat n ++ fill "0" j "")%string.
Proof.
  intros Hn. induction j as [|j IH].
  - by rewrite Z.mul_1_r, string_app_nil.
  - rewrite Nat2Z.inj_succ, Z.pow_succ_r, (Z.mul_comm 10), Z.mul_assoc by lia.
    rewrite print_nat_ten, IH, fill_end, string_app_assoc; [done|].
    apply Z.mul_pos_pos; [|apply Z.pow_pos_nonneg]; lia.
Qed.

Lemma strip_fill j : strip_zeros (fill "0" j "") = EmptyString.
Proof. induction j as [|j IH]; [done|]. cbn [fill strip_zeros]. by rewrite IH. Qed.

Lemma significant_integer n k :
  0 < n < 10 ^ 15 -> 0 <= k ->
  exists j, significant 15 (n * 2 ^ k) (2 ^ k) = (n * 10 ^ Z.of_nat j, strlen (print_nat n) - 1) /\
    strlen (print_nat n) + Z.of_nat j = 15.
Proof.
  intros Hn Hk. assert (0 < 2 ^ k) as Hp by (apply Z.pow_pos_nonneg; lia).
  destruct (print_nat_length n) as (H0 & H1 & _); [lia|].
  pose proof (print_nat_short n 15 ltac:(lia) ltac:(lia)) as H15.
  exists (Z.to_nat (15 - strlen (print_nat n))). rewrite Z2Nat.id by lia. split; [|lia].
  unfold significant, decimal_exponent. rewrite Z.div_mul by lia.
  destruct (Z.leb_spec (2 ^ k) (n * 2 ^ k)); [|nia].
  set (l := strlen (print_nat n)) in *. replace (15 - 1 - (l - 1)) with (15 - l) by lia.
  assert (scale_decimal (n * 2 ^ k) (2 ^ k) (15 - l) = n * 10 ^ (15 - l)) as ->.
  { unfold scale_decimal, div_nearest_even. destruct (Z.leb_spec 0 (15 - l)); [|lia].
    replace (n * 2 ^ k * 10 ^ (15 - l)) with (n * 10 ^ (15 - l) * 2 ^ k) by lia.
    rewrite Z.mod_mul, Z.div_mul by lia. destruct (Z.compare_spec (2 * 0) (2 ^ k)); lia. }
  destruct (Z.eqb_spec (n * 10 ^ (15 - l)) (10 ^ 15)) as [E|]; [|done].
  exfalso. replace 15 with (l + (15 - l)) in E at 2 by lia. rewrite Z.pow_add_r in E by lia.
  pose proof (Z.pow_pos_nonneg 10 (15 - l) ltac:(lia) ltac:(lia)). nia.
Qed.

Lemma print_g_integer s n m k :
  0 < n < 10 ^ 15 -> 0 <= k -> Z.pos m = n * 2 ^ k ->
  print_g 15 (S754_finite s m (- k)) = ((if s then "-" else "") ++ print_nat n)%string.
Proof.
  intros Hn Hk Hm. cbn [print_g]. f_equal.
  rewrite (Z.max_l 0 (- k)), Z.opp_involutive, (Z.max_r 0 k), Hm, Z.mul_1_r by lia.
  unfold print_g_pos. destruct (significant_integer n k Hn Hk) as (j & -> & Hj).
  destruct (print_nat_length n) as (H0 & _ & _); [lia|].
  set (l := strlen (print_nat n)) in *.
  destruct (Z.leb_spec (-4) (l - 1)), (Z.ltb_spec (l - 1) 15), (Z.leb_spec 0 (l - 1)); try lia.
  cbn [andb]. rewrite print_nat_zeros by lia.
  replace (S (Z.to_nat (l - 1))) with (String.length (print_nat n)) by (unfold l, strlen in *; lia).
  rewrite str_take_app, str_drop_app. unfold fraction. rewrite strip_fill.
  change (strcmp_0 "" "") with true. by rewrite string_app_nil.
Qed.

Lemma d_of_Z_finite z :
  z <> 0 -> Z.abs z < 2 ^ prec ->
  exists m k, 0 <= k /\ Z.pos m = Z.abs z * 2 ^ k /\ d_of_Z z = S754_finite (z <? 0) m (- k).
Proof.
  intros Hne Hz. destruct z as [|p|p]; [done| |].
  - destruct (binary_round_exact false p) as (m & k & [Hk _] & Hm & _ & Hr); [done|]. by exists m, k.
  - destruct (binary_round_exact true p) as (m & k & [Hk _] & Hm & _ & Hr); [done|]. by exists m, k.
Qed.

Lemma scan_float_print_int z :
  z <> 0 -> scan_float (print_int z) = Some (d_of_Z z, EmptyString, false).
Proof.
  intros Hz. unfold print_int. destruct (Z.ltb_spec z 0).
  - destruct (scan_float_numeral true (print_nat (- z)) EmptyString EmptyString)
      as (m & k & e & Hm & He & Hs); [apply isdigit_print_nat| |by left|by left|].
    { intros E. apply (f_equal strlen) in E. destruct (print_nat_length (- z)); [lia|].
      change (strlen "") with 0 in E. lia. }
    rewrite !string_app_nil in Hm. rewrite !string_app_nil in Hs.
    change ("-" ++ print_nat (- z))%string with (String "-" (print_nat (- z))) in Hs.
    pose proof (scan_float_print_nat (- z) "" ltac:(lia) I) as Hp. rewrite string_app_nil in Hp.
    rewrite Hs. do 3 f_equal.
    unfold scan_mantissa in Hm. destruct (scan_print_nat (- z) "" 0 0) as (l & Hl & El); [lia|done|].
    rewrite string_app_nil in El. rewrite El in Hm. cbn [strchr] in Hm.
    destruct (Z.eqb_spec (0 + l) 0); [lia|]. injection Hm as <- <-.
    rewrite He by done. replace (0 * 10 ^ l + - z) with (- z) by lia.
    destruct z as [|p|p]; [done|lia|]. change (- Z.neg p) with (Z.pos p).
    unfold d_of_decimal, d_of_Z. change (0 <=? 0 - 0) with true. cbn iota.
    replace (-1 * (Z.pos p * 10 ^ (0 - 0))) with (Z.neg p) by lia. done.
  - pose proof (scan_float_print_nat z "" ltac:(lia) I) as Hp. by rewrite string_app_nil in Hp.
Qed.

(** The text of an integer of at most 15 digits is the integer, which comes back. *)
Lemma number_text_integer z :
  Z.abs z < 10 ^ 15 -> number_text (d_of_Z z) = print_int z.
Proof.
  intros Hz. destruct (Z.eq_dec z 0) as [->|Hne]; [by vm_compute|].
  assert (10 ^ 15 < 2 ^ prec) as Hp by done.
  destruct (d_of_Z_finite z Hne) as (m & k & Hk & Hm & E); [lia|].
  assert (print_g 15 (d_of_Z z) = print_int z) as Ht.
  { rewrite E, (print_g_integer _ (Z.abs z)) by (done || lia). unfold print_int.
    destruct (Z.ltb_spec z 0); [rewrite Z.abs_neq by lia|rewrite Z.abs_eq by lia]; done. }
  unfold number_text. rewrite Ht. unfold sscanf_lg. rewrite scan_float_print_int by done.
  cbn [mbind option_bind]. rewrite E, compare_double_self. done.
Qed.

Lemma reread_integer z : Z.abs z < 10 ^ 15 -> reread (d_of_Z z) = d_of_Z z.
Proof.
  intros Hz. unfold reread. rewrite number_text_integer by done.
  destruct (Z.eq_dec z 0) as [->|Hne]; [by vm_compute|]. by rewrite scan_float_print_int.
Qed.

(** The 15 digits that are tried first are taken when they come close: a double next to
    0.1 is printed as 0.1, and the largest 53-bit integer one too small. *)
Example reread_near_tenth :
  let d := S754_finite false 7205759403792795 (-56) in
  number_text d = "0.1"%string /\ reread d <> d.
Proof. vm_compute. done. Qed.

Example reread_2_53 :
  number_text (d_of_Z (2 ^ 53 - 1)) = "9.00719925474099e+15"%string /\
  reread (d_of_Z (2 ^ 53 - 1)) = d_of_Z (2 ^ 53 - 2).
Proof. vm_compute. done. Qed.

(** ** Integers are compared exactly *)

(** The mantissa and exponent of an integer that is not zero. *)
Lemma d_of_Z_signed z :
  z <> 0 -> Z.abs z < 2 ^ prec ->
  exists m k, k = 52 - Z.log2 (Z.abs z) /\ 0 <= k <= 52 /\ Z.pos m = Z.abs z * 2 ^ k /\
    Zdigits2 (Z.pos m) = prec /\ d_of_Z z = S754_finite (z <? 0) m (- k).
Proof.
  intros Hne Hz.
  assert (forall s p, Z.pos p = Z.abs z -> exists m k, k = 52 - Z.log2 (Z.abs z) /\ 0 <= k <= 52 /\
    Z.pos m = Z.abs z * 2 ^ k /\ Zdigits2 (Z.pos m) = prec /\
    binary_round prec emax s p 0 = S754_finite s m (- k)) as H.
  { intros s p E. destruct (binary_round_exact s p) as (m & k & Hk & Hm & Hd & Hr); [lia|].
    exists m, k. rewrite <- E. split_and!; try done; try lia.
    pose proof Hd as Hd'. rewrite Hm, Zdigits2_pow in Hd' by lia. cbn [Zdigits2] in Hd'.
    rewrite digits2_pos_log2 in Hd'. unfold prec in Hd'. lia. }
  destruct z as [|p|p]; [done|by apply (H false p)|by apply (H true p)].
Qed.

(** A multiple of a power of two, scaled back. *)
Lemma binary_normalize_scaled z K b :
  z <> 0 -> Z.abs z < 2 ^ prec -> 0 <= K ->
  binary_normalize prec emax (z * 2 ^ K) (- K) b = d_of_Z z.
Proof.
  intros Hne Hz HK. destruct (d_of_Z_signed z Hne Hz) as (m & k & Hlog & Hk & Hm & Hd & ->).
  assert (exists q, Z.pos q = Z.abs z * 2 ^ K /\
    binary_normalize prec emax (z * 2 ^ K) (- K) b = binary_round prec emax (z <? 0) q (- K))
    as (q & Hq & ->).
  { pose proof (Z.pow_pos_nonneg 2 K ltac:(lia) HK). unfold binary_normalize.
    destruct z as [|p|p]; [done| |].
    - destruct (Z.pos p * 2 ^ K) as [|q|q] eqn:E; [lia| |lia]. by exists q.
    - destruct (Z.neg p * 2 ^ K) as [|q|q] eqn:E; [lia|lia|]. exists q. split; [lia|done]. }
  unfold binary_round. rewrite digits2_pos_log2, Hq, Z.log2_mul_pow2 by lia.
  replace (fexp prec emax (K + Z.log2 (Z.abs z) + 1 + - K)) with (- k).
  2:{ unfold fexp, emin, prec, emax in *. lia. }
  unfold shl_align. destruct (- k - - K) as [|j|j] eqn:E.
  - assert (q = m) as -> by (assert (K = k) as -> by lia; lia).
    replace (- K) with (- k) by lia. apply binary_round_aux_exact; [done|lia].
  - replace (Z.pos q) with (Z.pos m * 2 ^ Z.pos j).
    2:{ rewrite Hq, Hm, <- Z.mul_assoc, <- Z.pow_add_r by lia. do 2 f_equal. lia. }
    replace (- K) with (- k - Z.pos j) by lia. apply binary_round_aux_zeros; [done|lia].
  - replace (Pos.iter xO q j) with m.
    2:{ apply Pos2Z.inj. rewrite iter_xO, Hq, Hm, <- Z.mul_assoc, <- Z.pow_add_r by lia.
        do 2 f_equal. lia. }
    apply binary_round_aux_exact; [done|lia].
Qed.

Lemma shl_align_scaled m z k K :
  Z.pos m = Z.abs z * 2 ^ k -> 0 <= k <= K ->
  cond_Zopp (z <? 0) (Z.pos (fst (shl_align m (- k) (- K)))) = z * 2 ^ K.
Proof.
  intros Hm Hk. assert (Z.pos (fst (shl_align m (- k) (- K))) = Z.abs z * 2 ^ K) as ->.
  { unfold shl_align. destruct (- K - - k) as [|j|j] eqn:E; cbn [fst]; [|lia|].
    - by replace K with k by lia.
    - rewrite iter_xO, Hm, <- Z.mul_assoc, <- Z.pow_add_r by lia. do 2 f_equal. lia. }
  destruct (Z.ltb_spec z 0); cbn [cond_Zopp]; [rewrite Z.abs_neq by lia|rewrite Z.abs_eq by lia]; lia.
Qed.

Lemma d_sub_exact x y :
  x <> y -> Z.abs x < 2 ^ 52 -> Z.abs y < 2 ^ 52 -> d_sub (d_of_Z x) (d_of_Z y) = d_of_Z (x - y).
Proof.
  intros Hne Hx Hy. assert (2 ^ 52 + 2 ^ 52 = 2 ^ prec) as Hp by done.
  destruct (Z.eq_dec x 0) as [->|Hx0], (Z.eq_dec y 0) as [->|Hy0].
  - done.
  - destruct (d_of_Z_signed y Hy0) as (m & k & Ek & _ & Hm & _ & ->); [lia|].
    destruct (d_of_Z_signed (0 - y)) as (m' & k' & Ek' & _ & Hm' & _ & ->); [lia..|].
    replace (Z.abs (0 - y)) with (Z.abs y) in * by lia. subst k k'.
    assert (m' = m) as -> by (apply Pos2Z.inj; lia). cbn. f_equal. lia.
  - rewrite Z.sub_0_r. destruct (d_of_Z_signed x Hx0) as (m & k & _ & _ & _ & _ & ->); [lia|done].
  - destruct (d_of_Z_signed x Hx0) as (m & k & _ & Hk & Hm & _ & ->); [lia|].
    destruct (d_of_Z_signed y Hy0) as (n & l & _ & Hl & Hn & _ & ->); [lia|].
    unfold d_sub. cbn [SFsub]. replace (Z.min (- k) (- l)) with (- Z.max k l) by lia.
    rewrite (shl_align_scaled m x), (shl_align_scaled n y) by (done || lia).
    rewrite <- Z.mul_sub_distr_r. apply binary_normalize_scaled; lia.
Qed.

(** Integers of less than 52 bits compare equal only when they are equal. *)
Lemma compare_double_int x y :
  Z.abs x < 2 ^ 52 -> Z.abs y < 2 ^ 52 -> compare_double (d_of_Z x) (d_of_Z y) = (x =? y).
Proof.
  intros Hx Hy. assert (2 ^ 52 + 2 ^ 52 = 2 ^ prec) as Hp by done.
  destruct (Z.eqb_spec x y) as [->|Hne].
  { destruct (Z.eq_dec y 0) as [->|Hy0]; [by vm_compute|].
    destruct (d_of_Z_signed y Hy0) as (m & k & _ & _ & _ & _ & ->); [lia|apply compare_double_self]. }
  unfold compare_double. rewrite d_sub_exact by done.
  destruct (d_of_Z_signed (x - y)) as (m & k & Ek & Hk & Hm & _ & ->); [lia..|].
  cbn [d_abs SFabs].
  assert (forall z, Z.abs z < 2 ^ 52 -> d_abs (d_of_Z z) = S754_zero false \/
    exists n l, d_abs (d_of_Z z) = S754_finite false n (- l) /\ Zdigits2 (Z.pos n) = prec /\ 1 <= l <= 52) as Hn.
  { intros z Hz. destruct (Z.eq_dec z 0) as [->|Hz0]; [by left|right].
    destruct (d_of_Z_signed z Hz0) as (n & l & El & Hl & _ & Hd & ->); [lia|].
    exists n, l. split_and!; try done; [|lia]. pose proof (Z.log2_lt_pow2 (Z.abs z) 52). lia. }
  assert (exists z, Z.abs z < 2 ^ 52 /\
    (if d_lt (d_abs (d_of_Z y)) (d_abs (d_of_Z x)) then d_abs (d_of_Z x) else d_abs (d_of_Z y))
    = d_abs (d_of_Z z)) as (z & Hz & ->).
  { destruct (d_lt _ _); [by exists x|by exists y]. }
  assert (DBL_EPSILON = S754_finite false 4503599627370496 (-104)) as -> by by vm_compute.
  destruct (Hn z Hz) as [->|(n & l & -> & Hd & Hl)]; [done|].
  unfold d_mul. cbn [SFmul xorb].
  rewrite (Pos2Z.inj_mul n). change (Z.pos 4503599627370496) with (2 ^ Z.pos 52).
  replace (- l + -104) with (- l - 52 - Z.pos 52) by lia.
  rewrite binary_round_aux_zeros by (done || lia).
  unfold d_le, SFleb, SFcompare. by destruct (Z.compare_spec (- k) (- l - 52)); try lia.
Qed.

(** ** What rounding answers has a mantissa of 53 bits *)

Definition narrow (d : double) : Prop :=
  match d with S754_finite _ m _ => Z.pos m < 2 ^ prec | _ => True end.

Lemma shr_1_div mrs : 0 <= shr_m mrs -> shr_m (shr_1 mrs) = shr_m mrs / 2.
Proof.
  destruct mrs as [m r s]. cbn [shr_m]. intros Hm. rewrite <- Z.div2_div.
  destruct m as [|[p|p|]|p]; cbn; try done; lia.
Qed.

Lemma shr_div mrs e n : 0 <= shr_m mrs -> shr_m (fst (shr mrs e n)) = shr_m mrs / 2 ^ Z.max 0 n.
Proof.
  destruct n as [|p|p]; cbn [shr fst]; [by rewrite Z.div_1_r| |by rewrite Z.div_1_r].
  rewrite Z.max_r by lia. revert mrs. clear e.
  induction p as [p IH|p IH|]; intros mrs Hm; cbn [SpecFloat.iter_pos].
  - rewrite (Pos2Z.inj_xI p), Z.pow_add_r, Z.pow_twice_r by lia.
    assert (0 <= shr_m mrs / 2) by (apply Z.div_pos; lia).
    assert (0 <= shr_m mrs / 2 / 2 ^ Z.pos p) by (apply Z.div_pos; lia).
    rewrite !IH, shr_1_div by (rewrite ?IH, ?shr_1_div; rewrite ?shr_1_div; done).
    rewrite !Z.div_div by lia. f_equal. lia.
  - rewrite (Pos2Z.inj_xO p), Z.pow_twice_r.
    assert (0 <= shr_m mrs / 2 ^ Z.pos p) by (apply Z.div_pos; lia).
    rewrite !IH by (rewrite ?IH; done). rewrite Z.div_div by lia. done.
  - by apply shr_1_div.
Qed.

Lemma Zdigits2_bound m : 0 <= m -> m < 2 ^ Zdigits2 m.
Proof.
  intros Hm. destruct m as [|p|p]; [done| |lia]. cbn [Zdigits2]. rewrite digits2_pos_log2.
  destruct (Z.log2_spec (Z.pos p)) as [_ H]; [lia|]. by rewrite Z.add_1_r.
Qed.

Lemma shr_fexp_narrow m e : 0 <= m -> shr_m (fst (shr_fexp prec emax m e loc_Exact)) < 2 ^ prec.
Proof.
  intros Hm. unfold shr_fexp. rewrite shr_div by done. cbn [shr_record_of_loc shr_m].
  set (n := Z.max 0 _). assert (Zdigits2 m <= prec + n) as Hn.
  { unfold n, fexp, emin, prec, emax. lia. }
  apply Z.div_lt_upper_bound; [lia|]. rewrite <- Z.pow_add_r by (unfold prec; lia).
  pose proof (Zdigits2_bound m Hm).
  pose proof (Z.pow_le_mono_r 2 (Zdigits2 m) (n + prec)). lia.
Qed.

Lemma binary_round_aux_narrow s m e l : 0 <= m -> narrow (binary_round_aux prec emax s m e l).
Proof.
  intros Hm. unfold binary_round_aux.
  assert (0 <= shr_m (fst (shr_fexp prec emax m e l))) as H1.
  { unfold shr_fexp. apply shr_nonneg. by destruct l as [|[]]. }
  destruct (shr_fexp prec emax m e l) as [mrs e1]. cbn [fst] in H1.
  set (m1 := round_nearest_even _ _).
  assert (0 <= m1) as Hm1.
  { unfold m1, round_nearest_even. destruct (loc_of_shr_record mrs) as [|[]];
      [|destruct (Z.even _)| |]; lia. }
  pose proof (shr_fexp_narrow m1 e1 Hm1) as H.
  destruct (shr_fexp prec emax m1 e1 loc_Exact) as [mrs2 e2]. cbn [fst] in H.
  destruct (shr_m mrs2); [done| |done]. by destruct (_ <=? _).
Qed.

Lemma binary_normalize_narrow m e b : narrow (binary_normalize prec emax m e b).
Proof.
  unfold binary_normalize, binary_round.
  destruct m as [|p|p]; [done|..]; destruct (shl_align _ _ _); by apply binary_round_aux_narrow.
Qed.

Lemma d_mul_narrow x y : narrow (d_mul x y).
Proof. destruct x, y; try done. by apply binary_round_aux_narrow. Qed.

Lemma d_div_narrow x y : narrow (d_div x y).
Proof.
  destruct x as [| | |s m e], y as [| | |t n f]; try done. unfold d_div, SFdiv.
  destruct (SFdiv_core_binary _ _ _ _ _ _) as [[q e'] l] eqn:E. apply binary_round_aux_narrow.
  unfold SFdiv_core_binary in E.
  set (a := match _ with Z0 => _ | Zpos _ => _ | Zneg _ => _ end) in E.
  assert (0 <= a) as Ha.
  { unfold a. destruct (_ - _) as [|k|k]; [done|by apply Z.shiftl_nonneg|done]. }
  clearbody a. pose proof (Z_div_mod a (Z.pos n) ltac:(lia)) as H.
  destruct (Z.div_eucl a (Z.pos n)) as [q' r]. injection E as <- _ _. nia.
Qed.

Lemma d_of_decimal_narrow s m e : narrow (d_of_decimal s m e).
Proof.
  unfold d_of_decimal. destruct m; [done| |done]. destruct (0 <=? e); [apply binary_normalize_narrow|].
  destruct (10 ^ (- e)); [done|apply d_div_narrow|done].
Qed.

Lemma scan_float_narrow s d rest partial : scan_float s = Some (d, rest, partial) -> narrow d.
Proof.
  unfold scan_float. destruct (scan_sign (skip_spaces s)) as [minus t].
  do 3 (match goal with |- match ?x with _ => _ end = _ -> _ => destruct x end;
        [by intros [= <- _ _]|]).
  cbv zeta. match goal with |- match ?x with _ => _ end = _ -> _ => destruct x as [r|] eqn:E end.
  - intros [= ->]. apply bind_Some in E as (h & _ & E). apply bind_Some in E as ([[m k] r] & _ & E).
    destruct (scan_exponent _ _) as [[e r'] p]. injection E as <- _ _. apply binary_normalize_narrow.
  - clear E. intros ([[m k] r] & _ & E)%bind_Some.
    destruct (scan_exponent _ _) as [[e r'] p]. injection E as <- _ _. apply d_of_decimal_narrow.
Qed.

(** A bound on a double is one on its integer part. *)
Lemma d_trunc_bound x z n :
  narrow x -> 0 < z < 2 ^ prec -> d_lt (d_of_Z z) x = false -> d_trunc x = Some n -> n <= z.
Proof.
  intros Hx Hz. destruct (d_of_Z_pos z Hz) as (m & k & Hk & Hm & Hd & ->).
  destruct x as [s|s| |[] p e]; cbn [d_trunc].
  - intros _ [= <-]. lia.
  - done.
  - done.
  - intros _ [= <-]. assert (0 <= (if 0 <=? e then Z.pos p * 2 ^ e else Z.pos p / 2 ^ - e)); [|lia].
    destruct (Z.leb_spec 0 e); [apply Z.mul_nonneg_nonneg; [lia|apply Z.pow_nonneg; lia]|].
    apply Z.div_pos; [lia|]. apply Z.pow_pos_nonneg; lia.
  - intros Hlt [= <-]. cbn [narrow] in Hx. unfold d_lt, SFltb, SFcompare in Hlt.
    assert (2 ^ 52 <= Z.pos m) as Hm52.
    { cbn [Zdigits2] in Hd. rewrite digits2_pos_log2 in Hd.
      pose proof (Z.log2_spec (Z.pos m) ltac:(lia)) as [L _].
      by replace (Z.log2 (Z.pos m)) with 52 in L by (unfold prec in *; lia). }
    assert (e <= - k /\ (e = - k -> Z.pos p <= Z.pos m)) as [He Hp].
    { destruct (Z.compare_spec (- k) e) as [E| |]; [|done|lia]. split; [lia|]. intros _.
      change (Pos.compare_cont Eq m p) with (m ?= p)%positive in Hlt.
      destruct (Pos.compare_spec m p); [lia|done|lia]. }
    assert (Z.pos p <= z * 2 ^ (- e)) as Hb.
    { destruct (Z.eq_dec e (- k)) as [->|Hne]; [rewrite Z.opp_involutive; lia|].
      assert (2 ^ (- e) = 2 ^ k * 2 ^ (- e - k)) as ->.
      { rewrite <- Z.pow_add_r by lia. f_equal. lia. }
      rewrite Z.mul_assoc, <- Hm.
      pose proof (Z.pow_le_mono_r 2 1 (- e - k) ltac:(lia) ltac:(lia)).
      change prec with (Z.succ 52) in Hx. rewrite Z.pow_succ_r in Hx by lia. nia. }
    destruct (Z.leb_spec 0 e).
    + assert (e = 0) as -> by lia. change (2 ^ (- 0)) with 1 in Hb. change (2 ^ 0) with 1. lia.
    + apply Z.div_le_upper_bound; [apply Z.pow_pos_nonneg; lia|lia].
Qed.
