(* ===== verification/JsonTextProps.v ===== *)
(** * cjson.c: the printer writes the text of the value

    [render] is the text of a value as a function of the value alone.  The printer of
    [JsonText] is shown to leave exactly that text in its buffer, never to write
    outside it, and to fail only where an allocation fails or the buffer is the
    caller's. *)

From Stdlib Require Import Floats.SpecFloat.
From S2P Require Import Prelude Double CJson CString CStringProps JsonText NumberProps.

#[local] Open Scope Z_scope.

(** ** Running *)

Section Does.
Context {St : Type}.

(** [m] comes to an end, with a result and a state that [Q] allows. *)
Definition does {A} (m : attempt St A) (Q : A -> St -> Prop) (s : St) : Prop :=
  exists x s', m s = Some (Some (x, s')) /\ Q x s'.

Lemma does_ret {A} (x : A) (Q : A -> St -> Prop) s : Q x s -> does (mret x) Q s.
Proof. intros H. by exists x, s. Qed.

Lemma does_bind {A B} (m : attempt St A) (k : A -> attempt St B) Q s :
  does m (fun x => does (k x) Q) s -> does (mbind k m) Q s.
Proof.
  intros (x & h' & E & y & h2 & E2 & H). exists y, h2. split; [|done].
  unfold mbind, attempt_bind. by rewrite E.
Qed.

Lemma does_mono {A} (m : attempt St A) (P Q : A -> St -> Prop) s :
  does m P s -> (forall x s', P x s' -> Q x s') -> does m Q s.
Proof. intros (x & h' & E & H) HPQ. exists x, h'. auto. Qed.

Lemma does_peek {A} (f : St -> A) (Q : A -> St -> Prop) s : Q (f s) s -> does (peek f) Q s.
Proof. intros H. by exists (f s), s. Qed.
End Does.

(** ** Induction over values *)

Section Induction.
Variable P : cJSON -> Prop.
Hypotheses (HNull : P JNull) (HBool : forall b z, P (JBool b z))
  (HNumber : forall z d, P (JNumber z d)) (HString : forall s, P (JString s))
  (HArray : forall l, Forall P l -> P (JArray l))
  (HObject : forall ms, Forall (fun m => P (snd m)) ms -> P (JObject ms)).

Fixpoint cJSON_nested_ind (j : cJSON) : P j :=
  match j with
  | JNull => HNull
  | JBool b z => HBool b z
  | JNumber z d => HNumber z d
  | JString s => HString s
  | JArray l =>
      HArray l ((fix go (l : list cJSON) : Forall P l :=
        match l with
        | [] => List.Forall_nil P
        | j :: l => List.Forall_cons P j l (cJSON_nested_ind j) (go l)
        end) l)
  | JObject ms =>
      HObject ms ((fix go (ms : list (string * cJSON)) : Forall (fun m => P (snd m)) ms :=
        match ms with
        | [] => List.Forall_nil _
        | m :: ms => List.Forall_cons _ m ms (cJSON_nested_ind (snd m)) (go ms)
        end) ms)
  end.
End Induction.

(** ** The text of a value *)

Section Render.
Variable fmt : bool.

Definition quoted (s : string) : string :=
  (quote_string ++ escape (until_nul s) ++ quote_string)%string.

Definition line_end : string := if fmt then newline else EmptyString.

(** What stands between the braces when there are members. *)
Definition lines (l : list string) : string :=
  match l with [] => EmptyString | _ => String.concat ("," ++ line_end) l ++ line_end end%string.

Definition indent (depth : Z) : string := if fmt then tabs depth else EmptyString.

Fixpoint render (depth : Z) (j : cJSON) : string :=
  match j with
  | JNull => "null"
  | JBool b _ => if b then "true" else "false"
  | JNumber _ d => number_text d
  | JString s => quoted s
  | JArray l =>
      "[" ++ String.concat (if fmt then ", " else ",") (map (render (1 + depth)) l) ++ "]"
  | JObject ms =>
      "{" ++ line_end ++
      lines (map (fun m => indent (1 + depth) ++ quoted (fst m) ++ ":" ++
                           (if fmt then tab else "") ++ render (1 + depth) (snd m)) ms) ++
      indent depth ++ "}"
  end%string.
End Render.

(** Values whose numbers fit the buffer [print_number] has for them. *)
Definition number_fits (d : double) : Prop := strlen (number_text d) <= 25.

Fixpoint numbers (P : double -> Prop) (j : cJSON) : Prop :=
  match j with
  | JNumber _ d => P d
  | JArray l => foldr (fun j Q => numbers P j /\ Q) True l
  | JObject ms => foldr (fun m Q => numbers P (snd m) /\ Q) True ms
  | _ => True
  end.

Lemma numbers_array P l : numbers P (JArray l) <-> Forall (numbers P) l.
Proof.
  cbn. induction l as [|j l IH]; cbn [foldr]; [by split|]. rewrite IH, Forall_cons. done.
Qed.

Lemma numbers_object P ms : numbers P (JObject ms) <-> Forall (fun m => numbers P (snd m)) ms.
Proof.
  cbn. induction ms as [|j l IH]; cbn [foldr]; [by split|]. rewrite IH, Forall_cons. done.
Qed.

(** ** Texts without zeros *)

Lemma hex_digit_code n : 0 <= n < 16 -> hex_digit n <> Ascii.zero.
Proof.
  intros Hn E. apply (f_equal code) in E. revert E. unfold hex_digit.
  change (code Ascii.zero) with 0. case_bool; rewrite code_chr by (unfold is_uint; lia); lia.
Qed.

Lemma escape_char_no_nul c : c <> Ascii.zero -> no_nul (escape_char c).
Proof.
  intros Hc. unfold escape_char. destruct (_ && _) eqn:E; [by apply no_nul_cons|].
  apply no_nul_cons. split; [done|]. unfold short_escape. repeat case_decide; try done.
  assert (0 <= code c < 256) as Hr by apply code_range.
  change ("u00" ++ print_02x (code c))%string
    with (String "u" (String "0" (String "0" (print_02x (code c))))).
  unfold print_02x. repeat (apply no_nul_cons; split; [try done|]); [| |done].
  - apply hex_digit_code. split; [apply Z.div_pos; lia|apply Z.div_lt_upper_bound; lia].
  - apply hex_digit_code, Z.mod_pos_bound. lia.
Qed.

Lemma escape_no_nul s : no_nul s -> no_nul (escape s).
Proof.
  induction s as [|c s IH]; [done|]. intros [Hc Hs]%no_nul_cons. cbn [escape].
  apply no_nul_app. split; [by apply escape_char_no_nul|auto].
Qed.

Lemma escape_length_spec c :
  strlen (escape_char c) = 1 + escape_length c /\ 0 <= escape_length c <= 5 /\
  (escape_length c = 0 -> escape_char c = String c EmptyString).
Proof.
  destruct c as [[] [] [] [] [] [] [] []]; vm_compute; repeat split; done.
Qed.

Lemma escape_characters_spec s :
  strlen (escape s) = strlen s + escape_characters s /\ 0 <= escape_characters s /\
  (escape_characters s = 0 -> escape s = s).
Proof.
  induction s as [|c s (IH1 & IH2 & IH3)]; [done|]. cbn [escape escape_characters].
  destruct (escape_length_spec c) as (H1 & H2 & H3).
  rewrite strlen_app, strlen_cons, IH1, H1. repeat split; [lia|lia|].
  intros E. rewrite H3, IH3 by lia. done.
Qed.

Lemma quoted_length s :
  strlen (quoted s) = strlen (until_nul s) + escape_characters (until_nul s) + 2.
Proof.
  unfold quoted. destruct (escape_characters_spec (until_nul s)) as (H & _ & _).
  rewrite !strlen_app, H. unfold strlen, quote_string. cbn [String.length]. lia.
Qed.

Lemma quoted_no_nul s : no_nul (quoted s).
Proof.
  unfold quoted. rewrite !no_nul_app. split; [done|].
  split; [apply escape_no_nul, no_nul_until_nul|done].
Qed.

Lemma number_text_cases d :
  number_text d = "null"%string \/ chars number_char (number_text d) = true.
Proof.
  pose proof (print_g_chars 15 d) as H15. pose proof (print_g_chars 17 d) as H17.
  unfold number_text. destruct d as [| | |]; [|by left|by left|]; right;
    (destruct (sscanf_lg _); [destruct (compare_double _ _)|]); done.
Qed.

Lemma number_text_no_nul d : no_nul (number_text d).
Proof.
  destruct (number_text_cases d) as [-> | H]; [done|]. revert H. apply chars_mono.
  intros c Hc. apply negb_true_iff, bool_decide_eq_false. intros ->. discriminate Hc.
Qed.

(** ** Reasoning about the printer *)

Section Printer.
Context (alloc : nat -> bool) (noalloc : bool) (fmt : bool).

(** Why printing may fail. *)
Definition can_fail : Prop := (exists k, alloc k = false) \/ noalloc = true.

Definition prints {A} (m : printer A) (Q : A -> printbuffer -> Prop) (p : printbuffer) : Prop :=
  match m p with
  | None => False
  | Some None => can_fail
  | Some (Some (a, p)) => Q a p
  end.

Lemma prints_ret {A} (a : A) Q p : Q a p -> prints (mret a) Q p.
Proof. done. Qed.

Lemma prints_bind {A B} (m : printer A) (k : A -> printer B) Q p :
  prints m (fun a => prints (k a) Q) p -> prints (m ≫= k) Q p.
Proof.
  unfold prints, mbind, attempt_bind. destruct (m p) as [[[a p']|]|]; done.
Qed.

Lemma prints_mono {A} (m : printer A) (Q Q' : A -> printbuffer -> Prop) p :
  prints m Q p -> (forall a p, Q a p -> Q' a p) -> prints m Q' p.
Proof. unfold prints. destruct (m p) as [[[]|]|]; auto. Qed.

Lemma prints_peek {A} (f : printbuffer -> A) Q p : Q (f p) p -> prints (peek f) Q p.
Proof. done. Qed.

(** The text before the offset is [pre]; [post] follows it. *)
Record writing (depth : Z) (pre post : string) (p : printbuffer) : Prop := {
  w_buffer : p_buffer p = (pre ++ post)%string;
  w_offset : p_offset p = strlen pre;
  w_room : p_offset p < p_length p \/ p_length p = 0 /\ pre = EmptyString;
  w_depth : p_depth p = depth;
  w_noalloc : p_noalloc p = noalloc;
  w_format : p_format p = fmt }.

Lemma prints_ensure needed Q d pre post p :
  writing d pre post p -> 0 <= needed -> strlen pre + needed + 1 < 2 ^ 64 ->
  (forall p', writing d pre post p' -> strlen pre + needed + 1 <= p_length p' -> Q tt p') ->
  prints (ensure alloc needed) Q p.
Proof.
  intros [Hb Ho Hr Hd Hn Hf] H0 Hlt HQ. unfold prints, ensure.
  pose proof (strlen_nonneg pre) as Hpre.
  rewrite (uint_id 64) by (unfold is_uint; rewrite Ho; lia).
  assert ((0 <? p_length p) && (p_length p <=? p_offset p) = false) as ->.
  { destruct (Z.ltb_spec 0 (p_length p)), (Z.leb_spec (p_length p) (p_offset p)); try done. lia. }
  destruct (Z.leb_spec (needed + p_offset p + 1) (p_length p)).
  - apply HQ; [by constructor|lia].
  - destruct (p_noalloc p) eqn:En; [right; congruence|].
    assert (needed + p_offset p + 1 <= (if SIZE_MAX / 2 <? needed + p_offset p + 1
              then SIZE_MAX else (needed + p_offset p + 1) * 2)) as Hsize.
    { unfold SIZE_MAX. case_bool; lia. }
    destruct (alloc (p_allocs p)) eqn:Ea; [|left; by eexists].
    apply HQ; [|cbn; lia]. constructor; cbn; try (done || congruence). left. lia.
Qed.

(** A text stored behind what has been written beyond the offset. *)
Lemma prints_store i t u Q d pre post p :
  writing d pre (u ++ post) p -> i = strlen pre + strlen u -> i + strlen t <= p_length p ->
  (forall p' post', writing d pre (u ++ t ++ post') p' -> p_length p' = p_length p -> Q tt p') ->
  prints (store i t) Q p.
Proof.
  intros [Hb Ho Hr Hd Hn Hf] -> Hlen HQ. unfold prints, store. rewrite Hb, !strlen_app.
  pose proof (strlen_nonneg pre). pose proof (strlen_nonneg u). pose proof (strlen_nonneg post).
  destruct (Z.leb_spec 0 (strlen pre + strlen u)),
    (Z.leb_spec (strlen pre + strlen u + strlen t) (p_length p)),
    (Z.leb_spec (strlen pre + strlen u) (strlen pre + (strlen u + strlen post))); try lia.
  cbn [andb]. apply (HQ _ (str_drop (String.length t) post)); [|done].
  constructor; cbn; try done.
  rewrite <- strlen_app, to_nat_strlen, Hb, <- string_app_assoc. unfold overwrite.
  rewrite str_take_app, str_drop_add, str_drop_app, !string_app_assoc. done.
Qed.

Lemma prints_put t Q d pre post p :
  writing d pre post p -> strlen pre + strlen t <= p_length p ->
  (forall p' post', writing d pre (t ++ post') p' -> p_length p' = p_length p -> Q tt p') ->
  prints (put t) Q p.
Proof.
  intros Hw Hlen HQ. unfold put. apply prints_bind, prints_peek. rewrite (w_offset _ _ _ _ Hw).
  eapply (prints_store _ t EmptyString); [exact Hw|unfold strlen; cbn; lia|exact Hlen|exact HQ].
Qed.

Lemma prints_advance t n Q d pre post p :
  writing d pre (t ++ post) p -> n = strlen t -> strlen pre + n < p_length p ->
  (forall p', writing d (pre ++ t) post p' -> p_length p' = p_length p -> Q tt p') ->
  prints (advance n) Q p.
Proof.
  intros [Hb Ho Hr Hd Hn Hf] -> Hlt HQ. unfold advance, change, prints. apply HQ; [|done].
  constructor; cbn; rewrite ?strlen_app; try done; [by rewrite string_app_assoc|lia|left; lia].
Qed.

Lemma prints_depth k Q d pre post p :
  writing d pre post p ->
  (forall p', writing (k + d) pre post p' -> p_length p' = p_length p -> Q tt p') ->
  prints (change (fun p => p <| p_depth ::= Z.add k |>)) Q p.
Proof.
  intros [Hb Ho Hr Hd Hn Hf] HQ. apply HQ; [|done]. constructor; try done. cbn. by rewrite Hd.
Qed.

Lemma find_nul_app t post :
  no_nul t -> find_nul (t ++ String Ascii.zero post) = Some (strlen t).
Proof.
  induction t as [|c t IH]; [done|]. intros [Hc Ht]%no_nul_cons.
  rewrite string_app_cons. cbn [find_nul]. rewrite decide_False, IH by done. cbn.
  by rewrite strlen_cons.
Qed.

(** What printing a value leaves: its text and a zero, the offset somewhere in it. *)
Definition printed (d : Z) (pre t : string) (p : printbuffer) : Prop :=
  exists u v post, t = (u ++ v)%string /\ no_nul v /\
    writing d (pre ++ u) (v ++ String Ascii.zero post) p /\ strlen pre + strlen t < p_length p.

Lemma prints_update_offset Q d pre t p :
  printed d pre t p ->
  (forall p' post, writing d (pre ++ t) (String Ascii.zero post) p' ->
     p_length p' = p_length p -> Q tt p') ->
  prints update_offset Q p.
Proof.
  intros (u & v & post & -> & Hv & Hw & Hlt) HQ. unfold update_offset.
  apply prints_bind, prints_peek. cbn [id].
  rewrite (w_buffer _ _ _ _ Hw), (w_offset _ _ _ _ Hw), to_nat_strlen, str_drop_app, find_nul_app
    by done.
  eapply prints_advance; [exact Hw|done|rewrite !strlen_app in *; lia|].
  intros p' Hw' Hl. rewrite string_app_assoc in Hw'. by eapply HQ.
Qed.

Lemma terminated_app t post :
  (terminated t ++ post = t ++ String Ascii.zero post)%string.
Proof. unfold terminated. by rewrite string_app_assoc. Qed.

Lemma strlen_terminated t : strlen (terminated t) = strlen t + 1.
Proof. unfold terminated. by rewrite strlen_app. Qed.

(** A text and its zero where nothing has been written yet. *)
Lemma prints_put_terminated t Q d pre post p :
  writing d pre post p -> strlen pre + strlen t + 1 <= p_length p ->
  (forall p' post', writing d pre (t ++ String Ascii.zero post') p' -> p_length p' = p_length p ->
     Q tt p') ->
  prints (put (terminated t)) Q p.
Proof.
  intros Hw Hlen HQ. pose proof (strlen_nonneg t). pose proof (strlen_nonneg pre).
  eapply prints_put; [exact Hw|rewrite strlen_terminated; lia|].
  intros p' post' Hw' Hl. rewrite terminated_app in Hw'. by eapply HQ.
Qed.

Lemma printed_here d pre t post p :
  no_nul t -> writing d pre (t ++ String Ascii.zero post) p -> strlen pre + strlen t < p_length p ->
  printed d pre t p.
Proof.
  intros Ht Hw Hlt. exists EmptyString, t, post. by rewrite string_app_nil.
Qed.

(** ** Numbers, words and strings *)

Lemma prints_word n t d pre post p :
  writing d pre post p -> no_nul t -> strlen t <= n -> n <= 2 ^ 32 -> strlen pre < 2 ^ 63 ->
  prints (ensure alloc n;; put (terminated t)) (fun _ => printed d pre t) p.
Proof.
  intros Hw Ht Hn Hmax Hpre. pose proof (strlen_nonneg t).
  apply prints_bind. eapply prints_ensure; [exact Hw|lia|lia|]. intros p1 Hw1 Hl1.
  eapply prints_put_terminated; [exact Hw1|lia|]. intros p2 post2 Hw2 Hl2.
  eapply printed_here; [done|exact Hw2|lia].
Qed.

Lemma prints_string s d pre post p :
  writing d pre post p -> strlen pre + strlen (quoted s) < 2 ^ 63 ->
  prints (print_string_ptr alloc (Some s)) (fun _ => printed d pre (quoted s)) p.
Proof.
  intros Hw Hlt. rewrite quoted_length in Hlt. unfold print_string_ptr. cbn [until_nul].
  destruct (escape_characters_spec (until_nul s)) as (He & H0 & Hz).
  pose proof (strlen_nonneg (until_nul s)). pose proof (strlen_nonneg pre).
  set (t := until_nul s) in *. set (n := escape_characters t) in *.
  apply prints_bind. eapply prints_ensure; [exact Hw|lia|lia|]. intros p1 Hw1 Hl1.
  apply prints_bind, prints_peek. rewrite (w_offset _ _ _ _ Hw1).
  assert ((if n =? 0 then t else escape t) = escape t) as ->.
  { destruct (Z.eqb_spec n 0); [by rewrite Hz|done]. }
  assert (strlen quote_string = 1) as Hq by done.
  apply prints_bind. eapply (prints_store _ _ EmptyString);
    [exact Hw1|unfold strlen; cbn; lia|lia|]. intros p2 post2 Hw2 Hl2. cbn [String.append] in Hw2.
  apply prints_bind. eapply (prints_store _ _ quote_string); [exact Hw2|lia|lia|].
  intros p3 post3 Hw3 Hl3. rewrite <- string_app_assoc in Hw3.
  eapply (prints_store _ _ (quote_string ++ escape t));
    [exact Hw3|rewrite strlen_app; lia|rewrite strlen_terminated; lia|].
  intros p4 post4 Hw4 Hl4. rewrite terminated_app, <- string_app_assoc in Hw4.
  eapply printed_here; [apply quoted_no_nul| |].
  - unfold quoted. rewrite <- (string_app_assoc quote_string). exact Hw4.
  - rewrite quoted_length. fold t. fold n. lia.
Qed.

Lemma prints_number z x d pre post p :
  number_fits x -> writing d pre post p -> strlen pre < 2 ^ 63 ->
  prints (print_number alloc (JNumber z x)) (fun _ => printed d pre (number_text x)) p.
Proof.
  intros Hfit Hw Hlt. unfold print_number. cbn [valuedouble]. unfold number_fits in Hfit.
  pose proof (strlen_nonneg (number_text x)).
  destruct (Z.ltb_spec 26 (strlen (number_text x) + 1)); [lia|].
  apply prints_bind. eapply prints_ensure; [exact Hw|lia|lia|]. intros p1 Hw1 Hl1.
  apply prints_bind. eapply prints_put_terminated; [exact Hw1|lia|]. intros p2 post2 Hw2 Hl2.
  eapply prints_advance; [exact Hw2|done|lia|]. intros p3 Hw3 Hl3.
  exists (number_text x), EmptyString, post2. rewrite string_app_nil.
  split_and!; [done|done|exact Hw3|lia].
Qed.

(** ** Arrays and objects *)

Definition prints_value (j : cJSON) : Prop := forall d pre post p,
  numbers number_fits j -> 0 <= d -> writing d pre post p ->
  strlen pre + strlen (render fmt d j) < 2 ^ 63 ->
  prints (print_value alloc j) (fun _ => printed d pre (render fmt d j)) p.

Lemma concat_cons2 sep x y l :
  String.concat sep (x :: y :: l) = (x ++ sep ++ String.concat sep (y :: l))%string.
Proof. done. Qed.

Lemma prints_elements l d pre post p :
  Forall prints_value l -> Forall (numbers number_fits) l -> 0 <= d ->
  writing d pre post p ->
  strlen pre + strlen (String.concat (if fmt then ", " else ",") (map (render fmt d) l)) < 2 ^ 63 ->
  prints (print_elements alloc (print_value alloc) l)
    (fun _ p' => exists post', writing d
       (pre ++ String.concat (if fmt then ", " else ",") (map (render fmt d) l)) post' p') p.
Proof.
  set (sep := if fmt then ", "%string else ","%string). intros Hl Hn Hd. revert pre post p.
  induction Hl as [|j l Hj Hl IH]; intros pre post p Hw Hlt.
  { apply prints_ret. exists post. cbn. by rewrite string_app_nil. }
  apply Forall_cons in Hn as [Hnj Hn]. specialize (IH Hn). cbn [map] in *.
  assert (1 <= strlen sep <= 2) as Hsep by (unfold sep; destruct fmt; by vm_compute).
  pose proof (strlen_nonneg pre) as Hpre. pose proof (strlen_nonneg (render fmt d j)) as Hr.
  assert (strlen pre + strlen (render fmt d j) < 2 ^ 63) as Hlt1.
  { destruct l; [done|]. cbn [map] in Hlt. rewrite concat_cons2, !strlen_app in Hlt.
    pose proof (strlen_nonneg (String.concat sep (render fmt d c :: map (render fmt d) l))). lia. }
  apply prints_bind. eapply prints_mono; [eapply Hj; [exact Hnj|exact Hd|exact Hw|exact Hlt1]|]. intros [] p1 Hw1.
  apply prints_bind. eapply prints_update_offset; [exact Hw1|]. intros p2 post2 Hw2 Hl2.
  apply prints_bind, prints_peek. rewrite (w_format _ _ _ _ Hw2).
  destruct l as [|j' l].
  - apply prints_bind, prints_ret. apply prints_ret. by exists (String Ascii.zero post2).
  - cbn [map] in *. rewrite concat_cons2, !strlen_app in Hlt.
    set (rest := String.concat sep _) in *. pose proof (strlen_nonneg rest).
    assert ((if fmt then 2 else 1) = strlen sep) as -> by (unfold sep; by destruct fmt).
    apply prints_bind, prints_bind. eapply prints_ensure; [exact Hw2|lia|rewrite strlen_app; lia|].
    intros p3 Hw3 Hl3. rewrite strlen_app in Hl3. fold sep.
    apply prints_bind. eapply prints_put_terminated; [exact Hw3|rewrite strlen_app; lia|].
    intros p4 post4 Hw4 Hl4. eapply prints_advance; [exact Hw4|done|rewrite strlen_app; lia|].
    intros p5 Hw5 Hl5. eapply prints_mono; [eapply IH; [exact Hw5|rewrite !strlen_app; lia]|].
    intros [] p6 (post6 & Hw6). exists post6. rewrite concat_cons2. fold rest.
    by rewrite <- !string_app_assoc.
Qed.

Lemma prints_array l d pre post p :
  Forall prints_value l -> Forall (numbers number_fits) l -> 0 <= d -> writing d pre post p ->
  strlen pre + strlen (render fmt d (JArray l)) < 2 ^ 63 ->
  prints (print_array alloc (print_value alloc) l) (fun _ => printed d pre (render fmt d (JArray l))) p.
Proof.
  intros Hl Hn Hd Hw Hlt. cbn [render] in *. rewrite !strlen_app in Hlt.
  set (body := String.concat _ _) in *. change (strlen "[") with 1 in Hlt.
  change (strlen "]") with 1 in Hlt. pose proof (strlen_nonneg pre). pose proof (strlen_nonneg body).
  unfold print_array.
  apply prints_bind. eapply prints_ensure; [exact Hw|lia|lia|]. intros p1 Hw1 Hl1.
  apply prints_bind. eapply prints_put; [exact Hw1|change (strlen "[") with 1; lia|].
  intros p2 post2 Hw2 Hl2.
  apply prints_bind. eapply prints_advance; [exact Hw2|done|lia|]. intros p3 Hw3 Hl3.
  apply prints_bind. eapply prints_depth; [exact Hw3|]. intros p4 Hw4 Hl4.
  apply prints_bind. eapply prints_mono.
  { eapply (prints_elements l (1 + d)); [exact Hl|exact Hn|lia|exact Hw4|]. fold body. rewrite strlen_app.
    change (strlen "[") with 1. lia. }
  intros [] p5 (post5 & Hw5). fold body in Hw5.
  assert (strlen ((pre ++ "[") ++ body)%string = strlen pre + 1 + strlen body) as Hs.
  { rewrite !strlen_app. done. }
  apply prints_bind. eapply prints_ensure; [exact Hw5|lia|lia|]. intros p6 Hw6 Hl6.
  apply prints_bind. eapply prints_put_terminated; [exact Hw6|change (strlen "]") with 1; lia|].
  intros p7 post7 Hw7 Hl7. eapply prints_depth; [exact Hw7|]. intros p8 Hw8 Hl8.
  exists ("[" ++ body)%string, "]"%string, post7. split; [by rewrite string_app_assoc|].
  split; [done|]. split; [|rewrite !strlen_app; change (strlen "[") with 1;
                           change (strlen "]") with 1; lia].
  rewrite <- string_app_assoc. by replace d with (-1 + (1 + d)) by lia.
Qed.

Definition line (d : Z) (m : string * cJSON) : string :=
  (indent fmt d ++ quoted (fst m) ++ ":" ++ (if fmt then tab else "") ++ render fmt d (snd m))%string.

Definition colon : string := (if fmt then ":" ++ tab else ":")%string.

Lemma line_colon d m :
  line d m = (indent fmt d ++ quoted (fst m) ++ colon ++ render fmt d (snd m))%string.
Proof. unfold line, colon. by destruct fmt. Qed.

Lemma lines_cons x l :
  lines fmt (x :: l) = (x ++ (match l with [] => "" | _ => "," end ++ line_end fmt) ++ lines fmt l)%string.
Proof.
  unfold lines. destruct l as [|y l].
  - cbn [String.concat]. by rewrite string_app_nil.
  - by rewrite concat_cons2, !string_app_assoc.
Qed.

(** One member up to its value. *)
Lemma prints_member m d pre post p (k : unit -> printer unit) Q :
  prints_value (snd m) -> numbers number_fits (snd m) -> 0 <= d -> writing d pre post p ->
  strlen pre + strlen (line d m) < 2 ^ 63 ->
  (forall p' post', writing d (pre ++ line d m) post' p' -> strlen pre + strlen (line d m) < p_length p' ->
     prints (k tt) Q p') ->
  prints ((if fmt then depth ← peek p_depth; ensure alloc depth;; put (tabs depth);; advance depth
           else mret tt);;
          print_string_ptr alloc (Some (fst m));;
          update_offset;;
          ensure alloc (if fmt then 2 else 1);;
          put colon;;
          advance (if fmt then 2 else 1);;
          print_value alloc (snd m);;
          update_offset ≫= k) Q p.
Proof.
  intros Hm Hn Hd Hw Hlt HQ. rewrite line_colon in *. rewrite !strlen_app in Hlt, HQ.
  pose proof (strlen_nonneg pre). pose proof (strlen_nonneg (quoted (fst m))).
  pose proof (strlen_nonneg (indent fmt d)). pose proof (strlen_nonneg (render fmt d (snd m))).
  assert ((if fmt then 2 else 1) = strlen colon) as -> by (unfold colon; by destruct fmt).
  assert (1 <= strlen colon) as Hcolon by (unfold colon; destruct fmt; by vm_compute).
  apply prints_bind. apply prints_mono with (Q := fun _ p1 => exists post1,
    writing d (pre ++ indent fmt d) post1 p1).
  { unfold indent in *. destruct fmt; [|apply prints_ret; exists post; by rewrite string_app_nil].
    assert (strlen (tabs d) = d) as Ht.
    { unfold tabs. rewrite strlen_fill. change (strlen "") with 0. lia. }
    apply prints_bind, prints_peek. rewrite (w_depth _ _ _ _ Hw).
    apply prints_bind. eapply prints_ensure; [exact Hw|lia|lia|]. intros p1 Hw1 Hl1.
    apply prints_bind. eapply prints_put; [exact Hw1|lia|]. intros p2 post2 Hw2 Hl2.
    eapply prints_advance; [exact Hw2|lia|lia|]. intros p3 Hw3 Hl3. by exists post2. }
  intros [] p1 (post1 & Hw1).
  apply prints_bind. eapply prints_mono; [eapply prints_string; [exact Hw1|rewrite strlen_app; lia]|].
  intros [] p2 Hw2. apply prints_bind. eapply prints_update_offset; [exact Hw2|].
  intros p3 post3 Hw3 Hl3.
  apply prints_bind. eapply prints_ensure; [exact Hw3|lia|rewrite !strlen_app; lia|].
  intros p4 Hw4 Hl4. rewrite !strlen_app in Hl4.
  apply prints_bind. eapply prints_put; [exact Hw4|rewrite !strlen_app; lia|]. intros p5 post5 Hw5 Hl5.
  apply prints_bind. eapply prints_advance; [exact Hw5|done|rewrite !strlen_app; lia|].
  intros p6 Hw6 Hl6.
  apply prints_bind. eapply prints_mono.
  { eapply Hm; [exact Hn|exact Hd|exact Hw6|rewrite !strlen_app; lia]. }
  intros [] p7 Hw7. pose proof Hw7 as (u & v & post7 & _ & _ & _ & Hroom).
  apply prints_bind. eapply prints_update_offset; [exact Hw7|]. intros p8 post8 Hw8 Hl8.
  rewrite !strlen_app in Hroom. eapply HQ; [|lia]. rewrite !string_app_assoc in Hw8. exact Hw8.
Qed.

Lemma prints_members ms d pre post p :
  Forall (fun m => prints_value (snd m)) ms -> Forall (fun m => numbers number_fits (snd m)) ms ->
  0 <= d -> writing d pre post p ->
  strlen pre + strlen (lines fmt (map (line d) ms)) < 2 ^ 63 ->
  prints (print_members alloc (print_value alloc) ms)
    (fun _ p' => exists post', writing d (pre ++ lines fmt (map (line d) ms)) post' p') p.
Proof.
  intros Hm Hn Hd. revert pre post p.
  induction Hm as [|[name j] ms Hj Hm IH]; intros pre post p Hw Hlt.
  { apply prints_ret. exists post. cbn. by rewrite string_app_nil. }
  apply Forall_cons in Hn as [Hnj Hn]. specialize (IH Hn). cbn [map] in *.
  rewrite lines_cons in Hlt |- *. set (rest := lines fmt (map (line d) ms)) in *.
  set (stop := (match map (line d) ms with [] => "" | _ => "," end ++ line_end fmt)%string) in *.
  rewrite !strlen_app in Hlt. pose proof (strlen_nonneg pre). pose proof (strlen_nonneg rest).
  pose proof (strlen_nonneg stop). pose proof (strlen_nonneg (line d (name, j))).
  cbn [print_members]. apply prints_bind, prints_peek. rewrite (w_format _ _ _ _ Hw).
  cbv zeta. fold colon. eapply (prints_member (name, j)); [exact Hj|exact Hnj|exact Hd|exact Hw|lia|].
  intros p1 post1 Hw1 Hl1. cbv beta.
  assert ((match ms with [] => "" | _ => "," end ++ (if fmt then newline else ""))%string = stop) as ->.
  { unfold stop, line_end. by destruct ms. }
  assert ((if fmt then 1 else 0) + strlen (match ms with [] => "" | _ => "," end)%string
          = strlen stop) as ->.
  { unfold stop, line_end. destruct ms, fmt; done. }
  apply prints_bind. eapply prints_ensure; [exact Hw1|lia|rewrite strlen_app; lia|].
  intros p2 Hw2 Hl2. rewrite strlen_app in Hl2.
  apply prints_bind. eapply prints_put_terminated; [exact Hw2|rewrite strlen_app; lia|].
  intros p3 post3 Hw3 Hl3.
  apply prints_bind. eapply prints_advance; [exact Hw3|done|rewrite strlen_app; lia|].
  intros p4 Hw4 Hl4. eapply prints_mono; [eapply IH; [exact Hw4|rewrite !strlen_app; lia]|].
  intros [] p5 (post5 & Hw5). exists post5. by rewrite <- !string_app_assoc.
Qed.

Lemma prints_object ms d pre post p :
  Forall (fun m => prints_value (snd m)) ms -> Forall (fun m => numbers number_fits (snd m)) ms ->
  0 <= d -> writing d pre post p -> strlen pre + strlen (render fmt d (JObject ms)) < 2 ^ 63 ->
  prints (print_object alloc (print_value alloc) ms)
    (fun _ => printed d pre (render fmt d (JObject ms))) p.
Proof.
  intros Hm Hn Hd Hw Hlt. cbn [render] in *. fold (line (1 + d)) in *.
  set (body := lines fmt (map (line (1 + d)) ms)) in *.
  rewrite !strlen_app in Hlt. change (strlen "{") with 1 in Hlt. change (strlen "}") with 1 in Hlt.
  pose proof (strlen_nonneg pre). pose proof (strlen_nonneg body).
  pose proof (strlen_nonneg (indent fmt d)). pose proof (strlen_nonneg (line_end fmt)).
  unfold print_object. apply prints_bind, prints_peek. rewrite (w_format _ _ _ _ Hw). cbv zeta.
  set (head := ("{" ++ if fmt then newline else "")%string).
  assert ((if fmt then 2 else 1) = strlen head) as -> by (unfold head; by destruct fmt).
  assert (strlen head = 1 + strlen (line_end fmt)) as Hhead by by (unfold head; rewrite strlen_app).
  apply prints_bind. eapply prints_ensure; [exact Hw|lia|lia|]. intros p1 Hw1 Hl1.
  apply prints_bind. eapply prints_put; [exact Hw1|lia|]. intros p2 post2 Hw2 Hl2.
  apply prints_bind. eapply prints_depth; [exact Hw2|]. intros p3 Hw3 Hl3.
  apply prints_bind. eapply prints_advance; [exact Hw3|done|lia|]. intros p4 Hw4 Hl4.
  apply prints_bind. eapply prints_mono.
  { eapply (prints_members ms (1 + d)); [exact Hm|exact Hn|lia|exact Hw4|].
    rewrite strlen_app. fold body. lia. }
  intros [] p5 (post5 & Hw5). fold body in Hw5.
  apply prints_bind, prints_peek. rewrite (w_depth _ _ _ _ Hw5).
  replace (1 + d - 1) with d by lia. fold (indent fmt d).
  assert (0 <= (if fmt then 1 + d + 1 else 2) <= strlen (indent fmt d) + 2) as Hne.
  { unfold indent, tabs. destruct fmt; [rewrite strlen_fill|]; change (strlen "") with 0; lia. }
  set (needed := if fmt then 1 + d + 1 else 2) in *.
  assert (strlen (indent fmt d ++ "}") = strlen (indent fmt d) + 1) as Htail by by rewrite strlen_app.
  assert (strlen (indent fmt d) + 2 <= needed) as Hge.
  { unfold needed, indent, tabs. destruct fmt; [rewrite strlen_fill|]; change (strlen "") with 0; lia. }
  apply prints_bind. eapply prints_ensure; [exact Hw5|lia|rewrite !strlen_app; lia|].
  intros p6 Hw6 Hl6. rewrite !strlen_app in Hl6.
  apply prints_bind. eapply prints_put_terminated; [exact Hw6|rewrite !strlen_app in *; lia|].
  intros p7 post7 Hw7 Hl7. eapply prints_depth; [exact Hw7|]. intros p8 Hw8 Hl8.
  exists (head ++ body)%string, (indent fmt d ++ "}")%string, post7.
  split; [unfold head; by rewrite !string_app_assoc|].
  split. { apply no_nul_app. split; [|done]. unfold indent, tabs. destruct fmt; [by apply no_nul_fill|done]. }
  split; [|rewrite !strlen_app; change (strlen "{") with 1; change (strlen "}") with 1; lia].
  rewrite <- string_app_assoc. by replace d with (-1 + (1 + d)) at 1 by lia.
Qed.

Lemma print_value_prints j : prints_value j.
Proof.
  induction j as [|b z|z x|s|l Hl|ms Hm] using cJSON_nested_ind; intros d pre post p Hn Hd Hw Hlt;
    cbn [print_value].
  - eapply prints_word; try done. pose proof (strlen_nonneg (render fmt d JNull)). lia.
  - pose proof (strlen_nonneg (render fmt d (JBool b z))).
    destruct b; eapply prints_word; try done; lia.
  - apply (prints_number z x d pre post); try done. cbn [render] in Hlt.
    pose proof (strlen_nonneg (number_text x)). lia.
  - by eapply prints_string.
  - apply numbers_array in Hn. by eapply prints_array.
  - apply numbers_object in Hn. by eapply prints_object.
Qed.
End Printer.

(** ** The interface *)

Lemma numbers_mono (P Q : double -> Prop) j :
  (forall d, P d -> Q d) -> numbers P j -> numbers Q j.
Proof.
  intros H. induction j as [| | | |l Hl|ms Hm] using cJSON_nested_ind; try done; [apply H|..].
  - rewrite !numbers_array, !Forall_forall in *. auto.
  - rewrite !numbers_object, !Forall_forall in *. auto.
Qed.

Lemma valid_fits j : numbers valid_double j -> numbers number_fits j.
Proof.
  apply numbers_mono. intros d Hd. pose proof (number_text_length d Hd). unfold number_fits. lia.
Qed.

Lemma render_no_nul fmt d j : no_nul (render fmt d j).
Proof.
  revert d. induction j as [| b z|z x|s|l Hl|ms Hm] using cJSON_nested_ind; intros d; cbn [render];
    [done|by destruct b|apply number_text_no_nul|apply quoted_no_nul|..].
  - assert (forall ls, Forall no_nul ls -> no_nul (String.concat (if fmt then ", " else ",") ls)) as Hc.
    { intros ls. induction 1 as [|x [|y ls] Hx Hls IH]; [done|done|]. rewrite concat_cons2.
      rewrite !no_nul_app. repeat split; [done|by destruct fmt|done]. }
    rewrite !no_nul_app. repeat split. apply Hc, Forall_map. eapply Forall_impl; [exact Hl|]. auto.
  - assert (no_nul (line_end fmt) /\ (forall n, no_nul (indent fmt n))) as [He Hi].
    { unfold line_end, indent, tabs. destruct fmt; [|done]. split; [done|]. intros n. by apply no_nul_fill. }
    assert (forall ls, Forall no_nul ls -> no_nul (lines fmt ls)) as Hc.
    { intros ls. induction 1 as [|x ls Hx Hls IH]; [done|]. rewrite lines_cons, !no_nul_app.
      repeat split; [done|by destruct ls|done|done]. }
    rewrite !no_nul_app. repeat split; [done| |done].
    apply Hc, Forall_map. eapply Forall_impl; [exact Hm|]. intros [name j] Hj.
    rewrite !no_nul_app. repeat split; [done|apply quoted_no_nul|by destruct fmt|apply Hj].
Qed.

Lemma text_of_written noalloc fmt d t post p :
  writing noalloc fmt d t (String Ascii.zero post) p -> no_nul t -> text_of p = t.
Proof.
  intros Hw Ht. unfold text_of. rewrite (w_buffer _ _ _ _ _ _ Hw), until_nul_app by done.
  cbn [until_nul]. rewrite decide_True by done. apply string_app_nil.
Qed.

Lemma print_refines_text alloc j fmt :
  numbers valid_double j -> strlen (render fmt 0 j) < 2 ^ 63 ->
  print alloc j fmt = Some (Some (render fmt 0 j)) \/
  print alloc j fmt = Some None /\ exists k, alloc k = false.
Proof.
  intros Hn Hlt. unfold print. destruct (alloc 0%nat) eqn:E0; [|right; split; [done|by exists O]].
  cbn [negb]. set (p0 := mk_printbuffer _ _ _ _ _ _ _).
  assert (writing false fmt 0 EmptyString EmptyString p0) as Hw by by constructor; try left.
  assert (prints alloc false (print_value alloc j;; update_offset)
            (fun _ p => text_of p = render fmt 0 j) p0) as H.
  { apply prints_bind. eapply prints_mono.
    - eapply print_value_prints; [by apply valid_fits|done|exact Hw|exact Hlt].
    - intros [] p1 Hw1. eapply prints_update_offset; [exact Hw1|]. intros p2 post Hw2 _.
      eapply text_of_written; [exact Hw2|apply render_no_nul]. }
  unfold prints in H. unfold run_print. destruct ((print_value alloc j;; update_offset) p0) as [[[[] p]|]|]; [..|done].
  - cbn [mbind option_bind]. destruct (alloc (p_allocs p)) eqn:Ep; [left; by rewrite H|].
    right. split; [done|by eexists].
  - right. split; [done|]. by destruct H.
Qed.

(** C12: the printer, which enlarges its buffer as it writes, makes exactly the text that
    [render] gives for the value; it never writes outside the buffer, not even the 26
    bytes it has for a number, and answers a null pointer only if an allocation failed. *)
Theorem print_refines alloc j fmt :
  numbers valid_double j -> strlen (render fmt 0 j) < 2 ^ 63 ->
  print alloc j fmt = Some (Some (render fmt 0 j)) \/
  print alloc j fmt = Some None /\ exists k, alloc k = false.
Proof. apply print_refines_text. Qed.

Definition ex_value : cJSON :=
  JObject [("cookie", JString "a b"); ("sizes", JArray [cJSON_CreateNumber (d_of_Z 3); JNull]);
           ("flags", JObject [])]%string.

Lemma print_refines_witness :
  cJSON_PrintUnformatted (fun _ => true) ex_value = Some (Some (render false 0 ex_value)).
Proof.
  destruct (print_refines (fun _ => true) ex_value false) as [H|[_ [k Hk]]]; [|by vm_compute|exact H|].
  - cbn. repeat split.
  - discriminate Hk.
Defined.

(** A buffer of the caller is filled with the text or refused, never overrun. *)
Theorem print_preallocated j length fmt :
  numbers valid_double j -> strlen (render fmt 0 j) < 2 ^ 63 ->
  cJSON_PrintPreallocated j length fmt = Some (Some (render fmt 0 j)) \/
  cJSON_PrintPreallocated j length fmt = Some None.
Proof.
  intros Hn Hlt. unfold cJSON_PrintPreallocated. destruct (Z.ltb_spec length 0) as [|Hlen]; [by right|].
  set (p0 := mk_printbuffer _ _ _ _ _ _ _).
  assert (writing true fmt 0 EmptyString EmptyString p0) as Hw.
  { constructor; try done. cbn. destruct (Z.eq_dec length 0); [by right|left; lia]. }
  pose proof (print_value_prints (fun _ => false) true fmt j 0 EmptyString EmptyString p0
                (valid_fits j Hn) ltac:(done) Hw Hlt) as H.
  unfold prints in H. unfold run_print. destruct (print_value _ j p0) as [[[[] p]|]|]; [..|done].
  - left. destruct H as (u & v & post & E & _ & Hw' & _). cbn [mbind option_bind option_map].
    do 2 f_equal. unfold text_of. rewrite (w_buffer _ _ _ _ _ _ Hw').
    change ("" ++ u)%string with u. rewrite <- string_app_assoc, <- E.
    rewrite until_nul_app by apply render_no_nul. cbn [until_nul]. rewrite decide_True by done.
    apply string_app_nil.
  - by right.
Qed.
