(* ===== verification/Queue.v ===== *)
(** * queue.h: the lists of the system

    The macros of singly-linked lists and of tail queues that the program uses, on the
    pointers themselves.  The [next] fields are a memory from places - the head of the
    list, or an element - to pointers, so that the address of such a field is its place;
    the [prev] of an element of a tail queue is one, and so is the end the head keeps.
    The other components see the same lists as Rocq lists: [Queue]. *)

From stdpp Require Import gmap.
From S2P Require Import Prelude Double CJson CString JsonText JsonTextProps.

#[local] Open Scope Z_scope.

Abbreviation elem := positive.

(** The address of a [next] field. *)
Inductive link := AtHead | NextOf (e : elem).

#[export] Instance link_eq_dec : EqDecision link.
Proof. solve_decision. Defined.

#[export] Program Instance link_countable : Countable link :=
  inj_countable' (fun a => match a with AtHead => None | NextOf e => Some e end)
    (fun o => match o with None => AtHead | Some e => NextOf e end) _.
Next Obligation. by intros []. Qed.

Record queue := mk_queue {
  nexts : gmap link (option elem);   (** [slh_first], [tqh_first], [sle_next], [tqe_next] *)
  prevs : gmap elem link;            (** [tqe_prev] *)
  tqh_last : link }.

#[export] Instance eta_queue : Eta queue := fun q => mk_queue (nexts q) (prevs q) (tqh_last q).

Abbreviation macro := (attempt queue).

(** [*a] and [*a = v]; there is no other memory than the fields. *)
Definition load (a : link) : macro (option elem) := fun q =>
  match nexts q !! a with Some v => Some (Some (v, q)) | None => None end.
Definition store_next (a : link) (v : option elem) : macro unit := fun q =>
  match nexts q !! a with
  | Some _ => Some (Some (tt, q <| nexts ::= <[a := v]> |>))
  | None => None
  end.
Definition load_prev (e : elem) : macro link := fun q =>
  match prevs q !! e with Some a => Some (Some (a, q)) | None => None end.
Definition store_prev (e : elem) (a : link) : macro unit := fun q =>
  match prevs q !! e with
  | Some _ => Some (Some (tt, q <| prevs ::= <[e := a]> |>))
  | None => None
  end.
Definition set_last (a : link) : macro unit := change (fun q => q <| tqh_last := a |>).

(** A field of a pointer that is followed. *)
Definition the (p : option elem) : macro elem :=
  match p with Some e => mret e | None => undefined end.

(** ** Singly-linked lists *)

Definition SLIST_FIRST : macro (option elem) := load AtHead.
Definition SLIST_EMPTY : macro bool := first ← SLIST_FIRST; mret (bool_decide (first = None)).
Definition SLIST_NEXT (e : elem) : macro (option elem) := load (NextOf e).
Definition SLIST_INIT : macro unit := store_next AtHead None.

Definition SLIST_INSERT_AFTER (slistelm e : elem) : macro unit :=
  next ← load (NextOf slistelm);
  store_next (NextOf e) next;;
  store_next (NextOf slistelm) (Some e).

Definition SLIST_INSERT_HEAD (e : elem) : macro unit :=
  first ← load AtHead;
  store_next (NextOf e) first;;
  store_next AtHead (Some e).

Definition SLIST_REMOVE_HEAD : macro unit :=
  first ← load AtHead;
  e ← the first;
  next ← load (NextOf e);
  store_next AtHead next.

(** The loop [SLIST_FOREACH]: what it visits, in order. *)
Fixpoint slist_foreach (fuel : nat) (var : option elem) : macro (list elem) :=
  match var with
  | None => mret []
  | Some e =>
      match fuel with
      | O => undefined
      | S fuel => next ← SLIST_NEXT e; rest ← slist_foreach fuel next; mret (e :: rest)
      end
  end.

Definition SLIST_FOREACH : macro (list elem) :=
  first ← SLIST_FIRST;
  q ← peek id;
  slist_foreach (size (nexts q)) first.

Fixpoint slist_before (fuel : nat) (e curelm : elem) : macro elem :=
  match fuel with
  | O => undefined
  | S fuel =>
      next ← load (NextOf curelm);
      if bool_decide (next = Some e) then mret curelm
      else c ← the next; slist_before fuel e c
  end.

Definition SLIST_REMOVE (e : elem) : macro unit :=
  first ← load AtHead;
  if bool_decide (first = Some e) then SLIST_REMOVE_HEAD
  else
    c ← the first;
    q ← peek id;
    curelm ← slist_before (size (nexts q)) e c;
    next ← load (NextOf curelm);
    n ← the next;
    after ← load (NextOf n);
    store_next (NextOf curelm) after.

(** [iperf_add_stream] on the list of streams: the identifier the stream gets. *)
Definition add_stream_links (sp : elem) : macro Z :=
  empty ← SLIST_EMPTY;
  if (empty : bool) then SLIST_INSERT_HEAD sp;; mret 1
  else
    visited ← SLIST_FOREACH;
    prev ← the (last visited);
    SLIST_INSERT_AFTER prev sp;;
    mret (2 + Z.of_nat (length visited)).

(** [iperf_defaults] links the protocols; SCTP is one of them where it is built in. *)
Definition protocol_links (tcp udp : elem) (sctp : option elem) : macro unit :=
  SLIST_INIT;;
  SLIST_INSERT_HEAD tcp;;
  SLIST_INSERT_AFTER tcp udp;;
  match sctp with Some sctp => SLIST_INSERT_AFTER udp sctp | None => mret tt end.

(** The loop that takes the elements out to free them, in that order. *)
Fixpoint slist_drain (fuel : nat) : macro (list elem) :=
  empty ← SLIST_EMPTY;
  if (empty : bool) then mret []
  else
    match fuel with
    | O => undefined
    | S fuel =>
        first ← SLIST_FIRST;
        sp ← the first;
        SLIST_REMOVE_HEAD;;
        rest ← slist_drain fuel;
        mret (sp :: rest)
    end.

Definition free_stream_links : macro (list elem) := q ← peek id; slist_drain (size (nexts q)).

(** ** Tail queues *)

Definition TAILQ_FIRST : macro (option elem) := load AtHead.
Definition TAILQ_NEXT (e : elem) : macro (option elem) := load (NextOf e).
Definition TAILQ_EMPTY : macro bool := first ← TAILQ_FIRST; mret (bool_decide (first = None)).

(** The loop over a tail queue follows the same field. *)
Definition TAILQ_FOREACH : macro (list elem) := SLIST_FOREACH.

(** The second field at an address: a head and an element are laid out alike. *)
Definition second_field (a : link) : macro link :=
  match a with AtHead => peek tqh_last | NextOf e => load_prev e end.

Definition TAILQ_LAST : macro (option elem) :=
  last ← peek tqh_last; a ← second_field last; load a.
Definition TAILQ_PREV (e : elem) : macro (option elem) :=
  prev ← load_prev e; a ← second_field prev; load a.

Definition TAILQ_INIT : macro unit := store_next AtHead None;; set_last AtHead.

(** What follows a place is told, or the head is, where the place is. *)
Definition tell_next (next : option elem) (a : link) : macro unit :=
  match next with Some n => store_prev n a | None => set_last a end.

Definition TAILQ_INSERT_HEAD (e : elem) : macro unit :=
  first ← load AtHead;
  store_next (NextOf e) first;;
  tell_next first (NextOf e);;
  store_next AtHead (Some e);;
  store_prev e AtHead.

Definition TAILQ_INSERT_TAIL (e : elem) : macro unit :=
  store_next (NextOf e) None;;
  last ← peek tqh_last;
  store_prev e last;;
  last ← peek tqh_last;
  store_next last (Some e);;
  set_last (NextOf e).

Definition TAILQ_INSERT_AFTER (listelm e : elem) : macro unit :=
  next ← load (NextOf listelm);
  store_next (NextOf e) next;;
  tell_next next (NextOf e);;
  store_next (NextOf listelm) (Some e);;
  store_prev e (NextOf listelm).

Definition TAILQ_INSERT_BEFORE (listelm e : elem) : macro unit :=
  prev ← load_prev listelm;
  store_prev e prev;;
  store_next (NextOf e) (Some listelm);;
  prev ← load_prev listelm;
  store_next prev (Some e);;
  store_prev listelm (NextOf e).

Definition TAILQ_REMOVE (e : elem) : macro unit :=
  next ← load (NextOf e);
  prev ← load_prev e;
  tell_next next prev;;
  prev ← load_prev e;
  next ← load (NextOf e);
  store_next prev next.

Definition TAILQ_REPLACE (e e2 : elem) : macro unit :=
  next ← load (NextOf e);
  store_next (NextOf e2) next;;
  tell_next next (NextOf e2);;
  prev ← load_prev e;
  store_prev e2 prev;;
  store_next prev (Some e2).

(** * The lists are lists

    [slist l q] and [tailq l q] say that the pointers of the memory [q] hold the list
    [l].  Each macro then is an operation on lists: what was a list is one afterwards,
    with the element where its name says, and an element is lost only by the macro that
    takes it out.  The elements a macro reaches through [next] are as many as the list
    has, so every loop ends; and [iperf_add_stream] appends. *)

(** ** Places *)

(** The address of the field that ends the list [l]. *)
Definition ending (l : list elem) : link :=
  match last l with None => AtHead | Some e => NextOf e end.

Lemma ending_snoc l x : ending (l ++ [x]) = NextOf x.
Proof. unfold ending. by rewrite last_snoc. Qed.

(** The field after an element, where the element occurs once, is in one place. *)
Lemma ending_inj (k1 k2 l1 l2 : list elem) :
  NoDup (k1 ++ k2) -> k1 ++ k2 = l1 ++ l2 -> ending k1 = ending l1 -> k1 = l1.
Proof.
  intros Hd E H. unfold ending in H.
  destruct (last k1) as [e|] eqn:Ek, (last l1) as [e'|] eqn:El; try discriminate.
  - injection H as <-. rewrite last_lookup in Ek, El.
    assert (Hk : (k1 ++ k2) !! pred (length k1) = Some e) by by apply lookup_app_l_Some.
    assert (Hl : (k1 ++ k2) !! pred (length l1) = Some e)
      by (rewrite E; by apply lookup_app_l_Some).
    pose proof (NoDup_lookup _ _ _ _ Hd Hk Hl) as Hn.
    apply lookup_lt_Some in Ek, El. apply app_inj_1 in E as [? _]; [done|lia].
  - apply last_None in Ek, El. by subst.
Qed.

Lemma ending_in l x : ending l = NextOf x -> x ∈ l.
Proof.
  unfold ending. destruct (last l) as [e|] eqn:E; [|done]. intros [= ->].
  apply last_Some in E as [l' ->]. set_solver.
Qed.

(** ** Lists in memory *)

(** The [next] fields hold [l]: behind every part of it comes the rest. *)
Definition nexts_hold (l : list elem) (m : gmap link (option elem)) : Prop :=
  forall l1 l2, l = l1 ++ l2 -> m !! ending l1 = Some (head l2).

(** The [prev] fields hold [l]: every element has the address before it. *)
Definition prevs_hold (l : list elem) (m : gmap elem link) : Prop :=
  forall l1 x l2, l = l1 ++ x :: l2 -> m !! x = Some (ending l1).

(** The prefixes of a list with an element between two parts. *)
Lemma prefixes_middle {A} (l1 l2 : list A) x k1 k2 :
  l1 ++ x :: l2 = k1 ++ k2 ->
  (exists j, l1 = k1 ++ j /\ k2 = j ++ x :: l2) \/ (exists j, k1 = l1 ++ x :: j /\ l2 = j ++ k2).
Proof.
  intros E. apply app_eq_app in E as (j & [[-> Ej]|[-> Ej]]); [left; eauto|].
  destruct j as [|y j]; simpl in Ej.
  - left. exists []. subst. rewrite !app_nil_r. auto.
  - injection Ej as <- ->. right. eauto.
Qed.

Lemma NoDup_part {A} (l1 l2 : list A) x : NoDup (l1 ++ x :: l2) -> x ∉ l1 ++ l2 /\ NoDup (l1 ++ l2).
Proof. intros H. rewrite <- Permutation_middle in H. by apply NoDup_cons in H. Qed.

Lemma ending_cons l x j : ending (l ++ x :: j) = ending (x :: j).
Proof. unfold ending. rewrite last_app_cons. destruct (last (x :: j)) eqn:E; [done|]. by apply last_None in E. Qed.

(** [nexts_hold] goes by fields: an element put between two parts of the list is told of
    in the field before it, and tells what the field told. *)
Lemma nexts_insert l1 x l2 m :
  NoDup (l1 ++ x :: l2) -> nexts_hold (l1 ++ l2) m ->
  nexts_hold (l1 ++ x :: l2) (<[ending l1 := Some x]> (<[NextOf x := head l2]> m)).
Proof.
  intros Hd H k1 k2 E. pose proof Hd as Hd2. apply NoDup_app in Hd2 as (Hd1 & Hx1 & [Hx Hd2]%NoDup_cons).
  assert (Hx2 : x ∉ l1) by (intros Hi; apply (Hx1 x Hi); set_solver).
  apply prefixes_middle in E as [(j & -> & ->)|(j & -> & ->)].
  - destruct (decide (ending (k1 ++ j) = ending k1)) as [He|He].
    + rewrite He, lookup_insert_eq. symmetry in He.
      pose proof (ending_inj k1 j (k1 ++ j) [] Hd1 ltac:(by rewrite app_nil_r) He) as Ej.
      symmetry in Ej. rewrite <- (app_nil_r k1) in Ej at 2. by apply app_inv_head in Ej as ->.
    + rewrite lookup_insert_ne by done.
      rewrite lookup_insert_ne by (intros Hi; symmetry in Hi; apply ending_in in Hi; set_solver).
      rewrite (H k1 (j ++ l2)) by by rewrite app_assoc.
      destruct j; [by rewrite app_nil_r in He|done].
  - rewrite lookup_insert_ne.
    2: { rewrite ending_cons. intros He. unfold ending in He at 1.
         destruct (last l1) as [e|] eqn:El.
         - symmetry in He. apply ending_in in He. apply last_Some in El as [? ->].
           apply (Hx1 e); set_solver.
         - unfold ending in He. destruct (last (x :: j)) eqn:E; [done|]. by apply last_None in E. }
    destruct j as [|y j _] using rev_ind.
    + by rewrite ending_snoc, lookup_insert_eq.
    + rewrite app_comm_cons, (app_assoc l1), ending_snoc, lookup_insert_ne by set_solver.
      rewrite <- (ending_snoc (l1 ++ j) y). apply (H ((l1 ++ j) ++ [y])). by rewrite <- !app_assoc.
Qed.

(** An element is out when the field before it tells what it told. *)
Lemma nexts_delete l1 x l2 m :
  NoDup (l1 ++ x :: l2) -> nexts_hold (l1 ++ x :: l2) m ->
  nexts_hold (l1 ++ l2) (<[ending l1 := head l2]> m).
Proof.
  intros Hd H k1 k2 E.
  pose proof (NoDup_part _ _ _ Hd) as [_ Hd'].
  destruct (decide (ending l1 = ending k1)) as [He|He].
  - pose proof (ending_inj _ _ _ _ Hd' E He) as <-. apply app_inv_head in E as ->. apply lookup_insert_eq.
  - rewrite lookup_insert_ne by done. apply app_eq_app in E as (j & [[-> ->]|[-> ->]]).
    + rewrite (H k1 (j ++ x :: l2)) by by rewrite app_assoc.
      destruct j; [by rewrite app_nil_r in He|done].
    + rewrite <- (H (l1 ++ x :: j) k2) by by rewrite <- app_assoc.
      destruct j as [|y j _] using rev_ind; [by rewrite app_nil_r in He|].
      by rewrite app_comm_cons, !app_assoc, !ending_snoc.
Qed.

Definition told (next : option elem) (a : link) (m : gmap elem link) : gmap elem link :=
  match next with Some n => <[n := a]> m | None => m end.

Lemma told_ne next a m y : next <> Some y -> told next a m !! y = m !! y.
Proof. destruct next as [n|]; [|done]. intros Hn. apply lookup_insert_ne. congruence. Qed.

Lemma prevs_insert l1 x l2 m :
  NoDup (l1 ++ x :: l2) -> prevs_hold (l1 ++ l2) m ->
  prevs_hold (l1 ++ x :: l2) (<[x := ending l1]> (told (head l2) (NextOf x) m)).
Proof.
  intros Hd H k1 y k2 E. pose proof (NoDup_part _ _ _ Hd) as [Hx Hd']. apply prefixes_middle in E as [(j & -> & Ej)|(j & -> & ->)].
  - destruct j as [|z j]; simpl in Ej; injection Ej as -> ->.
    + by rewrite app_nil_r, lookup_insert_eq.
    + rewrite lookup_insert_ne by set_solver.
      rewrite told_ne. { apply (H k1 z (j ++ l2)). by rewrite <- app_assoc. }
      destruct l2 as [|w l2]; [done|]. intros [= ->].
      apply NoDup_app in Hd' as (_ & Hn & _). apply (Hn z); set_solver.
  - rewrite lookup_insert_ne by set_solver. destruct j as [|z j _] using rev_ind.
    + rewrite ending_snoc. apply lookup_insert_eq.
    + rewrite told_ne.
      * rewrite (H (l1 ++ j ++ [z]) y k2) by by rewrite <- !app_assoc.
        by rewrite app_comm_cons, !app_assoc, !ending_snoc.
      * apply NoDup_app in Hd' as (_ & _ & Hn). rewrite <- app_assoc in *. destruct j as [|w j]; simpl in *;
          intros [=]; subst; apply NoDup_cons in Hn as [Hn _]; set_solver.
Qed.

Lemma prevs_delete l1 x l2 m :
  NoDup (l1 ++ x :: l2) -> prevs_hold (l1 ++ x :: l2) m ->
  prevs_hold (l1 ++ l2) (told (head l2) (ending l1) m).
Proof.
  intros Hd H k1 y k2 E. pose proof (NoDup_part _ _ _ Hd) as [Hx Hd'].
  apply app_eq_app in E as (j & [[-> Ej]|[-> ->]]).
  - destruct j as [|z j]; simpl in Ej.
    + subst l2. rewrite app_nil_r. apply lookup_insert_eq.
    + injection Ej as <- ->. rewrite told_ne. { apply (H k1 y (j ++ x :: l2)). by rewrite <- app_assoc. }
      destruct l2 as [|w l2]; [done|]. intros [=]; subst.
      apply NoDup_app in Hd' as (_ & Hn & _). apply (Hn y); set_solver.
  - destruct j as [|z j _] using rev_ind.
    + rewrite app_nil_r. apply lookup_insert_eq.
    + rewrite told_ne.
      * rewrite (H (l1 ++ x :: j ++ [z]) y k2) by (rewrite <- !app_assoc; simpl; by rewrite <- !app_assoc).
        by rewrite app_comm_cons, !app_assoc, !ending_snoc.
      * apply NoDup_app in Hd' as (_ & _ & Hn). rewrite <- app_assoc in *. destruct j as [|w j]; simpl in *;
          intros [=]; subst; apply NoDup_cons in Hn as [Hn _]; set_solver.
Qed.

(** The fields are different fields, so there are at least as many. *)
Lemma nexts_size l m : NoDup l -> nexts_hold l m -> (length l < size m)%nat.
Proof.
  intros Hd H. rewrite <- size_dom.
  enough (list_to_set (AtHead :: map NextOf l) ⊆ dom m) as Hs.
  { apply subseteq_size in Hs. rewrite size_list_to_set in Hs; [simpl in Hs; rewrite length_map in Hs; lia|].
    apply NoDup_cons. split; [by intros (? & ? & _)%list_elem_of_fmap|].
    apply (NoDup_fmap_2_strong NextOf); [congruence|done]. }
  intros a Ha. apply elem_of_dom. rewrite elem_of_list_to_set, elem_of_cons in Ha.
  destruct Ha as [->|(e & -> & He)%list_elem_of_fmap].
  - exists (head l). by apply (H [] l).
  - apply list_elem_of_split in He as (l1 & l2 & ->).
    rewrite <- (ending_snoc l1 e), (H (l1 ++ [e]) l2) by by rewrite <- app_assoc. eauto.
Qed.

(** ** Running *)

Section Rules.
Context (Q : unit -> queue -> Prop) (q : queue).

Lemma does_load a v (R : option elem -> queue -> Prop) :
  nexts q !! a = Some v -> R v q -> does (load a) R q.
Proof. intros E H. exists v, q. unfold load. by rewrite E. Qed.

Lemma does_load_prev e a (R : link -> queue -> Prop) :
  prevs q !! e = Some a -> R a q -> does (load_prev e) R q.
Proof. intros E H. exists a, q. unfold load_prev. by rewrite E. Qed.

Lemma does_store_next a v :
  is_Some (nexts q !! a) -> Q tt (q <| nexts ::= <[a := v]> |>) -> does (store_next a v) Q q.
Proof. intros [w E] H. eexists tt, _. split; [|exact H]. unfold store_next. by rewrite E. Qed.

Lemma does_store_prev e a :
  is_Some (prevs q !! e) -> Q tt (q <| prevs ::= <[e := a]> |>) -> does (store_prev e a) Q q.
Proof. intros [w E] H. eexists tt, _. split; [|exact H]. unfold store_prev. by rewrite E. Qed.

Lemma does_set_last a : Q tt (q <| tqh_last := a |>) -> does (set_last a) Q q.
Proof. intros H. by eexists tt, _. Qed.

Lemma does_the p e (R : elem -> queue -> Prop) : p = Some e -> R e q -> does (the p) R q.
Proof. intros -> H. by exists e, q. Qed.
End Rules.

(** No macro makes or frees an element. *)
Definition cells (q : queue) : gset link * gset elem := (dom (nexts q), dom (prevs q)).

Definition keeps {A} (m : macro A) : Prop :=
  forall q x q', m q = Some (Some (x, q')) -> cells q' = cells q.

Create HintDb keeps.

Lemma keeps_ret {A} (x : A) : keeps (mret x).
Proof. by intros q y q' [= _ ->]. Qed.

Lemma keeps_bind {A B} (m : macro A) (k : A -> macro B) :
  keeps m -> (forall x, keeps (k x)) -> keeps (mbind k m).
Proof.
  intros Hm Hk q y q'. unfold mbind, attempt_bind.
  destruct (m q) as [[[x q1]|]|] eqn:E; try discriminate. intros E2.
  rewrite (Hk _ _ _ _ E2). by apply Hm in E.
Qed.

Lemma keeps_load a : keeps (load a).
Proof. intros q x q'. unfold load. destruct (nexts q !! a); [|done]. by intros [= _ ->]. Qed.

Lemma keeps_load_prev e : keeps (load_prev e).
Proof. intros q x q'. unfold load_prev. destruct (prevs q !! e); [|done]. by intros [= _ ->]. Qed.

Lemma keeps_store_next a v : keeps (store_next a v).
Proof.
  intros q x q'. unfold store_next, cells. destruct (nexts q !! a) eqn:E; [|done]. intros [= _ <-].
  simpl. by rewrite dom_insert_lookup_L.
Qed.

Lemma keeps_store_prev e a : keeps (store_prev e a).
Proof.
  intros q x q'. unfold store_prev, cells. destruct (prevs q !! e) eqn:E; [|done]. intros [= _ <-].
  simpl. by rewrite dom_insert_lookup_L.
Qed.

Lemma keeps_set_last a : keeps (set_last a).
Proof. by intros q x q' [= _ <-]. Qed.

Lemma keeps_peek {A} (f : queue -> A) : keeps (peek f).
Proof. by intros q x q' [= _ ->]. Qed.

Lemma keeps_the p : keeps (the p).
Proof. destruct p; [apply keeps_ret|done]. Qed.

#[export] Hint Resolve keeps_ret keeps_bind keeps_load keeps_load_prev keeps_store_next keeps_store_prev
  keeps_set_last keeps_peek keeps_the : keeps.
#[export] Hint Extern 1 (keeps (if ?b then _ else _)) => destruct b : keeps.
#[export] Hint Extern 1 (keeps (match ?p with Some _ => _ | None => _ end)) => destruct p : keeps.
#[export] Hint Extern 1 (keeps (match ?p with AtHead => _ | NextOf _ => _ end)) => destruct p : keeps.

Lemma keeps_foreach fuel var : keeps (slist_foreach fuel var).
Proof. revert var. induction fuel; intros []; simpl; eauto 6 with keeps; done. Qed.

Lemma keeps_before fuel e c : keeps (slist_before fuel e c).
Proof. revert c. induction fuel; intros c; simpl; eauto 8 with keeps; done. Qed.

#[export] Hint Resolve keeps_foreach keeps_before : keeps.

Ltac keep := unfold add_stream_links, SLIST_EMPTY, SLIST_FOREACH, SLIST_FIRST, SLIST_REMOVE, SLIST_REMOVE_HEAD,
  SLIST_INSERT_AFTER, SLIST_INSERT_HEAD, SLIST_INIT, TAILQ_INIT, TAILQ_INSERT_HEAD, TAILQ_INSERT_TAIL,
  TAILQ_INSERT_AFTER, TAILQ_INSERT_BEFORE, TAILQ_REMOVE, TAILQ_REPLACE, tell_next; eauto 25 with keeps.

(** The macros that change a list leave every element where it is allocated. *)
Lemma macros_keep (e e2 : elem) :
  keeps SLIST_INIT /\ keeps (SLIST_INSERT_HEAD e) /\ keeps (SLIST_INSERT_AFTER e e2) /\
  keeps SLIST_REMOVE_HEAD /\ keeps (SLIST_REMOVE e) /\ keeps (add_stream_links e) /\
  keeps TAILQ_INIT /\ keeps (TAILQ_INSERT_HEAD e) /\ keeps (TAILQ_INSERT_TAIL e) /\
  keeps (TAILQ_INSERT_AFTER e e2) /\ keeps (TAILQ_INSERT_BEFORE e e2) /\ keeps (TAILQ_REMOVE e) /\
  keeps (TAILQ_REPLACE e e2).
Proof. split_and!; keep. Qed.

(** An element of the lists' type that is allocated. *)
Definition cell (e : elem) (q : queue) : Prop := is_Some (nexts q !! NextOf e).
Definition pair_cell (e : elem) (q : queue) : Prop := cell e q /\ is_Some (prevs q !! e).

(** ** Singly-linked lists *)

Record slist (l : list elem) (q : queue) : Prop := {
  sl_next : nexts_hold l (nexts q);
  sl_distinct : NoDup l }.

(** [m] does to the list what is said, and gives [x]. *)
Abbreviation gives m x P q := (does m (fun y q' => y = x /\ P q') q).

Lemma sl_field l1 l2 q : slist (l1 ++ l2) q -> nexts q !! ending l1 = Some (head l2).
Proof. intros [H _]. by apply H. Qed.

Lemma sl_after l1 x l2 q : slist (l1 ++ x :: l2) q -> nexts q !! NextOf x = Some (head l2).
Proof. intros [H _]. rewrite <- (ending_snoc l1). apply H. by rewrite <- app_assoc. Qed.

Lemma NoDup_place {A} (l1 l2 : list A) x : NoDup (l1 ++ l2) -> x ∉ l1 ++ l2 -> NoDup (l1 ++ x :: l2).
Proof. intros Hd Hx. rewrite <- Permutation_middle. by apply NoDup_cons. Qed.

(** Both ways of putting an element in are stores to its field, and to the one before. *)
Lemma slist_put l1 l2 x q (Q : unit -> queue -> Prop) :
  slist (l1 ++ l2) q -> x ∉ l1 ++ l2 -> cell x q ->
  (forall q', slist (l1 ++ x :: l2) q' -> Q tt q') ->
  does (first ← load (ending l1); store_next (NextOf x) first;; store_next (ending l1) (Some x)) Q q.
Proof.
  intros [H Hd] Hx [w Hc] HQ. pose proof (NoDup_place _ _ _ Hd Hx) as Hd'.
  apply does_bind, (does_load _ _ (head l2)); [by apply H|].
  apply does_bind, does_store_next; [eauto|]. apply does_store_next.
  - simpl. rewrite lookup_insert. case_decide; [eauto|]. rewrite (H l1 l2); eauto.
  - apply HQ. split; [|done]. simpl. by apply nexts_insert.
Qed.

Lemma slist_init q : is_Some (nexts q !! AtHead) -> gives SLIST_INIT tt (slist []) q.
Proof.
  intros H. apply does_store_next; [done|]. split; [done|]. split; [|by constructor].
  intros l1 l2 E. symmetry in E. apply app_nil in E as [-> ->]. apply lookup_insert_eq.
Qed.

Lemma slist_empty l q : slist l q -> gives SLIST_EMPTY (bool_decide (l = [])) (eq q) q.
Proof.
  intros H. apply does_bind, (does_load _ _ (head l)); [by apply (sl_field [])|].
  apply does_ret. split; [|done]. by destruct l.
Qed.

Lemma slist_insert_head l x q :
  slist l q -> x ∉ l -> cell x q -> gives (SLIST_INSERT_HEAD x) tt (slist (x :: l)) q.
Proof. intros H Hx Hc. by apply (slist_put [] l). Qed.

Lemma slist_insert_after l1 y l2 x q :
  slist (l1 ++ y :: l2) q -> x ∉ l1 ++ y :: l2 -> cell x q ->
  gives (SLIST_INSERT_AFTER y x) tt (slist (l1 ++ y :: x :: l2)) q.
Proof.
  intros H Hx Hc. unfold SLIST_INSERT_AFTER. rewrite <- (ending_snoc l1 y).
  assert (E : forall l, l1 ++ y :: l = (l1 ++ [y]) ++ l) by (intros l; by rewrite <- app_assoc).
  rewrite E in H, Hx. rewrite (E (x :: l2)). by apply (slist_put (l1 ++ [y]) l2).
Qed.

(** What is taken out is what the field before says. *)
Lemma slist_taken l1 x l2 q :
  slist (l1 ++ x :: l2) q -> slist (l1 ++ l2) (q <| nexts ::= <[ending l1 := head l2]> |>).
Proof. intros [H Hd]. split; [by eapply nexts_delete|]. by apply (NoDup_part l1 l2 x). Qed.

Lemma slist_remove_head x l q : slist (x :: l) q -> gives SLIST_REMOVE_HEAD tt (slist l) q.
Proof.
  intros H. apply does_bind, (does_load _ _ (Some x)); [by apply (sl_field [] (x :: l))|].
  apply does_bind, (does_the _ _ x); [done|].
  apply does_bind, (does_load _ _ (head l)); [by apply (sl_after [])|].
  apply does_store_next; [rewrite (sl_field [] (x :: l)) by done; eauto|].
  split; [done|]. by apply (slist_taken []) in H.
Qed.

(** ** Walking *)

Lemma slist_foreach_visits l2 : forall l1 fuel q, slist (l1 ++ l2) q -> (length l2 <= fuel)%nat ->
  slist_foreach fuel (head l2) q = Some (Some (l2, q)).
Proof.
  induction l2 as [|x l2 IH]; intros l1 [|fuel] q H Hf; simpl in *; [done..|lia|].
  unfold SLIST_NEXT, load, mbind, attempt_bind. rewrite (sl_after _ _ _ _ H).
  rewrite (IH (l1 ++ [x])); [done| |lia]. by rewrite <- app_assoc.
Qed.

(** The loop visits the list, and comes to its end. *)
Lemma slist_foreach_spec l q : slist l q -> gives SLIST_FOREACH l (eq q) q.
Proof.
  intros H. apply does_bind, (does_load _ _ (head l)); [by apply (sl_field [])|].
  apply does_bind, does_peek. exists l, q. split; [|done].
  apply (slist_foreach_visits l []); [done|]. destruct H as [H Hd]. pose proof (nexts_size _ _ Hd H). simpl. lia.
Qed.

(** The loop of [SLIST_REMOVE] stops at the element before. *)
Lemma slist_before_spec k2 : forall k1 c x l2 fuel q,
  slist (k1 ++ c :: k2 ++ x :: l2) q -> (length k2 < fuel)%nat ->
  exists k3 r, c :: k2 = k3 ++ [r] /\ slist_before fuel x c q = Some (Some (r, q)).
Proof.
  induction k2 as [|d k2 IH]; intros k1 c x l2 [|fuel] q H Hf; simpl in *; try lia.
  - exists [], c. split; [done|]. unfold load, mbind, attempt_bind.
    rewrite (sl_after _ _ _ _ H). simpl. by rewrite bool_decide_true.
  - assert (E : k1 ++ c :: d :: k2 ++ x :: l2 = (k1 ++ [c]) ++ d :: k2 ++ x :: l2) by by rewrite <- app_assoc.
    pose proof (sl_after _ _ _ _ H) as Hc. simpl in Hc.
    rewrite E in H. destruct (IH _ _ _ _ fuel _ H) as (k3 & r & -> & E2); [lia|].
    exists (c :: k3), r. split; [done|]. unfold load at 1, mbind at 1, attempt_bind. rewrite Hc.
    rewrite bool_decide_false; [done|]. intros [= ->].
    destruct H as [_ (_ & _ & [Hn _]%NoDup_cons)%NoDup_app]. set_solver.
Qed.

(** The element that is named goes, wherever it is. *)
Lemma slist_remove l1 x l2 q :
  slist (l1 ++ x :: l2) q -> gives (SLIST_REMOVE x) tt (slist (l1 ++ l2)) q.
Proof.
  intros H. destruct l1 as [|c k]; simpl.
  - apply does_bind, (does_load _ _ (Some x)); [by apply (sl_field [] (x :: l2))|].
    rewrite bool_decide_true by done. by apply (slist_remove_head x).
  - apply does_bind, (does_load _ _ (Some c)); [by apply (sl_field [] (c :: k ++ x :: l2))|].
    rewrite bool_decide_false.
    2: { intros [= ->]. destruct H as [_ [Hn _]%NoDup_cons]. set_solver. }
    apply does_bind, (does_the _ _ c); [done|]. apply does_bind, does_peek.
    pose proof H as [Hq Hd]. pose proof (nexts_size _ _ Hd Hq) as Hs. simpl in Hs. rewrite length_app in Hs.
    destruct (slist_before_spec k [] c x l2 (size (nexts q)) q H) as (k3 & r & E & E2); [lia|].
    apply does_bind. exists r, q. split; [done|]. change (c :: k ++ x :: l2) with ((c :: k) ++ x :: l2) in H.
    change (c :: k ++ l2) with ((c :: k) ++ l2). rewrite E in H |- *.
    pose proof (sl_field _ _ _ H) as Ha. rewrite ending_snoc in Ha.
    apply does_bind, (does_load _ _ (Some x)); [done|]. apply does_bind, (does_the _ _ x); [done|].
    apply does_bind, (does_load _ _ (head l2)); [by eapply sl_after|].
    apply does_store_next; [eauto|]. split; [done|]. apply slist_taken in H. by rewrite ending_snoc in H.
Qed.

(** [iperf_add_stream] puts the stream behind the others, and counts them: 1, 2, then on. *)
Lemma add_stream_appends l x q :
  slist l q -> x ∉ l -> cell x q ->
  gives (add_stream_links x) (match l with [] => 1 | _ => 2 + Z.of_nat (length l) end) (slist (l ++ [x])) q.
Proof.
  intros H Hx Hc. apply does_bind. eapply does_mono; [by apply slist_empty|]. intros b ? [-> <-].
  destruct l as [|y l' _] using rev_ind.
  - rewrite bool_decide_true by done. apply does_bind.
    eapply does_mono; [by apply slist_insert_head|]. intros [] q' [_ Hq]. by apply does_ret.
  - rewrite bool_decide_false by by destruct l'. apply does_bind.
    eapply does_mono; [by apply slist_foreach_spec|]. intros v ? [-> <-].
    apply does_bind, (does_the _ _ y); [by rewrite last_snoc|].
    apply does_bind. eapply does_mono; [by apply (slist_insert_after l' y [])|]. intros [] q' [_ Hq].
    apply does_ret. split; [by destruct l'|]. by rewrite <- app_assoc.
Qed.

(** ** Tail queues *)

Record tailq (l : list elem) (q : queue) : Prop := {
  tq_next : nexts_hold l (nexts q);
  tq_prev : prevs_hold l (prevs q);
  tq_last : tqh_last q = ending l;
  tq_distinct : NoDup l }.

Lemma tq_field l1 l2 q : tailq (l1 ++ l2) q -> nexts q !! ending l1 = Some (head l2).
Proof. intros [H _ _ _]. by apply H. Qed.

Lemma tq_after l1 x l2 q : tailq (l1 ++ x :: l2) q -> nexts q !! NextOf x = Some (head l2).
Proof. intros [H _ _ _]. rewrite <- (ending_snoc l1). apply H. by rewrite <- app_assoc. Qed.

Lemma tq_before l1 x l2 q : tailq (l1 ++ x :: l2) q -> prevs q !! x = Some (ending l1).
Proof. intros [_ H _ _]. by apply (H l1 x l2). Qed.

(** What the fields are with [x] between [l1] and [l2], and without it. *)
Definition placed (l1 : list elem) (x : elem) (l2 : list elem) (q : queue) : queue :=
  mk_queue (<[ending l1 := Some x]> (<[NextOf x := head l2]> (nexts q)))
    (<[x := ending l1]> (told (head l2) (NextOf x) (prevs q)))
    (match l2 with [] => NextOf x | _ => tqh_last q end).

Definition taken (l1 l2 : list elem) (q : queue) : queue :=
  mk_queue (<[ending l1 := head l2]> (nexts q)) (told (head l2) (ending l1) (prevs q))
    (match l2 with [] => ending l1 | _ => tqh_last q end).

Lemma tailq_placed l1 x l2 q :
  tailq (l1 ++ l2) q -> x ∉ l1 ++ l2 -> tailq (l1 ++ x :: l2) (placed l1 x l2 q).
Proof.
  intros [Hn Hp Hl Hd] Hx. pose proof (NoDup_place _ _ _ Hd Hx). split; simpl.
  - by apply nexts_insert.
  - by apply prevs_insert.
  - destruct l2 as [|y l2]; [by rewrite ending_snoc|]. rewrite Hl.
    change (l1 ++ x :: y :: l2) with (l1 ++ [x] ++ y :: l2). by rewrite app_assoc, !ending_cons.
  - done.
Qed.

Lemma tailq_taken l1 x l2 q : tailq (l1 ++ x :: l2) q -> tailq (l1 ++ l2) (taken l1 l2 q).
Proof.
  intros [Hn Hp Hl Hd]. split; simpl.
  - by eapply nexts_delete.
  - by eapply prevs_delete.
  - destruct l2 as [|y l2]; [by rewrite app_nil_r|]. rewrite Hl.
    change (l1 ++ x :: y :: l2) with (l1 ++ [x] ++ y :: l2). by rewrite app_assoc, !ending_cons.
  - by apply (NoDup_part l1 l2 x).
Qed.

Lemma does_tell l2 a q (Q : unit -> queue -> Prop) :
  (forall y, head l2 = Some y -> is_Some (prevs q !! y)) ->
  Q tt (mk_queue (nexts q) (told (head l2) a (prevs q)) (match l2 with [] => a | _ => tqh_last q end)) ->
  does (tell_next (head l2) a) Q q.
Proof.
  intros Hp HQ. destruct l2 as [|y l2]; simpl; [by apply does_set_last|]. apply does_store_prev; eauto.
Qed.

(** Elements that are in the queue, or may be put there, have their fields. *)
Lemma tq_has_prev l q y : tailq l q -> y ∈ l -> is_Some (prevs q !! y).
Proof. intros H (l1 & l2 & ->)%list_elem_of_split. rewrite (tq_before _ _ _ _ H). eauto. Qed.

Lemma told_has next a m y : is_Some (m !! y) -> is_Some (told next a m !! y).
Proof. intros H. destruct next as [n|]; simpl; [|done]. rewrite lookup_insert. case_decide; eauto. Qed.

Lemma insert_has {K V} `{Countable K} (m : gmap K V) i j v : is_Some (m !! j) -> is_Some (<[i := v]> m !! j).
Proof. intros Hj. rewrite lookup_insert. case_decide; eauto. Qed.

#[local] Hint Resolve told_has insert_has : core.

(** Both macros that put an element behind a place are these stores. *)
Lemma tailq_put l1 l2 x q (Q : unit -> queue -> Prop) :
  tailq (l1 ++ l2) q -> x ∉ l1 ++ l2 -> pair_cell x q -> Q tt (placed l1 x l2 q) ->
  does (next ← load (ending l1);
        store_next (NextOf x) next;;
        tell_next next (NextOf x);;
        store_next (ending l1) (Some x);;
        store_prev x (ending l1)) Q q.
Proof.
  intros H Hx [Hc Hp] HQ. pose proof (tq_field _ _ _ H) as Ha.
  apply does_bind, (does_load _ _ (head l2)); [done|].
  apply does_bind, does_store_next; [done|].
  apply does_bind, does_tell.
  { intros y Hy. apply (tq_has_prev _ _ _ H). destruct l2; [done|]. injection Hy as <-. set_solver. }
  apply does_bind, does_store_next; [simpl; eauto|]. apply does_store_prev; [simpl; eauto|].
  simpl. unfold placed in HQ. by destruct l2.
Qed.

Lemma tailq_init q : is_Some (nexts q !! AtHead) -> gives TAILQ_INIT tt (tailq []) q.
Proof.
  intros H. apply does_bind, does_store_next; [done|]. apply does_set_last. split; [done|].
  split; simpl; [|intros [|??] ??; discriminate|done|constructor].
  intros l1 l2 E. symmetry in E. apply app_nil in E as [-> ->]. apply lookup_insert_eq.
Qed.

Lemma tailq_insert_head l x q :
  tailq l q -> x ∉ l -> pair_cell x q -> gives (TAILQ_INSERT_HEAD x) tt (tailq (x :: l)) q.
Proof. intros H Hx Hc. apply (tailq_put [] l); [done..|]. split; [done|]. by apply (tailq_placed []). Qed.

Lemma tailq_insert_after l1 y l2 x q :
  tailq (l1 ++ y :: l2) q -> x ∉ l1 ++ y :: l2 -> pair_cell x q ->
  gives (TAILQ_INSERT_AFTER y x) tt (tailq (l1 ++ y :: x :: l2)) q.
Proof.
  intros H Hx Hc. unfold TAILQ_INSERT_AFTER. rewrite <- (ending_snoc l1 y).
  assert (E : forall l, l1 ++ y :: l = (l1 ++ [y]) ++ l) by (intros l; by rewrite <- app_assoc).
  rewrite E in H, Hx. rewrite (E (x :: l2)). apply (tailq_put (l1 ++ [y]) l2); [done..|].
  split; [done|]. by apply tailq_placed.
Qed.

Lemma tailq_insert_tail l x q :
  tailq l q -> x ∉ l -> pair_cell x q -> gives (TAILQ_INSERT_TAIL x) tt (tailq (l ++ [x])) q.
Proof.
  intros H Hx [Hc Hp]. rewrite <- (app_nil_r l) in H, Hx. pose proof (tq_field _ _ _ H) as Ha.
  pose proof (tq_last _ _ H) as Hl. rewrite app_nil_r in Hl.
  apply does_bind, does_store_next; [done|]. apply does_bind, does_peek. simpl. rewrite Hl.
  apply does_bind, does_store_prev; [simpl; eauto|]. apply does_bind, does_peek. simpl. rewrite Hl.
  apply does_bind, does_store_next; [simpl; eauto|]. apply does_set_last.
  split; [done|]. by apply (tailq_placed l x []).
Qed.

Lemma tailq_insert_before l1 y l2 x q :
  tailq (l1 ++ y :: l2) q -> x ∉ l1 ++ y :: l2 -> pair_cell x q ->
  gives (TAILQ_INSERT_BEFORE y x) tt (tailq (l1 ++ x :: y :: l2)) q.
Proof.
  intros H Hx [Hc Hp]. pose proof (tq_field _ _ _ H) as Ha. pose proof (tq_before _ _ _ _ H) as Hb.
  assert (Hne : x <> y) by set_solver.
  apply does_bind, (does_load_prev _ _ (ending l1)); [done|].
  apply does_bind, does_store_prev; [done|]. apply does_bind, does_store_next; [done|].
  apply does_bind, (does_load_prev _ _ (ending l1)); [simpl; by rewrite lookup_insert_ne|].
  apply does_bind, does_store_next; [simpl; eauto|]. apply does_store_prev; [simpl; eauto|].
  split; [done|]. pose proof (tailq_placed l1 x (y :: l2) q H Hx) as Hq. unfold placed in Hq. simpl in *.
  by rewrite (insert_insert_ne (prevs q)) in Hq.
Qed.

(** The element that is named goes; the place before it is known without a search. *)
Lemma tailq_remove l1 x l2 q :
  tailq (l1 ++ x :: l2) q -> gives (TAILQ_REMOVE x) tt (tailq (l1 ++ l2)) q.
Proof.
  intros H. pose proof (tq_after _ _ _ _ H) as Ha. pose proof (tq_before _ _ _ _ H) as Hb.
  pose proof (tq_field _ _ _ H) as Hf. pose proof (tq_distinct _ _ H) as [Hx _]%NoDup_part.
  apply does_bind, (does_load _ _ (head l2)); [done|].
  apply does_bind, (does_load_prev _ _ (ending l1)); [done|].
  apply does_bind, does_tell.
  { intros y Hy. apply (tq_has_prev _ _ _ H). destruct l2; [done|]. injection Hy as <-. set_solver. }
  apply does_bind, (does_load_prev _ _ (ending l1)).
  { simpl. rewrite told_ne; [done|]. intros Hh. destruct l2; [done|]. injection Hh as ->. set_solver. }
  apply does_bind, (does_load _ _ (head l2)); [done|].
  apply does_store_next; [simpl; eauto|]. split; [done|]. by apply tailq_taken in H.
Qed.

Lemma tailq_replace l1 x l2 y q :
  tailq (l1 ++ x :: l2) q -> y ∉ l1 ++ x :: l2 -> pair_cell y q ->
  gives (TAILQ_REPLACE x y) tt (tailq (l1 ++ y :: l2)) q.
Proof.
  intros H Hy [Hc Hp]. pose proof (tq_after _ _ _ _ H) as Ha. pose proof (tq_before _ _ _ _ H) as Hb.
  pose proof (tq_field _ _ _ H) as Hf. pose proof (tq_distinct _ _ H) as [Hx _]%NoDup_part.
  apply does_bind, (does_load _ _ (head l2)); [done|].
  apply does_bind, does_store_next; [done|]. apply does_bind, does_tell.
  { intros z Hz. apply (tq_has_prev _ _ _ H). destruct l2; [done|]. injection Hz as <-. set_solver. }
  apply does_bind, (does_load_prev _ _ (ending l1)).
  { simpl. rewrite told_ne; [done|]. intros Hh. destruct l2; [done|]. injection Hh as ->. set_solver. }
  apply does_bind, does_store_prev; [simpl; eauto|]. apply does_store_next; [simpl; eauto|].
  split; [done|]. simpl. apply tailq_taken in H. apply (tailq_placed l1 y) in H; [|set_solver].
  unfold placed, taken in H. simpl in H.
  assert (ending l1 <> NextOf y) as Hne by (intros Hi%ending_in; set_solver).
  rewrite (insert_insert_ne (nexts q)) in H by by apply not_eq_sym.
  rewrite insert_insert_eq in H. by destruct l2; simpl in *; rewrite ?insert_insert_eq in H.
Qed.

(** Both ends, and the element before: the heads and the elements are laid out alike. *)
Lemma second_field_spec l1 l2 q :
  tailq (l1 ++ l2) q -> gives (a ← second_field (ending l1); load a)
    (match l1 with [] => None | _ => last l1 end) (eq q) q.
Proof.
  intros H. destruct l1 as [|y k _] using rev_ind.
  - apply does_bind, does_peek. rewrite (tq_last _ _ H).
    rewrite <- (app_nil_r ([] ++ l2)) in H. by apply (does_load _ _ None); [apply (tq_field _ _ _ H)|].
  - rewrite ending_snoc. rewrite <- app_assoc in H.
    apply does_bind, (does_load_prev _ _ (ending k)); [by apply (tq_before _ _ _ _ H)|].
    apply (does_load _ _ (Some y)); [by apply (tq_field _ _ _ H)|].
    rewrite last_snoc. by destruct k.
Qed.

Lemma tailq_last_spec l q : tailq l q -> gives TAILQ_LAST (last l) (eq q) q.
Proof.
  intros H. apply does_bind, does_peek. rewrite (tq_last _ _ H).
  rewrite <- (app_nil_r l) in H. pose proof (second_field_spec _ _ _ H) as Hs. by destruct l.
Qed.

Lemma tailq_prev_spec l1 x l2 q : tailq (l1 ++ x :: l2) q -> gives (TAILQ_PREV x) (last l1) (eq q) q.
Proof.
  intros H. apply does_bind, (does_load_prev _ _ (ending l1)); [by apply (tq_before _ _ _ _ H)|].
  pose proof (second_field_spec _ _ _ H) as Hs. by destruct l1.
Qed.

Lemma tailq_next_spec l1 x l2 q : tailq (l1 ++ x :: l2) q -> gives (TAILQ_NEXT x) (head l2) (eq q) q.
Proof. intros H. by apply (does_load _ _ (head l2)); [apply (tq_after _ _ _ _ H)|]. Qed.

Lemma tailq_empty l q : tailq l q -> gives TAILQ_EMPTY (bool_decide (l = [])) (eq q) q.
Proof. intros [Hn _ _ Hd]. by apply slist_empty. Qed.

Lemma tailq_foreach_spec l q : tailq l q -> gives TAILQ_FOREACH l (eq q) q.
Proof. intros [Hn _ _ Hd]. by apply slist_foreach_spec. Qed.

(** ** In the program *)

Lemma keeps_cell e (m : macro unit) q q' : keeps m -> m q = Some (Some (tt, q')) -> cell e q -> cell e q'.
Proof.
  intros Hk E Hc. apply Hk in E. unfold cell, cells in *. rewrite <- elem_of_dom in Hc |- *.
  injection E as -> _. done.
Qed.

(** One macro after another: what is allocated still is. *)
Lemma gives_bind {B} (m : macro unit) (k : macro B) P (Q : B -> queue -> Prop) q :
  gives m tt P q -> keeps m ->
  (forall q', P q' -> (forall e, cell e q -> cell e q') -> does k Q q') -> does (m;; k) Q q.
Proof.
  intros (? & q' & E & -> & HP) Hk H. apply does_bind. exists tt, q'. split; [done|].
  apply H; [done|]. intros e. by apply (keeps_cell e m).
Qed.

(** The protocols of a test are TCP, UDP, and SCTP where it is built in, in this order. *)
Lemma protocols_linked tcp udp sctp q :
  is_Some (nexts q !! AtHead) -> NoDup (tcp :: udp :: option_list sctp) ->
  Forall (fun e => cell e q) (tcp :: udp :: option_list sctp) ->
  gives (protocol_links tcp udp sctp) tt (slist (tcp :: udp :: option_list sctp)) q.
Proof.
  intros Hh Hd Hc. apply Forall_cons in Hc as [Ht [Hu Hs]%Forall_cons].
  apply NoDup_cons in Hd as [Hd1 [Hd2 _]%NoDup_cons].
  apply gives_bind with (slist []); [by apply slist_init|keep|]. intros q1 H1 K1.
  apply gives_bind with (slist [tcp]); [apply slist_insert_head; [done|set_solver|auto]|keep|]. intros q2 H2 K2.
  apply gives_bind with (slist [tcp; udp]);
    [apply (slist_insert_after [] tcp []); [done|set_solver|auto]|keep|]. intros q3 H3 K3.
  destruct sctp as [s|]; simpl in *; [|by apply does_ret]. apply Forall_cons in Hs as [Hs _].
  apply (slist_insert_after [tcp] udp []); [done|set_solver|auto].
Qed.

(** The loop that frees a list takes out every element once, and comes to its end. *)
Lemma slist_drain_spec l : forall fuel q, slist l q -> (length l <= fuel)%nat ->
  gives (slist_drain fuel) l (slist []) q.
Proof.
  induction l as [|x l IH]; intros fuel q H Hf; destruct fuel as [|fuel]; simpl in Hf |- *; try lia;
    apply does_bind; (eapply does_mono; [by apply slist_empty|]); intros b ? [-> <-];
    try (rewrite bool_decide_true by done; by apply does_ret).
  rewrite bool_decide_false by done.
  apply does_bind, (does_load _ _ (Some x)); [by apply (sl_field [] (x :: l))|].
  apply does_bind, (does_the _ _ x); [done|].
  apply does_bind. eapply does_mono; [by apply (slist_remove_head x l)|]. intros [] q' [_ Hq].
  apply does_bind. eapply does_mono; [apply IH; [done|lia]|]. intros v q2 [-> H2]. by apply does_ret.
Qed.

Lemma free_streams_taken l q : slist l q -> gives free_stream_links l (slist []) q.
Proof.
  intros H. apply does_bind, does_peek. apply slist_drain_spec; [done|].
  destruct H as [H Hd]. pose proof (nexts_size _ _ Hd H). simpl. lia.
Qed.

(** Three streams, and the second one gone; a tail queue from both ends. *)
Definition ex_queue : queue :=
  mk_queue (list_to_map (map (fun a => (a, None)) [AtHead; NextOf 1; NextOf 2; NextOf 3])%positive)
    (list_to_map (map (fun e => (e, AtHead)) [1; 2; 3]))%positive AtHead.

Example ex_streams :
  option_map (option_map fst)
    ((SLIST_INIT;;
      i ← add_stream_links 1; j ← add_stream_links 2; k ← add_stream_links 3;
      SLIST_REMOVE 2;; l ← SLIST_FOREACH; mret ([i; j; k], l)) ex_queue)
  = Some (Some ([1; 3; 4], [1; 3]%positive)).
Proof. reflexivity. Qed.

Example ex_tail :
  option_map (option_map fst)
    ((TAILQ_INIT;;
      TAILQ_INSERT_TAIL 1;; TAILQ_INSERT_HEAD 2;; TAILQ_INSERT_AFTER 2 3;; TAILQ_REMOVE 1;;
      last ← TAILQ_LAST; prev ← TAILQ_PREV 3; l ← TAILQ_FOREACH; mret (last, prev, l)) ex_queue)
  = Some (Some (Some 3, Some 2, [2; 3]))%positive.
Proof. reflexivity. Qed.
