(* ===== verification/Units.v ===== *)
(** * units.c: numbers with unit suffixes

    Reading "<number><suffix>" with binary and decimal multiples, and printing a
    number of bytes as bytes or bits in at most four places. *)

From Stdlib Require Import Floats.SpecFloat.
From S2P Require Import Prelude Double CJson CString CStringProps.

#[local] Open Scope Z_scope.
#[local] Open Scope char_scope.

(** ** The constants *)

Definition KILO_UNIT : double := d_of_Z 1024.
Definition MEGA_UNIT : double := d_mul (d_of_Z 1024) (d_of_Z 1024).
Definition GIGA_UNIT : double := d_mul (d_mul (d_of_Z 1024) (d_of_Z 1024)) (d_of_Z 1024).
Definition TERA_UNIT : double :=
  d_mul (d_mul (d_mul (d_of_Z 1024) (d_of_Z 1024)) (d_of_Z 1024)) (d_of_Z 1024).

Definition KILO_RATE_UNIT : double := d_of_Z 1000.
Definition MEGA_RATE_UNIT : double := d_mul (d_of_Z 1000) (d_of_Z 1000).
Definition GIGA_RATE_UNIT : double := d_mul (d_mul (d_of_Z 1000) (d_of_Z 1000)) (d_of_Z 1000).
Definition TERA_RATE_UNIT : double :=
  d_mul (d_mul (d_mul (d_of_Z 1000) (d_of_Z 1000)) (d_of_Z 1000)) (d_of_Z 1000).

(** ** Reading

    [None] is the use of [n] when [sscanf] has not assigned it, and the conversion
    of a number that does not fit in [unit_atoi]. *)

Definition unit_atof (s : string) : option double :=
  '(n, suffix) ← sscanf_lf_c s;
  Some (if decide (suffix = "t" \/ suffix = "T") then d_mul n TERA_UNIT
        else if decide (suffix = "g" \/ suffix = "G") then d_mul n GIGA_UNIT
        else if decide (suffix = "m" \/ suffix = "M") then d_mul n MEGA_UNIT
        else if decide (suffix = "k" \/ suffix = "K") then d_mul n KILO_UNIT
        else n).

Definition unit_atof_rate (s : string) : option double :=
  '(n, suffix) ← sscanf_lf_c s;
  Some (if decide (suffix = "t" \/ suffix = "T") then d_mul n TERA_RATE_UNIT
        else if decide (suffix = "g" \/ suffix = "G") then d_mul n GIGA_RATE_UNIT
        else if decide (suffix = "m" \/ suffix = "M") then d_mul n MEGA_RATE_UNIT
        else if decide (suffix = "k" \/ suffix = "K") then d_mul n KILO_RATE_UNIT
        else n).

Definition unit_atoi (s : string) : option Z :=
  '(n, suffix) ← sscanf_lf_c s;
  d_to_u64
    (if decide (suffix = "t" \/ suffix = "T") then d_mul n TERA_UNIT
     else if decide (suffix = "g" \/ suffix = "G") then d_mul n GIGA_UNIT
     else if decide (suffix = "m" \/ suffix = "M") then d_mul n MEGA_UNIT
     else if decide (suffix = "k" \/ suffix = "K") then d_mul n KILO_UNIT
     else n).

(** ** Printing *)

Definition UNIT_CONV : nat := 0.
Definition KILO_CONV : nat := 1.
Definition MEGA_CONV : nat := 2.
Definition GIGA_CONV : nat := 3.
Definition TERA_CONV : nat := 4.

(** 1, then quotients by the base. *)
Definition conversions (base : double) : list double :=
  let k := d_div (d_of_Z 1) base in
  let m := d_div k base in
  let g := d_div m base in
  [d_of_Z 1; k; m; g; d_div g base].

Definition conversion_bytes : list double := conversions (d_of_Z 1024).
Definition conversion_bits : list double := conversions (d_of_Z 1000).

Definition label_byte : list string := ["Byte"; "KByte"; "MByte"; "GByte"; "TByte"]%string.
Definition label_bit : list string := ["bit"; "Kbit"; "Mbit"; "Gbit"; "Tbit"]%string.

(** The loop of the adaptive formats: it stops at [TERA_CONV], so four rounds are
    all it can take. *)
Fixpoint adapt (rounds : nat) (base tmpNum : double) (conv : nat) : nat :=
  match rounds with
  | O => conv
  | S rounds =>
      if d_le base tmpNum && (conv <? TERA_CONV)%nat
      then adapt rounds base (d_div tmpNum base) (S conv) else conv
  end.

Definition choose_conv (inNum : double) (inFormat : ascii) : nat :=
  let f := toupper inFormat in
  if decide (f = "B") then UNIT_CONV
  else if decide (f = "K") then KILO_CONV
  else if decide (f = "M") then MEGA_CONV
  else if decide (f = "G") then GIGA_CONV
  else if decide (f = "T") then TERA_CONV
  else if isupper inFormat then adapt 5 (d_of_Z 1024) inNum UNIT_CONV
  else adapt 5 (d_of_Z 1000) inNum UNIT_CONV.

(** How many decimals are printed. *)
Definition decimals (inNum : double) : Z :=
  if d_lt inNum (d_of_decimal false 9995 (-3)) then 2
  else if d_lt inNum (d_of_decimal false 9995 (-2)) then 1
  else 0.

(** "%4.<k>f %s" *)
Definition unit_text (inNum : double) (suffix : string) : string :=
  (pad_left " " 4 (print_fixed (decimals inNum) inNum) ++ " " ++ suffix)%string.

(** What [s] holds: [snprintf] keeps [inLen - 1] characters. *)
Definition unit_snprintf (inLen : Z) (inNum : double) (inFormat : ascii) : string :=
  let inNum := if isupper inFormat then inNum else d_mul inNum (d_of_Z 8) in
  let conv := choose_conv inNum inFormat in
  let '(factor, suffix) :=
    if isupper inFormat
    then (default d_zero (conversion_bytes !! conv), default EmptyString (label_byte !! conv))
    else (default d_zero (conversion_bits !! conv), default EmptyString (label_bit !! conv)) in
  String.substring 0 (Z.to_nat (inLen - 1)) (unit_text (d_mul inNum factor) suffix).

(** ** The unit tests of t_units.c *)

Definition t_units_d (n : Z) (k : nat) : double := d_of_Z (n * 1024 ^ Z.of_nat k).

Example t_units_atof :
  unit_atof <$> ["0.5K"; "1K"; "1M"; "4G"; "3T"; "0.5k"; "1k"; "1m"; "4g"; "3t"]%string
  = Some <$> [t_units_d 512 0; t_units_d 1 1; t_units_d 1 2; t_units_d 4 3; t_units_d 3 4;
              t_units_d 512 0; t_units_d 1 1; t_units_d 1 2; t_units_d 4 3; t_units_d 3 4].
Proof. vm_compute. reflexivity. Qed.

Example t_units_atoi :
  unit_atoi <$> ["0.5K"; "1K"; "1M"; "4G"; "3T"; "0.5k"; "1k"; "1m"; "4g"; "3t"]%string
  = Some <$> [512; 1024; 1024 ^ 2; 4 * 1024 ^ 3; 3 * 1024 ^ 4;
              512; 1024; 1024 ^ 2; 4 * 1024 ^ 3; 3 * 1024 ^ 4].
Proof. vm_compute. reflexivity. Qed.

Example t_units_snprintf :
  [unit_snprintf 11 (d_of_Z 1024) "A"; unit_snprintf 11 (d_of_Z (1024 * 1024)) "A";
   unit_snprintf 11 (d_of_Z 1000) "k"; unit_snprintf 11 (d_of_Z 1000000) "a";
   unit_snprintf 11 (t_units_d 4 3) "A"; unit_snprintf 11 (t_units_d 4 3) "a";
   unit_snprintf 11 (t_units_d 4 4) "A"; unit_snprintf 11 (t_units_d 4 4) "a";
   unit_snprintf 11 (t_units_d 4 5) "A"; unit_snprintf 11 (t_units_d 4 5) "a"]
  = ["1.00 KByte"; "1.00 MByte"; "8.00 Kbit"; "8.00 Mbit"; "4.00 GByte"; "34.4 Gbit";
     "4.00 TByte"; "35.2 Tbit"; "4096 TByte"; "36029 Tbit"]%string.
Proof. vm_compute. reflexivity. Qed.

(** * What the numbers are *)

#[local] Open Scope Z_scope.
(** The suffixes, and the power of 1024 or of 1000 they stand for. *)
Definition suffixes : list (string * Z) :=
  [(""%string, 0); ("k", 1); ("K", 1); ("m", 2); ("M", 2); ("g", 3); ("G", 3); ("t", 4); ("T", 4)]%string.

Lemma units_exact :
  KILO_UNIT = d_of_Z (1024 ^ 1) /\ MEGA_UNIT = d_of_Z (1024 ^ 2) /\
  GIGA_UNIT = d_of_Z (1024 ^ 3) /\ TERA_UNIT = d_of_Z (1024 ^ 4).
Proof. vm_compute. done. Qed.

Lemma rate_units_exact :
  KILO_RATE_UNIT = d_of_Z (1000 ^ 1) /\ MEGA_RATE_UNIT = d_of_Z (1000 ^ 2) /\
  GIGA_RATE_UNIT = d_of_Z (1000 ^ 3) /\ TERA_RATE_UNIT = d_of_Z (1000 ^ 4).
Proof. vm_compute. done. Qed.

Lemma scale_exact n u :
  0 <= n -> 0 < u < 2 ^ prec -> n * u < 2 ^ prec -> d_mul (d_of_Z n) (d_of_Z u) = d_of_Z (n * u).
Proof.
  intros Hn Hu Hnu. destruct (Z.eq_dec n 0) as [->|].
  - destruct (d_of_Z_pos u Hu) as (m & k & _ & _ & _ & ->). done.
  - apply d_mul_exact; [|done..]. split; [lia|]. nia.
Qed.

(** The switch on the suffix. *)
Definition suffix_chars : list (ascii * Z) :=
  [(Ascii.zero, 0); ("k", 1); ("K", 1); ("m", 2); ("M", 2); ("g", 3); ("G", 3);
   ("t", 4); ("T", 4)]%char.

Lemma switch_suffix {A} (c : ascii) i (t g m k n : A) (f : Z -> A) :
  (c, i) ∈ suffix_chars -> f 0 = n -> f 1 = k -> f 2 = m -> f 3 = g -> f 4 = t ->
  (if decide (c = "t"%char \/ c = "T"%char) then t
   else if decide (c = "g"%char \/ c = "G"%char) then g
   else if decide (c = "m"%char \/ c = "M"%char) then m
   else if decide (c = "k"%char \/ c = "K"%char) then k
   else n) = f i.
Proof.
  unfold suffix_chars. rewrite !elem_of_cons, elem_of_nil. intros Hci <- <- <- <- <-.
  destruct_or!; simplify_eq; done.
Qed.

(** One number with one suffix, read by the three functions. *)
Lemma read_suffix n suffix i :
  (suffix, i) ∈ suffixes -> 0 <= n ->
  exists c, sscanf_lf_c (print_nat n ++ suffix)%string = Some (d_of_Z n, c) /\
    (c, i) ∈ suffix_chars.
Proof.
  intros Hs Hn. unfold sscanf_lf_c.
  assert (ends_number suffix) as He.
  { revert Hs. apply Forall_forall with (P := fun p => ends_number (fst p)). by repeat constructor. }
  rewrite scan_float_print_nat by done. cbn [mbind option_bind].
  eexists. split; [done|]. revert Hs. unfold suffixes. rewrite !elem_of_cons.
  intros Hs. destruct_or!; simplify_eq; tauto || set_solver.
Qed.

Lemma suffix_exponent c i : (c, i) ∈ suffix_chars -> 0 <= i <= 4.
Proof.
  unfold suffix_chars. rewrite !elem_of_cons, elem_of_nil. intros.
  destruct_or!; simplify_eq; lia.
Qed.

Lemma power_bound b i : 1 < b <= 1024 -> 0 <= i <= 4 -> 0 < b ^ i <= 1024 ^ i /\ b ^ i < 2 ^ prec.
Proof.
  intros Hb Hi. pose proof (Z.pow_pos_nonneg b i ltac:(lia) ltac:(lia)).
  pose proof (Z.pow_le_mono_l b 1024 i ltac:(lia)).
  pose proof (Z.pow_le_mono_r 1024 i 4 ltac:(lia) ltac:(lia)).
  assert (1024 ^ 4 < 2 ^ prec) by done. lia.
Qed.

(** The switch of a reader whose units are the powers of [b]. *)
Lemma switch_scale (b n i : Z) (c : ascii) (t g m k : double) :
  1 < b <= 1024 -> (c, i) ∈ suffix_chars -> 0 <= n -> n * b ^ i < 2 ^ prec ->
  k = d_of_Z (b ^ 1) -> m = d_of_Z (b ^ 2) -> g = d_of_Z (b ^ 3) -> t = d_of_Z (b ^ 4) ->
  (if decide (c = "t"%char \/ c = "T"%char) then d_mul (d_of_Z n) t
   else if decide (c = "g"%char \/ c = "G"%char) then d_mul (d_of_Z n) g
   else if decide (c = "m"%char \/ c = "M"%char) then d_mul (d_of_Z n) m
   else if decide (c = "k"%char \/ c = "K"%char) then d_mul (d_of_Z n) k
   else d_of_Z n) = d_of_Z (n * b ^ i).
Proof.
  intros Hb Hci Hn Hlt -> -> -> ->. pose proof (suffix_exponent c i Hci) as Hi.
  destruct (power_bound b i Hb Hi) as [Hp Hp'].
  rewrite <- (scale_exact n (b ^ i)) by lia.
  apply (switch_suffix c i _ _ _ _ _ (fun i => d_mul (d_of_Z n) (d_of_Z (b ^ i)))); [done| |done..].
  rewrite (scale_exact n (b ^ 0)); [f_equal; lia|done|lia|]. rewrite Z.pow_0_r. nia.
Qed.

(** C36: a decimal numeral with one of the suffixes k, m, g, t, in either case, or none,
    is read as that many times the power of 1024 by [unit_atoi] and [unit_atof], and of
    1000 by [unit_atof_rate], exactly, as long as the product is below 2^53. *)
Theorem units_scale n suffix i :
  (suffix, i) ∈ suffixes -> 0 <= n -> n * 1024 ^ i < 2 ^ 53 ->
  let s := (print_nat n ++ suffix)%string in
  unit_atoi s = Some (n * 1024 ^ i) /\ unit_atof s = Some (d_of_Z (n * 1024 ^ i)) /\
  unit_atof_rate s = Some (d_of_Z (n * 1000 ^ i)).
Proof.
  intros Hs Hn Hlt s. subst s. destruct units_exact as (EK & EM & EG & ET).
  destruct rate_units_exact as (RK & RM & RG & RT).
  destruct (read_suffix n suffix i Hs Hn) as (c & Hc & Hci).
  pose proof (suffix_exponent c i Hci) as Hi.
  destruct (power_bound 1000 i ltac:(lia) Hi) as [H1000 _].
  unfold unit_atoi, unit_atof, unit_atof_rate. rewrite Hc. cbn [mbind option_bind].
  rewrite (switch_scale 1024 n i) by (done || lia).
  rewrite (switch_scale 1000 n i) by (done || (change prec with 53; nia)).
  split; [|done]. unfold d_to_u64. rewrite d_trunc_of_Z.
  - cbn [mbind option_bind]. rewrite (proj2 (Z.leb_le _ _)), (proj2 (Z.ltb_lt _ _)); [done|lia|nia].
  - change prec with 53. rewrite Z.abs_eq; [done|]. nia.
Qed.

Lemma units_scale_witness :
  unit_atoi "10M" = Some 10485760 /\ unit_atof_rate "10M" = Some (d_of_Z 10000000).
Proof.
  destruct (units_scale 10 "M" 2) as (H1 & _ & H3); [|lia|lia|split; [exact H1|exact H3]].
  apply (bool_decide_unpack _). vm_compute. exact I.
Defined.
