(* ===== verification/Dscp.v ===== *)
(** * dscp.c: names of the values of the type-of-service byte *)

From S2P Require Import Prelude CJson CString.

#[local] Open Scope Z_scope.

Definition IPTOS_LOWDELAY : Z := 0x10.
Definition IPTOS_THROUGHPUT : Z := 0x08.
Definition IPTOS_RELIABILITY : Z := 0x04.

Definition ipqos : list (string * Z) :=
  [("af11", 0x28); ("af12", 0x30); ("af13", 0x38);
   ("af21", 0x48); ("af22", 0x50); ("af23", 0x58);
   ("af31", 0x68); ("af32", 0x70); ("af33", 0x78);
   ("af41", 0x88); ("af42", 0x90); ("af43", 0x98);
   ("cs0", 0x00); ("cs1", 0x20); ("cs2", 0x40); ("cs3", 0x60);
   ("cs4", 0x80); ("cs5", 0xa0); ("cs6", 0xc0); ("cs7", 0xe0);
   ("ef", 0xb8); ("lowdelay", IPTOS_LOWDELAY); ("throughput", IPTOS_THROUGHPUT);
   ("reliability", IPTOS_RELIABILITY)]%string.

Definition parse_qos (cp : option string) : Z :=
  match cp with
  | None => -1
  | Some cp =>
      match list_find (fun e => strcasecmp_0 cp (fst e) = true) ipqos with
      | Some (_, (_, value)) => value
      | None =>
          let '(val, ep) := strtol 0 cp in
          if strcmp_0 cp EmptyString || negb (strcmp_0 ep EmptyString)
             || (val <? 0) || (255 <? val)
          then -1 else val
      end
  end.

(** "0x%02x" of a byte, in the four characters that fit. *)
Definition print_0x02x (n : Z) : string := ("0x" ++ print_02x n)%string.

Definition iptos2str (iptos : Z) : string :=
  let iptos := if (iptos <? 0) || (64 <? iptos) then 0 else iptos in
  match list_find (fun e => snd e = iptos) ipqos with
  | Some (_, (name, _)) => name
  | None => print_0x02x iptos
  end.

(** A value from 0 to 64 is read back from what is printed for it; every other
    value is printed as the name of 0. *)
Definition qos_values : list Z := Z.of_nat <$> seq 0 256.

Lemma qos_values_spec v : 0 <= v <= 255 -> v ∈ qos_values.
Proof.
  intros Hv. apply list_elem_of_fmap. exists (Z.to_nat v). split; [lia|].
  apply elem_of_seq. lia.
Qed.

(** Reading what is printed for a value of the type-of-service byte gives the
    value back exactly when it is at most 64; each larger one, "af31" or "ef" among
    them, is printed as "cs0" and reads as 0. *)
Theorem qos_roundtrip v :
  0 <= v <= 255 ->
  parse_qos (Some (iptos2str v)) = if v <=? 64 then v else 0.
Proof.
  intros Hv. apply qos_values_spec in Hv. revert v Hv. apply Forall_forall.
  apply (bool_decide_unpack _). vm_compute. exact I.
Qed.

Lemma qos_roundtrip_witness :
  parse_qos (Some (iptos2str 40)) = 40 /\ parse_qos (Some (iptos2str 104)) = 0.
Proof. split; [apply (qos_roundtrip 40)|apply (qos_roundtrip 104)]; lia. Defined.
