(* ===== verification/Auth.v ===== *)
(** * iperf_auth.c: credentials

    The token in which a client sends its credentials, and the file of users a
    server admits.  OpenSSL, the clock and the file system are the operations of
    [Crypto]; the lines of the users file, the text of the token and every check
    are the program's. A definition whose answer is an option in addition to its
    C result is [None] where the program is undefined or aborts. *)

From S2P Require Import Prelude CJson CString.

#[local] Open Scope Z_scope.

(** ** OpenSSL and the system *)

Class Crypto (W : Type) := {
  (** the digest, 32 bytes *)
  cr_sha256 : string -> list Z;
  (** RSA with PKCS #1 padding, which is random; [None] is an error *)
  cr_public_encrypt : string -> string -> W -> option (list Z);
  cr_private_decrypt : string -> list Z -> option string;
  (** writing through a base64 filter; reading: the result of [BIO_read], and
      the bytes it stored *)
  cr_b64_write : list Z -> string;
  cr_b64_read : string -> Z * list Z;
  (** keys in PEM format *)
  cr_pem_pubkey : string -> option string;
  cr_pem_privkey : string -> option string;
  (** [mktime(localtime(time(NULL)))], and the contents of a file *)
  cr_utc : W -> Z;
  cr_file : string -> W -> option string }.

(** ** The lines of the users file *)

(** [fgets] into [n + 1] bytes: the line with its newline, and the rest. *)
Fixpoint fgets (n : nat) (s : string) : string * string :=
  match n, s with
  | S n, String c s' =>
      if decide (c = "010"%char) then (String c EmptyString, s')
      else let '(line, rest) := fgets n s' in (String c line, rest)
  | _, _ => (EmptyString, s)
  end.

(** The loop that cuts a line at its newline or carriage return. *)
Fixpoint strip_eol (buf : string) : string :=
  match buf with
  | String c buf' =>
      if decide (c = "010"%char \/ c = "013"%char) then EmptyString
      else String c (strip_eol buf')
  | EmptyString => EmptyString
  end.

(** [strtok]: the next token between separators, and what follows its separator;
    [None] for a null pointer. *)
Fixpoint skip_char (d : ascii) (s : string) : string :=
  match s with
  | String c s' => if decide (c = d) then skip_char d s' else s
  | EmptyString => EmptyString
  end.

Definition strtok (d : ascii) (s : string) : option (string * string) :=
  let t := skip_char d s in
  if strcmp_0 t EmptyString then None
  else Some (match strchr t d with Some r => r | None => (t, EmptyString) end).

Definition skipped_line (buf : string) : bool :=
  strcmp_0 buf EmptyString ||
  match strchr buf "," with None => true | Some _ => false end ||
  match buf with String c _ => bool_decide (c = "#"%char) | EmptyString => false end.

(** What the loop does with one line: [Some true] returns 0, [Some false] goes on,
    [None] hands a null pointer to [strcmp]. *)
Definition check_line (username passwordHash buf : string) : option bool :=
  if skipped_line buf then Some false
  else
    '(s_username, rest) ← strtok "," buf;
    if strcmp_0 username s_username then
      '(s_password, _) ← strtok "," rest;
      Some (strcmp_0 passwordHash s_password)
    else Some false.

(** The loop over the lines; a line takes at least a character of the file. *)
Fixpoint check_lines (fuel : nat) (username passwordHash file : string) : option Z :=
  match fuel, file with
  | S fuel, String _ _ =>
      let '(line, rest) := fgets 1023 file in
      found ← check_line username passwordHash (strip_eol (until_nul line));
      if (found : bool) then Some 0 else check_lines fuel username passwordHash rest
  | _, _ => Some 3
  end.

Definition auth_text_format : string := "user: %s
pwd:  %s
ts:   %ld".

Section Auth.
Context {W : Type} {crypto : Crypto W}.

Definition sha256 (s : string) : string :=
  foldr (fun b t => (print_02x b ++ t)%string) EmptyString (cr_sha256 s).

(** The difference of two times is undefined where it does not fit. *)
Definition check_authentication (username password : string) (ts : Z) (filename : string)
    (skew_threshold : Z) (w : W) : option Z :=
  let skew := cr_utc w - ts in
  if negb ((- 2 ^ 63 <=? skew) && (skew <? 2 ^ 63)) then None
  else if (skew_threshold <? skew) || (skew <? - skew_threshold) then Some 1
  else
    let passwordHash := sha256 ("{" ++ username ++ "}" ++ password) in
    match cr_file filename w with
    | None => Some 2
    | Some file => check_lines (String.length file) username passwordHash file
    end.

(** ** Base64 *)

Definition Base64Encode (buffer : list Z) : string := cr_b64_write buffer.

(** The access [b64input[i]]; outside the string it is undefined. *)
Definition char_at (s : string) (i : Z) : option ascii :=
  if i <? 0 then None else String.get (Z.to_nat i) s.

Definition calcDecodeLength (b64input : string) : option Z :=
  let len := strlen b64input in
  a ← char_at b64input (len - 1);
  if decide (a = "="%char) then
    b ← char_at b64input (len - 2);
    Some (len * 3 / 4 - (if decide (b = "="%char) then 2 else 1))
  else Some (len * 3 / 4).

(** The terminating zero is written at [decodeLen]; the assertion aborts the program. *)
Definition Base64Decode (b64message : string) : option (list Z) :=
  decodeLen ← calcDecodeLength b64message;
  let '(length, buffer) := cr_b64_read b64message in
  if (0 <=? decodeLen) && (length =? decodeLen) then Some buffer else None.

(** ** Keys *)

Definition load_pubkey_from_file (file : option string) (w : W) : option string :=
  file ← file; text ← cr_file file w; cr_pem_pubkey text.
Definition load_privkey_from_file (file : option string) (w : W) : option string :=
  file ← file; text ← cr_file file w; cr_pem_privkey text.

(** [None] when decoding aborts, [Some None] for a null pointer. *)
Definition load_pubkey_from_base64 (buffer : string) : option (option string) :=
  key ← Base64Decode buffer; Some (cr_pem_pubkey (bytes_string key)).
Definition load_privkey_from_base64 (buffer : string) : option (option string) :=
  key ← Base64Decode buffer; Some (cr_pem_privkey (bytes_string key)).

Definition test_load_pubkey_from_file (file : option string) (w : W) : Z :=
  match load_pubkey_from_file file w with None => -1 | Some _ => 0 end.
Definition test_load_private_key_from_file (file : option string) (w : W) : Z :=
  match load_privkey_from_file file w with None => -1 | Some _ => 0 end.

(** ** The token *)

(** The text of [auth_text_format] with its three values. *)
Definition auth_text (username password : string) (ts : Z) : string :=
  "user: " ++ username ++ String "010" ("pwd:  " ++ password ++ String "010"
    ("ts:   " ++ print_int ts)).

(** [alloc] is whether [calloc] succeeds; [None] is -1. *)
Definition encode_auth_setting (alloc : bool) (username password public_key : string) (w : W)
    : option string :=
  let text_len :=
    strlen auth_text_format + strlen username + strlen password + 32 in
  if negb alloc then None
  else
    let text := String.substring 0 (Z.to_nat (text_len - 1)) (auth_text username password (cr_utc w)) in
    encrypted ← cr_public_encrypt public_key text w;
    Some (Base64Encode encrypted).

(** [sscanf] with [auth_text_format]: a blank of the format skips blanks, "%s" skips
    blanks and takes at least one other character. *)
Fixpoint after_text (p s : string) : option string :=
  match p, s with
  | EmptyString, _ => Some s
  | String a p, String b s => if decide (a = b) then after_text p s else None
  | String _ _, EmptyString => None
  end.

Fixpoint scan_word (s : string) : string * string :=
  match s with
  | String c s' =>
      if isspace c then (EmptyString, s)
      else let '(w, rest) := scan_word s' in (String c w, rest)
  | EmptyString => (EmptyString, s)
  end.

Definition scan_s (s : string) : option (string * string) :=
  match scan_word (skip_spaces s) with
  | (EmptyString, _) => None
  | r => Some r
  end.

Definition sscanf_auth (s : string) : option (string * string * Z) :=
  s ← after_text "user:" s;
  '(username, s) ← scan_s s;
  s ← after_text "pwd:" (skip_spaces s);
  '(password, s) ← scan_s s;
  s ← after_text "ts:" (skip_spaces s);
  let '(_, n, _) := scan_digits 10 0 0 (snd (scan_sign (skip_spaces s))) in
  if n =? 0 then None else Some (username, password, fst (strtol 10 s)).

(** The outer [None] is an abort, the inner one -1. *)
Definition decode_auth_setting (alloc1 alloc2 : bool) (authtoken private_key : string)
    : option (option (string * string * Z)) :=
  encrypted ← Base64Decode authtoken;
  Some
    (plaintext ← cr_private_decrypt private_key encrypted;
     if negb alloc1 then None
     else if negb alloc2 then None
     else sscanf_auth (until_nul plaintext)).
End Auth.

(** ** The password prompt *)

(** [iperf_getpass]: the answers of [tcgetattr] and [tcsetattr], and the line read,
    [None] at the end of the input, when the loop below reads a buffer [getline] has
    not filled. The answer is the result and the line. *)
Definition iperf_getpass (tcget tcset : bool) (line : option string)
    : option (Z * option string) :=
  if negb tcget then Some (-1, None)
  else if negb tcset then Some (-1, None)
  else
    l ← line; Some (strlen l, Some (strip_eol (until_nul l))).
