(* ===== verification/AuthProps.v ===== *)
(** * iperf_auth.c: properties

    What survives the trip of the credentials through the token, and whom a users
    file admits. *)

From S2P Require Import Prelude CJson CString CStringProps Auth.

#[local] Open Scope Z_scope.

(** ** Reading words and texts *)

(** What "%s" can read: at least one character, none of them blank. *)
Definition word (s : string) : Prop := s <> EmptyString /\ chars (negb ∘ isspace) s = true.

Lemma after_text_app p s : after_text p (p ++ s) = Some s.
Proof.
  induction p as [|a p IH]; [done|]. rewrite string_app_cons. cbn [after_text]. by rewrite decide_True.
Qed.

Lemma scan_word_app s t c :
  chars (negb ∘ isspace) s = true -> isspace c = true ->
  scan_word (s ++ String c t) = (s, String c t).
Proof.
  intros Hs Hc. induction s as [|a s IH]; [change ("" ++ ?t)%string with t; by cbn; rewrite Hc|].
  rewrite string_app_cons. cbn in *.
  apply andb_true_iff in Hs as [Ha Hs]. apply negb_true_iff in Ha. rewrite Ha.
  by rewrite IH.
Qed.

Lemma skip_spaces_word s t : word s -> skip_spaces (s ++ t) = (s ++ t)%string.
Proof.
  intros [Hne Hs]. destruct s as [|a s]; [done|]. cbn in Hs.
  apply andb_true_iff in Hs as [Ha _]. apply negb_true_iff in Ha.
  rewrite string_app_cons. cbn. by rewrite Ha.
Qed.

Lemma scan_s_word s t c :
  word s -> isspace c = true -> scan_s (s ++ String c t) = Some (s, String c t).
Proof.
  intros Hs Hc. unfold scan_s. rewrite skip_spaces_word by done.
  rewrite scan_word_app by (done || apply Hs). destruct Hs as [Hne _]. by destruct s.
Qed.

(** "%s" reads words only. *)
Lemma scan_word_chars s : chars (negb ∘ isspace) (fst (scan_word s)) = true.
Proof.
  induction s as [|c s IH]; [done|]. cbn. destruct (isspace c) eqn:Hc; [done|].
  destruct (scan_word s) as [w rest]. cbn in *. by rewrite Hc.
Qed.

Lemma scan_s_reads_words s w rest : scan_s s = Some (w, rest) -> word w.
Proof.
  unfold scan_s. pose proof (scan_word_chars (skip_spaces s)) as Hc.
  destruct (scan_word (skip_spaces s)) as [[|a w'] rest']; [done|].
  intros [= <- <-]. by split.
Qed.

(** ** The text of the token *)

Lemma print_int_digit z :
  - 2 ^ 63 <= z < 2 ^ 63 ->
  exists v n rest, scan_digits 10 0 0 (snd (scan_sign (skip_spaces (print_int z)))) = (v, n, rest) /\
    n <> 0 /\ skip_spaces (print_int z) = print_int z.
Proof.
  intros Hz. unfold print_int. destruct (Z.ltb_spec z 0).
  - change (skip_spaces (String "-" ?t)) with (String "-" t).
    change (scan_sign (String "-" ?t)) with (true, t). cbn [snd].
    destruct (scan_print_nat (- z) EmptyString 0 0) as (l & Hl & E); [lia|done|].
    rewrite string_app_nil in E. rewrite E. do 3 eexists. split; [done|]. split; [lia|done].
  - destruct (print_nat_head z EmptyString) as (d & t & E & Hd & _); [lia|].
    rewrite string_app_nil in E. rewrite E, skip_spaces_digit, scan_sign_digit by done.
    cbn [snd]. rewrite <- E.
    destruct (scan_print_nat z EmptyString 0 0) as (l & Hl & E'); [lia|done|].
    rewrite string_app_nil in E'. rewrite E'. do 3 eexists. split; [done|]. split; [lia|done].
Qed.

(** A blank of the text before a word, and the line end after it. *)
Lemma scan_s_blank s : scan_s (String " " s) = scan_s s.
Proof. done. Qed.

Lemma sscanf_auth_text u p ts :
  - 2 ^ 63 <= ts < 2 ^ 63 -> word u -> word p ->
  sscanf_auth (auth_text u p ts) = Some (u, p, ts).
Proof.
  intros Hts Hu Hp. unfold sscanf_auth, auth_text.
  change (after_text "user:" ("user: " ++ ?s)) with (Some (String " " s)).
  cbn [mbind option_bind]. rewrite scan_s_blank, scan_s_word by done.
  cbn [mbind option_bind].
  change (after_text "pwd:" (skip_spaces (String "010" ("pwd:  " ++ ?s))))
    with (Some (String " " (String " " s))).
  cbn [mbind option_bind]. rewrite !scan_s_blank, scan_s_word by done.
  cbn [mbind option_bind].
  change (after_text "ts:" (skip_spaces (String "010" ("ts:   " ++ ?s))))
    with (Some (String " " (String " " (String " " s)))).
  cbn [mbind option_bind].
  change (skip_spaces (String " " (String " " (String " " ?s)))) with (skip_spaces s).
  destruct (print_int_digit ts Hts) as (v & n & rest & E & Hn & Hs). rewrite E.
  destruct (Z.eqb_spec n 0); [done|]. do 2 f_equal.
  pose proof (strtol_print_int ts EmptyString Hts I) as Hl. rewrite string_app_nil in Hl.
  unfold strtol in *.
  change (skip_spaces (String " " (String " " (String " " ?s)))) with (skip_spaces s).
  destruct (scan_sign (skip_spaces (print_int ts))) as [minus t]. cbn [Z.eqb] in *.
  destruct (scan_digits 10 0 0 t) as [[v' n'] rest']. by destruct (n' =? 0); injection Hl as ->.
Qed.

(** Only words come back. *)
Lemma sscanf_auth_words s u p ts : sscanf_auth s = Some (u, p, ts) -> word u /\ word p.
Proof.
  unfold sscanf_auth. intros H.
  apply bind_Some in H as (s1 & _ & H). apply bind_Some in H as ([u' s2] & Hu & H).
  apply bind_Some in H as (s3 & _ & H). apply bind_Some in H as ([p' s4] & Hp & H).
  apply bind_Some in H as (s5 & _ & H).
  destruct (scan_digits 10 0 0 _) as [[v n] rest]. destruct (n =? 0); [done|].
  simplify_eq. split; by eapply scan_s_reads_words.
Qed.

(** ** The buffer of the text is large enough *)

Lemma string_length_app s t : String.length (s ++ t) = (String.length s + String.length t)%nat.
Proof.
  induction s as [|c s IH]; [done|]. rewrite string_app_cons. cbn. by rewrite IH.
Qed.

Lemma substring_all n s : (String.length s <= n)%nat -> String.substring 0 n s = s.
Proof.
  revert s. induction n as [|n IH]; intros [|c s] H; cbn in *; [done|lia|done|].
  by rewrite IH by lia.
Qed.

Lemma auth_text_fits u p ts :
  - 2 ^ 63 <= ts < 2 ^ 63 ->
  String.substring 0
    (Z.to_nat (strlen auth_text_format + strlen u + strlen p + 32 - 1)) (auth_text u p ts)
  = auth_text u p ts.
Proof.
  intros Hts. apply substring_all. unfold auth_text, strlen.
  pose proof (print_int_length ts Hts).
  change (Z.of_nat (String.length auth_text_format)) with 27.
  rewrite !string_length_app. cbn [String.length]. rewrite !string_length_app.
  cbn [String.length]. rewrite !string_length_app.
  cbn [String.length]. lia.
Qed.

(** ** The token *)

(** What OpenSSL promises: the private key reads what the public key wrote; a
    base64 text has four characters for three bytes, the last group filled up with
    equal signs, and reads back. *)
Class CryptoLaws (W : Type) `{Crypto W} (public private : string) := {
  decrypt_encrypt text w e :
    cr_public_encrypt public text w = Some e -> cr_private_decrypt private e = Some text;
  encrypt_bytes text w e :
    cr_public_encrypt public text w = Some e -> e <> [] /\ Forall (is_uint 8) e;
  b64_length l :
    strlen (cr_b64_write l) = 4 * ((Z.of_nat (length l) + 2) / 3);
  b64_last l :
    l <> [] ->
    char_at (cr_b64_write l) (strlen (cr_b64_write l) - 1) = Some "="%char
    <-> Z.of_nat (length l) mod 3 <> 0;
  b64_last_but_one l :
    Z.of_nat (length l) mod 3 <> 0 ->
    char_at (cr_b64_write l) (strlen (cr_b64_write l) - 2) = Some "="%char
    <-> Z.of_nat (length l) mod 3 = 1;
  b64_read_write l :
    Forall (is_uint 8) l -> cr_b64_read (cr_b64_write l) = (Z.of_nat (length l), l) }.

Section Token.
Context {W : Type} {crypto : Crypto W} (public private : string).
Context {laws : CryptoLaws W public private}.

Lemma char_at_some s i : 0 <= i < strlen s -> exists c, char_at s i = Some c.
Proof.
  intros Hi. unfold char_at, strlen in *. destruct (Z.ltb_spec i 0); [lia|].
  assert (Z.to_nat i < String.length s)%nat as Hn by lia. revert Hn. generalize (Z.to_nat i).
  clear. induction s as [|a s IH]; intros [|n] Hn; cbn in *; [lia|lia|by exists a|].
  apply IH. lia.
Qed.

Lemma calcDecodeLength_exact l :
  l <> [] -> calcDecodeLength (cr_b64_write l) = Some (Z.of_nat (length l)).
Proof.
  intros Hne. unfold calcDecodeLength.
  pose proof (b64_length l) as Hl.
  pose proof (b64_last l Hne) as H1. pose proof (b64_last_but_one l) as H2.
  assert (0 < Z.of_nat (length l)) as Hn by (destruct l; [done|cbn; lia]).
  generalize dependent (Z.of_nat (length l)). intros n Hl H1 H2 Hn. rewrite Hl in *.
  pose proof (Z.div_mod (n + 2) 3 ltac:(lia)). pose proof (Z.mod_pos_bound (n + 2) 3 ltac:(lia)).
  pose proof (Z.div_mod n 3 ltac:(lia)). pose proof (Z.mod_pos_bound n 3 ltac:(lia)).
  destruct (char_at_some (cr_b64_write l) (4 * ((n + 2) / 3) - 1)) as [a Ha]; [lia|].
  destruct (char_at_some (cr_b64_write l) (4 * ((n + 2) / 3) - 2)) as [b Hb]; [lia|].
  rewrite Ha, Hb in *. cbn [mbind option_bind].
  replace (4 * ((n + 2) / 3) * 3 / 4) with (3 * ((n + 2) / 3)).
  2:{ replace (4 * ((n + 2) / 3) * 3) with (3 * ((n + 2) / 3) * 4) by lia. by rewrite Z.div_mul. }
  case_decide as Ea; [subst a|].
  - specialize (H2 (proj1 H1 eq_refl)). pose proof (proj1 H1 eq_refl).
    case_decide as Eb; [subst b; pose proof (proj1 H2 eq_refl); f_equal; lia|].
    assert (n mod 3 <> 1) by (intros ?%H2; congruence). f_equal; lia.
  - assert (~ n mod 3 <> 0) by (intros ?%H1; congruence). f_equal; lia.
Qed.

Lemma Base64Decode_exact l :
  l <> [] -> Forall (is_uint 8) l -> Base64Decode (Base64Encode l) = Some l.
Proof.
  intros Hne Hl. unfold Base64Decode, Base64Encode.
  rewrite calcDecodeLength_exact, (b64_read_write l) by done. cbn [mbind option_bind].
  destruct (Z.leb_spec 0 (Z.of_nat (length l))); [|lia]. by rewrite Z.eqb_refl.
Qed.

(** What decoding a token makes of the text that was encoded. *)
Lemma decode_encode username password w token :
  - 2 ^ 63 <= cr_utc w < 2 ^ 63 ->
  encode_auth_setting true username password public w = Some token ->
  decode_auth_setting true true token private
  = Some (sscanf_auth (until_nul (auth_text username password (cr_utc w)))).
Proof.
  intros Hts H. unfold encode_auth_setting in H. cbn [negb] in H.
  rewrite auth_text_fits in H by done.
  apply bind_Some in H as (e & He & [= <-]).
  destruct (encrypt_bytes _ _ _ He) as [Hne Hb].
  unfold decode_auth_setting. rewrite Base64Decode_exact by done. cbn [mbind option_bind].
  by rewrite (decrypt_encrypt _ _ _ He).
Qed.
End Token.

Lemma no_nul_auth_text u p ts : no_nul u -> no_nul p -> no_nul (auth_text u p ts).
Proof.
  intros Hu Hp. unfold auth_text.
  repeat first [apply no_nul_app; split | apply no_nul_cons; split]; try done.
  apply no_nul_print_int.
Qed.

(** The server reads the credentials and the time the client put into its token exactly
    when the user name and the password are non-empty and free of blanks; with a blank in
    either, the token yields something else or nothing. *)
Theorem token_roundtrip {W} {crypto : Crypto W} (public private : string)
    {laws : CryptoLaws W public private} username password w token :
  - 2 ^ 63 <= cr_utc w < 2 ^ 63 -> no_nul username -> no_nul password ->
  encode_auth_setting true username password public w = Some token ->
  decode_auth_setting true true token private = Some (Some (username, password, cr_utc w))
  <-> word username /\ word password.
Proof.
  intros Hts Hu Hp H. rewrite (decode_encode public private _ _ _ _ Hts H).
  rewrite until_nul_id by by apply no_nul_auth_text. split.
  - intros [= E]. by eapply sscanf_auth_words.
  - intros [Hwu Hwp]. by rewrite sscanf_auth_text.
Qed.

(** ** The users file *)

(** A line of the file: a user with the digest of the password, or something the
    server skips. *)
Inductive users_line := Entry (user hash : string) | Other (text : string).

Definition line_text (l : users_line) : string :=
  match l with Entry user hash => user ++ String "," hash | Other text => text end.

(** The characters of the two fields of an entry. *)
Definition field (s : string) : Prop :=
  s <> EmptyString /\ chars (fun c => negb (bool_decide (c ∈ [","; "010"; "013"; Ascii.zero]%char))) s = true.

(** A line fits the buffer of [fgets]; a user name does not start like a comment. *)
Definition line_ok (l : users_line) : Prop :=
  (String.length (line_text l) < 1023)%nat /\
  match l with
  | Entry user hash => field user /\ field hash /\ String.get 0 user <> Some "#"%char
  | Other text =>
      chars (fun c => negb (bool_decide (c ∈ ["010"; "013"; Ascii.zero]%char))) text = true /\
      skipped_line text = true
  end.

Definition users_file (ls : list users_line) : string :=
  foldr (fun l s => (line_text l ++ String "010" s)%string) EmptyString ls.

Definition line_char (c : ascii) : bool :=
  negb (bool_decide (c ∈ ["010"; "013"; Ascii.zero]%char)).

Lemma line_char_spec c : line_char c = true -> c <> "010"%char /\ c <> "013"%char /\ c <> Ascii.zero.
Proof.
  unfold line_char. rewrite negb_true_iff, bool_decide_eq_false. intros H.
  repeat split; intros ->; apply H; set_solver.
Qed.

Lemma line_text_chars l : line_ok l -> chars line_char (line_text l) = true.
Proof.
  destruct l as [u h|t]; [|by intros [_ [H _]]]. intros [_ ([_ Hu] & [_ Hh] & _)].
  cbn [line_text]. rewrite chars_app. cbn [chars]. apply andb_true_iff.
  assert (forall s, chars (fun c => negb (bool_decide (c ∈ [","; "010"; "013"; Ascii.zero]%char))) s
                    = true -> chars line_char s = true) as Hm.
  { intros s. apply chars_mono. intros c. unfold line_char.
    rewrite !negb_true_iff, !bool_decide_eq_false. set_solver. }
  split; [by apply Hm|]. apply andb_true_iff. split; [done|by apply Hm].
Qed.

Lemma fgets_line n t s :
  chars line_char t = true -> (String.length t < n)%nat ->
  fgets n (t ++ String "010" s) = (t ++ String "010" "", s)%string.
Proof.
  revert n. induction t as [|c t IH]; intros [|n] Ht Hn; cbn in Hn; [lia|done|lia|].
  cbn in Ht. apply andb_true_iff in Ht as [(H1 & _ & _)%line_char_spec Ht].
  rewrite !string_app_cons. cbn [fgets]. rewrite decide_False by done.
  by rewrite IH by (done || lia).
Qed.

Lemma cut_line t :
  chars line_char t = true -> strip_eol (until_nul (t ++ String "010" "")) = t.
Proof.
  induction t as [|c t IH]; [done|]. cbn. intros [(H1 & H2 & H3)%line_char_spec Ht]%andb_true_iff.
  rewrite !string_app_cons. cbn [until_nul]. rewrite decide_False by done. cbn [strip_eol].
  rewrite decide_False by tauto. by rewrite IH.
Qed.

Lemma strchr_app s t c :
  chars (fun a => negb (bool_decide (a = c))) s = true ->
  strchr (s ++ String c t) c = Some (s, t).
Proof.
  induction s as [|a s IH]; intros Hs.
  - change ("" ++ ?x)%string with x. cbn [strchr]. by rewrite decide_True.
  - cbn in Hs. apply andb_true_iff in Hs as [Ha Hs].
    apply negb_true_iff, bool_decide_eq_false in Ha.
    rewrite string_app_cons. cbn [strchr]. rewrite decide_False by done. by rewrite IH.
Qed.

Lemma strchr_none s c :
  chars (fun a => negb (bool_decide (a = c))) s = true -> strchr s c = None.
Proof.
  induction s as [|a s IH]; [done|]. cbn. intros [Ha Hs]%andb_true_iff.
  apply negb_true_iff, bool_decide_eq_false in Ha. rewrite decide_False by done. by rewrite IH.
Qed.

Lemma field_no_comma s : field s -> chars (fun a => negb (bool_decide (a = ","%char))) s = true.
Proof.
  intros [_ H]. revert H. apply chars_mono. intros c.
  rewrite !negb_true_iff, !bool_decide_eq_false. set_solver.
Qed.

Lemma skip_char_field s t : field s -> skip_char "," (s ++ t) = (s ++ t)%string.
Proof.
  intros Hf. pose proof (field_no_comma s Hf) as H. destruct Hf as [Hne _].
  destruct s as [|c s]; [done|]. cbn in H. apply andb_true_iff in H as [Hc _].
  apply negb_true_iff, bool_decide_eq_false in Hc. rewrite string_app_cons. cbn [skip_char].
  by rewrite decide_False.
Qed.

Lemma field_app_nonempty s t : field s -> strcmp_0 (s ++ t) EmptyString = false.
Proof. intros [Hne _]. apply bool_decide_eq_false. by destruct s. Qed.

Lemma strtok_field s t : field s -> strtok "," (s ++ String "," t) = Some (s, t).
Proof.
  intros Hs. unfold strtok. rewrite skip_char_field, strchr_app by auto using field_no_comma.
  by rewrite field_app_nonempty.
Qed.

Lemma strtok_last s : field s -> strtok "," s = Some (s, EmptyString).
Proof.
  intros Hs. unfold strtok. pose proof (skip_char_field s "" Hs) as E.
  rewrite string_app_nil in E. rewrite E, strchr_none by by apply field_no_comma.
  pose proof (field_app_nonempty s "" Hs) as E0. rewrite string_app_nil in E0. by rewrite E0.
Qed.

(** Whether a line admits a user. *)
Definition admits (username passwordHash : string) (l : users_line) : bool :=
  match l with
  | Entry user hash => strcmp_0 username user && strcmp_0 passwordHash hash
  | Other _ => false
  end.

Lemma check_line_ok u h l : line_ok l -> check_line u h (line_text l) = Some (admits u h l).
Proof.
  intros [_ Hl]. unfold check_line. destruct l as [u' h'|t]; cbn [line_text admits].
  - destruct Hl as (Hu & Hh & Hc). unfold skipped_line.
    rewrite strchr_app by by apply field_no_comma.
    assert (forall x, strcmp_0 (u' ++ x) EmptyString = false) as ->.
    { intros x. by apply field_app_nonempty. }
    assert (match (u' ++ String "," h')%string with
            | String c _ => bool_decide (c = "#"%char) | EmptyString => false end = false) as ->.
    { destruct u' as [|c u']; [by destruct Hu|]. rewrite string_app_cons.
      apply bool_decide_eq_false. intros ->. by apply Hc. }
    cbn [orb]. rewrite strtok_field by done. cbn [mbind option_bind].
    destruct (strcmp_0 u u'); [|done]. rewrite strtok_last by done. done.
  - destruct Hl as [_ ->]. done.
Qed.

(** The answer of the users file: the user is admitted exactly when some entry has
    the name and the digest, whatever comments and other lines surround it. *)
Lemma check_lines_file u h ls fuel :
  Forall line_ok ls -> (String.length (users_file ls) <= fuel)%nat ->
  check_lines fuel u h (users_file ls) = Some (if existsb (admits u h) ls then 0 else 3).
Proof.
  revert fuel. induction ls as [|l ls IH]; intros fuel Hok Hf; [by destruct fuel|].
  apply Forall_cons in Hok as [Hl Hok]. cbn [users_file foldr] in Hf |- *.
  fold (users_file ls) in Hf |- *. pose proof (line_text_chars l Hl) as Hc.
  rewrite string_length_app in Hf. cbn [String.length] in Hf.
  destruct fuel as [|fuel]; [lia|].
  assert (exists c s, (line_text l ++ String "010" (users_file ls))%string = String c s)
    as (c & s & E) by (destruct (line_text l); eauto).
  cbn [check_lines]. rewrite E, <- E.
  rewrite (fgets_line 1023) by (done || apply Hl). rewrite cut_line, check_line_ok by done.
  cbn [mbind option_bind existsb]. destruct (admits u h l); [done|]. apply IH; [done|lia].
Qed.

(** ** A small cryptography

    Texts are their own encryption; three bytes are written as four characters; the
    digest is empty; one file of users. *)
Module HostCrypto.

Fixpoint write4 (l : list Z) : string :=
  match l with
  | a :: b :: c :: l => String (chr a) (String (chr b) (String (chr c) (String "A" (write4 l))))
  | [a; b] => String (chr a) (String (chr b) "A=")
  | [a] => String (chr a) "A=="
  | [] => ""
  end.

Fixpoint read4 (s : string) : list Z :=
  match s with
  | String a (String b (String c (String d s))) =>
      if decide (d = "="%char)
      then if decide (c = "="%char) then [code a] else [code a; code b]
      else code a :: code b :: code c :: read4 s
  | _ => []
  end.

Definition users : string := users_file
  [Other "# user, digest"; Entry "mario" "00"; Other ""].

#[export] Instance host_crypto {W} : Crypto W := {
  cr_sha256 _ := [0];
  cr_public_encrypt _ text _ := Some (0 :: string_bytes text);
  cr_private_decrypt _ e := Some (bytes_string (tail e));
  cr_b64_write := write4;
  cr_b64_read s := (Z.of_nat (length (read4 s)), read4 s);
  cr_pem_pubkey := Some;
  cr_pem_privkey := Some;
  cr_utc _ := 1000;
  cr_file _ _ := Some users }.

Lemma list_ind3 (P : list Z -> Prop) :
  P [] -> (forall a, P [a]) -> (forall a b, P [a; b]) ->
  (forall a b c l, P l -> P (a :: b :: c :: l)) -> forall l, P l.
Proof.
  intros H0 H1 H2 H3. assert (forall l, P l /\ (forall a, P (a :: l)) /\ (forall a b, P (a :: b :: l)))
    as H; [|intros l; apply H].
  induction l as [|c l (IH & IH1 & IH2)]; [done|]. repeat split; auto.
Qed.

Lemma read4_write4 l : Forall (is_uint 8) l -> read4 (write4 l) = l.
Proof.
  induction l as [|a|a b|a b c l IH] using list_ind3; cbn; rewrite ?Forall_cons; [done|..].
  - intros [Ha _]. by rewrite code_chr.
  - intros (Ha & Hb & _). by rewrite !code_chr.
  - intros (Ha & Hb & Hc & Hl). by rewrite !code_chr, IH.
Qed.

Lemma write4_length l : strlen (write4 l) = 4 * ((Z.of_nat (length l) + 2) / 3).
Proof.
  unfold strlen. induction l as [|a|a b|a b c l IH] using list_ind3; [done..|].
  cbn [write4 String.length length].
  replace (Z.of_nat (S (S (S (length l)))) + 2) with (Z.of_nat (length l) + 2 + 1 * 3) by lia.
  rewrite Z.div_add by lia. lia.
Qed.

(** A character counted from the end is that of the last group. *)
Lemma write4_end a b c l i :
  l <> [] -> 1 <= i <= 2 ->
  char_at (write4 (a :: b :: c :: l)) (strlen (write4 (a :: b :: c :: l)) - i)
  = char_at (write4 l) (strlen (write4 l) - i).
Proof.
  intros Hl Hi. assert (4 <= strlen (write4 l)) as H4.
  { rewrite write4_length. assert (1 <= Z.of_nat (length l)) by (destruct l; [done|cbn; lia]).
    pose proof (Z.div_le_mono 3 (Z.of_nat (length l) + 2) 3 ltac:(lia) ltac:(lia)) as Hd.
    change (3 / 3) with 1 in Hd. lia. }
  cbn [write4]. unfold char_at, strlen in *. cbn [String.length].
  destruct (Z.ltb_spec (Z.of_nat (String.length (write4 l)) - i) 0); [lia|].
  destruct (Z.ltb_spec (Z.of_nat (S (S (S (S (String.length (write4 l)))))) - i) 0); [lia|].
  replace (Z.to_nat (Z.of_nat (S (S (S (S (String.length (write4 l)))))) - i))
    with (S (S (S (S (Z.to_nat (Z.of_nat (String.length (write4 l)) - i)))))) by lia.
  done.
Qed.

#[export] Instance host_crypto_laws {W} public private : CryptoLaws W public private.
Proof.
  split.
  - intros text w e [= <-]. cbn. by rewrite bytes_of_string.
  - intros text w e [= <-]. split; [done|]. constructor; [done|].
    induction text; constructor; [apply code_range|done].
  - apply write4_length.
  - intros l. induction l as [|a|a b|a b c l IH] using list_ind3; intros Hl; [done| | |].
    + by split.
    + by split.
    + destruct l as [|x l].
      * split; done.
      * cbn [cr_b64_write host_crypto]. rewrite write4_end by (done || lia).
        cbn [cr_b64_write host_crypto] in IH. rewrite IH by done.
        replace (Z.of_nat (length (a :: b :: c :: x :: l)))
          with (Z.of_nat (length (x :: l)) + 1 * 3) by (cbn [length]; lia).
        by rewrite Z.mod_add by lia.
  - intros l. induction l as [|a|a b|a b c l IH] using list_ind3; intros Hl; [done|done|done|].
    assert (Z.of_nat (length (a :: b :: c :: l)) mod 3 = Z.of_nat (length l) mod 3) as E.
    { replace (Z.of_nat (length (a :: b :: c :: l))) with (Z.of_nat (length l) + 1 * 3)
        by (cbn [length]; lia). by rewrite Z.mod_add by lia. }
    rewrite E in Hl |- *. cbn [cr_b64_write host_crypto] in *.
    rewrite write4_end; [by apply IH| |lia]. by intros ->.
  - intros l Hl. cbn. by rewrite read4_write4.
Qed.

End HostCrypto.

Import HostCrypto.

Lemma token_roundtrip_witness :
  (exists token, encode_auth_setting true "mario" "rossi" "pub" tt = Some token /\
     decode_auth_setting (W:=unit) true true token "priv" = Some (Some ("mario", "rossi", 1000)%string)) /\
  (exists token, encode_auth_setting true "mario" "ros si" "pub" tt = Some token /\
     decode_auth_setting (W:=unit) true true token "priv" <> Some (Some ("mario", "ros si", 1000)%string)).
Proof.
  assert (forall p, no_nul p -> exists token,
            encode_auth_setting true "mario" p "pub" tt = Some token /\
            (decode_auth_setting (W:=unit) true true token "priv" = Some (Some ("mario"%string, p, cr_utc (W:=unit) tt))
             <-> word "mario" /\ word p)) as H.
  { intros p Hp. eexists. split; [reflexivity|].
    refine (token_roundtrip (W:=unit) "pub" "priv" "mario" p tt _ _ _ Hp eq_refl); [cbn; lia|done]. }
  destruct (H "rossi"%string) as (t & Ht & E); [done|].
  destruct (H "ros si"%string) as (t' & Ht' & E'); [done|].
  split.
  - exists t. split; [done|]. by apply E.
  - exists t'. split; [done|]. intros [_ [_ Hw]]%E'. done.
Defined.
