(* ===== verification/JsonParseProps.v ===== *)
(** * cjson.c: parsing stays in its buffer and reads back what was printed

    [cJSON_Parse] ends on every text, without an access outside the text or the strings
    it allocates; a printed value is read back up to what printing loses. *)

From Stdlib Require Import Floats.SpecFloat.
From S2P Require Import Prelude Double CJson CString CStringProps JsonText NumberProps JsonParse.
From S2P Require Import JsonTextProps.

#[local] Open Scope Z_scope.

(** ** Strings fit what is allocated for them

    Inside a literal the scan for its end takes backslashes in pairs with the character
    behind, the loop that converts it takes sequences of up to twelve characters; the
    two need not agree where a pair begins. *)

(** Whether a scan for pairs that begins inside a pair or not ends inside one, and the
    number of pairs that begin. *)
Fixpoint in_pair (second : bool) (s : string) : bool :=
  match s with
  | EmptyString => second
  | String c s => in_pair (negb second && bool_decide (c = backslash)) s
  end.

Fixpoint pairs (second : bool) (s : string) : nat :=
  match s with
  | EmptyString => O
  | String c s =>
      let starts := negb second && bool_decide (c = backslash) in
      (if starts then 1 else 0) + pairs starts s
  end.

Lemma literal_pairs s text k :
  literal s = Some (text, k) -> k = pairs false text /\ in_pair false text = false.
Proof.
  assert (forall n s text k, (String.length s <= n)%nat -> literal s = Some (text, k) ->
            k = pairs false text /\ in_pair false text = false) as H; [|by eapply H].
  clear s text k. induction n as [|n IH]; intros s text k Hn H.
  { destruct s; [done|cbn in Hn; lia]. }
  destruct s as [|c s]; [done|]. cbn [literal String.length] in *. case_decide as E1.
  - by injection H as <- <-.
  - case_decide as E2.
    + destruct s as [|d s]; [done|]. apply bind_Some in H as ([l k'] & H1 & [= <- <-]).
      cbn [String.length] in Hn. apply IH in H1 as [-> Hp]; [|lia].
      cbn [pairs in_pair negb andb]. by rewrite (bool_decide_eq_true_2 _ E2).
    + apply bind_Some in H as ([l k'] & H1 & [= <- <-]). apply IH in H1 as [-> Hp]; [|lia].
      cbn [pairs in_pair negb andb]. by rewrite (bool_decide_eq_false_2 _ E2).
Qed.

(** The state behind the first [n] characters. *)
Lemma pairs_drop n second s :
  (n <= String.length s)%nat ->
  exists second', in_pair second' (str_drop n s) = in_pair second s /\
    (2 * pairs second s + (if second then 1 else 0)
     <= 2 * pairs second' (str_drop n s) + n + (if second' then 1 else 0))%nat.
Proof.
  revert second s. induction n as [|n IH]; intros second s Hn.
  - exists second. cbn [str_drop]. split; [done|lia].
  - destruct s as [|c s]; cbn [String.length] in Hn; [lia|].
    destruct (IH (negb second && bool_decide (c = backslash)) s) as (second' & H1 & H2); [lia|].
    exists second'. cbn [str_drop in_pair pairs]. split; [done|].
    destruct second, (bool_decide (c = backslash)); cbn [negb andb] in *; lia.
Qed.

Lemma unescape_drop n s : unescape n s = unescape 0 (str_drop n s).
Proof.
  revert s. induction n as [|n IH]; intros s; [done|]. destruct s as [|c s]; [done|]. apply IH.
Qed.

Lemma digit_range c d : digit 16 c = Some d -> 0 <= d < 16.
Proof.
  unfold digit. destruct (isdigit c) eqn:H1; [|destruct (islower c) eqn:H2; [|destruct (isupper c) eqn:H3]];
    unfold isdigit, islower, isupper in *; rewrite ?andb_true_iff, ?Z.leb_le in *;
    (match goal with |- context [?x <? 16] => destruct (Z.ltb_spec x 16) end; [intros [= <-]|done]);
    lia.
Qed.

Lemma parse_hex4_range s : 0 <= parse_hex4 s < 65536.
Proof.
  destruct s as [|a [|b [|c [|d s]]]]; try (cbn; lia). unfold parse_hex4.
  destruct (digit 16 a) eqn:Ea; [|lia]. destruct (digit 16 b) eqn:Eb; [|lia].
  destruct (digit 16 c) eqn:Ec; [|lia]. destruct (digit 16 d) eqn:Ed; [|lia].
  apply digit_range in Ea, Eb, Ec, Ed. rewrite !Z.shiftl_mul_pow2 by lia. lia.
Qed.

Lemma utf8_bytes_length n mark cp t :
  String.length (utf8_bytes n mark cp t) = (S n + String.length t)%nat.
Proof.
  revert cp t. induction n as [|n IH]; intros cp t; [done|]. cbn [utf8_bytes]. rewrite IH. cbn. lia.
Qed.

Lemma utf8_length cp t :
  utf8 cp = Some t -> (String.length t <= 4)%nat /\ (cp < 0x10000 -> (String.length t <= 3)%nat).
Proof.
  unfold utf8. intros H.
  destruct (Z.ltb_spec cp 0x80); [|destruct (Z.ltb_spec cp 0x800);
    [|destruct (Z.ltb_spec cp 0x10000); [|destruct (cp <=? 0x10FFFF); [|done]]]];
    apply (inj Some) in H; subst t; rewrite utf8_bytes_length; cbn [String.length]; lia.
Qed.

Lemma escape_sequence_length s out n :
  escape_sequence (String backslash s) = Some (out, n) ->
  n = 2%nat /\ String.length out = 1%nat \/
  (n = 6 /\ String.length out <= 3 \/ n = 12 /\ String.length out <= 4)%nat /\
  (n <= S (String.length s))%nat.
Proof.
  unfold escape_sequence. repeat (case_decide; [intros [= <- <-]; by left|]).
  case_decide; [|done]. unfold utf16_literal_to_utf8. intros Hs. right.
  destruct (Z.ltb_spec (strlen (String backslash s)) 6) as [|H6]; [done|]. unfold strlen in H6.
  cbn [String.length] in H6.
  pose proof (parse_hex4_range (str_drop 2 (String backslash s))) as Hr.
  set (first := parse_hex4 _) in *. destruct (_ && _) in Hs; [done|]. destruct (_ && _) in Hs.
  - destruct (Z.ltb_spec (strlen (str_drop 6 (String backslash s))) 6) as [|H12]; [done|].
    pose proof (strlen_take 6 (String backslash s)) as Hl. rewrite strlen_cons in Hl.
    assert (strlen (str_take 6 (String backslash s)) = 6) as Ht.
    { destruct s as [|c1 [|c2 [|c3 [|c4 [|c5 s]]]]]; cbn in H6; try lia. done. }
    destruct (str_drop 6 _) as [|c0 [|c1 digits]]; [done|done|].
    destruct (negb _); [done|]. destruct (_ || _); [done|].
    apply bind_Some in Hs as (t & Hu & [= <- <-]). apply utf8_length in Hu as [Hu _].
    unfold strlen in *. split; [right|]; lia.
  - apply bind_Some in Hs as (t & Hu & [= <- <-]). apply utf8_length in Hu as [_ Hu].
    split; [left|]; lia.
Qed.

Lemma unescape_fits second s out :
  unescape 0 s = Some out -> in_pair second s = false ->
  (String.length out + pairs second s <= String.length s)%nat.
Proof.
  assert (forall n second s out, (String.length s <= n)%nat -> unescape 0 s = Some out ->
    in_pair second s = false -> (String.length out + pairs second s <= String.length s)%nat) as H;
    [|by eapply H].
  clear second s out. induction n as [|n IH]; intros second s out Hn Hu Hp.
  { destruct s; [|cbn in Hn; lia]. by injection Hu as <-. }
  destruct s as [|c s]; [by injection Hu as <-|]. cbn [String.length] in Hn.
  cbn [unescape] in Hu. case_decide as Ec.
  - subst c. apply bind_Some in Hu as ([o len] & He & Hu).
    apply bind_Some in Hu as (t & Hu & [= <-]). rewrite unescape_drop in Hu. rewrite length_app_string.
    destruct (escape_sequence_length s o len He) as [[-> Ho]|[Hlen Hle]].
    + destruct s as [|c2 s].
      * destruct second; [|done]. cbn [pred str_drop] in Hu. injection Hu as <-. cbn. lia.
      * cbn [pred str_drop String.length] in *.
        cbn [in_pair pairs] in *. rewrite (bool_decide_eq_true_2 (backslash = backslash)) in * by done.
        rewrite andb_true_r in *. eapply IH in Hu; [|lia|exact Hp].
        destruct second; cbn [negb andb] in *; [destruct (bool_decide (c2 = backslash)); cbn in *|]; lia.
    + destruct (pairs_drop len second (String backslash s) Hle) as (second' & H1 & H2).
      destruct len as [|len]; [lia|]. cbn [pred str_drop] in *.
      assert (String.length s = len + String.length (str_drop len s))%nat as Hl.
      { pose proof (strlen_take len s) as Hl. unfold strlen in Hl.
        assert (String.length (str_take len s) = len) as Ht; [|lia].
        clear -Hle. revert s Hle. induction len as [|len IH]; intros [|c s] H; cbn in *; try lia.
        rewrite IH; lia. }
      eapply (IH second') in Hu; [|lia|congruence]. cbn [String.length].
      assert ((if second' then 1 else 0) <= 1)%nat by (destruct second'; lia).
      destruct second; lia.
  - apply bind_Some in Hu as (t & Hu & [= <-]). cbn [in_pair pairs String.length] in *.
    rewrite (bool_decide_eq_false_2 _ Ec), andb_false_r in *. eapply IH in Hu; [|lia|exact Hp]. lia.
Qed.

(** ** Reasoning about the parser

    A parser is at the text [r] that remains before the zero. *)

Definition nul : string := String Ascii.zero EmptyString.

Record here (r : string) (d : Z) (b : parse_buffer) : Prop := {
  here_rest : buffer_at_offset b = (r ++ nul)%string;
  here_length : (b_offset b + String.length r + 1 = String.length (b_content b))%nat;
  here_no_nul : no_nul r;
  here_depth : b_depth b = d }.

(** One character before it. *)
Definition before (r : string) (d : Z) (b : parse_buffer) : Prop :=
  here r d (b <| b_offset ::= Nat.add 1 |>).

Lemma here_access r d b : here r d b -> can_access_at_index b 0 = true.
Proof. intros []. unfold can_access_at_index. apply Nat.ltb_lt. lia. Qed.

Lemma here_next r d b c :
  here r d b -> c <> Ascii.zero ->
  next_is b c = match r with String a _ => bool_decide (a = c) | EmptyString => false end.
Proof.
  intros [E _ _ _] Hc. unfold next_is. rewrite E. destruct r as [|a r]; [|done].
  cbn. by apply bool_decide_eq_false.
Qed.

Lemma here_reads r d b t :
  here r d b -> t <> EmptyString -> no_nul t ->
  reads b t = strcmp_0 (str_take (String.length t) r) t.
Proof.
  intros [E Hl Hn _] Hne Ht. unfold reads, can_read. rewrite E.
  destruct (Nat.leb_spec (b_offset b + String.length t) (String.length (b_content b))); cbn [andb].
  - assert (forall n, (n <= String.length r + 1)%nat ->
      (n <= String.length r /\ str_take n (r ++ nul) = str_take n r) \/
      (n = S (String.length r) /\ str_take n (r ++ nul) = r ++ nul /\ str_take n r = r)%string)%nat as Hk.
    { clear. induction r as [|c r IH]; intros [|n] Hn; cbn [String.length] in *; try (left; split; [lia|done]).
      - right. split; [lia|]. split; [|done]. by destruct n.
      - destruct (IH n ltac:(lia)) as [[H1 H2]|(H1 & H2 & H3)]; [left|right].
        + split; [lia|]. rewrite string_app_cons. cbn [str_take]. by rewrite H2.
        + split; [lia|]. rewrite string_app_cons. cbn [str_take]. rewrite H2, H3. done. }
    destruct (Hk (String.length t)) as [[_ ->]|(Hlen & -> & ->)]; [lia|done|].
    unfold strcmp_0. rewrite !bool_decide_eq_false_2; [done| |].
    + intros ->. lia.
    + intros <-. apply no_nul_app in Ht as [_ Ht]. apply no_nul_cons in Ht as [? _]. done.
  - symmetry. unfold strcmp_0. apply bool_decide_eq_false. intros Et.
    apply (f_equal strlen) in Et. pose proof (strlen_take (String.length t) r).
    pose proof (strlen_nonneg (str_drop (String.length t) r)). unfold strlen in *. lia.
Qed.

Section Parser.
Context (alloc : nat -> bool) (may_fail : Prop).

Definition parses {A} (m : parser A) (Q : A -> parse_buffer -> Prop) (b : parse_buffer) : Prop :=
  match m b with
  | None => False
  | Some None => may_fail
  | Some (Some (a, b)) => Q a b
  end.

Lemma parses_bind {A B} (m : parser A) (k : A -> parser B) Q b :
  parses m (fun a => parses (k a) Q) b -> parses (m ≫= k) Q b.
Proof.
  unfold parses, mbind, attempt_bind. destruct (m b) as [[[a b']|]|]; done.
Qed.

Lemma parses_mono {A} (m : parser A) (Q Q' : A -> parse_buffer -> Prop) b :
  parses m Q b -> (forall a b, Q a b -> Q' a b) -> parses m Q' b.
Proof. unfold parses. destruct (m b) as [[[a b']|]|]; auto. Qed.

Lemma parses_ret {A} (a : A) Q b : Q a b -> parses (mret a) Q b.
Proof. done. Qed.

Lemma parses_peek {A} (f : parse_buffer -> A) Q b : Q (f b) b -> parses (peek f) Q b.
Proof. done. Qed.

Lemma parses_refuse {A} Q b : may_fail -> parses (refuse (A := A)) Q b.
Proof. done. Qed.

Lemma parses_skip n Q r t d b :
  here (t ++ r) d b -> n = String.length t -> (forall b', here r d b' -> Q tt b') -> parses (skip n) Q b.
Proof.
  intros [E Hl Hn Hd] -> HQ. apply HQ. apply no_nul_app in Hn as [_ Hn].
  rewrite length_app_string in Hl. constructor; try done; [|cbn; lia].
  unfold buffer_at_offset in *. cbn. rewrite (Nat.add_comm (String.length t)), str_drop_add, E.
  by rewrite string_app_assoc, str_drop_app.
Qed.

(** The blanks in front of a text. *)
Fixpoint trim (s : string) : string :=
  match s with
  | String c s' => if code c <=? 32 then trim s' else s
  | EmptyString => EmptyString
  end.

Lemma count_blanks_trim r :
  exists t, r = (t ++ trim r)%string /\
    (count_blanks (r ++ nul) = String.length t + if strcmp_0 (trim r) EmptyString then 1 else 0)%nat.
Proof.
  induction r as [|c r (t & H1 & H2)].
  - by exists EmptyString.
  - rewrite string_app_cons. cbn [trim count_blanks]. destruct (code c <=? 32).
    + exists (String c t). rewrite H2, string_app_cons. split; [by f_equal|done].
    + by exists EmptyString.
Qed.

Lemma parses_whitespace Q r d b :
  here r d b -> (forall b', here (trim r) d b' -> (b_offset b <= b_offset b')%nat -> Q tt b') ->
  parses buffer_skip_whitespace Q b.
Proof.
  intros Hh HQ. pose proof Hh as [E Hl Hn Hd]. unfold buffer_skip_whitespace.
  apply parses_bind, parses_peek. cbn [id]. rewrite (here_access _ _ _ Hh). cbn [negb].
  rewrite E. destruct (count_blanks_trim r) as (t & Hr & ->).
  pose proof Hn as Hnt. rewrite Hr in Hnt. apply no_nul_app in Hnt as [_ Hnt].
  assert (String.length r = String.length t + String.length (trim r))%nat as Hlr.
  { rewrite Hr at 1. apply length_app_string. }
  apply parses_bind. unfold skip, change, parses at 1. apply parses_bind, parses_peek. cbn [id].
  assert (str_drop (String.length t) (buffer_at_offset b) = trim r ++ nul)%string as Et.
  { rewrite E, Hr at 1. by rewrite string_app_assoc, str_drop_app. }
  unfold buffer_at_offset in Et. rewrite <- str_drop_add in Et.
  unfold strcmp_0. case_bool_decide as Etr.
  - cbn. destruct (Nat.eqb_spec (String.length t + 1 + b_offset b) (String.length (b_content b)))
      as [|Hne]; [|rewrite Etr in *; cbn in *; lia].
    apply HQ; [|cbn; lia]. constructor; cbn; try done; [|lia]. unfold buffer_at_offset. cbn.
    rewrite <- Et. f_equal. lia.
  - cbn. destruct (Nat.eqb_spec (String.length t + 0 + b_offset b) (String.length (b_content b)))
      as [Heq|Hne]; [lia|].
    apply parses_ret, HQ; [|cbn; lia]. constructor; cbn; try done; [|lia]. unfold buffer_at_offset. cbn.
    rewrite <- Et. f_equal. lia.
Qed.

Lemma parses_step_back Q r c d b :
  here (String c r) d b -> (b_offset b <> 0)%nat ->
  (forall b', before (String c r) d b' -> Q tt b') -> parses step_back Q b.
Proof.
  intros [E Hl Hn Hd] H0 HQ. apply HQ. unfold before. cbn [String.length] in Hl.
  constructor; try done; [|cbn; lia]. rewrite <- E.
  change (str_drop (S (Nat.pred (b_offset b))) (b_content b) = str_drop (b_offset b) (b_content b)).
  by rewrite Nat.succ_pred.
Qed.

Lemma parses_allocate Q b :
  (forall k, alloc k = true) \/ may_fail ->
  (forall b', buffer_at_offset b' = buffer_at_offset b -> b_offset b' = b_offset b ->
     b_content b' = b_content b -> b_depth b' = b_depth b -> Q tt b') ->
  parses (allocate alloc) Q b.
Proof.
  intros Ha HQ. unfold parses, allocate. destruct (alloc (b_allocs b)) eqn:E; [by apply HQ|].
  destruct Ha as [Ha|]; [|done]. by rewrite Ha in E.
Qed.

Lemma here_same r d b b' :
  here r d b -> b_offset b' = b_offset b -> b_content b' = b_content b -> b_depth b' = b_depth b ->
  here r d b'.
Proof.
  intros [E Hl Hn Hd] Ho Hc Hdb. constructor; unfold buffer_at_offset in *; congruence.
Qed.

Lemma parses_allocate_here Q r d b :
  (forall k, alloc k = true) \/ may_fail -> here r d b -> (forall b', here r d b' -> Q tt b') ->
  parses (allocate alloc) Q b.
Proof.
  intros Ha Hh HQ. apply parses_allocate; [done|]. intros b' _ Ho Hc Hd. apply HQ.
  by eapply here_same.
Qed.

Lemma parses_current Q r d b :
  here r d b ->
  Q (match r with String c _ => c | EmptyString => Ascii.zero end) b -> parses current Q b.
Proof. intros [E _ _ _] HQ. unfold parses, current. rewrite E. by destruct r. Qed.

Lemma parses_depth k Q r d b :
  here r d b -> (forall b', here r (k + d) b' -> b_offset b' = b_offset b -> Q tt b') ->
  parses (change (fun b => b <| b_depth ::= Z.add k |>)) Q b.
Proof.
  intros [E Hl Hn Hd] HQ. apply HQ; [|done]. constructor; try done. cbn. by rewrite Hd.
Qed.

(** The first step of every round of the loops. *)
Lemma parses_next Q r d b :
  (forall l, alloc l = true) \/ may_fail -> before r d b -> (forall b', here r d b' -> Q tt b') ->
  parses (allocate alloc;; skip 1) Q b.
Proof.
  intros Ha Hh HQ. apply parses_bind, parses_allocate; [done|]. intros b' _ Ho Hc Hd.
  apply HQ. unfold before in Hh. eapply here_same; [exact Hh|cbn..]; congruence.
Qed.

(** ** Strings *)

Lemma literal_app s text k :
  literal (s ++ nul) = Some (text, k) -> no_nul s ->
  exists rest, s = (text ++ quote_string ++ rest)%string.
Proof.
  assert (forall n s text k, (String.length s <= n)%nat -> literal (s ++ nul) = Some (text, k) ->
            no_nul s -> exists rest, s = (text ++ quote_string ++ rest)%string) as H; [|by eapply H].
  clear s text k. induction n as [|n IH]; intros s text k Hn H Hs.
  { destruct s; [done|cbn in Hn; lia]. }
  destruct s as [|c s]; [done|]. rewrite string_app_cons in H. apply no_nul_cons in Hs as [Hc Hs].
  cbn [literal String.length] in *. case_decide as E1; [|case_decide as E2].
  - injection H as <- <-. subst c. by exists s.
  - destruct s as [|e s].
    + change ("" ++ nul)%string with nul in H. cbn in H. discriminate.
    + rewrite string_app_cons in H. apply bind_Some in H as ([l k'] & H & [= <- <-]).
      apply no_nul_cons in Hs as [_ Hs]. cbn [String.length] in Hn.
      apply IH in H as (rest & ->); [|lia|done]. exists rest. by rewrite !string_app_cons.
  - apply bind_Some in H as ([l k'] & H & [= <- <-]). apply IH in H as (rest & ->); [|lia|done].
    exists rest. by rewrite !string_app_cons.
Qed.

(** [parse_string] reads a literal, or refuses. *)
Lemma parses_string_any Q r d b :
  may_fail -> here r d b ->
  (forall s r' b', here r' d b' -> (String.length r' < String.length r)%nat -> Q s b') ->
  parses (parse_string alloc) Q b.
Proof.
  intros Hf Hh HQ. unfold parse_string. apply parses_bind. eapply parses_current; [exact Hh|].
  case_decide as Eq; [by apply parses_refuse|].
  apply parses_bind, parses_peek. cbn [id]. pose proof Hh as [E _ Hn _]. rewrite E.
  destruct r as [|c r]; [discriminate Eq|]. subst c. rewrite string_app_cons. cbn [str_drop].
  destruct (literal (r ++ nul)%string) as [[text k]|] eqn:El; [|by apply parses_refuse].
  apply no_nul_cons in Hn as [_ Hn].
  destruct (literal_app _ _ _ El Hn) as (rest & Er).
  apply literal_pairs in El as [-> Hp].
  apply parses_bind. eapply parses_allocate_here; [by right|exact Hh|]. intros b1 Hh1.
  destruct (unescape 0 text) as [output|] eqn:Eu; [|by apply parses_refuse].
  pose proof (unescape_fits false text output Eu Hp).
  destruct (Nat.ltb_spec (1 + String.length text - pairs false text + 1) (String.length output + 1));
    [lia|].
  apply parses_bind. eapply (parses_skip _ _ rest (quote_string ++ text ++ quote_string)).
  - rewrite !string_app_assoc, <- Er. exact Hh1.
  - rewrite !length_app_string. cbn [quote_string String.length]. lia.
  - intros b2 Hh2. apply parses_ret. eapply HQ; [exact Hh2|]. subst r. cbn [String.length].
    rewrite !length_app_string. lia.
Qed.
End Parser.

(** ** Parsing ends

    In this part a parser may refuse. *)

Section Total.
Context (alloc : nat -> bool).

Abbreviation ends := (parses True).

(** What a parser leaves to read is shorter. *)
Definition shorter {A} (r : string) (d : Z) (_ : A) (b : parse_buffer) : Prop :=
  exists r', here r' d b /\ (String.length r' < String.length r)%nat.

Lemma ends_skip n Q r d b :
  here r d b -> (n <= String.length r)%nat -> (forall b', here (str_drop n r) d b' -> Q tt b') ->
  ends (skip n) Q b.
Proof.
  intros Hh Hn HQ. eapply (parses_skip True n Q _ (str_take n r)); [|rewrite length_str_take; lia|exact HQ].
  by rewrite str_take_drop.
Qed.

Lemma number_chars_length n r :
  (String.length (number_chars n (r ++ nul)) <= String.length r)%nat.
Proof.
  revert r. induction n as [|n IH]; intros r; [cbn; lia|]. destruct r as [|c r]; [by vm_compute|].
  rewrite string_app_cons. cbn [number_chars]. destruct (in_number c); cbn [String.length]; [|lia].
  specialize (IH r). lia.
Qed.

Lemma parse_number_ends r d b : here r d b -> ends parse_number (shorter r d) b.
Proof.
  intros Hh. unfold parse_number. apply parses_bind, parses_peek. cbn [id].
  rewrite (here_rest _ _ _ Hh). pose proof (number_chars_length 63 r) as Hl.
  destruct (scan_float _) as [[[x t] p]|] eqn:Es; [|by apply parses_refuse].
  apply scan_float_progress in Es. set (n := String.length (number_chars _ _)) in *.
  apply parses_bind. eapply ends_skip; [exact Hh|lia|]. intros b' Hh'. apply parses_ret.
  exists (str_drop (n - String.length t) r). split; [done|]. rewrite length_str_drop. lia.
Qed.

Lemma trim_length r : (String.length (trim r) <= String.length r)%nat.
Proof. induction r as [|c r IH]; [done|]. cbn [trim]. destruct (_ <=? _); cbn [String.length]; lia. Qed.

(** A parser of values that ends on what is not longer than [r]. *)
Definition value_ends (pv : parser cJSON) (n : nat) (d : Z) : Prop :=
  forall r b, here r d b -> (String.length r < n)%nat -> ends pv (shorter r d) b.

Lemma shorter_mono {A B} (r r' : string) d (x : A) (y : B) b :
  shorter r' d x b -> (String.length r' <= String.length r)%nat -> shorter r d y b.
Proof. intros (r'' & Hh & Hl) Hr. exists r''. split; [done|lia]. Qed.

Lemma here_before c r d b : here (String c r) d b -> before r d b.
Proof.
  intros [E Hl Hn Hd]. apply no_nul_cons in Hn as [_ Hn]. cbn [String.length] in Hl.
  constructor; try done; [|cbn; lia].
  change (str_drop (1 + b_offset b) (b_content b) = (r ++ nul)%string).
  rewrite Nat.add_comm, str_drop_add. unfold buffer_at_offset in E. rewrite E.
  by rewrite string_app_cons.
Qed.

(** The end of a round of either loop. *)
Lemma ends_round {A} (more : parser (list A)) (x : A) r r0 d b :
  here r d b -> (String.length r < String.length r0)%nat ->
  (forall r' b', before r' d b' -> (String.length r' < String.length r)%nat ->
     ends more (shorter r' d) b') ->
  ends (buffer_skip_whitespace;;
        b ← peek id;
        if can_access_at_index b 0 && next_is b "," then l ← more; mret (x :: l)
        else mret [x]) (shorter r0 d) b.
Proof.
  intros Hh Hl Hmore. apply parses_bind. eapply parses_whitespace; [exact Hh|]. intros b1 Hh1 _.
  pose proof (trim_length r) as Ht. apply parses_bind, parses_peek. cbn [id].
  rewrite (here_access _ _ _ Hh1), (here_next _ _ _ "," Hh1) by done. cbn [andb].
  assert (forall y : list A, shorter r0 d y b1) as Hstop by (exists (trim r); split; [done|lia]).
  destruct (trim r) as [|c r1]; [by apply parses_ret|].
  case_bool_decide; [|by apply parses_ret]. cbn [String.length] in Ht.
  apply parses_bind. eapply parses_mono; [eapply Hmore; [by eapply here_before|lia]|].
  intros l b2 Hs. apply parses_ret. eapply shorter_mono; [exact Hs|lia].
Qed.

Lemma parse_elements_ends pv d fuel r b n :
  value_ends pv n d -> before r d b -> (String.length r < n)%nat -> (String.length r < fuel)%nat ->
  ends (parse_elements alloc pv fuel) (shorter r d) b.
Proof.
  intros Hpv. revert r b. induction fuel as [|fuel IH]; intros r b Hh Hn Hf; [lia|].
  cbn [parse_elements]. apply parses_bind, parses_allocate; [by right|]. intros b1 _ Ho Hc Hd.
  apply parses_bind. unfold skip, change, parses at 1.
  assert (here r d (b1 <| b_offset ::= Nat.add 1 |>)) as Hh1.
  { eapply here_same; [exact Hh|cbn..]; congruence. }
  apply parses_bind. eapply parses_whitespace; [exact Hh1|]. intros b2 Hh2 _.
  pose proof (trim_length r) as Ht.
  apply parses_bind. eapply parses_mono; [eapply Hpv; [exact Hh2|lia]|].
  intros j b3 (r3 & Hh3 & Hl3). eapply ends_round; [exact Hh3|lia|].
  intros r' b' Hb' Hr'. apply IH; [done|lia..].
Qed.

Lemma parse_members_ends pv d fuel r b n :
  value_ends pv n d -> before r d b -> (String.length r < n)%nat -> (String.length r < fuel)%nat ->
  ends (parse_members alloc pv fuel) (shorter r d) b.
Proof.
  intros Hpv. revert r b. induction fuel as [|fuel IH]; intros r b Hh Hn Hf; [lia|].
  cbn [parse_members]. apply parses_bind, parses_allocate; [by right|]. intros b1 _ Ho Hc Hd.
  apply parses_bind. unfold skip, change, parses at 1.
  assert (here r d (b1 <| b_offset ::= Nat.add 1 |>)) as Hh1.
  { eapply here_same; [exact Hh|cbn..]; congruence. }
  apply parses_bind. eapply parses_whitespace; [exact Hh1|]. intros b2 Hh2 _.
  pose proof (trim_length r) as Ht.
  apply parses_bind. eapply parses_string_any; [done|exact Hh2|]. intros name r3 b3 Hh3 Hl3.
  apply parses_bind. eapply parses_whitespace; [exact Hh3|]. intros b4 Hh4 _.
  pose proof (trim_length r3) as Ht3. apply parses_bind, parses_peek. cbn [id].
  rewrite (here_access _ _ _ Hh4), (here_next _ _ _ ":" Hh4) by done. cbn [negb orb].
  destruct (trim r3) as [|c r4]; [by apply parses_refuse|].
  destruct (bool_decide (c = ":"%char)); [|by apply parses_refuse]. cbn [negb String.length] in *.
  apply parses_bind. unfold skip, change, parses at 1. apply here_before in Hh4. unfold before in Hh4.
  apply parses_bind. eapply parses_whitespace; [exact Hh4|]. intros b5 Hh5 _.
  pose proof (trim_length r4) as Ht4.
  apply parses_bind. eapply parses_mono; [eapply Hpv; [exact Hh5|lia]|].
  intros j b6 (r6 & Hh6 & Hl6). eapply ends_round; [exact Hh6|lia|].
  intros r' b' Hb' Hr'. apply IH; [done|lia..].
Qed.

(** The end of both functions, at the closing bracket. *)
Lemma ends_leave {A} (x : A) c r r0 d b :
  here (String c r) (1 + d) b -> (String.length r < String.length r0)%nat ->
  ends (leave x) (shorter r0 d) b.
Proof.
  intros Hh Hl. unfold leave. apply parses_bind. eapply parses_depth; [exact Hh|]. intros b1 Hh1 _.
  replace (-1 + (1 + d)) with d in Hh1 by lia.
  apply parses_bind. unfold skip, change, parses at 1. apply parses_ret.
  apply here_before in Hh1. by exists r.
Qed.

Lemma ends_enter Q r d b :
  here r d b -> (forall b', here r (1 + d) b' -> b_offset b' = b_offset b -> Q tt b') -> ends enter Q b.
Proof.
  intros Hh HQ. unfold enter. apply parses_bind, parses_peek. cbn [id].
  destruct (_ <=? _); [by apply parses_refuse|]. by eapply parses_depth.
Qed.

(** Behind the opening bracket: the empty case, or the loop and the closing bracket. *)
Lemma ends_body {A} (loop : parser (list A)) (f : list A -> cJSON) (close : ascii) c r d b :
  close <> Ascii.zero -> here (String c r) (1 + d) b ->
  (forall r' b', before r' (1 + d) b' -> (String.length r' <= String.length r)%nat ->
     ends loop (shorter r' (1 + d)) b') ->
  ends (skip 1;;
        buffer_skip_whitespace;;
        b ← peek id;
        if can_access_at_index b 0 && next_is b close then leave (f [])
        else if negb (can_access_at_index b 0) then refuse
        else
          step_back;;
          l ← loop;
          b ← peek id;
          if negb (can_access_at_index b 0) || negb (next_is b close) then refuse
          else leave (f l)) (shorter (String c r) d) b.
Proof.
  intros Hz Hh Hloop. apply parses_bind. unfold skip, change, parses at 1.
  apply here_before in Hh. unfold before in Hh.
  apply parses_bind. eapply parses_whitespace; [exact Hh|]. intros b1 Hh1 Hoff. cbn in Hoff.
  pose proof (trim_length r) as Ht. apply parses_bind, parses_peek. cbn [id].
  rewrite (here_access _ _ _ Hh1), (here_next _ _ _ close Hh1) by done. cbn [negb andb].
  destruct (trim r) as [|c1 r1] eqn:Er.
  - (* only blanks are left: the loop is entered, and finds nothing *)
    apply parses_bind. unfold step_back, change, parses at 1.
    assert (before "" (1 + d) (b1 <| b_offset ::= Nat.pred |>)) as Hb.
    { destruct Hh1 as [E1 Hl1 Hn1 Hd1]. constructor; try done; [|cbn in *; lia].
      change (str_drop (S (Nat.pred (b_offset b1))) (b_content b1) = "" ++ nul)%string.
      rewrite Nat.succ_pred by lia. exact E1. }
    apply parses_bind. eapply parses_mono; [eapply Hloop; [exact Hb|cbn; lia]|].
    intros l b2 (r2 & _ & Hl2). cbn in Hl2. lia.
  - case_bool_decide as Ec1.
    + eapply ends_leave; [exact Hh1|cbn [String.length] in *; lia].
    + apply parses_bind. eapply parses_step_back; [exact Hh1|lia|]. intros b2 Hb2.
      apply parses_bind. eapply parses_mono; [eapply Hloop; [exact Hb2|lia]|].
      intros l b3 (r3 & Hh3 & Hl3). apply parses_bind, parses_peek. cbn [id].
      rewrite (here_access _ _ _ Hh3), (here_next _ _ _ close Hh3) by done. cbn [negb orb].
      destruct r3 as [|c3 r3]; [by apply parses_refuse|].
      destruct (bool_decide (c3 = close)); [|by apply parses_refuse]. cbn [negb].
      eapply ends_leave; [exact Hh3|cbn [String.length] in *; lia].
Qed.

Lemma parse_value_ends fuel d :
  forall r b, here r d b -> (String.length r < fuel)%nat ->
  ends (parse_value alloc fuel) (shorter r d) b.
Proof.
  revert d. induction fuel as [|fuel IH]; intros d r b Hh Hf; [lia|].
  cbn [parse_value]. apply parses_bind, parses_peek. cbn [id].
  assert (forall t (j : cJSON), t <> EmptyString -> no_nul t -> reads b t = true ->
            ends (skip (String.length t);; mret j) (shorter r d) b) as Hword.
  { intros t j Hne Hnn Hr. rewrite (here_reads _ _ _ _ Hh) in Hr by done.
    unfold strcmp_0 in Hr. apply bool_decide_eq_true in Hr.
    assert (String.length t <= String.length r)%nat as Hlt.
    { rewrite <- Hr, length_str_take. lia. }
    apply parses_bind. eapply ends_skip; [exact Hh|done|]. intros b' Hb'. apply parses_ret.
    eexists. split; [exact Hb'|]. rewrite length_str_drop. destruct t; [done|]. cbn [String.length] in *. lia. }
  destruct (reads b "null") eqn:E1; [by apply (Hword "null"%string)|].
  destruct (reads b "false") eqn:E2; [by apply (Hword "false"%string)|].
  destruct (reads b "true") eqn:E3; [by apply (Hword "true"%string)|].
  rewrite (here_access _ _ _ Hh), (here_next _ _ _ quotation Hh), (here_rest _ _ _ Hh) by done.
  cbn [andb]. destruct r as [|c r]; [by apply parses_refuse|]. rewrite string_app_cons.
  destruct (bool_decide (c = quotation)).
  { apply parses_bind. eapply parses_string_any; [done|exact Hh|]. intros s r' b' Hh' Hl.
    apply parses_ret. by exists r'. }
  destruct (_ || _); [by apply parse_number_ends|]. cbn [String.length] in Hf.
  assert (value_ends (parse_value alloc fuel) fuel (1 + d)) as Hpv by (intros r' b'; apply IH).
  case_bool_decide as Ea; [|case_bool_decide as Eo; [|by apply parses_refuse]].
  - subst c. apply parses_bind. eapply ends_enter; [exact Hh|]. intros b1 Hh1 _.
    apply parses_bind. eapply parses_current; [exact Hh1|]. rewrite decide_False by (intros H; by apply H).
    apply (ends_body (parse_elements alloc (parse_value alloc fuel) fuel) JArray); [done|exact Hh1|].
    intros r' b' Hb' Hl. eapply parse_elements_ends; [exact Hpv|exact Hb'|lia..].
  - subst c. apply parses_bind. eapply ends_enter; [exact Hh|]. intros b1 Hh1 _.
    apply parses_bind, parses_peek. cbn [id].
    rewrite (here_access _ _ _ Hh1), (here_next _ _ _ "{" Hh1) by done.
    rewrite bool_decide_eq_true_2 by done. cbn [negb orb].
    apply (ends_body (parse_members alloc (parse_value alloc fuel) fuel) JObject); [done|exact Hh1|].
    intros r' b' Hb' Hl. eapply parse_members_ends; [exact Hpv|exact Hb'|lia..].
Qed.
End Total.

Lemma here_start t : no_nul t -> here t 0 (mk_parse_buffer (terminated t) 0 0 0).
Proof.
  intros Ht. constructor; try done. cbn [b_offset b_content]. unfold terminated.
  rewrite length_app_string. cbn. lia.
Qed.

(** C13: [cJSON_Parse] ends on every text, well-formed or not and whichever of its
    allocations fail, after at most as many recursive calls as there are characters, and
    never looks at a character outside the text or writes outside a string it allocated;
    the text is only required to be terminated. *)
Theorem parse_ends alloc value require_null_terminated :
  exists r, cJSON_ParseWithOpts alloc value require_null_terminated = Some r.
Proof.
  unfold cJSON_ParseWithOpts, cJSON_ParseWithLengthOpts. set (t := until_nul value).
  assert (strcmp_0 (terminated t) EmptyString = false) as -> by by destruct t.
  assert (parses True (allocate alloc;; skip_utf8_bom;; buffer_skip_whitespace;;
            item ← parse_value alloc (parse_fuel (terminated t));
            if (require_null_terminated : bool) then
              buffer_skip_whitespace;;
              b ← peek id;
              if negb (can_access_at_index b 0) || negb (next_is b Ascii.zero) then refuse
              else mret item
            else mret item) (fun _ _ => True) (mk_parse_buffer (terminated t) 0 0 0)) as H.
  { assert (here t 0 (mk_parse_buffer (terminated t) 0 0 0)) as Hh by by apply here_start, no_nul_until_nul.
    apply parses_bind. eapply parses_allocate_here; [by right|exact Hh|]. intros b1 Hh1.
    apply parses_bind.
    apply parses_mono with (Q := fun _ b => exists r, here r 0 b /\ (String.length r <= String.length t)%nat).
    { unfold skip_utf8_bom. apply parses_bind, parses_peek. cbn [id].
      set (bom := bytes_string [239; 187; 191]).
      destruct (can_access_at_index b1 4) eqn:Ea; [|apply parses_ret; by exists t]. cbn [andb].
      destruct (strcmp_0 _ bom) eqn:Eb; [|apply parses_ret; by exists t].
      assert (reads b1 bom = true) as Hr.
      { unfold reads. change (String.length bom) with 3%nat. rewrite Eb, andb_true_r.
        unfold can_access_at_index in Ea. unfold can_read. apply Nat.ltb_lt in Ea. apply Nat.leb_le. lia. }
      rewrite (here_reads _ _ _ _ Hh1) in Hr by done. unfold strcmp_0 in Hr.
      apply bool_decide_eq_true in Hr. apply (f_equal String.length) in Hr.
      rewrite length_str_take in Hr. change (String.length bom) with 3%nat in Hr.
      eapply (ends_skip 3); [exact Hh1|lia|]. intros b2 Hh2. eexists. split; [exact Hh2|].
      rewrite length_str_drop. lia. }
    intros [] b2 (r2 & Hh2 & Hl2). apply parses_bind. eapply parses_whitespace; [exact Hh2|].
    intros b3 Hh3 _. pose proof (trim_length r2). apply parses_bind. eapply parses_mono.
    { eapply parse_value_ends; [exact Hh3|]. unfold parse_fuel, terminated.
      rewrite length_app_string. cbn. lia. }
    intros j b4 (r4 & Hh4 & _). destruct require_null_terminated; [|by apply parses_ret].
    apply parses_bind. eapply parses_whitespace; [exact Hh4|]. intros b5 Hh5 _.
    apply parses_bind, parses_peek. destruct (_ || _); [by apply parses_refuse|by apply parses_ret]. }
  unfold parses in H. cbn [mbind option_bind].
  match type of H with match ?m with _ => _ end => destruct m as [[[j b]|]|] end; [..|done]; by eexists.
Qed.

(** Without the zero a text that ends behind a comma makes [parse_object] read the
    character after it. *)
Example parse_reads_beyond :
  cJSON_ParseWithLength (fun _ => true)
    ("{" ++ quote_string ++ "a" ++ quote_string ++ ":1,")%string = None.
Proof. vm_compute. done. Qed.

(** ** A printed string is read back *)

Inductive escape_form (c : ascii) : string -> Prop :=
| form_plain : c <> quotation -> c <> backslash -> escape_form c (String c EmptyString)
| form_short e :
    (forall t, escape_sequence (String backslash (String e t)) = Some (String c EmptyString, 2%nat)) ->
    escape_form c (String backslash (String e EmptyString))
| form_code a b :
    a <> quotation -> a <> backslash -> b <> quotation -> b <> backslash ->
    (forall t, parse_hex4 (String "0" (String "0" (String a (String b t)))) = code c) -> code c < 32 ->
    escape_form c (String backslash (String "u" (String "0" (String "0" (String a (String b EmptyString)))))).

Lemma escape_char_form c : escape_form c (escape_char c).
Proof.
  destruct c as [[] [] [] [] [] [] [] []]; vm_compute;
    first [ apply form_plain; discriminate
          | apply form_short; intros t; vm_compute; reflexivity
          | apply form_code; [discriminate..|intros t; vm_compute; reflexivity|vm_compute; reflexivity] ].
Qed.

Lemma literal_plain c t :
  c <> quotation -> c <> backslash ->
  literal (String c t) = '(l, k) ← literal t; Some (String c l, k).
Proof. intros. cbn [literal]. by rewrite !decide_False. Qed.

Lemma literal_pair c t :
  literal (String backslash (String c t)) = '(l, k) ← literal t; Some (String backslash (String c l), S k).
Proof. done. Qed.

Lemma literal_escape s x :
  exists k, literal (escape s ++ quote_string ++ x) = Some (escape s, k).
Proof.
  induction s as [|c s (k & IH)]; [by exists O|]. cbn [escape]. rewrite string_app_assoc.
  destruct (escape_char_form c) as [? ?|e He|a b]; rewrite !string_app_cons;
    change ("" ++ ?t)%string with t.
  - exists k. by rewrite literal_plain, IH.
  - exists (S k). by rewrite literal_pair, IH.
  - exists (S k). rewrite literal_pair, !literal_plain, IH by done. done.
Qed.

Lemma utf16_code c a b t :
  (forall t, parse_hex4 (String "0" (String "0" (String a (String b t)))) = code c) -> code c < 32 ->
  utf16_literal_to_utf8
    (String backslash (String "u" (String "0" (String "0" (String a (String b t))))))
  = Some (String c EmptyString, 6%nat).
Proof.
  intros Hp Hc. unfold utf16_literal_to_utf8. rewrite !strlen_cons. pose proof (strlen_nonneg t).
  destruct (Z.ltb_spec (strlen t + 1 + 1 + 1 + 1 + 1 + 1) 6); [lia|]. cbn [str_drop].
  rewrite Hp. pose proof (code_range c) as Hr. unfold is_uint in Hr.
  destruct (Z.leb_spec 0xDC00 (code c)), (Z.leb_spec 0xD800 (code c)); try lia. cbn [andb].
  unfold utf8. destruct (Z.ltb_spec (code c) 0x80); [|lia]. cbn [mbind option_bind utf8_bytes].
  change (0 =? 0) with true. cbn iota. do 3 f_equal.
  change 0x7F with (Z.ones 7). rewrite Z.land_ones, Z.mod_small by lia. by rewrite chr_code.
Qed.

Lemma unescape_escape s : unescape 0 (escape s) = Some s.
Proof.
  induction s as [|c s IH]; [done|]. cbn [escape].
  destruct (escape_char_form c) as [? Hb|e He|a b _ _ _ _ Hp Hc]; rewrite !string_app_cons;
    change ("" ++ ?t)%string with t.
  - cbn [unescape]. rewrite decide_False, IH by done. done.
  - cbn [unescape]. rewrite decide_True, He by done. cbn [mbind option_bind pred]. by rewrite IH.
  - cbn [unescape]. rewrite decide_True by done.
    match goal with |- context [escape_sequence ?x] =>
      change (escape_sequence x) with (utf16_literal_to_utf8 x) end.
    rewrite (utf16_code c) by done. cbn [mbind option_bind pred unescape]. by rewrite IH.
Qed.

(** ** A printed value is read back *)

(** What printing and parsing make of a value: numbers as their text has them, null for
    what is no number, the [valueint] of booleans as the parser sets it. *)
Fixpoint reparsed (j : cJSON) : cJSON :=
  match j with
  | JNull => JNull
  | JBool b _ => JBool b (if b then 1 else 0)
  | JNumber _ d => if finite d then cJSON_CreateNumber (reread d) else JNull
  | JString s => JString (until_nul s)
  | JArray l => JArray (map reparsed l)
  | JObject ms => JObject (map (fun m => (until_nul (fst m), reparsed (snd m))) ms)
  end.

(** How deep arrays and objects are nested. *)
Fixpoint nesting (j : cJSON) : Z :=
  match j with
  | JArray l => 1 + foldr Z.max 0 (map nesting l)
  | JObject ms => 1 + foldr Z.max 0 (map (fun m => nesting (snd m)) ms)
  | _ => 0
  end.

(** A text that does not go on with a number. *)
Definition stops (r : string) : Prop :=
  match r with String c _ => in_number c = false | EmptyString => True end.

Section Read.
Context (alloc : nat -> bool) (Halloc : forall k, alloc k = true) (fmt : bool).

Abbreviation reads_back := (parses False).

Lemma ends_allocate Q r d b :
  here r d b -> (forall b', here r d b' -> Q tt b') -> reads_back (allocate alloc) Q b.
Proof. intros Hh HQ. eapply parses_allocate_here; [by left|exact Hh|exact HQ]. Qed.

(** A text that begins with something else than a blank. *)
Definition solid (r : string) : Prop := trim r = r.

Lemma whitespace_solid Q r d b :
  here r d b -> solid r -> (forall b', here r d b' -> (b_offset b <= b_offset b')%nat -> Q tt b') ->
  reads_back buffer_skip_whitespace Q b.
Proof. intros Hh Hs HQ. eapply parses_whitespace; [exact Hh|]. by rewrite Hs. Qed.

Lemma reads_string s r d b Q :
  here (quoted s ++ r) d b -> (forall b', here r d b' -> Q (until_nul s) b') ->
  reads_back (parse_string alloc) Q b.
Proof.
  intros Hh HQ. unfold parse_string. set (t := until_nul s).
  assert (here (String quotation (escape t ++ quote_string ++ r)) d b) as Hh0.
  { revert Hh. unfold quoted, quote_string. rewrite !string_app_assoc. done. }
  apply parses_bind. eapply parses_current; [exact Hh0|]. cbn beta iota.
  rewrite decide_False by (intros H; by apply H).
  apply parses_bind, parses_peek. cbn [id]. rewrite (here_rest _ _ _ Hh0), string_app_cons.
  cbn [str_drop]. rewrite !string_app_assoc.
  destruct (literal_escape t (r ++ nul)%string) as (k & Hl). rewrite Hl.
  apply literal_pairs in Hl as [-> Hp].
  apply parses_bind. eapply ends_allocate; [exact Hh0|]. intros b1 Hh1.
  pose proof (unescape_escape t) as Hu. rewrite Hu.
  pose proof (unescape_fits false (escape t) t Hu Hp).
  destruct (Nat.ltb_spec (1 + String.length (escape t) - pairs false (escape t) + 1)
              (String.length t + 1)); [lia|].
  apply parses_bind. eapply (parses_skip _ _ _ r (quote_string ++ escape t ++ quote_string)).
  - rewrite !string_app_assoc. exact Hh1.
  - rewrite !length_app_string. cbn [quote_string String.length]. lia.
  - intros b2 Hh2. apply parses_ret. unfold t. rewrite until_nul_id by apply no_nul_until_nul.
    by apply HQ.
Qed.

Lemma number_chars_text n t r :
  chars number_char t = true -> stops r -> (String.length t < n)%nat ->
  number_chars n (t ++ r ++ nul) = t.
Proof.
  revert n. induction t as [|c t IH]; intros n Ht Hr Hn.
  - change ("" ++ r ++ nul)%string with (r ++ nul)%string. destruct n as [|n]; [done|].
    destruct r as [|c r]; [done|]. rewrite string_app_cons. cbn [number_chars]. by rewrite Hr.
  - destruct n as [|n]; [cbn in Hn; lia|]. rewrite chars_cons in Ht. apply andb_true_iff in Ht as [Hc Ht].
    rewrite !string_app_cons. cbn [number_chars String.length] in *.
    change (in_number c) with (number_char c). rewrite Hc. f_equal. apply IH; [done|done|lia].
Qed.

Lemma reads_number x r d b Q :
  valid_double x -> finite x = true -> stops r -> here (number_text x ++ r) d b ->
  (forall b', here r d b' -> Q (cJSON_CreateNumber (reread x)) b') ->
  reads_back parse_number Q b.
Proof.
  intros Hv Hf Hr Hh HQ. unfold parse_number. apply parses_bind, parses_peek. cbn [id].
  pose proof (number_text_length x Hv) as Hl. unfold strlen in Hl.
  rewrite (here_rest _ _ _ Hh), string_app_assoc.
  assert (chars number_char (number_text x) = true) as Hc.
  { destruct (number_text_cases x) as [E|]; [|done].
    pose proof (scan_number_text x Hf) as Hs. rewrite E in Hs. discriminate Hs. }
  rewrite number_chars_text by (done || lia). rewrite (scan_number_text x Hf).
  apply parses_bind. eapply (parses_skip _ _ _ r (number_text x)); [exact Hh|cbn; lia|].
  intros b' Hh'. apply parses_ret. by apply HQ.
Qed.

(** ** What a value begins with *)

Lemma reads_other b r d t c a u :
  here (String c r) d b -> t = String a u -> c <> a -> no_nul t -> reads b t = false.
Proof.
  intros Hh -> Hca Hn. rewrite (here_reads _ _ _ _ Hh) by done. unfold strcmp_0.
  apply bool_decide_eq_false. cbn [String.length str_take]. congruence.
Qed.

(** The first character of a value, and what it says. *)
Lemma number_head x :
  finite x = true ->
  exists c t, number_text x = String c t /\ (bool_decide (c = "-"%char) || isdigit c = true).
Proof.
  intros Hf. destruct (number_text_numeral x Hf) as (minus & w & f & e & -> & Hw & Hne & _ & _).
  destruct minus; [by exists "-"%char, (w ++ f ++ e)%string|].
  destruct w as [|c w]; [done|]. rewrite chars_cons in Hw. apply andb_true_iff in Hw as [Hc _].
  exists c, (w ++ f ++ e)%string. split; [done|]. by rewrite Hc, orb_true_r.
Qed.

Lemma number_start_code c :
  bool_decide (c = "-"%char) || isdigit c = true ->
  45 <= code c <= 57.
Proof.
  intros [H|H]%orb_true_iff; [apply bool_decide_eq_true in H; subst c; by vm_compute|].
  unfold isdigit in H. apply andb_true_iff in H as [H1 H2]. apply Z.leb_le in H1, H2. lia.
Qed.

Lemma render_solid depth j r : solid (render fmt depth j ++ r).
Proof.
  assert (forall c t, 32 < code c -> solid (String c t)) as Hs.
  { intros c t Hc. unfold solid. cbn [trim]. destruct (Z.leb_spec (code c) 32); [lia|done]. }
  destruct j as [|[] z|z x|s|l|ms]; cbn [render]; try by apply Hs.
  destruct (finite x) eqn:Hf.
  - destruct (number_head x Hf) as (c & t & -> & Hc). apply number_start_code in Hc.
    apply Hs. lia.
  - destruct x; try done; by apply Hs.
Qed.

Lemma trim_app t r :
  chars (fun c => code c <=? 32) t = true -> trim (t ++ r) = trim r.
Proof.
  induction t as [|c t IH]; [done|]. rewrite chars_cons. intros [Hc Ht]%andb_true_iff.
  rewrite string_app_cons. cbn [trim]. rewrite Hc. auto.
Qed.

(** ** Values *)

Definition reads_value (j : cJSON) : Prop := forall fuel depth d r b,
  numbers valid_double j -> d + nesting j <= CJSON_NESTING_LIMIT -> stops r ->
  here (render fmt depth j ++ r) d b ->
  (String.length (render fmt depth j ++ r) < fuel)%nat ->
  reads_back (parse_value alloc fuel) (fun j' b' => j' = reparsed j /\ here r d b') b.

Lemma before_trim Q w t d b :
  before w d b -> trim w = t ->
  (forall b', here t d b' -> Q tt b') ->
  reads_back (allocate alloc;; skip 1;; buffer_skip_whitespace) Q b.
Proof.
  intros Hh Ht HQ. apply parses_bind, parses_allocate; [by left|]. intros b1 _ Ho Hc Hd.
  apply parses_bind. unfold skip, change, parses at 1.
  eapply parses_whitespace with (r := w) (d := d); [|intros b2 Hh2 _; apply HQ; by rewrite <- Ht].
  eapply here_same; [exact Hh|cbn..]; congruence.
Qed.

(** The three steps that begin a round, whatever follows them. *)
Lemma round_start {A} (k : unit -> parser A) Q w t d b :
  before w d b -> trim w = t -> (forall b', here t d b' -> reads_back (k tt) Q b') ->
  reads_back (allocate alloc;; skip 1;; buffer_skip_whitespace ≫= k) Q b.
Proof.
  intros Hh Ht HQ.
  assert (reads_back (allocate alloc;; skip 1;; buffer_skip_whitespace) (fun _ b => here t d b) b) as H.
  { eapply before_trim; [exact Hh|exact Ht|done]. }
  unfold parses, mbind, attempt_bind in *. destruct (allocate alloc b) as [[[[] b1]|]|]; try done.
  destruct (skip 1 b1) as [[[[] b2]|]|]; try done.
  destruct (buffer_skip_whitespace b2) as [[[[] b3]|]|]; try done. by apply HQ.
Qed.

Definition separator : string := if fmt then ", " else ",".

Lemma reads_elements l r depth d fuel n w b :
  Forall reads_value l -> Forall (numbers valid_double) l ->
  Forall (fun j => d + nesting j <= CJSON_NESTING_LIMIT) l -> l <> [] ->
  before w d b -> trim w = (String.concat separator (map (render fmt depth) l) ++ "]" ++ r)%string ->
  (String.length w < n)%nat -> (String.length w < fuel)%nat ->
  reads_back (parse_elements alloc (parse_value alloc n) fuel)
    (fun l' b' => l' = map reparsed l /\ here ("]" ++ r) d b') b.
Proof.
  intros Hl Hn Hd Hne. revert w fuel b. induction Hl as [|j l Hj Hl IH]; intros w fuel b Hh Hw Hln Hlf;
    [done|]. apply Forall_cons in Hn as [Hnj Hn]. apply Forall_cons in Hd as [Hdj Hd].
  destruct fuel as [|fuel]; [lia|]. cbn [parse_elements].
  pose proof (trim_length w) as Htw. rewrite Hw in Htw.
  eapply round_start; [exact Hh|exact Hw|]. intros b1 Hh1. cbn [map] in *.
  set (rest := (match l with [] => "" | _ => separator ++ String.concat separator (map (render fmt depth) l) end
                ++ "]" ++ r)%string).
  assert (String.concat separator (render fmt depth j :: map (render fmt depth) l) ++ "]" ++ r
          = render fmt depth j ++ rest)%string as Er.
  { unfold rest. destruct l; [done|]. cbn [map]. by rewrite concat_cons2, !string_app_assoc. }
  rewrite Er in Hh1, Htw. rewrite length_app_string in Htw.
  assert (stops rest /\ solid rest) as [Hstop Hsolid].
  { unfold rest, separator. destruct l, fmt; done. }
  apply parses_bind. eapply parses_mono.
  { eapply Hj; [exact Hnj|exact Hdj|exact Hstop|exact Hh1|rewrite length_app_string; lia]. }
  intros j' b2 [-> Hh2]. apply parses_bind. eapply whitespace_solid; [exact Hh2|exact Hsolid|].
  intros b3 Hh3 _. apply parses_bind, parses_peek. cbn [id].
  rewrite (here_access _ _ _ Hh3), (here_next _ _ _ "," Hh3) by done. cbn [andb].
  destruct l as [|j2 l].
  - unfold rest in Hh3 |- *. change ("" ++ "]" ++ r)%string with (String "]" r) in Hh3 |- *.
    cbn. apply parses_ret. done.
  - set (w' := ((if fmt then " " else "") ++ String.concat separator (map (render fmt depth) (j2 :: l))
                ++ "]" ++ r)%string).
    assert (rest = String "," w') as Ew.
    { unfold rest, w', separator. rewrite string_app_assoc. by destruct fmt. }
    rewrite Ew in Hh3 |- *. rewrite bool_decide_eq_true_2 by done.
    rewrite Ew in Htw. cbn [String.length] in Htw.
    apply parses_bind. eapply parses_mono.
    { eapply (IH Hn Hd ltac:(done) w'); [by eapply here_before| |lia|lia].
      unfold w'. rewrite trim_app by by destruct fmt.
      pose proof (render_solid depth j2) as Hs. cbn [map].
      destruct l as [|j3 l]; [exact (Hs _)|]. cbn [map]. rewrite concat_cons2, !string_app_assoc.
      exact (Hs _). }
    intros l' b4 [-> Hh4]. by apply parses_ret.
Qed.

(** A member and what follows it, up to the closing brace. *)
Definition member (depth : Z) (m : string * cJSON) : string :=
  (quoted (fst m) ++ ":" ++ (if fmt then tab else "") ++ render fmt depth (snd m))%string.

Fixpoint members_from (depth : Z) (ms : list (string * cJSON)) (r : string) : string :=
  match ms with
  | [] => r
  | m :: ms =>
      member depth m ++
      (match ms with [] => "" | _ => "," end ++ line_end fmt ++
       match ms with [] => "" | _ => indent fmt depth end) ++ members_from depth ms r
  end%string.

Lemma lines_from depth ms r :
  ms <> [] -> (lines fmt (map (line fmt depth) ms) ++ r = indent fmt depth ++ members_from depth ms r)%string.
Proof.
  induction ms as [|m ms IH]; [done|]. intros _. cbn [map members_from]. rewrite lines_cons.
  unfold line at 1, member. rewrite !string_app_assoc. do 5 f_equal.
  destruct ms as [|m2 ms]; [done|]. rewrite IH by done. by rewrite ?string_app_assoc.
Qed.

Lemma blank_indent depth : chars (fun c => code c <=? 32) (indent fmt depth) = true.
Proof. unfold indent, tabs. destruct fmt; [|done]. by apply chars_fill. Qed.

Lemma blank_line_end : chars (fun c => code c <=? 32) (line_end fmt) = true.
Proof. unfold line_end. by destruct fmt. Qed.

Lemma members_solid depth ms r : solid r -> solid (members_from depth ms r).
Proof. intros Hr. by destruct ms. Qed.

Lemma reads_members ms r depth d fuel n w b :
  Forall (fun m => reads_value (snd m)) ms -> Forall (fun m => numbers valid_double (snd m)) ms ->
  Forall (fun m => d + nesting (snd m) <= CJSON_NESTING_LIMIT) ms -> ms <> [] ->
  before w d b -> trim w = members_from depth ms (indent fmt (depth - 1) ++ "}" ++ r) ->
  (String.length w < n)%nat -> (String.length w < fuel)%nat ->
  reads_back (parse_members alloc (parse_value alloc n) fuel)
    (fun l' b' => l' = map (fun m => (until_nul (fst m), reparsed (snd m))) ms /\
                  here ("}" ++ r) d b') b.
Proof.
  set (stop := (indent fmt (depth - 1) ++ "}" ++ r)%string).
  intros Hm Hn Hd Hne. revert w fuel b.
  induction Hm as [|[name j] ms Hj Hm IH]; intros w fuel b Hh Hw Hln Hlf; [done|].
  apply Forall_cons in Hn as [Hnj Hn]. apply Forall_cons in Hd as [Hdj Hd]. cbn [snd] in *.
  destruct fuel as [|fuel]; [lia|]. cbn [parse_members].
  pose proof (trim_length w) as Htw. rewrite Hw in Htw.
  eapply round_start; [exact Hh|exact Hw|]. intros b1 Hh1. cbn [members_from] in Hh1, Htw.
  unfold member in Hh1, Htw. cbn [fst snd] in Hh1, Htw. rewrite !string_app_assoc in Hh1, Htw.
  set (value := render fmt depth j) in *. set (more := members_from depth ms stop) in *.
  set (rest := (match ms with [] => "" | _ => "," end ++ line_end fmt ++
                match ms with [] => "" | _ => indent fmt depth end ++ more)%string) in *.
  rewrite !length_app_string in Htw.
  assert (stops rest) as Hstop.
  { unfold rest, more, line_end, stop, indent, tabs. by destruct ms, fmt. }
  apply parses_bind. eapply reads_string; [exact Hh1|]. intros b2 Hh2.
  apply parses_bind. eapply whitespace_solid; [exact Hh2|done|]. intros b3 Hh3 _.
  apply parses_bind, parses_peek. cbn [id].
  change (":" ++ ?t)%string with (String ":" t) in Hh3.
  rewrite (here_access _ _ _ Hh3), (here_next _ _ _ ":" Hh3) by done.
  rewrite bool_decide_eq_true_2 by done. cbn [negb orb].
  apply parses_bind. unfold skip, change, parses at 1. apply here_before in Hh3. unfold before in Hh3.
  apply parses_bind. eapply parses_whitespace; [exact Hh3|]. intros b4 Hh4 _.
  rewrite trim_app in Hh4 by by destruct fmt.
  pose proof (render_solid depth j rest) as Hs. unfold solid in Hs. fold value in Hs. rewrite Hs in Hh4.
  apply parses_bind. eapply parses_mono.
  { eapply Hj; [exact Hnj|exact Hdj|exact Hstop|exact Hh4|]. fold value. rewrite length_app_string.
    change (String.length ":") with 1%nat in Htw. lia. }
  intros j' b5 [-> Hh5]. apply parses_bind. eapply parses_whitespace; [exact Hh5|]. intros b6 Hh6 _.
  apply parses_bind, parses_peek. cbn [id].
  destruct ms as [|m2 ms].
  - assert (trim rest = String "}" r) as E.
    { change rest with (line_end fmt ++ stop)%string.
      rewrite trim_app by apply blank_line_end. unfold stop. by rewrite trim_app by apply blank_indent. }
    rewrite E in Hh6. rewrite (here_access _ _ _ Hh6), (here_next _ _ _ "," Hh6) by done. by apply parses_ret.
  - assert (rest = String "," (line_end fmt ++ indent fmt depth ++ more)) as E by done.
    rewrite E in Hh6. change (trim (String "," ?t)) with (String "," t) in Hh6.
    rewrite (here_access _ _ _ Hh6), (here_next _ _ _ "," Hh6) by done.
    rewrite bool_decide_eq_true_2 by done. cbn [andb]. rewrite E in Htw. cbn [String.length] in Htw.
    change (String.length ":") with 1%nat in Htw.
    apply parses_bind. eapply parses_mono.
    { eapply (IH Hn Hd ltac:(done)); [by eapply here_before| |lia|lia].
      rewrite trim_app by apply blank_line_end. rewrite trim_app by apply blank_indent. done. }
    intros l' b7 [-> Hh7]. by apply parses_ret.
Qed.

Lemma nesting_nonneg j : 0 <= nesting j.
Proof.
  assert (forall l, 0 <= foldr Z.max 0 l) as H by (induction l; cbn; lia).
  destruct j; cbn [nesting]; try lia.
  - specialize (H (map nesting items)). lia.
  - specialize (H (map (fun m => nesting (snd m)) members)). lia.
Qed.

Lemma foldr_max_le {A} (f : A -> Z) l k :
  foldr Z.max 0 (map f l) <= k -> Forall (fun x => f x <= k) l.
Proof. induction l as [|x l IH]; cbn; intros H; constructor; [lia|]. apply IH. lia. Qed.

Lemma enter_deep Q r d b :
  here r d b -> d < CJSON_NESTING_LIMIT -> (forall b', here r (1 + d) b' -> Q tt b') ->
  reads_back enter Q b.
Proof.
  intros Hh Hd HQ. unfold enter. apply parses_bind, parses_peek. cbn [id].
  rewrite (here_depth _ _ _ Hh). destruct (Z.leb_spec CJSON_NESTING_LIMIT d); [lia|].
  eapply parses_depth; [exact Hh|]. intros b' Hb' _. by apply HQ.
Qed.

Lemma leave_at {A} (x : A) Q c r d b :
  here (String c r) (1 + d) b -> (forall b', here r d b' -> Q x b') -> reads_back (leave x) Q b.
Proof.
  intros Hh HQ. unfold leave. apply parses_bind. eapply parses_depth; [exact Hh|]. intros b1 Hh1 _.
  replace (-1 + (1 + d)) with d in Hh1 by lia.
  apply parses_bind. unfold skip, change, parses at 1. apply parses_ret, HQ.
  by apply here_before in Hh1.
Qed.

(** Behind the opening bracket: [t] is what the loop reads. *)
Lemma reads_body {A} (loop : parser (list A)) (f : list A -> cJSON) (close : ascii) l c w r d b :
  close <> Ascii.zero -> here (String c w) (1 + d) b ->
  (l = [] -> trim w = String close r) ->
  (l <> [] -> match trim w with String a _ => a <> close | EmptyString => False end /\
     forall b', before (trim w) (1 + d) b' ->
       reads_back loop (fun l' b' => l' = l /\ here (String close r) (1 + d) b') b') ->
  reads_back (skip 1;;
        buffer_skip_whitespace;;
        b ← peek id;
        if can_access_at_index b 0 && next_is b close then leave (f [])
        else if negb (can_access_at_index b 0) then refuse
        else
          step_back;;
          l ← loop;
          b ← peek id;
          if negb (can_access_at_index b 0) || negb (next_is b close) then refuse
          else leave (f l)) (fun j b' => j = f l /\ here r d b') b.
Proof.
  intros Hz Hh Hempty Hloop. apply parses_bind. unfold skip, change, parses at 1.
  apply here_before in Hh. unfold before in Hh.
  apply parses_bind. eapply parses_whitespace; [exact Hh|]. intros b1 Hh1 Hoff. cbn in Hoff.
  apply parses_bind, parses_peek. cbn [id].
  rewrite (here_access _ _ _ Hh1), (here_next _ _ _ close Hh1) by done. cbn [negb andb].
  destruct l as [|x l].
  - rewrite Hempty in Hh1 |- * by done. rewrite bool_decide_eq_true_2 by done.
    eapply leave_at; [exact Hh1|done].
  - destruct (Hloop ltac:(done)) as [Hhead Hl]. destruct (trim w) as [|a w'] eqn:Ew; [done|].
    rewrite bool_decide_eq_false_2 by done.
    apply parses_bind. eapply parses_step_back; [exact Hh1|lia|]. intros b2 Hb2.
    apply parses_bind. eapply parses_mono; [by apply Hl|]. intros l' b3 [-> Hh3].
    apply parses_bind, parses_peek. cbn [id].
    rewrite (here_access _ _ _ Hh3), (here_next _ _ _ close Hh3) by done.
    rewrite bool_decide_eq_true_2 by done. cbn [negb orb]. by eapply leave_at.
Qed.

Lemma reads_word t j r d b Q :
  here (t ++ r) d b -> (forall b', here r d b' -> Q j b') ->
  reads_back (skip (String.length t);; mret (j : cJSON)) Q b.
Proof.
  intros Hh HQ. apply parses_bind. eapply parses_skip; [exact Hh|done|]. intros b' Hh'.
  by apply parses_ret, HQ.
Qed.

Lemma reads_yes b r d t :
  here (t ++ r) d b -> t <> EmptyString -> no_nul t -> reads b t = true.
Proof.
  intros Hh Hne Hn. rewrite (here_reads _ _ _ _ Hh) by done.
  rewrite str_take_app. by apply bool_decide_eq_true.
Qed.

Lemma concat_head depth j l x :
  exists y, (String.concat separator (map (render fmt depth) (j :: l)) ++ x)%string
            = (render fmt depth j ++ y)%string.
Proof.
  destruct l as [|j2 l]; [by exists x|]. eexists. cbn [map]. rewrite concat_cons2, !string_app_assoc. done.
Qed.

(** No value begins with a closing bracket. *)
Lemma render_no_bracket depth j y :
  match (render fmt depth j ++ y)%string with
  | String a _ => a <> "]"%char
  | EmptyString => False
  end.
Proof.
  destruct j as [|[] z|z x|s|l|ms]; cbn [render]; try done.
  destruct (finite x) eqn:Hf.
  - destruct (number_head x Hf) as (c & t & -> & Hc). apply number_start_code in Hc.
    rewrite string_app_cons. intros ->. revert Hc. vm_compute. intuition congruence.
  - by destruct x.
Qed.

(** The tests on the first character that a value passes before its own. *)
Lemma parse_value_starts fuel c t d b Q :
  here (String c t) d b -> c <> "n"%char -> c <> "f"%char -> c <> "t"%char ->
  reads_back
    (if bool_decide (c = quotation) then s ← parse_string alloc; mret (JString s)
     else if bool_decide (c = "-"%char) || isdigit c then parse_number
     else if bool_decide (c = "["%char) then parse_array alloc (parse_value alloc fuel) fuel
     else if bool_decide (c = "{"%char) then parse_object alloc (parse_value alloc fuel) fuel
     else refuse) Q b ->
  reads_back (parse_value alloc (S fuel)) Q b.
Proof.
  intros Hh Hn Hf Ht H. cbn [parse_value]. apply parses_bind, parses_peek. cbn [id].
  rewrite (reads_other b t d "null" c "n" "ull" Hh), (reads_other b t d "false" c "f" "alse" Hh),
    (reads_other b t d "true" c "t" "rue" Hh) by done.
  rewrite (here_access _ _ _ Hh), (here_next _ _ _ quotation Hh), (here_rest _ _ _ Hh) by done.
  exact H.
Qed.

Lemma reads_array l : Forall reads_value l -> reads_value (JArray l).
Proof.
  intros Hl [|fuel] depth d r b Hn Hd Hr Hh Hf; [lia|].
  apply numbers_array in Hn. cbn [nesting] in Hd. cbn [render] in Hh, Hf.
  rewrite !string_app_assoc in Hh, Hf. fold separator in Hh, Hf.
  set (w := (String.concat separator (map (render fmt (1 + depth)) l) ++ "]" ++ r)%string) in *.
  assert (0 <= foldr Z.max 0 (map nesting l)) as H0 by (clear; induction l; cbn; lia).
  eapply parse_value_starts; [exact Hh|done..|].
  apply parses_bind. eapply enter_deep; [exact Hh|lia|]. intros b1 Hh1.
  apply parses_bind. eapply parses_current; [exact Hh1|]. cbn beta iota.
  rewrite decide_False by (intros H; by apply H).
  change (?a ++ w)%string with (String "[" w) in Hh1.
  assert (String.length w < fuel)%nat as Hfw.
  { change ("[" ++ w)%string with (String "[" w) in Hf. cbn [String.length] in Hf. lia. }
  assert (l <> [] -> trim w = w) as Hw.
  { intros Hne. destruct l as [|j l]; [done|]. unfold w.
    destruct (concat_head (1 + depth) j l ("]" ++ r)) as (y & ->). apply render_solid. }
  apply (reads_body _ JArray "]" (map reparsed l) "[" w r); [done|exact Hh1| |].
  - destruct l; [done|discriminate].
  - intros Hne. assert (l <> []) as Hne' by by destruct l. rewrite (Hw Hne'). split.
    + destruct l as [|j l]; [done|]. unfold w.
      destruct (concat_head (1 + depth) j l ("]" ++ r)) as (y & ->). apply render_no_bracket.
    + intros b' Hb'. eapply (reads_elements l r (1 + depth)); [exact Hl|exact Hn| |exact Hne'|exact Hb'|
        exact (Hw Hne')|exact Hfw|exact Hfw].
      assert (foldr Z.max 0 (map nesting l) <= CJSON_NESTING_LIMIT - 1 - d) as Hd' by lia.
      apply foldr_max_le in Hd'. eapply Forall_impl; [exact Hd'|]. cbn. lia.
Qed.

Lemma reads_object ms : Forall (fun m => reads_value (snd m)) ms -> reads_value (JObject ms).
Proof.
  intros Hm [|fuel] depth d r b Hn Hd Hr Hh Hf; [lia|].
  apply numbers_object in Hn. cbn [nesting] in Hd. cbn [render] in Hh, Hf.
  fold (line fmt (1 + depth)) in Hh, Hf. rewrite !string_app_assoc in Hh, Hf.
  set (w := (line_end fmt ++ lines fmt (map (line fmt (1 + depth)) ms) ++ indent fmt depth ++ "}" ++ r)%string)
    in *.
  assert (0 <= foldr Z.max 0 (map (fun m => nesting (snd m)) ms)) as H0 by (clear; induction ms; cbn; lia).
  eapply parse_value_starts; [exact Hh|done..|].
  apply parses_bind. eapply enter_deep; [exact Hh|lia|]. intros b1 Hh1.
  apply parses_bind, parses_peek. cbn [id].
  change (?a ++ w)%string with (String "{" w) in Hh1.
  rewrite (here_access _ _ _ Hh1), (here_next _ _ _ "{" Hh1) by done.
  rewrite bool_decide_eq_true_2 by done. cbn [negb orb].
  assert (String.length w < fuel)%nat as Hfw.
  { change ("{" ++ w)%string with (String "{" w) in Hf. cbn [String.length] in Hf. lia. }
  pose proof (trim_length w) as Htw.
  assert (ms <> [] -> trim w = members_from (1 + depth) ms (indent fmt (1 + depth - 1) ++ "}" ++ r)) as Hw.
  { intros Hne. unfold w. rewrite trim_app by apply blank_line_end. rewrite lines_from by done.
    rewrite trim_app by apply blank_indent. replace (1 + depth - 1) with depth by lia. by destruct ms. }
  eapply (reads_body _ JObject "}" (map (fun m => (until_nul (fst m), reparsed (snd m))) ms) "{" w r);
    [done|exact Hh1| |].
  - destruct ms; [|discriminate]. intros _. unfold w. rewrite trim_app by apply blank_line_end.
    change (lines fmt (map (line fmt (1 + depth)) []) ++ ?t)%string with t.
    by rewrite trim_app by apply blank_indent.
  - intros Hne. assert (ms <> []) as Hne' by by destruct ms. rewrite (Hw Hne') in Htw |- *. split.
    + by destruct ms.
    + intros b' Hb'. eapply (reads_members ms r (1 + depth)); [exact Hm|exact Hn| |exact Hne'|exact Hb'| |lia|lia].
      * assert (foldr Z.max 0 (map (fun m => nesting (snd m)) ms) <= CJSON_NESTING_LIMIT - 1 - d) as Hd' by lia.
        apply (foldr_max_le (fun m => nesting (snd m))) in Hd'. eapply Forall_impl; [exact Hd'|]. cbn. lia.
      * by destruct ms.
Qed.

Lemma parse_value_reads j : reads_value j.
Proof.
  induction j as [|v z|z x|s|l Hl|ms Hm] using cJSON_nested_ind;
    intros [|fuel] depth d r b Hn Hd Hr Hh Hf; try lia.
  - cbn [parse_value]. apply parses_bind, parses_peek. cbn [id].
    rewrite (reads_yes b r d "null" Hh) by done. by apply (reads_word "null" JNull r d).
  - cbn [parse_value]. apply parses_bind, parses_peek. cbn [id]. cbn [render] in Hh.
    destruct v; change (?t ++ r)%string with (t ++ r)%string in Hh.
    + rewrite (reads_other b ("rue" ++ r) d "null" "t" "n" "ull" Hh),
        (reads_other b ("rue" ++ r) d "false" "t" "f" "alse" Hh), (reads_yes b r d "true" Hh) by done.
      by apply (reads_word "true" _ r d).
    + rewrite (reads_other b ("alse" ++ r) d "null" "f" "n" "ull" Hh), (reads_yes b r d "false" Hh) by done.
      by apply (reads_word "false" _ r d).
  - cbn [render reparsed numbers] in *. destruct (finite x) eqn:Hfin.
    + destruct (number_head x Hfin) as (c & t & E & Hc). pose proof (number_start_code c Hc) as Hcode.
      pose proof Hh as Hh'. rewrite E, string_app_cons in Hh'.
      assert (forall a, 57 < code a \/ code a < 45 -> c <> a) as Hca by (intros a Ha ->; lia).
      eapply parse_value_starts; [exact Hh'|by apply Hca; left..|].
      rewrite (bool_decide_eq_false_2 (c = quotation)) by by apply Hca; right.
      rewrite Hc. eapply reads_number; [exact Hn|done|exact Hr|exact Hh|done].
    + assert (number_text x = "null"%string) as E by by destruct x. rewrite E in Hh.
      cbn [parse_value]. apply parses_bind, parses_peek. cbn [id].
      rewrite (reads_yes b r d "null" Hh) by done. by apply (reads_word "null" JNull r d).
  - eapply parse_value_starts; [exact Hh|done..|]. rewrite bool_decide_eq_true_2 by done.
    apply parses_bind. eapply reads_string; [exact Hh|]. intros b' Hh'. by apply parses_ret.
  - by apply (reads_array l Hl (S fuel) depth d r b).
  - by apply (reads_object ms Hm (S fuel) depth d r b).
Qed.
End Read.

Lemma render_head fmt depth j : exists c t, render fmt depth j = String c t /\ code c < 128.
Proof.
  destruct j as [|[] z|z x|s|l|ms]; cbn [render]; try (by eexists _, _).
  destruct (finite x) eqn:Hf.
  - destruct (number_head x Hf) as (c & t & -> & Hc). apply number_start_code in Hc.
    exists c, t. split; [done|lia].
  - destruct x; try done; by eexists _, _.
Qed.

Lemma parse_render alloc j fmt :
  (forall k, alloc k = true) -> numbers valid_double j -> nesting j <= CJSON_NESTING_LIMIT ->
  cJSON_Parse alloc (render fmt 0 j) = Some (Some (reparsed j)).
Proof.
  intros Ha Hn Hd. pose proof (render_no_nul fmt 0 j) as Hnn.
  unfold cJSON_Parse, cJSON_ParseWithOpts, cJSON_ParseWithLengthOpts. rewrite until_nul_id by done.
  destruct (render_head fmt 0 j) as (c & u & Ec & Hc).
  set (t := render fmt 0 j) in *.
  assert (strcmp_0 (terminated t) EmptyString = false) as -> by by destruct t.
  assert (parses False (allocate alloc;; skip_utf8_bom;; buffer_skip_whitespace;;
            item ← parse_value alloc (parse_fuel (terminated t)); mret item)
            (fun j' _ => j' = reparsed j) (mk_parse_buffer (terminated t) 0 0 0)) as H.
  { assert (here t 0 (mk_parse_buffer (terminated t) 0 0 0)) as Hh by by apply here_start.
    apply parses_bind. eapply ends_allocate; [exact Ha|exact Hh|]. intros b1 Hh1.
    apply parses_bind. unfold skip_utf8_bom. apply parses_bind, parses_peek. cbn [id].
    assert (strcmp_0 (str_take 3 (buffer_at_offset b1)) (bytes_string [239; 187; 191]) = false) as ->.
    { rewrite (here_rest _ _ _ Hh1), Ec. apply bool_decide_eq_false. rewrite string_app_cons.
      cbn [str_take bytes_string foldr]. intros [= Ee _]. subst c. revert Hc. by vm_compute. }
    rewrite andb_false_r. apply parses_ret.
    pose proof (render_solid fmt 0 j EmptyString) as Hs. rewrite string_app_nil in Hs.
    apply parses_bind. eapply whitespace_solid; [exact Hh1|exact Hs|]. intros b2 Hh2 _.
    apply parses_bind. eapply parses_mono.
    - eapply (parse_value_reads alloc Ha fmt j _ 0 0 EmptyString); [done|lia|done| |].
      + rewrite string_app_nil. exact Hh2.
      + rewrite string_app_nil. unfold parse_fuel, terminated. rewrite length_app_string. fold t. cbn. lia.
    - intros j' b3 [-> _]. by apply parses_ret. }
  unfold parses in H. cbn [mbind option_bind].
  match type of H with match ?m with _ => _ end => destruct m as [[[j' b]|]|] end; [|done..].
  by subst j'.
Qed.

(** C11: whatever is printed is read back, formatted or not: the parser gives the value
    whose text the printer wrote, numbers as their text has them and what is no number as
    null, provided that the nesting stays below the limit of the parser. *)
Theorem print_parse alloc j fmt :
  (forall k, alloc k = true) -> numbers valid_double j -> nesting j <= CJSON_NESTING_LIMIT ->
  strlen (render fmt 0 j) < 2 ^ 63 ->
  exists text, print alloc j fmt = Some (Some text) /\
    cJSON_Parse alloc text = Some (Some (reparsed j)).
Proof.
  intros Ha Hn Hd Hlt. exists (render fmt 0 j). split; [|by apply parse_render].
  destruct (print_refines_text alloc j fmt Hn Hlt) as [|[_ [k Hk]]]; [done|]. by rewrite Ha in Hk.
Qed.

Lemma print_parse_witness :
  exists text, cJSON_Print (fun _ => true) ex_value = Some (Some text) /\
    cJSON_Parse (fun _ => true) text = Some (Some ex_value).
Proof.
  destruct (print_parse (fun _ => true) ex_value true) as (text & H1 & H2);
    [done|cbn; repeat split|by vm_compute|by vm_compute|].
  exists text. split; [exact H1|]. rewrite H2. vm_compute. reflexivity.
Defined.

(** ** Values that come back as they are *)

(** What the program sends: texts of C, integers of at most 15 digits and other numbers
    the text has exactly. *)
Fixpoint exact (j : cJSON) : Prop :=
  match j with
  | JNull => True
  | JBool b z => z = if b then 1 else 0
  | JNumber z d => finite d = true /\ cJSON_CreateNumber (reread d) = JNumber z d
  | JString s => no_nul s
  | JArray l => foldr (fun j P => exact j /\ P) True l
  | JObject ms => foldr (fun m P => no_nul (fst m) /\ exact (snd m) /\ P) True ms
  end.

Lemma reparsed_exact j : exact j -> reparsed j = j.
Proof.
  induction j as [|v z|z x|s|l Hl|ms Hm] using cJSON_nested_ind; cbn [exact reparsed].
  - done.
  - by intros ->.
  - by intros [-> ->].
  - intros H. by rewrite until_nul_id.
  - intros H. f_equal. induction Hl as [|j l Hj Hl IH]; [done|]. destruct H as [H1 H2].
    cbn [map]. by rewrite Hj, IH.
  - intros H. f_equal. induction Hm as [|[name j] ms Hj Hm IH]; [done|]. destruct H as (H1 & H2 & H3).
    cbn [map fst snd] in *. by rewrite until_nul_id, Hj, IH.
Qed.

Lemma integer_exact z : Z.abs z < 10 ^ 15 -> exact (cJSON_CreateNumber (d_of_Z z)).
Proof.
  intros Hz. assert (10 ^ 15 < 2 ^ 53) as Hp by done. rewrite create_number_exact by lia.
  cbn [exact]. rewrite reread_integer by done. split; [|apply create_number_exact; lia].
  destruct (Z.eq_dec z 0) as [->|Hne]; [done|].
  destruct (d_of_Z_finite z Hne) as (m & k & _ & _ & ->); [unfold prec; lia|]. done.
Qed.

(** ** What is sent is read as it was meant *)

(** Values that the wire carries. *)
Definition sendable (j : cJSON) : Prop :=
  numbers valid_double j /\ exact j /\ nesting j <= CJSON_NESTING_LIMIT /\
  strlen (render false 0 j) < 2 ^ 31.

Lemma length_string_bytes s : Z.of_nat (List.length (string_bytes s)) = strlen s.
Proof.
  unfold strlen. f_equal. induction s as [|c s IH]; [done|]. cbn. by rewrite IH.
Qed.

Lemma string_bytes_nonzero s : no_nul s -> Forall (fun b => b <> 0) (string_bytes s).
Proof.
  induction s as [|c s IH]; [by constructor|]. intros [Hc Hs]%no_nul_cons. constructor; [|by apply IH].
  intros H. apply Hc. by rewrite <- (chr_code c), H.
Qed.

Lemma sendable_bytes alloc j :
  (forall k, alloc k = true) -> sendable j ->
  exists str, print_bytes alloc j = Some str /\ parse_bytes alloc str = Some j /\
    str = string_bytes (render false 0 j) /\
    Z.of_nat (List.length str) < 2 ^ 31 /\ Forall (fun b => b <> 0) str.
Proof.
  intros Ha (Hn & He & Hd & Hlt). exists (string_bytes (render false 0 j)).
  destruct (print_refines_text alloc j false Hn) as [H|[_ [k Hk]]]; [lia| |by rewrite Ha in Hk].
  unfold print_bytes, cJSON_PrintUnformatted. rewrite H. cbn [mjoin option_join fmap option_fmap option_map].
  unfold parse_bytes. rewrite bytes_of_string, parse_render by (done || lia).
  cbn [mjoin option_join]. rewrite (reparsed_exact j He). repeat split.
  - by rewrite length_string_bytes.
  - apply string_bytes_nonzero, render_no_nul.
Qed.
