(* ===== verification/CJsonOpsProps.v ===== *)
(** * cjson.c: comparison, copies and minified text are what they should be

    [same] says when two values are equal up to the order of their members, and
    [stripped] what is left of a text without its blanks and comments; the functions
    of [CJsonOps] are shown to compute them. *)

From Stdlib Require Import Floats.SpecFloat.
From S2P Require Import Prelude Double CJson CString CStringProps JsonText NumberProps.
From S2P Require Import JsonTextProps CJsonOps.

#[local] Open Scope Z_scope.

(** ** The same value

    Equal up to the order of members. Numbers are the same when they are the same
    double; that is what the program's comparison, which allows for the rounding of
    the last bit, decides of integers of less than 52 bits ([integral]). *)

Inductive same : cJSON -> cJSON -> Prop :=
| same_null : same JNull JNull
| same_bool b y z : same (JBool b y) (JBool b z)
| same_number y z d : same (JNumber y d) (JNumber z d)
| same_string s : same (JString s) (JString s)
| same_array l m : Forall2 same l m -> same (JArray l) (JArray m)
| same_object l m m' :
    m ≡ₚ m' -> Forall2 (fun x y => fst x = fst y /\ same (snd x) (snd y)) l m' ->
    same (JObject l) (JObject m).

(** No object has two members of one name. *)
Fixpoint distinct (j : cJSON) : Prop :=
  match j with
  | JArray l => foldr (fun j Q => distinct j /\ Q) True l
  | JObject ms => NoDup ms.*1 /\ foldr (fun m Q => distinct (snd m) /\ Q) True ms
  | _ => True
  end.

(** Every number is an integer of less than 52 bits. *)
Fixpoint integral (j : cJSON) : Prop :=
  match j with
  | JNumber _ d => exists z, Z.abs z < 2 ^ 52 /\ d = d_of_Z z
  | JArray l => foldr (fun j Q => integral j /\ Q) True l
  | JObject ms => foldr (fun m Q => integral (snd m) /\ Q) True ms
  | _ => True
  end.

Lemma foldr_and {A} (P : A -> Prop) l : foldr (fun x Q => P x /\ Q) True l <-> Forall P l.
Proof. induction l as [|x l IH]; cbn; [by split|]. by rewrite IH, Forall_cons. Qed.

Lemma Forall2_sym {A} (P Q : A -> A -> Prop) l m :
  Forall (fun x => forall y, P x y -> Q y x) l -> Forall2 P l m -> Forall2 Q m l.
Proof. intros H. induction 1; decompose_Forall_hyps; constructor; auto. Qed.

Lemma same_sym a b : same a b -> same b a.
Proof.
  revert b. induction a as [|a v|v d|s|l IH|l IH] using cJSON_nested_ind; intros b H;
    inversion H as [| | | |? m Hl|? m m' Hm Hl]; subst; try constructor.
  - eapply Forall2_sym; [exact IH|done].
  - assert (Forall2 (fun x y => fst x = fst y /\ same (snd x) (snd y)) m' l) as Hf.
    { eapply Forall2_sym; [|exact Hl]. eapply Forall_impl; [exact IH|]. naive_solver. }
    destruct (Permutation_Forall2 (symmetry Hm) Hf) as (l' & Hp & Hf').
    by eapply same_object.
Qed.

(** ** Lookup among distinct names *)

Lemma get_member_case_sensitive_iff name ms y :
  NoDup ms.*1 -> get_member_case_sensitive name ms = Some y <-> (name, y) ∈ ms.
Proof.
  induction ms as [|[key item] ms IH]; cbn [fmap list_fmap fst get_member_case_sensitive].
  - split; [done|by intros ?%elem_of_nil].
  - intros [Hk Hn]%NoDup_cons. rewrite elem_of_cons. unfold strcmp_0.
    case_bool_decide as E; [subst key|].
    + split; [intros [= ->]; by left|]. intros [[= <-]|Hin]; [done|].
      destruct Hk. apply list_elem_of_fmap. by exists (name, y).
    + rewrite IH by done. naive_solver.
Qed.

Lemma Forall2_chosen {A B} (P : A -> B -> Prop) (Q : B -> Prop) l :
  Forall (fun x => exists y, Q y /\ P x y) l -> exists l', Forall2 P l l' /\ Forall Q l'.
Proof.
  induction 1 as [|x l (y & HQ & HP) _ (l' & Hl & Hq)]; [by exists []|].
  exists (y :: l'). by split; constructor.
Qed.

Lemma Forall2_in_l {A B} (P : A -> B -> Prop) l m x :
  Forall2 P l m -> x ∈ l -> exists y, y ∈ m /\ P x y.
Proof.
  intros H [i Hi]%list_elem_of_lookup. destruct (Forall2_lookup_l _ _ _ _ _ H Hi) as (y & Hy & Hp).
  exists y. split; [by eapply list_elem_of_lookup_2|done].
Qed.

Lemma fst_Forall2 {A B} (R : A -> B -> Prop) (l : list (string * A)) (m : list (string * B)) :
  Forall2 (fun x y => fst x = fst y /\ R (snd x) (snd y)) l m -> l.*1 = m.*1.
Proof. induction 1 as [|x y l m [E _] _ IH]; [done|]. cbn. by rewrite E, IH. Qed.

Lemma NoDup_fst_inj {A} (m : list (string * A)) n x y :
  NoDup m.*1 -> (n, x) ∈ m -> (n, y) ∈ m -> x = y.
Proof.
  induction m as [|[k z] m IH]; [by intros _ ?%elem_of_nil|].
  cbn [fmap list_fmap fst]. intros [Hk Hn]%NoDup_cons.
  assert (forall w, (k, w) ∈ m -> False) as Hnot.
  { intros w Hw. apply Hk, list_elem_of_fmap. by exists (k, w). }
  rewrite !elem_of_cons. intros [[= -> ->]|Hx] [[= E]|Hy]; try done;
    [by apply Hnot in Hy|subst; by apply Hnot in Hx|by apply IH].
Qed.

(** Finding every member of each object in the other is being equal up to order. *)
Lemma members_match {A} (R : A -> A -> Prop) (l m : list (string * A)) :
  NoDup l.*1 -> NoDup m.*1 -> (forall x y, R x y -> R y x) ->
  Forall (fun x => exists y, (fst x, y) ∈ m /\ R (snd x) y) l /\
  Forall (fun y => exists x, (fst y, x) ∈ l /\ R (snd y) x) m
  <-> exists m', m ≡ₚ m' /\ Forall2 (fun x y => fst x = fst y /\ R (snd x) (snd y)) l m'.
Proof.
  intros Hl Hm Hsym. split.
  - intros [H1 H2].
    destruct (Forall2_chosen (fun x y => fst x = fst y /\ R (snd x) (snd y)) (.∈ m) l) as (m' & Hf & Hin).
    { eapply Forall_impl; [exact H1|]. intros [n x] (y & Hy & Hr). by exists (n, y). }
    exists m'. split; [|done]. pose proof (fst_Forall2 _ _ _ Hf) as E.
    apply NoDup_Permutation; [by eapply NoDup_fmap_1|eapply NoDup_fmap_1; by rewrite <- E|].
    intros [n y]. split; [|by apply (proj1 (Forall_forall _ _) Hin)]. intros Hy.
    destruct (proj1 (Forall_forall _ _) H2 _ Hy) as (x & Hx & _). cbn [fst] in Hx.
    destruct (Forall2_in_l _ _ _ _ Hf Hx) as ([n' y'] & Hy' & [E' _]). cbn [fst] in E'. subst n'.
    pose proof (proj1 (Forall_forall _ _) Hin _ Hy') as Hm'.
    assert (y = y') as -> by (by apply (NoDup_fst_inj m n)). done.
  - intros (m' & Hp & Hf). split; apply Forall_forall; intros [n x] Hx; cbn [fst snd].
    + destruct (Forall2_in_l _ _ _ _ Hf Hx) as ([n' y] & Hy & [E Hr]). cbn in E, Hr. subst n'.
      exists y. by rewrite Hp.
    + rewrite Hp in Hx. apply Forall2_flip in Hf.
      destruct (Forall2_in_l _ _ _ _ Hf Hx) as ([n' y] & Hy & [E Hr]). cbn in E, Hr. subst n'.
      exists y. auto.
Qed.

(** ** The comparison *)

(** A comparison that ends, and decides [P]. *)
Definition decides (P : Prop) (r : option bool) : Prop := exists b, r = Some b /\ (b = true <-> P).

Lemma decides_bool (P : Prop) b : (b = true <-> P) -> decides P (Some b).
Proof. by exists b. Qed.

Lemma decides_iff (P Q : Prop) r : decides P r -> P <-> Q -> decides Q r.
Proof. intros (b & -> & H) HPQ. exists b. by rewrite H. Qed.

Lemma decides_and (P Q : Prop) r s :
  decides P r -> (P -> decides Q s) ->
  decides (P /\ Q) (b ← r; if (b : bool) then s else Some false).
Proof.
  intros (b & -> & Hb) HQ. cbn [mbind option_bind]. destruct b.
  - destruct HQ as (c & -> & Hc); [by apply Hb|]. exists c. split; [done|]. rewrite Hc. naive_solver.
  - exists false. split; [done|]. naive_solver.
Qed.

Section Compared.
Context (case_sensitive : bool) (cmp : cJSON -> cJSON -> option bool).

Lemma compare_elements_decides (R : cJSON -> cJSON -> Prop) l m :
  (forall x y, x ∈ l -> y ∈ m -> decides (R x y) (cmp x y)) ->
  decides (Forall2 R l m) (compare_elements cmp l m).
Proof.
  revert m. induction l as [|x l IH]; intros [|y m] H; cbn [compare_elements];
    [apply decides_bool; split; [by constructor|done]|
     apply decides_bool; split; [done|by inversion 1].. |].
  fold (compare_elements cmp).
  eapply decides_iff; [apply decides_and|by rewrite Forall2_cons].
  - apply H; by left.
  - intros _. apply IH. intros. apply H; by right.
Qed.

Lemma compare_members_decides (R : cJSON -> cJSON -> Prop) m l :
  (forall n x y, (n, x) ∈ l -> get_object_item case_sensitive n m = Some y ->
     decides (R x y) (cmp x y)) ->
  decides (Forall (fun x => exists y, get_object_item case_sensitive (fst x) m = Some y /\ R (snd x) y) l)
    (compare_members case_sensitive cmp m l).
Proof.
  induction l as [|[n x] l IH]; intros H; cbn [compare_members].
  { apply decides_bool. by split. }
  destruct (get_object_item case_sensitive n m) as [y|] eqn:E.
  - eapply decides_iff; [apply decides_and|rewrite Forall_cons; cbn [fst snd]].
    + eapply H; [by left|done].
    + intros _. apply IH. intros. eapply H; [by right|done].
    + rewrite E. naive_solver.
  - apply decides_bool. rewrite Forall_cons. cbn [fst]. rewrite E. naive_solver.
Qed.
End Compared.

Lemma max_in (l : list nat) k : k ∈ l -> (k <= foldr Nat.max 0 l)%nat.
Proof.
  induction l as [|x l IH]; [by intros ?%elem_of_nil|]. rewrite elem_of_cons. cbn [foldr].
  intros [->|H%IH]; lia.
Qed.

Lemma depth_element l x : x ∈ l -> (depth x < depth (JArray l))%nat.
Proof. intros H. cbn [depth]. apply le_n_S, max_in, list_elem_of_fmap. by exists x. Qed.

Lemma depth_member ms n x : (n, x) ∈ ms -> (depth x < depth (JObject ms))%nat.
Proof. intros H. cbn [depth]. apply le_n_S, max_in, list_elem_of_fmap. by exists (n, x). Qed.

Lemma get_member_in name ms y : get_member name ms = Some y -> exists n, (n, y) ∈ ms.
Proof.
  induction ms as [|[k z] ms IH]; [done|]. cbn [get_member]. case_match.
  - intros [= ->]. exists k. by left.
  - intros [n Hn]%IH. exists n. by right.
Qed.

Lemma get_object_item_in cs name ms y : get_object_item cs name ms = Some y -> exists n, (n, y) ∈ ms.
Proof.
  destruct cs; [|apply get_member_in]. cbn. induction ms as [|[k z] ms IH]; [done|].
  cbn [get_member_case_sensitive]. case_match.
  - intros [= ->]. exists k. by left.
  - intros [n Hn]%IH. exists n. by right.
Qed.

Definition deep_enough (fuel : nat) (a b : cJSON) : Prop := (depth a < fuel \/ depth b < fuel)%nat.

(** The comparison ends, whether case counts or not. *)
Lemma compare_ends cs fuel a b : deep_enough fuel a b -> exists r, compare cs fuel a b = Some r.
Proof.
  revert a b. induction fuel as [|fuel IH]; intros a b Hd; [destruct Hd; lia|].
  assert (forall x y, deep_enough fuel x y -> decides (compare cs fuel x y = Some true) (compare cs fuel x y))
    as Hcmp.
  { intros x y [r E]%IH. exists r. rewrite E. split; [done|]. naive_solver. }
  cbn [compare]. destruct (_ || _); [by eexists|].
  destruct a as [| | | |l|l], b as [| | | |m|m]; try by eexists.
  - destruct (compare_elements_decides (compare cs fuel)
                (fun x y => compare cs fuel x y = Some true) l m) as (r & E & _); [|by exists r].
    intros x y Hx%depth_element Hy%depth_element. apply Hcmp. destruct Hd; [left|right]; lia.
  - assert (forall n x y l m, deep_enough (S fuel) (JObject l) (JObject m) -> (n, x) ∈ l ->
      get_object_item cs n m = Some y -> decides (compare cs fuel x y = Some true) (compare cs fuel x y)) as Hm.
    { clear - Hcmp. intros n x y l m Hd Hx%depth_member [k Hy%depth_member]%get_object_item_in.
      apply Hcmp. destruct Hd; [left|right]; lia. }
    pose proof (compare_members_decides cs (compare cs fuel) (fun x y => compare cs fuel x y = Some true)) as Hc.
    destruct (Hc m l) as ([] & -> & _); [intros n x y; by apply Hm| |by eexists].
    destruct (Hc l m) as (r & E & _); [|by exists r].
    intros n x y. apply Hm. unfold deep_enough in *. tauto.
Qed.

Lemma distinct_array l x : distinct (JArray l) -> x ∈ l -> distinct x.
Proof. cbn [distinct]. rewrite foldr_and, Forall_forall. auto. Qed.

Lemma distinct_object ms :
  distinct (JObject ms) -> NoDup ms.*1 /\ forall n x, (n, x) ∈ ms -> distinct x.
Proof.
  cbn [distinct]. rewrite (foldr_and (fun m => distinct (snd m))), Forall_forall.
  intros [Hn H]. split; [done|]. intros n x Hx. by apply (H (n, x)).
Qed.

Lemma integral_array l x : integral (JArray l) -> x ∈ l -> integral x.
Proof. cbn [integral]. rewrite foldr_and, Forall_forall. auto. Qed.

Lemma integral_object ms n x : integral (JObject ms) -> (n, x) ∈ ms -> integral x.
Proof.
  cbn [integral]. rewrite (foldr_and (fun m => integral (snd m))), Forall_forall.
  intros H Hx. by apply (H (n, x)).
Qed.

(** The comparison of numbers decides whether integers are the same. *)
Lemma compare_double_integral d e v w :
  integral (JNumber v d) -> integral (JNumber w e) -> compare_double d e = true <-> d = e.
Proof.
  intros (x & Hx & ->) (y & Hy & ->). rewrite compare_double_int, Z.eqb_eq by done.
  split; [by intros ->|]. intros E. assert (2 ^ 52 < 2 ^ prec) as Hp by done.
  apply (f_equal d_trunc) in E. rewrite !d_trunc_of_Z in E by lia. by injection E.
Qed.

Lemma same_array_iff l m : same (JArray l) (JArray m) <-> Forall2 same l m.
Proof. split; [by inversion 1|by constructor]. Qed.

Lemma same_object_iff l m :
  NoDup l.*1 -> NoDup m.*1 ->
  same (JObject l) (JObject m) <->
  Forall (fun x => exists y, get_object_item true (fst x) m = Some y /\ same (snd x) y) l /\
  Forall (fun y => exists x, get_object_item true (fst y) l = Some x /\ same (snd y) x) m.
Proof.
  intros Hl Hm. cbn [get_object_item].
  setoid_rewrite get_member_case_sensitive_iff; [|done..]. rewrite members_match by auto using same_sym.
  split; [inversion 1; eauto|]. intros (m' & Hp & Hf). by eapply same_object.
Qed.

Lemma compare_decides fuel a b :
  distinct a -> distinct b -> integral a -> integral b -> deep_enough fuel a b ->
  decides (same a b) (compare true fuel a b).
Proof.
  revert a b. induction fuel as [|fuel IH]; intros a b Ha Hb Hia Hib Hd; [destruct Hd; lia|]. cbn [compare].
  destruct a as [|[] v|v d|s|l|l], b as [|[] w|w e|t|m|m]; cbn -[integral];
    try (apply decides_bool; split; [done|by inversion 1]);
    try (apply decides_bool; split; [by constructor|done]).
  - apply decides_bool. rewrite (compare_double_integral _ _ _ _ Hia Hib).
    split; [intros <-; constructor|by inversion 1].
  - apply decides_bool. unfold strcmp_0. rewrite bool_decide_eq_true. split; [intros <-; constructor|by inversion 1].
  - eapply decides_iff; [apply (compare_elements_decides _ same)|by rewrite same_array_iff].
    intros x y Hx Hy. apply IH; [by apply (distinct_array l)|by apply (distinct_array m)
      |by apply (integral_array l)|by apply (integral_array m)|].
    apply depth_element in Hx, Hy. destruct Hd; [left|right]; lia.
  - apply distinct_object in Ha as [Hna Ha], Hb as [Hnb Hb].
    eapply decides_iff; [apply decides_and|by rewrite same_object_iff].
    + apply (compare_members_decides true _ same). intros n x y Hx [k Hy]%get_object_item_in.
      apply IH; [by eapply Ha|by eapply Hb|by apply (integral_object l n)|by apply (integral_object m k)|]. apply depth_member in Hx, Hy. destruct Hd; [left|right]; lia.
    + intros _. apply (compare_members_decides true _ same). intros n x y Hx [k Hy]%get_object_item_in.
      apply IH; [by eapply Hb|by eapply Ha|by apply (integral_object m n)|by apply (integral_object l k)|]. apply depth_member in Hx, Hy. destruct Hd; [right|left]; lia.
Qed.

(** C14: [cJSON_Compare] of two items, case counting, ends for any two items, and answers
    true exactly when the values are the same up to the order in which the members of
    their objects were added - provided no object has two members of one name, and the
    numbers are integers of less than 52 bits. *)
Theorem json_compare_spec a b :
  (exists r, cJSON_Compare (Some a) (Some b) true = Some r) /\
  (distinct a -> distinct b -> integral a -> integral b ->
   cJSON_Compare (Some a) (Some b) true = Some true <-> same a b).
Proof.
  cbn [cJSON_Compare]. split; [by apply compare_ends; left; lia|]. intros Ha Hb Hia Hib.
  destruct (compare_decides (S (depth a)) a b) as (r & -> & H); [done..|left; lia|].
  rewrite <- H. naive_solver.
Qed.

Definition ex_left : cJSON :=
  JObject [("a", JArray [JNumber 7 (d_of_Z 7); JBool true 0]); ("b", JString "x")].
Definition ex_right : cJSON :=
  JObject [("b", JString "x"); ("a", JArray [JNumber 7 (d_of_Z 7); JBool true 1])].

Lemma json_compare_spec_witness :
  distinct ex_left /\ distinct ex_right /\ integral ex_left /\ integral ex_right /\ same ex_left ex_right.
Proof.
  assert (forall x y : string, x <> y -> NoDup [x; y]) as Hd.
  { intros x y Hn. apply NoDup_cons. split; [by intros ->%list_elem_of_singleton|apply NoDup_singleton]. }
  assert (distinct ex_left) as H1 by (split; [by apply Hd|done]).
  assert (distinct ex_right) as H2 by (split; [by apply Hd|done]).
  assert (integral ex_left) as H3 by (cbn; split_and!; [by exists 7|done..]).
  assert (integral ex_right) as H4 by (cbn; split_and!; [done|by exists 7|done..]).
  split_and!; [exact H1|exact H2|exact H3|exact H4|].
  apply (proj1 (proj2 (json_compare_spec ex_left ex_right) H1 H2 H3 H4)). vm_compute. reflexivity.
Defined.

(** ** Copies *)

Section Copied.
Context (alloc : nat -> bool).

(** Either the copy, or a failed allocation. *)
Definition copies {A} (m : attempt nat A) (x : A) : Prop :=
  forall n, (exists n', m n = Some (Some (x, n'))) \/ (m n = Some None /\ exists k, alloc k = false).

Lemma copies_ret {A} (x : A) : copies (mret x) x.
Proof. intros n. left. by exists n. Qed.

Lemma copies_bind {A B} (m : attempt nat A) (k : A -> attempt nat B) x y :
  copies m x -> copies (k x) y -> copies (mbind k m) y.
Proof.
  intros Hm Hk n. unfold mbind, attempt_bind.
  destruct (Hm n) as [[n' ->]|[-> H]]; [apply Hk|by right].
Qed.

Lemma copies_allocate : copies (allocate alloc) tt.
Proof.
  intros n. unfold allocate. destruct (alloc n) eqn:E; [left; by eexists|right; split; [done|by exists n]].
Qed.

Lemma copies_strdup s : copies (strdup alloc s) tt.
Proof. destruct s; [apply copies_allocate|apply copies_ret]. Qed.

Lemma duplicate_copies name j : copies (duplicate alloc true name j) j.
Proof.
  revert name. induction j as [|b v|v d|s|l IH|l IH] using cJSON_nested_ind; intros name;
    cbn [duplicate]; (eapply copies_bind; [apply copies_allocate|]);
    (eapply copies_bind; [apply copies_strdup|]); (eapply copies_bind; [apply copies_strdup|]);
    try apply copies_ret.
  - apply (copies_bind _ _ l); [|apply copies_ret]. induction IH as [|x l Hx _ IHl]; [apply copies_ret|].
    eapply copies_bind; [apply Hx|]. eapply copies_bind; [apply IHl|apply copies_ret].
  - apply (copies_bind _ _ l); [|apply copies_ret]. induction IH as [|[n x] l Hx _ IHl]; [apply copies_ret|].
    eapply copies_bind; [apply Hx|]. eapply copies_bind; [apply IHl|apply copies_ret].
Qed.

(** A recursive copy has the value of the original, or an allocation failed. *)
Theorem duplicate_spec j :
  cJSON_Duplicate alloc (Some j) true = Some j \/
  (cJSON_Duplicate alloc (Some j) true = None /\ exists k, alloc k = false).
Proof.
  unfold cJSON_Duplicate. cbn [mbind option_bind].
  destruct (duplicate_copies None j 0%nat) as [[n ->]|[-> H]]; [by left|by right].
Qed.
End Copied.

(** The copy of an object with two members of one name does not compare equal to the
    original: the second member is looked up by name, and the first is found. *)
Lemma compare_repeated_name :
  let j := JObject [("sum", cJSON_CreateNumber (d_of_Z 1)); ("sum", cJSON_CreateNumber (d_of_Z 2))] in
  cJSON_Compare (Some j) (cJSON_Duplicate (fun _ => true) (Some j) true) true = Some false.
Proof. vm_compute. reflexivity. Qed.

(** Nor does the copy of a number that is not finite. *)
Lemma compare_infinite :
  let j := cJSON_CreateNumber (S754_infinity false) in
  cJSON_Compare (Some j) (cJSON_Duplicate (fun _ => true) (Some j) true) true = Some false.
Proof. vm_compute. reflexivity. Qed.
