(* ===== verification/MinifyProps.v ===== *)
(** * cjson.c: minified text

    [stripped] is a text without its blanks and comments, as a function of the text
    alone.  [cJSON_Minify], which rewrites the text where it stands, is shown to leave
    exactly that, never to touch memory outside the text, and to turn the formatted
    print of a value into its unformatted print - unless a string of the value ends
    in a backslash. *)

From Stdlib Require Import Floats.SpecFloat.
From S2P Require Import Prelude Double CJson CString CStringProps JsonText NumberProps.
From S2P Require Import JsonTextProps JsonParseProps CJsonOps.

#[local] Open Scope Z_scope.

(** ** What is left of a text *)

(** What is being read. *)
Inductive reading := outside | in_string | in_line | in_block.

Fixpoint stripped (m : reading) (s : string) : string :=
  match s with
  | EmptyString => EmptyString
  | String c r =>
      match m with
      | outside =>
          if blank c then stripped outside r
          else if decide (c = slash) then
            match r with
            | String d r' =>
                if decide (d = slash) then stripped in_line r'
                else if decide (d = star) then stripped in_block r'
                else stripped outside r
            | EmptyString => EmptyString
            end
          else if decide (c = quotation) then String c (stripped in_string r)
          else String c (stripped outside r)
      | in_string =>
          if decide (c = quotation) then String c (stripped outside r)
          else
            match r with
            | String d r' =>
                if decide (c = backslash /\ d = quotation)
                then String c (String d (stripped in_string r'))
                else String c (stripped in_string r)
            | EmptyString => String c EmptyString
            end
      | in_line => if decide (c = line_feed) then stripped outside r else stripped in_line r
      | in_block =>
          match r with
          | String d r' =>
              if decide (c = star /\ d = slash) then stripped outside r' else stripped in_block r
          | EmptyString => EmptyString
          end
      end
  end.

(** ** Memory *)

Lemma get_drop i k s : String.get (i + k) s = String.get k (str_drop i s).
Proof.
  revert s. induction i as [|i IH]; intros [|c s]; cbn; [done..| |apply IH]. by destruct k.
Qed.

Lemma overwrite_length i c s :
  (i < String.length s)%nat -> String.length (overwrite i (String c EmptyString) s) = String.length s.
Proof.
  intros H. unfold overwrite. rewrite !length_app_string, length_str_take, length_str_drop. cbn. lia.
Qed.

Lemma take_overwrite i c s :
  (i < String.length s)%nat ->
  str_take (S i) (overwrite i (String c EmptyString) s) = (str_take i s ++ String c EmptyString)%string.
Proof.
  revert s. induction i as [|i IH]; intros [|d s] H; cbn in H; try lia; [done|].
  change (overwrite (S i) (String c EmptyString) (String d s))
    with (String d (overwrite i (String c EmptyString) s)).
  change (str_take (S (S i)) (String d ?t)) with (String d (str_take (S i) t)).
  rewrite IH by lia. done.
Qed.

Lemma take_overwrite_before i k c s :
  (k <= i)%nat -> (i < String.length s)%nat ->
  str_take k (overwrite i (String c EmptyString) s) = str_take k s.
Proof.
  revert k s. induction i as [|i IH]; intros [|k] [|d s] Hk H; cbn in H; try lia; try done.
  change (overwrite (S i) (String c EmptyString) (String d s))
    with (String d (overwrite i (String c EmptyString) s)).
  cbn [str_take]. by rewrite IH by lia.
Qed.

Lemma drop_overwrite i k c s :
  (i < k)%nat -> (i < String.length s)%nat ->
  str_drop k (overwrite i (String c EmptyString) s) = str_drop k s.
Proof.
  revert k s. induction i as [|i IH]; intros [|k] [|d s] Hk H; cbn in H; try lia; try done.
  change (overwrite (S i) (String c EmptyString) (String d s))
    with (String d (overwrite i (String c EmptyString) s)).
  cbn [str_drop]. by rewrite IH by lia.
Qed.

Lemma overwrite_same i c s :
  String.get i s = Some c -> overwrite i (String c EmptyString) s = s.
Proof.
  revert s. induction i as [|i IH]; intros [|d s] H; try done.
  - by injection H as ->.
  - change (overwrite (S i) (String c EmptyString) (String d s))
      with (String d (overwrite i (String c EmptyString) s)). by rewrite IH.
Qed.

Lemma get_length i s c : String.get i s = Some c -> (i < String.length s)%nat.
Proof. revert s. induction i as [|i IH]; intros [|d s] H; try done; cbn; [lia|]. by apply IH in H; lia. Qed.

(** ** Positions *)

Definition nul_end : string := String Ascii.zero EmptyString.

(** [pre] has been written, [rest] is still to be read. *)
Definition stands (pre rest : string) (s : minify_state) : Prop :=
  str_take (into s) (json_mem s) = pre /\ str_drop (json s) (json_mem s) = (rest ++ nul_end)%string /\
  (into s <= json s)%nat.

(** [c] has been written but not gone past. *)
Definition between (pre : string) (c : ascii) (rest : string) (s : minify_state) : Prop :=
  str_take (S (into s)) (json_mem s) = (pre ++ String c EmptyString)%string /\
  str_drop (S (json s)) (json_mem s) = (rest ++ nul_end)%string /\ (into s <= json s)%nat.

Definition runs {A} (m : minifier A) (Q : A -> minify_state -> Prop) (s : minify_state) : Prop :=
  exists x s', m s = Some (Some (x, s')) /\ Q x s'.

Lemma runs_ret {A} (x : A) (Q : A -> minify_state -> Prop) s : Q x s -> runs (mret x) Q s.
Proof. intros H. by exists x, s. Qed.

Lemma runs_bind {A B} (m : minifier A) (k : A -> minifier B) Q s :
  runs m (fun x => runs (k x) Q) s -> runs (mbind k m) Q s.
Proof.
  intros (x & s' & E & y & s2 & E2 & H). exists y, s2. split; [|done].
  unfold mbind, attempt_bind. by rewrite E.
Qed.

Lemma runs_mono {A} (m : minifier A) (P Q : A -> minify_state -> Prop) s :
  runs m P s -> (forall x s', P x s' -> Q x s') -> runs m Q s.
Proof. intros (x & s' & E & H) HPQ. exists x, s'. auto. Qed.

Definition first (s : string) : ascii := match s with String c _ => c | EmptyString => Ascii.zero end.

Lemma look_0 pre rest s Q : stands pre rest s -> Q (first rest) s -> runs (look 0) Q s.
Proof.
  intros (_ & Hd & _) H. exists (first rest), s. split; [|done]. unfold look.
  rewrite get_drop, Hd. by destruct rest.
Qed.

Lemma look_1 pre c rest s Q : stands pre (String c rest) s -> Q (first rest) s -> runs (look 1) Q s.
Proof.
  intros (_ & Hd & _) H. exists (first rest), s. split; [|done]. unfold look.
  rewrite get_drop, Hd. by destruct rest.
Qed.

Lemma drop_step k s c r : str_drop k s = String c r -> str_drop (S k) s = r.
Proof. intros H. rewrite <- Nat.add_1_r, str_drop_add, H. done. Qed.

Lemma skip_one pre c rest s Q :
  stands pre (String c rest) s -> (forall s', stands pre rest s' -> Q tt s') -> runs (skip_input 1) Q s.
Proof.
  intros (Ht & Hd & Hl) H. eexists tt, _. split; [done|]. apply H. split; [done|]. split; [|cbn; lia].
  by eapply drop_step.
Qed.

Lemma skip_two pre c d rest s Q :
  stands pre (String c (String d rest)) s -> (forall s', stands pre rest s' -> Q tt s') ->
  runs (skip_input 2) Q s.
Proof.
  intros (Ht & Hd & Hl) H. eexists tt, _. split; [done|]. apply H. split; [done|]. split; [|cbn; lia].
  eapply drop_step, drop_step. exact Hd.
Qed.

Lemma stands_get pre c rest s :
  stands pre (String c rest) s -> String.get (json s) (json_mem s) = Some c.
Proof.
  intros (_ & Hd & _). pose proof (get_drop (json s) 0 (json_mem s)) as E.
  by rewrite Nat.add_0_r, Hd in E.
Qed.

(** Writing the character that is read: it can still be read. *)
Lemma write_copy pre c rest s (Q : unit -> minify_state -> Prop) :
  stands pre (String c rest) s ->
  (forall s', stands pre (String c rest) s' -> between pre c rest s' -> Q tt s') -> runs (write 0 c) Q s.
Proof.
  intros Hs H. pose proof (stands_get _ _ _ _ Hs) as Hg. pose proof (get_length _ _ _ Hg) as Hlen.
  destruct Hs as (Ht & Hd & Hl). unfold write, runs. rewrite Nat.add_0_r, decide_True by lia.
  eexists tt, _. split; [done|].
  assert (forall k, (into s < k)%nat -> str_drop k (overwrite (into s) (String c EmptyString) (json_mem s))
                    = str_drop k (json_mem s)) as Hk by (intros; apply drop_overwrite; lia).
  apply H; repeat split; cbn [json_mem json into set eta_minify_state]; try done.
  - by rewrite take_overwrite_before by lia.
  - destruct (decide (into s = json s)) as [E|E]; [rewrite E, overwrite_same by done; done|].
    by rewrite Hk by lia.
  - by rewrite take_overwrite, Ht by lia.
  - rewrite Hk by lia. by eapply drop_step.
Qed.

(** The second character of an escape sequence. *)
Lemma write_second pre c d rest s (Q : unit -> minify_state -> Prop) :
  stands pre (String c (String d rest)) s -> between pre c (String d rest) s ->
  (forall s', between (pre ++ String c EmptyString) d rest s' -> Q tt s') ->
  runs (write 1 d;; skip_input 1;; skip_output 1) Q s.
Proof.
  intros _ (Ht & Hd & Hl) H. apply runs_bind. unfold write, runs at 1.
  assert (S (json s) < String.length (json_mem s))%nat as Hlen.
  { apply (get_length _ _ d). pose proof (get_drop (S (json s)) 0 (json_mem s)) as E.
    rewrite Nat.add_0_r, Hd in E. done. }
  rewrite Nat.add_1_r, decide_True by lia. eexists tt, _. split; [done|].
  eexists tt, _. split; [done|]. apply H. repeat split; cbn [json_mem json into set eta_minify_state].
  - rewrite take_overwrite, Ht by lia. done.
  - rewrite drop_overwrite by lia. by eapply drop_step.
  - lia.
Qed.

Lemma step_over pre c rest s (Q : unit -> minify_state -> Prop) :
  between pre c rest s -> (forall s', stands (pre ++ String c EmptyString) rest s' -> Q tt s') ->
  runs (skip_input 1;; skip_output 1) Q s.
Proof.
  intros (Ht & Hd & Hl) H. eexists tt, _. split; [done|]. apply H. repeat split; cbn; [done..|lia].
Qed.

Lemma step_on pre c rest s k (Q : unit -> minify_state -> Prop) :
  between pre c rest s -> (forall s', stands (pre ++ String c EmptyString) rest s' -> runs k Q s') ->
  runs (skip_input 1;; skip_output 1;; k) Q s.
Proof.
  intros Hb H. destruct (step_over _ _ _ _ (fun _ => stands (pre ++ String c EmptyString) rest) Hb)
    as ([] & s' & E & Hs); [done|].
  destruct (H s' Hs) as (x & s2 & E2 & HQ). exists x, s2. split; [|done].
  injection E as <-. exact E2.
Qed.

(** ** The loops *)

(** Where a loop that reads in mode [m] ends, reading goes on outside. *)
Definition leaves (pre rest : string) (m : reading) (_ : unit) (s : minify_state) : Prop :=
  exists pre' rest', stands pre' rest' s /\ no_nul rest' /\
    (String.length rest' <= String.length rest)%nat /\
    (pre ++ stripped m rest = pre' ++ stripped outside rest')%string.

Lemma leaves_at pre rest m s :
  stands pre rest s -> no_nul rest -> stripped m rest = stripped outside rest ->
  leaves pre rest m tt s.
Proof. intros Hs Hn E. exists pre, rest. by rewrite E. Qed.

Lemma leaves_after pre rest m pre1 rest1 m1 s :
  leaves pre1 rest1 m1 tt s -> (String.length rest1 <= String.length rest)%nat ->
  (pre ++ stripped m rest = pre1 ++ stripped m1 rest1)%string -> leaves pre rest m tt s.
Proof.
  intros (pre' & rest' & Hs & Hn & Hl & E) Hl1 E1. exists pre', rest'. rewrite E1, E.
  do 2 (split; [done|]). split; [lia|done].
Qed.

(** A loop goes on: its end is an end of the whole. *)
Lemma runs_on (m : minifier unit) pre rest mode pre1 rest1 mode1 s :
  runs m (leaves pre1 rest1 mode1) s -> (String.length rest1 <= String.length rest)%nat ->
  (pre ++ stripped mode rest = pre1 ++ stripped mode1 rest1)%string -> runs m (leaves pre rest mode) s.
Proof. intros H Hl E. eapply runs_mono; [exact H|]. intros [] s' Hs. by eapply leaves_after. Qed.

Lemma oneline_runs fuel pre rest s :
  stands pre rest s -> no_nul rest -> (String.length rest < fuel)%nat ->
  runs (oneline_loop fuel) (leaves pre rest in_line) s.
Proof.
  revert rest s. induction fuel as [|fuel IH]; intros rest s Hs Hn Hf; [lia|]. cbn [oneline_loop].
  apply runs_bind, (look_0 _ _ _ _ Hs). destruct rest as [|c rest]; [by apply runs_ret, leaves_at|].
  cbn [first]. pose proof Hn as [Hc Hr]%no_nul_cons. rewrite decide_False by done. cbn in Hf.
  case_decide as E.
  - apply (skip_one _ _ _ _ _ Hs). intros s' Hs'. eapply (leaves_after _ _ _ pre rest outside);
      [by apply leaves_at|cbn; lia|]. cbn [stripped]. by rewrite decide_True.
  - apply runs_bind, (skip_one _ _ _ _ _ Hs). intros s' Hs'.
    eapply runs_on; [apply IH; [exact Hs'|done|lia]|cbn; lia|]. cbn [stripped]. by rewrite decide_False.
Qed.

Lemma multiline_runs fuel pre rest s :
  stands pre rest s -> no_nul rest -> (String.length rest < fuel)%nat ->
  runs (multiline_loop fuel) (leaves pre rest in_block) s.
Proof.
  revert rest s. induction fuel as [|fuel IH]; intros rest s Hs Hn Hf; [lia|]. cbn [multiline_loop].
  apply runs_bind, (look_0 _ _ _ _ Hs). destruct rest as [|c rest]; [by apply runs_ret, leaves_at|].
  cbn [first]. pose proof Hn as [Hc Hr]%no_nul_cons. rewrite decide_False by done. cbn in Hf.
  assert (~ (c = star /\ first rest = slash) ->
    runs (skip_input 1;; multiline_loop fuel) (leaves pre (String c rest) in_block) s) as Hon.
  { intros Hno. apply runs_bind, (skip_one _ _ _ _ _ Hs). intros s' Hs'.
    eapply runs_on; [apply IH; [exact Hs'|done|lia]|cbn; lia|]. cbn [stripped].
    destruct rest as [|d rest]; [done|]. by rewrite decide_False. }
  apply runs_bind. case_decide as E.
  - apply runs_bind, (look_1 _ _ _ _ _ Hs), runs_ret. case_bool_decide as E2; [|by apply Hon; tauto].
    destruct rest as [|d rest]; [done|]. cbn [first] in E2. apply no_nul_cons in Hr as [_ Hr].
    apply (skip_two _ _ _ _ _ _ Hs). intros s' Hs'. eapply (leaves_after _ _ _ pre rest outside);
      [by apply leaves_at|cbn; lia|]. cbn [stripped]. by rewrite decide_True.
  - apply runs_ret, Hon. tauto.
Qed.

Lemma string_runs fuel pre rest s :
  stands pre rest s -> no_nul rest -> (String.length rest < fuel)%nat ->
  runs (string_loop fuel) (leaves pre rest in_string) s.
Proof.
  revert pre rest s. induction fuel as [|fuel IH]; intros pre rest s Hs Hn Hf; [lia|]. cbn [string_loop].
  apply runs_bind, (look_0 _ _ _ _ Hs). destruct rest as [|c rest]; [by apply runs_ret, leaves_at|].
  cbn [first]. pose proof Hn as [Hc Hr]%no_nul_cons. rewrite decide_False by done. cbn in Hf.
  apply runs_bind, (write_copy _ _ _ _ _ Hs). intros s1 Hs1 Hb1. apply runs_bind, (look_0 _ _ _ _ Hs1).
  cbn [first]. case_decide as E.
  - subst c. apply runs_bind, (write_copy _ _ _ _ _ Hs1). intros s2 _ Hb2.
    apply (step_over _ _ _ _ _ Hb2). intros s3 Hs3.
    eapply (leaves_after _ _ _ _ rest outside); [by apply leaves_at|cbn; lia|].
    by rewrite string_app_assoc.
  - assert (forall p c' r s2, between p c' r s2 -> no_nul r -> (String.length r < fuel)%nat ->
      (pre ++ stripped in_string (String c rest) = (p ++ String c' EmptyString) ++ stripped in_string r)%string ->
      (String.length r <= String.length (String c rest))%nat ->
      runs (skip_input 1;; skip_output 1;; string_loop fuel) (leaves pre (String c rest) in_string) s2) as Hon.
    { intros p c' r s2 Hb Hr' Hf' E' Hl. apply (step_on _ _ _ _ _ _ Hb). intros s3 Hs3.
      eapply runs_on; [by apply IH|done|done]. }
    assert (~ (c = backslash /\ first rest = quotation) ->
      (pre ++ stripped in_string (String c rest)
       = (pre ++ String c EmptyString) ++ stripped in_string rest)%string) as Hplain.
    { intros Hno. rewrite string_app_assoc. f_equal. cbn [stripped]. rewrite decide_False by done.
      destruct rest as [|d rest]; [done|]. by rewrite decide_False. }
    apply runs_bind. case_decide as Eb.
    + apply runs_bind, (look_1 _ _ _ _ _ Hs1), runs_ret. apply runs_bind. case_bool_decide as Eq.
      * destruct rest as [|d rest]; [done|]. cbn [first] in Eq. subst c d.
        apply runs_bind, (look_1 _ _ _ _ _ Hs1). cbn [first].
        apply (write_second _ _ _ _ _ _ Hs1 Hb1). intros s2 Hb2.
        apply no_nul_cons in Hr as [_ Hr]. cbn in Hf.
        apply (Hon _ _ _ _ Hb2); [done|lia| |cbn; lia]. by rewrite !string_app_assoc.
      * apply runs_ret, (Hon _ _ _ _ Hb1); [done|lia| |cbn; lia]. apply Hplain. tauto.
    + apply runs_ret, runs_bind, runs_ret, (Hon _ _ _ _ Hb1); [done|lia| |cbn; lia]. apply Hplain. tauto.
Qed.

Lemma minify_runs fuel pre rest s :
  stands pre rest s -> no_nul rest -> (String.length rest < fuel)%nat ->
  runs (minify_loop fuel) (fun _ => stands (pre ++ stripped outside rest) EmptyString) s.
Proof.
  revert pre rest s. induction fuel as [|fuel IH]; intros pre rest s Hs Hn Hf; [lia|]. cbn [minify_loop].
  apply runs_bind, (look_0 _ _ _ _ Hs). destruct rest as [|c rest].
  { apply runs_ret. cbn [stripped]. by rewrite string_app_nil. }
  cbn [first]. pose proof Hn as [Hc Hr]%no_nul_cons. rewrite decide_False by done. cbn in Hf.
  assert (forall m r p s2, leaves p r m tt s2 -> (String.length r <= String.length rest)%nat ->
    (pre ++ stripped outside (String c rest) = p ++ stripped m r)%string ->
    runs (minify_loop fuel)
      (fun _ => stands (pre ++ stripped outside (String c rest)) EmptyString) s2) as Hon.
  { intros m r p s2 (p' & r' & Hs2 & Hn2 & Hl & E) Hlr E'. rewrite E', E. apply IH; [done..|lia]. }
  apply runs_bind. destruct (blank c) eqn:Hb.
  { apply (skip_one _ _ _ _ _ Hs). intros s2 Hs2. apply (Hon outside rest pre); [by apply leaves_at|done|].
    cbn [stripped]. by rewrite Hb. }
  case_decide as Es.
  - subst c. apply runs_bind, (look_1 _ _ _ _ _ Hs).
    assert (forall d r, rest = String d r -> no_nul r /\ (String.length r < fuel)%nat /\
      (String.length r <= String.length rest)%nat) as Hrest.
    { intros d r ->. apply no_nul_cons in Hr as [_ Hr]. cbn in Hf |- *. repeat split; [done|lia|lia]. }
    case_decide as Ed; [|case_decide as Ed2].
    + destruct rest as [|d r]; [done|]. cbn [first] in Ed. subst d.
      destruct (Hrest _ _ eq_refl) as (Hr' & Hf' & Hl'). unfold skip_oneline_comment.
      apply runs_bind, (skip_two _ _ _ _ _ _ Hs). intros s2 Hs2.
      eapply runs_mono; [by apply oneline_runs|]. intros [] s3 H3. apply (Hon _ _ _ _ H3); [done|].
      cbn [stripped]. by rewrite Hb.
    + destruct rest as [|d r]; [done|]. cbn [first] in Ed, Ed2. subst d.
      destruct (Hrest _ _ eq_refl) as (Hr' & Hf' & Hl'). unfold skip_multiline_comment.
      apply runs_bind, (skip_two _ _ _ _ _ _ Hs). intros s2 Hs2.
      eapply runs_mono; [by apply multiline_runs|]. intros [] s3 H3. apply (Hon _ _ _ _ H3); [done|].
      cbn [stripped]. by rewrite Hb.
    + apply (skip_one _ _ _ _ _ Hs). intros s2 Hs2. apply (Hon outside rest pre); [by apply leaves_at|done|].
      cbn [stripped]. rewrite Hb, decide_True by done. destruct rest as [|d r]; [done|].
      by rewrite !decide_False.
  - case_decide as Eq.
    + unfold minify_string. apply runs_bind, (look_0 _ _ _ _ Hs). cbn [first].
      apply runs_bind, (write_copy _ _ _ _ _ Hs). intros s2 _ Hb2.
      apply (step_on _ _ _ _ _ _ Hb2). intros s3 Hs3. eapply runs_mono; [apply string_runs; [done..|lia]|].
      intros [] s4 H4. apply (Hon _ _ _ _ H4); [done|]. rewrite string_app_assoc. cbn [stripped].
      by rewrite Hb, decide_False, decide_True.
    + apply runs_bind, (write_copy _ _ _ _ _ Hs). intros s2 _ Hb2.
      apply (step_over _ _ _ _ _ Hb2). intros s3 Hs3.
      apply (Hon outside rest (pre ++ String c EmptyString)%string); [by apply leaves_at|done|].
      rewrite string_app_assoc. cbn [stripped]. by rewrite Hb, !decide_False.
Qed.

Lemma no_nul_stripped m s : no_nul s -> no_nul (stripped m s).
Proof.
  assert (forall n s, (String.length s <= n)%nat -> forall m, no_nul s -> no_nul (stripped m s)) as H;
    [|by apply (H _ _ (Nat.le_refl _))].
  clear. induction n as [|n IH]; intros [|c s] Hl m Hn; cbn in Hl; try done; [lia|].
  pose proof Hn as [Hc Hs]%no_nul_cons.
  assert (forall m, no_nul (stripped m s)) as H1 by (intros m'; apply IH; [lia|done]).
  assert (forall d r m, s = String d r -> no_nul (stripped m r) /\ d <> Ascii.zero) as H2.
  { intros d r m' ->. apply no_nul_cons in Hs as [Hd Hr]. cbn in Hl. split; [apply IH; [lia|done]|done]. }
  assert (forall t, no_nul t -> no_nul (String c t)) as H3 by (intros; by apply no_nul_cons).
  destruct m; cbn [stripped].
  - destruct (blank c); [done|]. repeat case_decide; auto.
    destruct s as [|d r]; [done|]. destruct (H2 _ _ in_line eq_refl), (H2 _ _ in_block eq_refl).
    repeat case_decide; auto.
  - case_decide; auto. destruct s as [|d r]; [auto|]. destruct (H2 _ _ in_string eq_refl).
    case_decide; auto. apply H3. by apply no_nul_cons.
  - case_decide; auto.
  - destruct s as [|d r]; [done|]. destruct (H2 _ _ outside eq_refl). case_decide; auto.
Qed.

(** [cJSON_Minify] leaves the text without its blanks and comments, and neither reads
    nor writes outside the text. *)
Theorem minify_spec text : cJSON_Minify text = Some (stripped outside (until_nul text)).
Proof.
  unfold cJSON_Minify. pose proof (no_nul_until_nul text) as Hn. set (t := until_nul text) in *.
  set (s0 := mk_minify_state _ _ _).
  assert (stands EmptyString t s0) as H0 by (split; [done|split; [done|cbn; lia]]).
  destruct (minify_runs (String.length (terminated t)) EmptyString t s0 H0 Hn) as ([] & s & E & Hs).
  { unfold terminated. rewrite length_app_string. cbn. lia. }
  unfold mbind, attempt_bind. rewrite E. pose proof (stands_get) as _.
  destruct Hs as (Ht & Hd & Hl). change ("" ++ nul_end)%string with nul_end in Hd.
  assert (json s < String.length (json_mem s))%nat as Hlen.
  { pose proof (length_str_drop (json s) (json_mem s)) as Hx. rewrite Hd in Hx. cbn in Hx. lia. }
  unfold write. rewrite Nat.add_0_r, decide_True by lia. cbn [json_mem set eta_minify_state].
  f_equal. unfold overwrite. rewrite Ht. rewrite until_nul_app by by apply no_nul_stripped.
  apply string_app_nil.
Qed.

(** ** Minified print *)

Definition plain_char (c : ascii) : bool :=
  negb (blank c) && negb (bool_decide (c = slash)) && negb (bool_decide (c = quotation)).

Lemma stripped_plain w r : chars plain_char w = true -> stripped outside (w ++ r) = (w ++ stripped outside r)%string.
Proof.
  induction w as [|c w IH]; [done|]. rewrite chars_cons. intros [Hc Hw]%andb_true_iff.
  rewrite string_app_cons. cbn [stripped]. unfold plain_char in Hc.
  apply andb_true_iff in Hc as [[Hb Hs]%andb_true_iff Hq].
  rewrite (proj1 (negb_true_iff _) Hb), !decide_False, IH by (try done; intros ->; done). done.
Qed.

Lemma stripped_blank w r : chars blank w = true -> stripped outside (w ++ r) = stripped outside r.
Proof.
  induction w as [|c w IH]; [done|]. rewrite chars_cons. intros [Hc Hw]%andb_true_iff.
  rewrite string_app_cons. cbn [stripped]. rewrite Hc. auto.
Qed.

Lemma plain_number d : chars plain_char (number_text d) = true.
Proof.
  destruct (number_text_cases d) as [->|H]; [done|]. revert H. apply chars_mono.
  intros c Hc. destruct c as [[] [] [] [] [] [] [] []]; done.
Qed.

(** A string whose last character is a backslash. *)
Fixpoint ends_backslash (s : string) : bool :=
  match s with
  | EmptyString => false
  | String c EmptyString => bool_decide (c = backslash)
  | String _ s => ends_backslash s
  end.

Lemma stripped_string_char c r :
  c <> quotation -> ~ (c = backslash /\ first r = quotation) ->
  stripped in_string (String c r) = String c (stripped in_string r).
Proof.
  intros Hq Hb. cbn [stripped]. rewrite decide_False by done. destruct r as [|d r]; [done|].
  by rewrite decide_False.
Qed.

(** What [print_string_ptr] writes for a character: no quotation mark, except after a
    backslash. *)
Lemma escape_char_cases c :
  (c = backslash /\ escape_char c = String backslash (String backslash EmptyString)) \/
  (c = quotation /\ escape_char c = String backslash (String quotation EmptyString)) \/
  (c <> backslash /\ exists h t, escape_char c = String h t /\ h <> quotation /\
    (h = backslash -> t <> EmptyString) /\
    chars (fun d => negb (bool_decide (d = quotation)) && negb (bool_decide (d = backslash))) t = true).
Proof.
  destruct c as [[] [] [] [] [] [] [] []];
    first [ right; right; split; [discriminate|]; eexists _, _; split; [vm_compute; reflexivity|];
            split; [discriminate|split; [discriminate|reflexivity]]
          | left; split; reflexivity
          | right; left; split; reflexivity ].
Qed.

Lemma first_escape c s : first (escape (String c s)) <> quotation.
Proof.
  cbn [escape]. destruct (escape_char_cases c) as [[_ ->]|[[_ ->]|(_ & h & t & -> & Hh & _)]];
    rewrite string_app_cons; done.
Qed.

Lemma stripped_in_string w r :
  chars (fun d => negb (bool_decide (d = quotation)) && negb (bool_decide (d = backslash))) w = true ->
  stripped in_string (w ++ r) = (w ++ stripped in_string r)%string.
Proof.
  induction w as [|c w IH]; [done|]. rewrite chars_cons. intros [[Hq Hb]%andb_true_iff Hw]%andb_true_iff.
  rewrite !string_app_cons, stripped_string_char, IH; try done; [intros ->|intros [-> _]]; done.
Qed.

Lemma stripped_escape s r :
  ends_backslash s = false ->
  stripped in_string (escape s ++ String quotation r) = (escape s ++ String quotation (stripped outside r))%string.
Proof.
  induction s as [|c s IH]; [done|]. intros He.
  assert (ends_backslash s = false) as Hs by (by destruct s).
  cbn [escape]. rewrite !string_app_assoc.
  destruct (escape_char_cases c) as [[-> ->]|[[_ ->]|(_ & h & t & -> & Hh & Ht & Hc)]];
    rewrite !string_app_cons; change ("" ++ ?x)%string with x.
  - destruct s as [|d s]; [done|].
    rewrite !stripped_string_char; [by rewrite IH|done| |done|by intros [_ ?]].
    intros [_ H]. destruct (first_escape d s).
    cbn [escape] in H |- *. destruct (escape_char d) as [|e w] eqn:E; [|done].
    destruct (escape_char_cases d) as [[_ E1]|[[_ E1]|(_ & h & t & E1 & _)]]; congruence.
  - cbn [stripped]. rewrite decide_False, decide_True by done. by rewrite IH.
  - rewrite stripped_string_char, stripped_in_string, IH; try done.
    intros [-> H]. destruct t as [|e t]; [by destruct Ht|]. rewrite string_app_cons in H. cbn [first] in H.
    rewrite chars_cons, H in Hc. done.
Qed.

(** The strings and names of a value. *)
Fixpoint strings (P : string -> Prop) (j : cJSON) : Prop :=
  match j with
  | JString s => P s
  | JArray l => foldr (fun j Q => strings P j /\ Q) True l
  | JObject ms => foldr (fun m Q => (P (fst m) /\ strings P (snd m)) /\ Q) True ms
  | _ => True
  end.

Lemma strings_array P l : strings P (JArray l) <-> Forall (strings P) l.
Proof. cbn. induction l as [|j l IH]; cbn [foldr]; [by split|]. by rewrite IH, Forall_cons. Qed.

Lemma strings_object P ms :
  strings P (JObject ms) <-> Forall (fun m => P (fst m) /\ strings P (snd m)) ms.
Proof. cbn. induction ms as [|j l IH]; cbn [foldr]; [by split|]. by rewrite IH, Forall_cons. Qed.

Definition closes (s : string) : Prop := ends_backslash (until_nul s) = false.

Lemma stripped_quoted s r :
  closes s -> stripped outside (quoted s ++ r) = (quoted s ++ stripped outside r)%string.
Proof.
  intros Hs. unfold quoted, quote_string. rewrite !string_app_assoc, !string_app_cons.
  change ("" ++ ?x)%string with x. cbn [stripped]. rewrite decide_False, decide_True by done.
  change (blank quotation) with false. cbn iota. f_equal. by apply stripped_escape.
Qed.

Definition minifies (j : cJSON) : Prop := forall d d' r, strings closes j ->
  stripped outside (render true d j ++ r) = (render false d' j ++ stripped outside r)%string.

Lemma concat_cons (sep x : string) l :
  String.concat sep (x :: l) = (x ++ match l with [] => "" | _ => sep ++ String.concat sep l end)%string.
Proof. destruct l; [by rewrite string_app_nil|done]. Qed.

Lemma minifies_elements l d d' r :
  Forall minifies l -> Forall (strings closes) l ->
  stripped outside (String.concat ", " (map (render true d) l) ++ r)
  = (String.concat "," (map (render false d') l) ++ stripped outside r)%string.
Proof.
  induction l as [|j l IH]; [done|]. intros [Hj Hm]%Forall_cons_iff [Hs Hr]%Forall_cons_iff.
  specialize (IH Hm Hr). rewrite !map_cons, !concat_cons, !string_app_assoc, (Hj _ d') by done. f_equal.
  destruct l as [|k l]; [done|]. rewrite !map_cons, !string_app_assoc in *.
  change (", " ++ ?x)%string with ("," ++ (" " ++ x))%string.
  rewrite stripped_plain, stripped_blank by done. by rewrite IH.
Qed.

Lemma blank_indents d : chars blank (indent true d) = true.
Proof. unfold indent, tabs. by apply chars_fill. Qed.

Lemma minifies_line m d d' r :
  minifies (snd m) -> closes (fst m) -> strings closes (snd m) ->
  stripped outside (line true d m ++ r) = (line false d' m ++ stripped outside r)%string.
Proof.
  intros Hm Hn Hs. unfold line. rewrite !string_app_assoc, stripped_blank by apply blank_indents.
  rewrite stripped_quoted, stripped_plain, stripped_blank, (Hm _ d') by done. done.
Qed.

Lemma minifies_members ms d d' r :
  Forall (fun m => minifies (snd m)) ms ->
  Forall (fun m => closes (fst m) /\ strings closes (snd m)) ms ->
  stripped outside (lines true (map (line true d) ms) ++ r)
  = (lines false (map (line false d') ms) ++ stripped outside r)%string.
Proof.
  induction ms as [|m ms IH]; [done|]. intros [Hj Hm]%Forall_cons_iff [[Hn Hs] Hr]%Forall_cons_iff.
  specialize (IH Hm Hr). rewrite !map_cons, !lines_cons, !string_app_assoc, (minifies_line m d d') by done.
  f_equal. destruct ms as [|n ms].
  - cbn [map]. change ("" ++ ?x)%string with x. rewrite (stripped_blank (line_end true)) by done. exact IH.
  - rewrite !map_cons in *. rewrite (stripped_plain ","), (stripped_blank (line_end true)) by done.
    by rewrite IH.
Qed.

Lemma minifies_value j : minifies j.
Proof.
  induction j as [|b v|v x|s|l IH|ms IH] using cJSON_nested_ind; intros d d' r Hs; cbn [render].
  - by apply stripped_plain.
  - by destruct b; apply stripped_plain.
  - apply stripped_plain, plain_number.
  - by apply stripped_quoted.
  - rewrite strings_array in Hs. rewrite !string_app_assoc, (stripped_plain "[") by done.
    rewrite (minifies_elements _ _ (1 + d')), (stripped_plain "]") by done. done.
  - rewrite strings_object in Hs. fold (line true (1 + d)). fold (line false (1 + d')).
    rewrite !string_app_assoc, (stripped_plain "{"), (stripped_blank (line_end true)) by done.
    rewrite (minifies_members _ _ (1 + d')), (stripped_blank (indent true d)) by (done || apply blank_indents).
    rewrite (stripped_plain "}") by done. done.
Qed.

(** C15: minifying the formatted print of a value gives its unformatted print, byte for
    byte, as long as no string and no name of the value ends in a backslash. *)
Theorem minify_print alloc1 alloc2 j t u :
  numbers valid_double j -> strings closes j ->
  strlen (render true 0 j) < 2 ^ 63 -> strlen (render false 0 j) < 2 ^ 63 ->
  cJSON_Print alloc1 j = Some (Some t) -> cJSON_PrintUnformatted alloc2 j = Some (Some u) ->
  cJSON_Minify t = Some u.
Proof.
  intros Hn Hs H1 H2 E1 E2. unfold cJSON_Print, cJSON_PrintUnformatted in *.
  destruct (print_refines_text alloc1 j true) as [E|[E _]]; [done..| |congruence].
  destruct (print_refines_text alloc2 j false) as [F|[F _]]; [done..| |congruence].
  assert (t = render true 0 j) as -> by congruence. assert (u = render false 0 j) as -> by congruence.
  rewrite minify_spec. f_equal. rewrite until_nul_id by apply render_no_nul.
  rewrite <- (string_app_nil (render true 0 j)), (minifies_value j 0 0) by done. apply string_app_nil.
Qed.

Lemma minify_print_witness :
  exists t u, cJSON_Print (fun _ => true) ex_value = Some (Some t) /\
    cJSON_PrintUnformatted (fun _ => true) ex_value = Some (Some u) /\ cJSON_Minify t = Some u.
Proof.
  eexists _, _. split; [vm_compute; reflexivity|]. split; [vm_compute; reflexivity|].
  eapply (minify_print (fun _ => true) (fun _ => true) ex_value); [| | | |vm_compute; reflexivity..].
  - cbn. repeat split.
  - cbn. repeat split.
  - by vm_compute.
  - by vm_compute.
Defined.

(** A string that ends in a backslash is printed as ["...\\"]: [minify_string] takes the
    closing quotation mark for an escaped one, and what follows is read with strings
    and the text between them exchanged: here a blank of the second string is lost. *)
Lemma minify_backslash :
  let j := JArray [JString (String backslash EmptyString); JString "b c"] in
  let text separator word :=
    ("[" ++ quote_string ++ "\\" ++ quote_string ++ separator ++
     quote_string ++ word ++ quote_string ++ "]")%string in
  cJSON_Print (fun _ => true) j = Some (Some (text ", " "b c")) /\
  cJSON_PrintUnformatted (fun _ => true) j = Some (Some (text "," "b c")) /\
  cJSON_Minify (text ", " "b c") = Some (text ", " "bc").
Proof. repeat split; vm_compute; reflexivity. Qed.
