(* ===== verification/CJsonLinksProps.v ===== *)
(** * cjson.c: the chains of children

    [linked h a l] says that the children of the item at [a] are, in order, at the
    addresses [l]: the list the operations of [CJsonLinks] are to change. Adding,
    inserting, looking up and detaching do to the chain what their names say; but
    [cJSON_DetachItemViaPointer] and [cJSON_ReplaceItemViaPointer] forget that the
    first child leads to the last, and what is added after that is lost. *)

From stdpp Require Import gmap.
From S2P Require Import Prelude Double CJson CString JsonText JsonTextProps CJsonOps CJsonOpsProps.
From S2P Require Import CJsonLinks.

#[local] Open Scope Z_scope.

(** ** Running *)

Lemma does_deref p n (Q : node -> heap -> Prop) h : h !! p = Some n -> Q n h -> does (deref (Some p)) Q h.
Proof. intros E H. exists n, h. unfold deref. by rewrite E. Qed.

Lemma does_assign p n f (Q : unit -> heap -> Prop) h :
  h !! p = Some n -> Q tt (alter f p h) -> does (assign (Some p) f) Q h.
Proof.
  intros E H. eexists tt, _. split; [|exact H]. unfold assign. rewrite E. do 3 f_equal.
  apply map_eq. intros q. rewrite lookup_alter, lookup_insert. case_decide; [|done]. subst. by rewrite E.
Qed.

Create HintDb links.
#[export] Hint Resolve does_ret does_peek : links.

(** ** Chains *)

Record linked (h : heap) (a : loc) (l : list loc) : Prop := {
  lk_array : exists n, h !! a = Some n /\ n_child n = head l;
  lk_item : forall i p, l !! i = Some p -> exists n,
    h !! p = Some n /\ n_next n = l !! S i /\ (i <> O -> n_prev n = l !! pred i);
  lk_distinct : NoDup (a :: l) }.

(** Where the first child points back to. *)
Definition first_prev (h : heap) (l : list loc) (q : pointer) : Prop :=
  forall p n, head l = Some p -> h !! p = Some n -> n_prev n = q.

(** A chain as the library builds it: the first child leads to the last, or nowhere. *)
Definition chain (h : heap) (a : loc) (l : list loc) : Prop :=
  linked h a l /\ (first_prev h l (last l) \/ first_prev h l None).

Lemma linked_fuel h a l : linked h a l -> (length l < size h)%nat.
Proof.
  intros [(n & Ha & _) Hi Hd].
  assert (size (list_to_set (a :: l) : gset loc) = length (a :: l)) as E by by apply size_list_to_set.
  rewrite <- (size_dom (D:=gset loc) h). change (S (length l)) with (length (a :: l)) in *.
  enough (length (a :: l) <= size (dom h))%nat by (cbn in *; lia). rewrite <- E. apply subseteq_size.
  intros p [Hp|Hp]%elem_of_list_to_set%elem_of_cons; apply elem_of_dom; [subst; by eexists|].
  apply list_elem_of_lookup in Hp as [i Hp]. destruct (Hi i p Hp) as (m & Hm & _). by eexists.
Qed.

Lemma head_index {A} (l : list A) i p q :
  NoDup l -> l !! i = Some p -> head l = Some q -> p = q <-> i = O.
Proof.
  intros Hn Hi Hh. rewrite head_lookup in Hh. split; [|intros ->; congruence].
  intros ->. by eapply NoDup_lookup.
Qed.

Lemma last_index {A} (l : list A) i p q :
  NoDup l -> l !! i = Some p -> last l = Some q -> p = q <-> S i = length l.
Proof.
  intros Hn Hi Hl. rewrite last_lookup in Hl. split.
  - intros ->. pose proof (NoDup_lookup _ _ _ _ Hn Hi Hl). apply lookup_lt_Some in Hi. lia.
  - intros E. rewrite <- E in Hl. cbn in Hl. congruence.
Qed.

(** ** Walking *)

Lemma nth_child_does h a l i k :
  linked h a l ->
  does (nth_child k (l !! i)) (fun p h' => p = l !! (i + k)%nat /\ h' = h) h.
Proof.
  intros Hl. revert i. induction k as [|k IH]; intros i.
  - destruct (l !! i) eqn:E; cbn [nth_child]; apply does_ret; by rewrite Nat.add_0_r.
  - destruct (l !! i) as [p|] eqn:E; cbn [nth_child].
    + destruct (lk_item _ _ _ Hl _ _ E) as (n & Hn & Hx & _). apply does_bind, (does_deref _ _ _ _ Hn).
      rewrite Hx. eapply does_mono; [apply IH|]. cbv beta. by rewrite <- plus_n_Sm.
    + apply does_ret. split; [|done]. symmetry. apply lookup_ge_None. apply lookup_ge_None in E. lia.
Qed.

(** [get_array_item] answers the child at an index, and a null pointer behind the last. *)
Lemma get_array_item_does h a l i :
  linked h a l ->
  does (get_array_item (Some a) i) (fun p h' => p = l !! Z.to_nat i /\ h' = h) h.
Proof.
  intros Hl. destruct (lk_array _ _ _ Hl) as (n & Hn & Hc). apply does_bind, (does_deref _ _ _ _ Hn).
  rewrite Hc, head_lookup. by apply (nth_child_does h a l 0).
Qed.

Lemma last_child_does h a l fuel i p :
  linked h a l -> l !! i = Some p -> (length l < fuel + i)%nat ->
  does (last_child fuel (Some p)) (fun q h' => q = last l /\ h' = h) h.
Proof.
  intros Hl. revert i p. induction fuel as [|fuel IH]; intros i p Hi Hf.
  { apply lookup_lt_Some in Hi. lia. }
  destruct (lk_item _ _ _ Hl _ _ Hi) as (n & Hn & Hx & _).
  cbn [last_child]. apply does_bind, (does_deref _ _ _ _ Hn). rewrite Hx.
  destruct (l !! S i) as [q|] eqn:E.
  - apply (IH (S i)); [done|lia].
  - apply does_ret. split; [|done]. rewrite last_lookup, <- Hi. f_equal.
    apply lookup_lt_Some in Hi. apply lookup_ge_None in E. lia.
Qed.

(** ** Adding *)

Lemma alter_if {A} (f : A -> A) p (h : gmap loc A) q :
  alter f p h !! q = (if decide (p = q) then f else id) <$> h !! q.
Proof.
  destruct (decide (p = q)) as [->|H]; [by rewrite lookup_alter_eq|].
  rewrite lookup_alter_ne by done. by destruct (h !! q).
Qed.

(** An item that is in no chain. *)
Definition detached (h : heap) (a : loc) (l : list loc) (x : loc) : Prop :=
  x ∉ a :: l /\ exists n, h !! x = Some n /\ n_next n = None.

Lemma linked_head h a x l : linked h a (x :: l) -> exists n, h !! x = Some n /\ n_next n = head l.
Proof.
  intros Hl. destruct (lk_item _ _ _ Hl 0 x eq_refl) as (n & Hn & Hx & _). exists n.
  split; [done|]. by rewrite Hx, head_lookup.
Qed.

(** [suffix_object] behind the last child, and the way back from the first to it. *)
Lemma suffix_linked h a l x q :
  linked h a l -> detached h a l x -> last l = Some q ->
  forall p, head l = Some p ->
  let h' := alter (fun n => n <| n_prev := Some x |>) p
              (alter (fun n => n <| n_prev := Some q |>) x
                (alter (fun n => n <| n_next := Some x |>) q h)) in
  linked h' a (l ++ [x]) /\ first_prev h' (l ++ [x]) (Some x).
Proof.
  intros Hl [Hx (nx & Hnx & Hxn)] Hq p Hp h'. pose proof (lk_distinct _ _ _ Hl) as Hd.
  apply not_elem_of_cons in Hx as [Hxa Hxl]. apply NoDup_cons in Hd as [Hal Hnd].
  assert (forall r, h' !! r = (fun n => (if decide (p = r) then set n_prev (fun _ => Some x) else id)
    ((if decide (x = r) then set n_prev (fun _ => Some q) else id)
      ((if decide (q = r) then set n_next (fun _ => Some x) else id) n))) <$> h !! r) as Hh'.
  { intros r. unfold h'. rewrite !alter_if. by destruct (h !! r). }
  assert (p ∈ l /\ q ∈ l) as [Hpl Hql].
  { split; [by apply head_Some_elem_of|by apply last_Some_elem_of]. }
  split.
  - constructor.
    + destruct (lk_array _ _ _ Hl) as (n & Hn & Hc). rewrite Hh', Hn. eexists. split; [done|].
      rewrite !decide_False by congruence. cbn. rewrite Hc. by destruct l.
    + intros i r Hi. rewrite Hh'. apply lookup_app_Some in Hi as [Hi|[Hi Hr]].
      * assert (x <> r) as Hxr by (intros ->; by apply Hxl, (list_elem_of_lookup_2 _ i)).
        destruct (lk_item _ _ _ Hl _ _ Hi) as (n & -> & Hn & Hpr). eexists. split; [done|].
        rewrite (decide_False _ _ Hxr). cbn [id]. pose proof (lookup_lt_Some _ _ _ Hi) as Hlt. split.
        -- transitivity (n_next ((if decide (q = r) then set n_next (fun _ => Some x) else id) n)).
           { by case_decide. }
           case_decide as E; cbn.
           ++ rewrite (eq_comm q), (last_index l i) in E by done. rewrite E.
              by rewrite lookup_app_r, Nat.sub_diag.
           ++ assert (S i <> length l) as Hne by (rewrite <- (last_index l i r q) by done; congruence).
              rewrite lookup_app_l by lia. exact Hn.
        -- intros H0. rewrite lookup_app_l by lia. rewrite decide_False; [|].
           ++ rewrite <- Hpr by done. by case_decide.
           ++ intros ->. apply H0. by apply (head_index l i r r).
      * destruct (i - length l)%nat as [|k] eqn:Ek; [|by destruct k]. injection Hr as <-.
        assert (i = length l) as -> by lia. rewrite Hnx. eexists. split; [done|].
        rewrite (decide_False (P := p = x)), (decide_True (P := x = x)), (decide_False (P := q = x))
          by congruence. cbn. split.
        -- rewrite Hxn. symmetry. apply lookup_ge_None. rewrite length_app. cbn. lia.
        -- intros H0. rewrite lookup_app_l by lia. by rewrite <- Hq, last_lookup.
    + apply NoDup_cons. rewrite elem_of_app, list_elem_of_singleton. split; [naive_solver|].
      apply NoDup_app. split; [done|]. split; [|apply NoDup_singleton]. intros r Hr ->%list_elem_of_singleton. done.
  - intros r n Hr. rewrite head_app, Hp in Hr. cbn in Hr. injection Hr as <-. rewrite Hh'.
    destruct (h !! p); [|done]. rewrite (decide_True (P := p = p)) by done. by intros [= <-].
Qed.

(** Everything of an item but its place in a chain. *)
Definition content (n : node) : node := n <| n_next := None |> <| n_prev := None |>.

(** Only the places of the items of [l] in their chains have changed. *)
Definition relinks (l : list loc) (h h' : heap) : Prop :=
  forall p, content <$> h' !! p = content <$> h !! p /\ (p ∉ l -> h' !! p = h !! p).

Lemma relinks_refl l h : relinks l h h.
Proof. done. Qed.

Lemma relinks_trans l h1 h2 h3 : relinks l h1 h2 -> relinks l h2 h3 -> relinks l h1 h3.
Proof. intros H1 H2 p. destruct (H1 p) as [E1 F1], (H2 p) as [E2 F2]. split; [congruence|]. intros. rewrite F2, F1; done. Qed.

Lemma relinks_alter l f p h : (forall n, content (f n) = content n) -> p ∈ l -> relinks l h (alter f p h).
Proof.
  intros Hf Hp q. rewrite alter_if. split.
  - case_decide; [|by destruct (h !! q)]. destruct (h !! q); [|done]. cbn. by rewrite Hf.
  - intros Hq. rewrite decide_False by congruence. by destruct (h !! q).
Qed.

Lemma alter_same {A} (f : A -> A) p (h : gmap loc A) n : h !! p = Some n -> f n = n -> alter f p h = h.
Proof.
  intros Hn E. apply map_eq. intros q. rewrite alter_if. case_decide; [|by destruct (h !! q)].
  subst. rewrite Hn. cbn. by rewrite E.
Qed.

(** What adding [x] to the chain at [a] does to memory. *)
Definition added (a : loc) (l : list loc) (x : loc) (h h' : heap) : Prop :=
  linked h' a (l ++ [x]) /\ first_prev h' (l ++ [x]) (Some x) /\
  relinks (x :: l) (alter (fun n => n <| n_child := head (l ++ [x]) |>) a h) h'.

Lemma suffix_does h a l x q p (Q : bool -> heap -> Prop) :
  linked h a l -> detached h a l x -> last l = Some q -> head l = Some p ->
  (forall h', linked h' a (l ++ [x]) -> first_prev h' (l ++ [x]) (Some x) ->
     relinks (x :: l) h h' -> Q true h') ->
  does (suffix_object (Some q) (Some x))
    (fun _ => does (a' ← deref (Some a);
                    assign (n_child a') (fun n => n <| n_prev := Some x |>);; mret true) Q) h.
Proof.
  intros Hl Hx Hq Hp H. destruct (suffix_linked _ _ _ _ _ Hl Hx Hq p Hp) as [H1 H2].
  assert (p ∈ l /\ q ∈ l) as [Hpl Hql].
  { split; [by apply head_Some_elem_of|by apply last_Some_elem_of]. }
  assert (forall r, r ∈ l -> exists n, h !! r = Some n) as Hin.
  { intros r [i Hi]%list_elem_of_lookup. destruct (lk_item _ _ _ Hl _ _ Hi) as (n & Hn & _). by exists n. }
  destruct Hx as [Hxl (nx & Hnx & _)].
  pose proof (lk_distinct _ _ _ Hl) as [Hal _]%NoDup_cons.
  destruct (lk_array _ _ _ Hl) as (na & Hna & Hca).
  destruct (Hin _ Hql) as (nq & Hnq), (Hin _ Hpl) as (np & Hnp).
  unfold suffix_object. apply does_bind, (does_assign _ _ _ _ _ Hnq).
  eapply does_assign; [rewrite alter_if, Hnx; done|].
  apply does_bind. eapply does_deref; [rewrite !alter_if, Hna; done|].
  rewrite (decide_False (P := q = a)), (decide_False (P := x = a)) by (intros ->; set_solver). cbn [id].
  rewrite Hca, Hp. apply does_bind. eapply does_assign; [rewrite !alter_if, Hnp; done|].
  apply does_ret, H; [done..|]. repeat (eapply relinks_trans; [|apply relinks_alter; [done|set_solver]]). apply relinks_refl.
Qed.

Lemma add_item_does h a l x :
  chain h a l -> detached h a l x ->
  does (add_item_to_array (Some a) (Some x)) (fun b h' => b = true /\ added a l x h h') h.
Proof.
  intros [Hl Hfirst] Hx. pose proof Hx as [[Hxa Hxl]%not_elem_of_cons (nx & Hnx & Hxn)].
  destruct (lk_array _ _ _ Hl) as (na & Hna & Hca).
  unfold add_item_to_array. rewrite !bool_decide_eq_false_2 by congruence. cbn [orb].
  apply does_bind, (does_deref _ _ _ _ Hna). rewrite Hca.
  destruct l as [|p l]; cbn [head].
  - apply does_bind, (does_assign _ _ _ _ _ Hna), does_bind.
    eapply does_assign; [rewrite alter_if, Hnx; done|]. apply does_ret. split; [done|].
    split; [constructor|split].
    + rewrite !alter_if, Hna. eexists. split; [done|]. rewrite decide_False, decide_True by done. done.
    + intros [|[|i]] q Hq; [|done|done]. injection Hq as <-. rewrite !alter_if, Hnx. eexists. split; [done|].
      rewrite decide_True by done. done.
    + apply NoDup_cons. split; [|apply NoDup_singleton]. by intros ->%list_elem_of_singleton.
    + intros q n [= <-]. rewrite !alter_if, Hnx. intros [= <-]. by rewrite decide_True.
    + apply relinks_alter; [done|]. by left.
  - destruct (linked_head _ _ _ _ Hl) as (np & Hnp & _).
    apply does_bind, (does_deref _ _ _ _ Hnp).
    assert (exists q, last (p :: l) = Some q) as [q Hq].
    { destruct (last (p :: l)) eqn:E; [by eexists|]. by apply last_None in E. }
    assert (does (suffix_object (Some q) (Some x))
      (fun _ => does (a' ← deref (Some a);
                      assign (n_child a') (fun n => n <| n_prev := Some x |>);; mret true)
         (fun b h' => b = true /\ added a (p :: l) x h h')) h) as Hs.
    { eapply suffix_does; [done..|]. intros h' H1 H2 H3. do 3 (split; [done|]).
      by rewrite (alter_same _ a h na) by (done || (destruct na; cbn in *; by subst)). }
    apply does_bind. destruct Hfirst as [Hf|Hf]; rewrite (Hf p np eq_refl Hnp); [by rewrite Hq|].
    apply does_bind, does_peek, does_bind. cbn [id].
    eapply does_mono; [apply (last_child_does _ _ _ _ 0 _ Hl)|].
    + done.
    + pose proof (linked_fuel _ _ _ Hl). lia.
    + intros r h' [-> ->]. by rewrite Hq.
Qed.

(** ** Items and values

    [holds h j p D]: the item at [p] has the value [j]; it and all below it, the
    addresses [D], are its own. *)

Section Items.
Context {A : Type} (P : A -> loc -> gset loc -> Prop).

Fixpoint items (js : list A) (l : list loc) (D : gset loc) : Prop :=
  match js, l with
  | [], [] => D = ∅
  | j :: js, x :: l => exists D1 D2, D = D1 ∪ D2 /\ D1 ## D2 /\ P j x D1 /\ items js l D2
  | _, _ => False
  end.
End Items.

Section Holds.
Variable h : heap.

Definition named (x : loc) (name : string) : Prop :=
  exists n, h !! x = Some n /\ n_string n = Some name.

(** The struct of a value that has the children [child]. *)
Definition struct_of (j : cJSON) (n : node) : Prop :=
  Z.land (n_type n) 0xFF = type j /\ Z.land (n_type n) cJSON_IsReference = 0 /\
  n_valuestring n = valuestring j /\ n_valueint n = valueint j /\ n_valuedouble n = valuedouble j.

Fixpoint holds (j : cJSON) (p : loc) (D : gset loc) : Prop :=
  (exists n, h !! p = Some n /\ struct_of j n) /\
  exists l D', chain h p l /\ D = {[p]} ∪ D' /\ p ∉ D' /\
    match j with
    | JArray js => items holds js l D'
    | JObject ms => items (fun m x E => named x (fst m) /\ holds (snd m) x E) ms l D'
    | _ => l = [] /\ D' = ∅
    end.
End Holds.

Section ItemsProps.
Context {A : Type} (P : A -> loc -> gset loc -> Prop).

Lemma items_in js l D :
  (forall j x E, P j x E -> x ∈ E) -> items P js l D -> forall x, x ∈ l -> x ∈ D.
Proof.
  intros HP. revert l D. induction js as [|j js IH]; intros [|y l] D; cbn; try done.
  - intros _ x ?%elem_of_nil. done.
  - intros (D1 & D2 & -> & _ & Hj & Hl) x [->|Hx]%elem_of_cons; [apply HP in Hj; set_solver|].
    specialize (IH _ _ Hl _ Hx). set_solver.
Qed.

Lemma items_snoc js l D j x E :
  items P js l D -> P j x E -> D ## E -> items P (js ++ [j]) (l ++ [x]) (D ∪ E).
Proof.
  revert l D. induction js as [|k js IH]; intros [|y l] D; cbn; try done.
  - intros -> Hj _. exists E, ∅. set_solver.
  - intros (D1 & D2 & -> & Hd & Hk & Hl) Hj HE. exists D1, (D2 ∪ E).
    split; [set_solver|]. split; [set_solver|]. split; [done|]. apply IH; [done..|set_solver].
Qed.
End ItemsProps.

Lemma items_mono {A} (P Q : A -> loc -> gset loc -> Prop) js l D :
  Forall (fun j => forall x E, E ⊆ D -> P j x E -> Q j x E) js -> items P js l D -> items Q js l D.
Proof.
  revert l D. induction js as [|j js IH]; intros [|y l] D; cbn; try done.
  intros [Hj Hs]%Forall_cons (D1 & D2 & -> & Hd & Hp & Hl). exists D1, D2.
  do 2 (split; [done|]). split; [apply Hj; [set_solver|done]|]. apply IH; [|done].
  eapply Forall_impl; [exact Hs|]. cbn. intros k Hk x E HE. apply Hk. set_solver.
Qed.

Lemma holds_root h j p D : holds h j p D -> p ∈ D.
Proof. destruct j; intros (_ & l & D' & _ & -> & _); set_solver. Qed.

(** Two structs that differ in their place only. *)
Lemma content_same (h h' : heap) p n :
  content <$> h' !! p = content <$> h !! p -> h !! p = Some n ->
  exists n', h' !! p = Some n' /\ content n' = content n.
Proof. intros E Hn. rewrite Hn in E. destruct (h' !! p) as [n'|]; [|done]. apply (inj Some) in E. by exists n'. Qed.

Lemma content_struct j n n' : content n' = content n -> struct_of j n -> struct_of j n'.
Proof.
  intros E. unfold struct_of. pose proof (f_equal n_type E). pose proof (f_equal n_valuestring E).
  pose proof (f_equal n_valueint E). pose proof (f_equal n_valuedouble E). cbn in *. congruence.
Qed.

(** A chain depends on its items and on where its parent points. *)
Lemma chain_frame h h' a l :
  (forall x, x ∈ l -> h' !! x = h !! x) -> n_child <$> h' !! a = n_child <$> h !! a ->
  chain h a l -> chain h' a l.
Proof.
  intros Hx Ha [[(m & Hm & Hh) Hi Hd] Hf]. rewrite Hm in Ha.
  destruct (h' !! a) as [n'|] eqn:Hn'; [|done]. apply (inj Some) in Ha. split; [constructor; [|..]|].
  - exists n'. split; [done|]. congruence.
  - intros i p Hp. rewrite (Hx p) by by eapply list_elem_of_lookup_2. by apply Hi.
  - done.
  - destruct Hf as [Hf|Hf]; [left|right]; intros p k Hp Hk;
      (rewrite Hx in Hk by by apply head_Some_elem_of); by apply (Hf p).
Qed.

Lemma content_children (h h' : heap) p :
  content <$> h' !! p = content <$> h !! p -> n_child <$> h' !! p = n_child <$> h !! p.
Proof.
  destruct (h' !! p), (h !! p); try done. intros E%(inj Some). cbn. f_equal. exact (f_equal n_child E).
Qed.

(** The value of an item does not depend on its own place in a chain, nor on memory
    that is not its own. *)
Lemma holds_frame h h' j p D :
  holds h j p D -> (forall q, q ∈ D -> q <> p -> h' !! q = h !! q) ->
  content <$> h' !! p = content <$> h !! p -> holds h' j p D.
Proof.
  revert p D. induction j as [|b v|v d|s|js IH|ms IH] using cJSON_nested_ind;
    intros p D ((n & Hn & Hs) & l & D' & Hc & -> & Hp & Hi) Hq Hcont;
    (split; [destruct (content_same _ _ _ _ Hcont Hn) as (n' & ? & ?); exists n';
             split; [done|by eapply content_struct]|]);
    (assert (forall x, x ∈ D' -> h' !! x = h !! x) as Hx by (intros x HxD; apply Hq; set_solver));
    exists l, D'.
  1-4: destruct Hi as [-> ->]; split; [|done]; apply (chain_frame h); [by intros x ?%elem_of_nil|by apply content_children|done].
  - assert (forall x, x ∈ l -> x ∈ D') as Hin by (eapply items_in; [|exact Hi]; intros; by eapply holds_root).
    split; [apply (chain_frame h); auto using content_children|]. do 2 (split; [done|]).
    eapply items_mono; [|exact Hi]. eapply Forall_impl; [exact IH|]. cbn. intros j Hj x E HE Hh.
    apply holds_root in Hh as Hroot. apply Hj; [done|auto|]. by rewrite Hx by auto.
  - assert (forall x, x ∈ l -> x ∈ D') as Hin.
    { eapply items_in; [|exact Hi]. intros m x E [_ Hm]. by eapply holds_root. }
    split; [apply (chain_frame h); auto using content_children|]. do 2 (split; [done|]).
    eapply items_mono; [|exact Hi]. eapply Forall_impl; [exact IH|]. cbn. intros m Hj x E HE [Hnm Hh].
    apply holds_root in Hh as Hroot. unfold named in *. rewrite (Hx x) by auto. split; [done|].
    apply Hj; [done|auto|]. by rewrite Hx by auto.
Qed.

Definition member_holds (h : heap) (m : string * cJSON) (x : loc) (E : gset loc) : Prop :=
  named h x (fst m) /\ holds h (snd m) x E.

Lemma member_holds_frame h h' m p D :
  member_holds h m p D -> (forall q, q ∈ D -> q <> p -> h' !! q = h !! q) ->
  content <$> h' !! p = content <$> h !! p -> member_holds h' m p D.
Proof.
  intros [(n & Hn & Hs) Hh] Hq Hc. split; [|by eapply holds_frame].
  destruct (content_same _ _ _ _ Hc Hn) as (n' & Hn' & E). exists n'. split; [done|].
  rewrite <- Hs. exact (f_equal n_string E).
Qed.

(** ** Adding to a value *)

Section Added.
Context {A : Type} (P : heap -> A -> loc -> gset loc -> Prop).
Context (P_frame : forall h h' j p D,
  P h j p D -> (forall q, q ∈ D -> q <> p -> h' !! q = h !! q) ->
  content <$> h' !! p = content <$> h !! p -> P h' j p D).
Context (P_root : forall h j p D, P h j p D -> p ∈ D).

Lemma items_relinked h h' js l D :
  items (P h) js l D -> (forall q, q ∈ D -> q ∉ l -> h' !! q = h !! q) ->
  (forall q, q ∈ l -> content <$> h' !! q = content <$> h !! q) -> items (P h') js l D.
Proof.
  revert l D. induction js as [|j js IH]; intros [|x l] D; cbn; try done.
  intros (D1 & D2 & -> & Hd & Hj & Hl) Hq Hc. exists D1, D2. do 2 (split; [done|]).
  pose proof (items_in (P h) _ _ _ (P_root h) Hl) as Hin. pose proof (P_root _ _ _ _ Hj) as Hx. split.
  - apply (P_frame h); [done| |apply Hc; by left]. intros q HqD Hne. apply Hq; [set_solver|].
    intros [->|H2%Hin]%elem_of_cons; [done|set_solver].
  - apply IH; [done| |intros; apply Hc; by right]. intros q HqD Hql. apply Hq; [set_solver|].
    intros [->|H2]%elem_of_cons; [set_solver|done].
Qed.

Lemma added_items h h' a l x js D j E :
  added a l x h h' -> items (P h) js l D -> a ∉ D -> P h j x E -> a ∉ E -> D ## E ->
  items (P h') (js ++ [j]) (l ++ [x]) (D ∪ E).
Proof.
  intros (_ & _ & Hr) Hi HaD Hj HaE Hd.
  pose proof (items_in (P h) _ _ _ (P_root h) Hi) as Hin. pose proof (P_root _ _ _ _ Hj) as Hx.
  assert (forall q, q <> a -> content <$> h' !! q = content <$> h !! q /\ (q ∉ x :: l -> h' !! q = h !! q))
    as Hq.
  { intros q Hqa. destruct (Hr q) as [H1 H2]. rewrite lookup_alter_ne in H1, H2 by done. done. }
  apply items_snoc; [| |done].
  - apply (items_relinked h); [done| |].
    + intros q HqD Hql. apply Hq; [set_solver|]. intros [->|?]%elem_of_cons; [set_solver|done].
    + intros q Hql. apply Hq. intros ->. auto.
  - apply (P_frame h); [done| |apply Hq; set_solver].
    intros q HqE Hne. apply Hq; [set_solver|]. intros [->|?%Hin]%elem_of_cons; set_solver.
Qed.
End Added.

Lemma added_root a l x h h' j n :
  added a l x h h' -> h !! a = Some n -> struct_of j n -> exists n', h' !! a = Some n' /\ struct_of j n'.
Proof.
  intros (_ & _ & Hr) Hn Hs. destruct (Hr a) as [Hc _].
  destruct (content_same _ _ _ (n <| n_child := head (l ++ [x]) |>) Hc) as (n' & Hn' & E).
  { by rewrite lookup_alter_eq, Hn. }
  exists n'. split; [done|]. by eapply content_struct.
Qed.

Lemma added_chain a l x h h' : added a l x h h' -> chain h' a (l ++ [x]).
Proof. intros (Hl & Hf & _). split; [done|]. left. by rewrite last_snoc. Qed.

Lemma holds_detached h a l D' j x E :
  (forall y, y ∈ l -> y ∈ D') -> {[a]} ∪ D' ## E -> holds h j x E ->
  (exists n, h !! x = Some n /\ n_next n = None) -> detached h a l x.
Proof.
  intros Hin Hd Hj Hx. apply holds_root in Hj. split; [|done].
  intros [->|H%Hin]%elem_of_cons; set_solver.
Qed.

(** Appending an item that is in no chain to an array in memory is appending its
    value to the array's value: [add_item_to_array], which finds the last child through
    the [prev] of the first or by walking the chain, implements the [cJSON_AddItemToArray]
    of values, and touches no memory but the array's and the item's own. *)
Theorem add_item_refines h js a D j x E :
  holds h (JArray js) a D -> holds h j x E -> D ## E ->
  (exists n, h !! x = Some n /\ n_next n = None) ->
  exists h', add_item_to_array (Some a) (Some x) h = Some (Some (true, h')) /\
    holds h' (cJSON_AddItemToArray (JArray js) j) a (D ∪ E) /\
    (forall q, q ∉ D ∪ E -> h' !! q = h !! q).
Proof.
  intros ((n & Hn & Hs) & l & D' & Hc & -> & Ha & Hi) Hj Hd Hx.
  assert (forall y, y ∈ l -> y ∈ D') as Hin by (eapply items_in; [|exact Hi]; intros; by eapply holds_root).
  destruct (add_item_does h a l x Hc) as (b & h' & E1 & -> & Hadd); [by eapply holds_detached|].
  exists h'. split; [done|]. pose proof (holds_root _ _ _ _ Hj) as HxE. split.
  - split; [by eapply added_root|]. exists (l ++ [x]), (D' ∪ E). split; [by eapply added_chain|].
    split; [set_solver|]. split; [set_solver|]. cbn [cJSON_AddItemToArray].
    apply (added_items holds holds_frame holds_root h h' a l x); [done..|set_solver|done|set_solver|set_solver].
  - intros q Hq. destruct Hadd as (_ & _ & Hr). destruct (Hr q) as [_ H].
    rewrite H, lookup_alter_ne; [done|set_solver|]. intros [->|?%Hin]%elem_of_cons; set_solver.
Qed.

Definition below (h : heap) (j : cJSON) (l : list loc) (D : gset loc) : Prop :=
  match j with
  | JArray js => items (holds h) js l D
  | JObject ms => items (member_holds h) ms l D
  | _ => l = [] /\ D = ∅
  end.

Lemma holds_parts h j p D :
  holds h j p D <->
  (exists n, h !! p = Some n /\ struct_of j n) /\
  exists l D', chain h p l /\ D = {[p]} ∪ D' /\ p ∉ D' /\ below h j l D'.
Proof. by destruct j. Qed.

(** Giving an item a name, or flags besides its type, does not change its value. *)
Lemma holds_rename h j p D f :
  holds h j p D -> (forall n, n_child (f n) = n_child n) -> (forall n, struct_of j n -> struct_of j (f n)) ->
  holds (alter f p h) j p D.
Proof.
  rewrite !holds_parts. intros ((n & Hn & Hs) & l & D' & Hc & -> & Hp & Hi) Hch Hf.
  split; [exists (f n); split; [by rewrite lookup_alter_eq, Hn|auto]|]. exists l, D'.
  assert (forall x, x ∈ D' -> alter f p h !! x = h !! x) as Hx.
  { intros x Hx. apply lookup_alter_ne. set_solver. }
  assert ((forall x, x ∈ l -> x ∈ D') -> chain (alter f p h) p l) as Hchain.
  { intros Hin. apply (chain_frame h); [auto| |done]. rewrite lookup_alter_eq, Hn. cbn. by rewrite Hch. }
  destruct j as [| | | |js|ms]; cbn [below] in *; try (destruct Hi as [-> ->]; split; [|done]; apply Hchain; by intros x ?%elem_of_nil).
  - assert (forall x, x ∈ l -> x ∈ D') as Hin by (eapply items_in; [|exact Hi]; intros; by eapply holds_root).
    split; [auto|]. do 2 (split; [done|]). eapply (items_relinked holds holds_frame holds_root); [exact Hi|auto|].
    intros q Hq. by rewrite Hx by auto.
  - assert (forall h m x E, member_holds h m x E -> x ∈ E) as Hr by (intros ???? [_ ?]; by eapply holds_root).
    assert (forall x, x ∈ l -> x ∈ D') as Hin by (eapply items_in; [|exact Hi]; by apply Hr).
    split; [auto|]. do 2 (split; [done|]).
    eapply (items_relinked member_holds member_holds_frame Hr); [exact Hi|auto|].
    intros q Hq. by rewrite Hx by auto.
Qed.

Definition retyped (constant_key : bool) (t : Z) : Z :=
  if constant_key then Z.lor t cJSON_StringIsConst else Z.land t (Z.lnot cJSON_StringIsConst).

Lemma retyped_struct j n constant_key name :
  struct_of j n ->
  struct_of j (n <| n_string := name |> <| n_type := retyped constant_key (n_type n) |>).
Proof.
  unfold struct_of, retyped. cbn. intros (Ht & Hr & H). destruct constant_key.
  - rewrite !Z.land_lor_distr_l, Ht, Hr. change (Z.land cJSON_StringIsConst 0xFF) with 0.
    change (Z.land cJSON_StringIsConst cJSON_IsReference) with 0. by rewrite !Z.lor_0_r.
  - rewrite <- !Z.land_assoc. change (Z.land (Z.lnot cJSON_StringIsConst) 0xFF) with 0xFF.
    change (Z.land (Z.lnot cJSON_StringIsConst) cJSON_IsReference) with cJSON_IsReference. by rewrite Ht, Hr.
Qed.

Lemma add_member_holds h ms a D name constant_key j x E :
  holds h (JObject ms) a D -> holds h j x E -> D ## E ->
  (exists n, h !! x = Some n /\ n_next n = None) ->
  exists h', add_item_to_object (Some a) (Some name) (Some x) constant_key h = Some (Some (true, h')) /\
    holds h' (cJSON_AddItemToObject (JObject ms) name j) a (D ∪ E) /\
    (forall q, q ∉ D ∪ E -> h' !! q = h !! q).
Proof.
  intros Ho Hj Hd (nx & Hnx & Hxn). pose proof (holds_root _ _ _ _ Hj) as HxE.
  set (f := fun n => n <| n_string := Some name |> <| n_type := retyped constant_key (n_type n) |>).
  assert (forall q, q <> x -> alter f x h !! q = h !! q) as Hf by (intros; by apply lookup_alter_ne).
  assert (holds (alter f x h) (JObject ms) a D) as Ho1.
  { apply (holds_frame h); [done| |]; intros; by rewrite Hf by (pose proof (holds_root _ _ _ _ Ho); set_solver). }
  assert (holds (alter f x h) j x E) as Hj1 by (apply holds_rename; [done|done|]; intros; by apply retyped_struct).
  destruct Ho1 as ((n & Hn & Hs) & l & D' & Hc & -> & Ha & Hi).
  assert (forall h m x E, member_holds h m x E -> x ∈ E) as Hr by (intros ???? [_ ?]; by eapply holds_root).
  assert (forall y, y ∈ l -> y ∈ D') as Hin by (eapply items_in; [|exact Hi]; by apply Hr).
  assert (exists nx', alter f x h !! x = Some nx' /\ n_next nx' = None /\ n_string nx' = Some name)
    as (nx' & Hnx' & Hnn & Hns) by (rewrite lookup_alter_eq, Hnx; by eexists).
  destruct (add_item_does (alter f x h) a l x Hc) as (b & h' & E1 & -> & Hadd).
  { eapply holds_detached; [exact Hin|exact Hd|exact Hj1|by exists nx']. }
  exists h'. split; [|split].
  - unfold add_item_to_object. rewrite !bool_decide_eq_false_2 by set_solver. cbn [orb].
    destruct (does_assign x nx f (fun _ h1 => h1 = alter f x h) h Hnx eq_refl) as ([] & h1 & E0 & ->).
    unfold mbind, attempt_bind. change (assign (Some x) _ h) with (assign (Some x) f h). rewrite E0. exact E1.
  - split; [by eapply added_root|]. exists (l ++ [x]), (D' ∪ E). split; [by eapply added_chain|].
    split; [set_solver|]. split; [set_solver|]. cbn [cJSON_AddItemToObject].
    apply (added_items member_holds member_holds_frame Hr (alter f x h) h' a l x); [done..|set_solver| |set_solver|set_solver].
    split; [by exists nx'|done].
  - intros q Hq. destruct Hadd as (_ & _ & Hrl). destruct (Hrl q) as [_ H].
    rewrite H, lookup_alter_ne, Hf; [done|set_solver|set_solver|]. intros [->|?%Hin]%elem_of_cons; set_solver.
Qed.

(** C16: adding an item that is in no chain to an object in memory is adding its value to
    the object's value: [add_item_to_object], which names the item, whether the name is
    copied or the caller's, and finds the last member through the [prev] of the first or
    by walking the chain, implements the [cJSON_AddItemToObject] of values, and touches
    no memory but the object's and the item's own. *)
Theorem add_member_refines h ms a D name constant_key j x E :
  holds h (JObject ms) a D -> holds h j x E -> D ## E ->
  (exists n, h !! x = Some n /\ n_next n = None) ->
  exists h', add_item_to_object (Some a) (Some name) (Some x) constant_key h = Some (Some (true, h')) /\
    holds h' (cJSON_AddItemToObject (JObject ms) name j) a (D ∪ E) /\
    (forall q, q ∉ D ∪ E -> h' !! q = h !! q).
Proof. apply add_member_holds. Qed.

(** ** New items *)

Lemma leaf_chain h p n : h !! p = Some n -> n_child n = None -> chain h p [].
Proof.
  intros Hn Hc. split; [constructor|by left].
  - by exists n.
  - done.
  - apply NoDup_singleton.
Qed.


(** A new item has the value [j], and no memory but its own has changed. *)
Definition creates (m : links pointer) (j : cJSON) : Prop := forall h,
  does m (fun p h' => exists q n, p = Some q /\ h !! q = None /\ holds h' j q {[q]} /\
    h' !! q = Some n /\ n_next n = None /\ forall r, r <> q -> h' !! r = h !! r) h.

Lemma fresh_address (h : heap) : h !! fresh (dom h) = None.
Proof. apply not_elem_of_dom, is_fresh. Qed.

Lemma created_creates f j n :
  f (mk_node None None None cJSON_Invalid None 0 d_zero None) = n ->
  n_next n = None -> n_child n = None -> struct_of j n -> children j = [] -> creates (created f) j.
Proof.
  intros Hf Hn Hc Hs Hj h. unfold created. apply does_bind.
  set (h1 := <[fresh (dom h) := mk_node None None None cJSON_Invalid None 0 d_zero None]> h).
  exists (Some (fresh (dom h))), h1. split; [done|]. apply does_bind.
  eapply does_assign; [by apply lookup_insert_eq|]. apply does_ret.
  assert (forall r, r <> fresh (dom h) -> alter f (fresh (dom h)) h1 !! r = h !! r) as Hother.
  { intros r Hr. rewrite lookup_alter_ne by done. unfold h1. by rewrite lookup_insert_ne. }
  assert (alter f (fresh (dom h)) h1 !! fresh (dom h) = Some n) as Hnew.
  { rewrite lookup_alter_eq. unfold h1. rewrite lookup_insert_eq. cbn. by rewrite Hf. }
  exists (fresh (dom h)), n. split; [done|]. split; [apply fresh_address|].
  split; [|done]. apply holds_parts. split; [by exists n|]. exists [], ∅.
  split; [by eapply leaf_chain|]. split; [set_solver|]. split; [set_solver|].
  destruct j as [| | | |[]|[|[]]]; done.
Qed.

Lemma new_items :
  creates create_null JNull /\ (forall b, creates (create_bool b) (JBool b 0)) /\
  creates create_array (JArray []) /\ creates create_object (JObject []) /\
  (forall d, creates (create_number d) (cJSON_CreateNumber d)) /\
  forall s, creates (create_string s) (JString s).
Proof. repeat split; intros; (eapply created_creates; [reflexivity|done|done|by (try destruct b; repeat split)|done]). Qed.

Lemma holds_allocated h j p D : holds h j p D -> forall q, h !! q = None -> q ∉ D.
Proof.
  revert p D. induction j as [|b v|v d|s|js IH|ms IH] using cJSON_nested_ind;
    intros p D ((n & Hn & _) & l & D' & _ & -> & _ & Hi) q Hq.
  1-4: destruct Hi as [_ ->]; set_solver.
  - enough (q ∉ D') by set_solver. clear Hn. revert l D' Hi.
    induction IH as [|j js Hj _ IHl]; intros [|x l] D'; cbn [items]; try done; [set_solver|].
    intros (D1 & D2 & -> & _ & H1 & H2). apply not_elem_of_union. split; [by eapply Hj|by eapply IHl].
  - enough (q ∉ D') by set_solver. clear Hn. revert l D' Hi.
    induction IH as [|m ms Hj _ IHl]; intros [|x l] D'; cbn [items]; try done; [set_solver|].
    intros (D1 & D2 & -> & _ & [_ H1] & H2). apply not_elem_of_union. split; [by eapply Hj|by eapply IHl].
Qed.

(** The functions that make an item and add it at once do what they do to values:
    whatever the items [new_items] are. *)
Theorem add_new_refines h create j ms a D name :
  creates create j -> holds h (JObject ms) a D ->
  exists q h', add_new create (Some a) (Some name) h = Some (Some (Some q, h')) /\
    holds h' (cJSON_AddItemToObject (JObject ms) name j) a (D ∪ {[q]}).
Proof.
  intros Hc Ho. destruct (Hc h) as (p & h1 & E1 & q & n & -> & Hq & Hj & Hn & Hnn & Hother).
  pose proof (holds_allocated _ _ _ _ Ho _ Hq) as HqD.
  assert (forall r, r ∈ D -> h1 !! r = h !! r) as HD by (intros; apply Hother; set_solver).
  assert (holds h1 (JObject ms) a D) as Ho1.
  { apply (holds_frame h); [done|auto|]. by rewrite HD by by eapply holds_root. }
  destruct (add_member_holds h1 ms a D name false j q {[q]} Ho1 Hj) as (h2 & E2 & H2 & _);
    [set_solver|by eexists|].
  exists q, h2. split; [|done]. unfold add_new, mbind, attempt_bind. by rewrite E1, E2.
Qed.

(** ** Detaching *)

Section Detach.
Context (h : heap) (a : loc) (l : list loc) (i : nat) (x : loc) (nx : node).
Hypotheses (Hl : linked h a l) (Hi : l !! i = Some x) (Hnx : h !! x = Some nx).

(** What detaching the child at index [i] does to each struct. *)
Definition unlink (r : loc) (n : node) : node :=
  if decide (r = x) then n <| n_prev := None |> <| n_next := None |>
  else if decide (r = a) then (if decide (i = O) then n <| n_child := l !! 1%nat |> else n)
  else if decide (l !! S i = Some r) then n <| n_prev := n_prev nx |>
  else if decide (i <> O /\ l !! pred i = Some r) then n <| n_next := l !! S i |>
  else n.

Lemma x_not_a : x <> a.
Proof.
  pose proof (lk_distinct _ _ _ Hl) as [Ha _]%NoDup_cons. intros ->. apply Ha. by eapply list_elem_of_lookup_2.
Qed.

Lemma others_not_x j r : l !! j = Some r -> j <> i -> r <> x.
Proof.
  intros Hj Hne ->. apply Hne. pose proof (lk_distinct _ _ _ Hl) as [_ Hd]%NoDup_cons. by eapply NoDup_lookup.
Qed.

Lemma children_not_a j r : l !! j = Some r -> r <> a.
Proof.
  pose proof (lk_distinct _ _ _ Hl) as [Ha _]%NoDup_cons. intros Hj ->. apply Ha. by eapply list_elem_of_lookup_2.
Qed.

Lemma child_struct j r : l !! j = Some r -> exists n, h !! r = Some n.
Proof. intros Hj. destruct (lk_item _ _ _ Hl _ _ Hj) as (n & Hn & _). by exists n. Qed.

Lemma x_first : Some x = head l <-> i = O.
Proof.
  split; [|intros ->; by rewrite head_lookup]. intros H.
  apply (head_index l i x x); [|done..]. by pose proof (lk_distinct _ _ _ Hl) as [_ Hd]%NoDup_cons.
Qed.

(** A step that changes each struct on its own. *)
Definition turns {A} (m : links A) (F : loc -> node -> node) (h1 : heap) : Prop :=
  does m (fun _ h2 => forall r, h2 !! r = F r <$> h1 !! r) h1.

Lemma turns_assign p f h1 n F :
  h1 !! p = Some n -> (forall r k, F r k = if decide (r = p) then f k else k) ->
  turns (assign (Some p) f) F h1.
Proof.
  intros Hn HF. eapply does_assign; [done|]. intros r. rewrite alter_if.
  destruct (h1 !! r); [|done]. cbn. rewrite HF. by repeat case_decide.
Qed.

Lemma turns_nothing F h1 : (forall r k, h1 !! r = Some k -> F r k = k) -> turns (mret tt) F h1.
Proof. intros HF. apply does_ret. intros r. destruct (h1 !! r) eqn:E; [|done]. cbn. by rewrite (HF r). Qed.

Lemma turns_bind {A B} (m : links A) (k : A -> links B) F (Q : B -> heap -> Prop) h1 :
  turns m F h1 ->
  (forall y h2, (forall r, h2 !! r = F r <$> h1 !! r) -> does (k y) Q h2) -> does (mbind k m) Q h1.
Proof. intros H Hk. apply does_bind. eapply does_mono; [exact H|]. intros y h2 H2. by apply Hk. Qed.

Definition skip_back (r : loc) (n : node) : node :=
  if decide (i <> O /\ l !! pred i = Some r) then n <| n_next := l !! S i |> else n.
Definition skip_forth (r : loc) (n : node) : node :=
  if decide (l !! S i = Some r) then n <| n_prev := n_prev nx |> else n.
Definition skip_child (r : loc) (n : node) : node :=
  if decide (r = a /\ i = O) then n <| n_child := l !! S i |> else n.
Definition clear (r : loc) (n : node) : node :=
  if decide (r = x) then n <| n_prev := None |> <| n_next := None |> else n.

Lemma unlink_steps r n : clear r (skip_child r (skip_forth r (skip_back r n))) = unlink r n.
Proof.
  unfold clear, skip_child, skip_forth, skip_back, unlink.
  pose proof x_not_a as Hxa. pose proof (others_not_x (S i) r) as Hx1.
  pose proof (others_not_x (pred i) r) as Hx2.
  pose proof (children_not_a (S i) r) as Ha1. pose proof (children_not_a (pred i) r) as Ha2.
  pose proof (lk_distinct _ _ _ Hl) as [_ Hd]%NoDup_cons.
  assert (l !! S i = Some r -> l !! pred i = Some r -> False) as Hne.
  { intros E1 E2. pose proof (NoDup_lookup _ _ _ _ Hd E1 E2). lia. }
  destruct (decide (r = x)) as [->|Hrx].
  - rewrite (decide_False (P := l !! S i = Some x)) by (intros E; apply (Hx1 E); [lia|done]).
    rewrite (decide_False (P := i <> O /\ _)) by (intros [E1 E2]; apply (Hx2 E2); [lia|done]).
    by rewrite decide_False by tauto.
  - destruct (decide (r = a)) as [->|Hra].
    + rewrite (decide_False (P := l !! S i = Some a)) by (intros E; by apply Ha1).
      rewrite (decide_False (P := i <> O /\ _)) by (intros [E1 E2]; by apply Ha2).
      destruct (decide (i = O)) as [->|]; [by rewrite decide_True|by rewrite decide_False by tauto].
    + rewrite (decide_False (P := r = a /\ _)) by tauto.
      destruct (decide (l !! S i = Some r)); [|done]. by rewrite decide_False by tauto.
Qed.

Lemma detach_heap :
  does (cJSON_DetachItemViaPointer (Some a) (Some x))
    (fun r h' => r = Some x /\ forall r, h' !! r = unlink r <$> h !! r) h.
Proof.
  pose proof x_not_a as Hxa. pose proof x_first as Hfirst.
  destruct (lk_array _ _ _ Hl) as (na & Hna & Hca).
  destruct (lk_item _ _ _ Hl _ _ Hi) as (nx' & Hnx' & Hnext & Hprev).
  assert (nx' = nx) as -> by congruence.
  unfold cJSON_DetachItemViaPointer. rewrite !bool_decide_eq_false_2 by done. cbn [orb].
  apply does_bind, (does_deref _ _ _ _ Hna). rewrite Hca.
  apply (turns_bind _ _ skip_back).
  { case_bool_decide as E.
    - assert (i <> O) as Hi0 by tauto. specialize (Hprev Hi0).
      destruct (l !! pred i) as [p|] eqn:Hp; [|apply lookup_ge_None in Hp; apply lookup_lt_Some in Hi; lia].
      destruct (child_struct _ _ Hp) as (np & Hnp).
      apply does_bind, (does_deref _ _ _ _ Hnx). rewrite Hprev. eapply turns_assign; [exact Hnp|].
      intros r k. unfold skip_back. rewrite Hp, Hnext.
      destruct (decide (r = p)) as [->|]; [by rewrite decide_True|]. rewrite decide_False; [done|].
      intros [_ ?]. congruence.
    - apply turns_nothing. intros r k _. unfold skip_back. rewrite decide_False; [done|].
      tauto. }
  intros _ h1 H1.
  assert (forall r n, h !! r = Some n -> h1 !! r = Some (skip_back r n)) as Hh1 by (intros r n E; by rewrite H1, E).
  assert (skip_back x nx = nx) as Ex1.
  { unfold skip_back. rewrite decide_False; [done|]. intros [E1 E2]. by apply others_not_x in E2; [|lia]. }
  apply does_bind, (does_deref _ nx); [by rewrite (Hh1 _ _ Hnx), Ex1|]. rewrite Hnext.
  apply (turns_bind _ _ skip_forth).
  { case_bool_decide as E.
    - destruct (l !! S i) as [q|] eqn:Hq; [|done]. destruct (child_struct _ _ Hq) as (nq & Hnq).
      eapply turns_assign; [by apply Hh1|]. intros r k. unfold skip_forth. rewrite Hq.
      destruct (decide (r = q)) as [->|]; [by rewrite decide_True|]. rewrite decide_False; [done|congruence].
    - apply turns_nothing. intros r k _. unfold skip_forth. by rewrite E. }
  intros _ h2 H2.
  assert (forall r n, h !! r = Some n -> h2 !! r = Some (skip_forth r (skip_back r n))) as Hh2
    by (intros r n E; by rewrite H2, (Hh1 _ _ E)).
  assert (skip_forth x nx = nx) as Ex2.
  { unfold skip_forth. rewrite decide_False; [done|]. intros E2. by apply others_not_x in E2; [|lia]. }
  apply (turns_bind _ _ skip_child).
  { case_bool_decide as E.
    - apply does_bind, (does_deref _ nx); [by rewrite (Hh2 _ _ Hnx), Ex1, Ex2|]. rewrite Hnext.
      eapply turns_assign; [by apply Hh2|]. intros r k. unfold skip_child. apply Hfirst in E.
      destruct (decide (r = a)); [by rewrite decide_True|]. rewrite decide_False; [done|tauto].
    - apply turns_nothing. intros r k _. unfold skip_child. rewrite decide_False; [done|tauto]. }
  intros _ h3 H3.
  assert (skip_child x nx = nx) as Ex3 by (unfold skip_child; rewrite decide_False; [done|tauto]).
  apply (turns_bind _ _ clear).
  { eapply turns_assign; [by rewrite H3, (Hh2 _ _ Hnx), Ex1, Ex2|]. intros r k. done. }
  intros _ h4 H4. apply does_ret. split; [done|]. intros r. rewrite H4, H3, H2, H1.
  destruct (h !! r); [|done]. cbn. f_equal. apply unlink_steps.
Qed.
End Detach.

Lemma detach_does h a l i x q :
  linked h a l -> first_prev h l q -> l !! i = Some x ->
  does (cJSON_DetachItemViaPointer (Some a) (Some x))
    (fun r h' => r = Some x /\ linked h' a (delete i l) /\ first_prev h' (delete i l) q /\
       (forall r, r ∉ a :: l -> h' !! r = h !! r) /\
       exists n, h !! x = Some n /\ h' !! x = Some (n <| n_prev := None |> <| n_next := None |>)) h.
Proof.
  intros Hl Hf Hi. destruct (lk_item _ _ _ Hl _ _ Hi) as (nx & Hnx & Hnext & Hprev).
  pose proof (lk_distinct _ _ _ Hl) as Hd. pose proof Hd as [Hal Hnd]%NoDup_cons.
  assert (x <> a) as Hxa by by eapply x_not_a.
  eapply does_mono; [by apply detach_heap|]. intros r h' [-> Hh']. split; [done|].
  assert (forall j p, delete i l !! j = Some p ->
    (exists k, l !! k = Some p /\ k <> i /\ k = (if decide (j < i)%nat then j else S j))) as Hdel.
  { intros j p. case_decide.
    - rewrite list_lookup_delete_lt by done. intros. exists j. repeat split; [done|lia].
    - rewrite list_lookup_delete_ge by lia. intros. exists (S j). repeat split; [done|lia]. }
  assert (forall k p n, l !! k = Some p -> k <> i -> h !! p = Some n ->
    h' !! p = Some (if decide (k = S i) then n <| n_prev := n_prev nx |>
                    else if decide (i <> O /\ k = pred i) then n <| n_next := l !! S i |> else n)) as Hitem.
  { intros k p n Hk Hki Hn. rewrite Hh', Hn. cbn. f_equal. unfold unlink.
    rewrite decide_False by by eapply others_not_x. rewrite decide_False by by eapply children_not_a.
    assert (forall m, l !! m = Some p <-> k = m) as Hm.
    { intros m. split; [intros E; by eapply NoDup_lookup|by intros <-]. }
    rewrite <- (decide_ext (l !! S i = Some p) (k = S i)) by apply Hm.
    rewrite <- (decide_ext (i <> O /\ l !! pred i = Some p) (i <> O /\ k = pred i)); [done|].
    by rewrite Hm. }
  split; [constructor|split; [|split]].
  - destruct (lk_array _ _ _ Hl) as (na & Hna & Hca). rewrite Hh', Hna. eexists. split; [done|].
    unfold unlink. rewrite (decide_False (P := a = x)), (decide_True (P := a = a)) by done.
    rewrite head_lookup. destruct (decide (i = O)) as [->|E].
    + by rewrite list_lookup_delete_ge.
    + rewrite list_lookup_delete_lt by lia. by rewrite Hca, head_lookup.
  - intros j p Hp. destruct (Hdel _ _ Hp) as (k & Hk & Hki & Ek).
    destruct (lk_item _ _ _ Hl _ _ Hk) as (n & Hn & Hnn & Hnp). rewrite (Hitem _ _ _ Hk Hki Hn).
    eexists. split; [done|]. destruct (decide (j < i)%nat) as [Hlt|Hge]; subst k.
    + rewrite (decide_False (P := j = S i)) by lia. split.
      * destruct (decide (i <> O /\ j = pred i)) as [E|E]; cbn.
        -- rewrite list_lookup_delete_ge by lia. f_equal. lia.
        -- by rewrite list_lookup_delete_lt by lia.
      * intros H0. rewrite list_lookup_delete_lt by lia. rewrite <- Hnp by done.
        by destruct (decide (i <> O /\ j = pred i)).
    + rewrite (decide_False (P := i <> O /\ S j = pred i)) by lia. split.
      * rewrite list_lookup_delete_ge by lia. by destruct (decide (S j = S i)).
      * intros H0. destruct (decide (S j = S i)) as [E|E]; cbn.
        -- rewrite list_lookup_delete_lt by lia. rewrite Hprev by lia. f_equal. lia.
        -- rewrite list_lookup_delete_ge, Hnp by lia. f_equal. lia.
  - eapply sublist_NoDup; [exact Hd|]. apply sublist_skip, sublist_delete.
  - intros p n. rewrite head_lookup. intros Hp. destruct (Hdel _ _ Hp) as (k & Hk & Hki & Ek).
    destruct (lk_item _ _ _ Hl _ _ Hk) as (n' & Hn' & _). rewrite (Hitem _ _ _ Hk Hki Hn'). intros [= <-].
    destruct (decide (0 < i)%nat); subst k.
    + rewrite (decide_False (P := O = S i)) by lia.
      transitivity (n_prev n'); [by destruct (decide (i <> O /\ O = pred i))|]. by apply (Hf p); [rewrite head_lookup|].
    + assert (i = O) as -> by lia. rewrite (decide_True (P := 1%nat = 1%nat)) by done. change (n_prev nx = q). apply (Hf x); [by rewrite head_lookup|done].
  - intros r Hr. rewrite Hh'. destruct (h !! r); [|done]. cbn. f_equal. unfold unlink.
    apply not_elem_of_cons in Hr as [Hra Hrl]. rewrite decide_False by (intros ->; by apply Hrl, (list_elem_of_lookup_2 _ i)).
    rewrite decide_False by done. rewrite decide_False by (intros E; by apply Hrl, (list_elem_of_lookup_2 _ (S i))).
    rewrite decide_False; [done|]. intros [_ E]; by apply Hrl, (list_elem_of_lookup_2 _ (pred i)).
  - exists nx. split; [done|]. rewrite Hh', Hnx. cbn. unfold unlink. by rewrite decide_True.
Qed.

(** Detaching the child at an index removes it from the chain and leaves the others in
    order; the chain stays as the library builds it unless the last of several children
    was detached. *)
Theorem detach_chain h a l i x :
  linked h a l -> first_prev h l (last l) -> l !! i = Some x -> (S i < length l)%nat \/ l = [x] ->
  exists h', cJSON_DetachItemViaPointer (Some a) (Some x) h = Some (Some (Some x, h')) /\
    linked h' a (delete i l) /\ first_prev h' (delete i l) (last (delete i l)) /\
    detached h' a (delete i l) x.
Proof.
  intros Hl Hf Hi Hlast. destruct (detach_does _ _ _ _ _ _ Hl Hf Hi) as (r & h' & E & -> & Hl' & Hf' & _ & n & Hn & Hn').
  exists h'. do 2 (split; [done|]). split.
  - destruct Hlast as [Hlt|El]; [|subst l].
    + rewrite last_lookup, length_delete by by eexists. rewrite list_lookup_delete_ge by lia.
      intros p k Hp Hk. rewrite (Hf' p k Hp Hk), last_lookup. f_equal. lia.
    + destruct i as [|i]; [|done]. by intros p k Hp.
  - split; [|by eexists]. pose proof (lk_distinct _ _ _ Hl) as Hd. apply not_elem_of_cons.
    apply NoDup_cons in Hd as [Hal Hd].
    split; [intros ->; by apply Hal, (list_elem_of_lookup_2 _ i)|]. intros Hx.
    rewrite <- (take_drop_middle _ _ _ Hi) in Hd. rewrite delete_take_drop in Hx.
    apply NoDup_app in Hd as (_ & H1 & Hd). apply NoDup_cons in Hd as [H2 _]. apply elem_of_app in Hx as [Hx|Hx]; [|done].
    apply (H1 x Hx). by left.
Qed.

Lemma last_detached h a l x p :
  linked h a (p :: l ++ [x]) -> first_prev h (p :: l ++ [x]) (Some x) ->
  does (cJSON_DetachItemViaPointer (Some a) (Some x))
    (fun r h' => r = Some x /\ linked h' a (p :: l) /\ first_prev h' (p :: l) (Some x) /\
       (forall r, r ∉ a :: p :: l ++ [x] -> h' !! r = h !! r) /\
       exists n, h !! x = Some n /\ h' !! x = Some (n <| n_prev := None |> <| n_next := None |>)) h.
Proof.
  intros Hl Hf. assert ((p :: l ++ [x]) !! S (length l) = Some x) as Hi
    by (change ((l ++ [x]) !! length l = Some x); by rewrite list_lookup_middle).
  eapply does_mono; [by apply detach_does|]. intros r h' (-> & Hl' & Hf' & Hr).
  assert (delete (S (length l)) (p :: l ++ [x]) = p :: l) as E.
  { change (p :: delete (length l) (l ++ [x]) = p :: l). f_equal. by rewrite delete_middle, app_nil_r. }
  rewrite E in Hl', Hf'. done.
Qed.

(** C17: what is added after the last of several children was detached is lost: the first
    child still leads to the detached item, which gets the new one as its successor, while
    the call answers true and the chain of the array is what it was. *)
Theorem add_after_detach_lost h a p l x y ny :
  linked h a (p :: l ++ [x]) -> first_prev h (p :: l ++ [x]) (Some x) ->
  y ∉ a :: p :: l ++ [x] -> h !! y = Some ny ->
  exists h', (cJSON_DetachItemViaPointer (Some a) (Some x);; add_item_to_array (Some a) (Some y)) h
             = Some (Some (true, h')) /\
    linked h' a (p :: l) /\ exists nx, h' !! x = Some nx /\ n_next nx = Some y.
Proof.
  intros Hl Hf Hy Hny.
  enough (does (cJSON_DetachItemViaPointer (Some a) (Some x);; add_item_to_array (Some a) (Some y))
    (fun b h' => b = true /\ linked h' a (p :: l) /\ exists nx, h' !! x = Some nx /\ n_next nx = Some y) h) as H.
  { destruct H as (b & h' & E & -> & H). by exists h'. }
  apply does_bind. eapply does_mono; [by apply last_detached|].
  intros _ h1 (-> & Hl1 & Hf1 & Hother & nx & _ & Hnx).
  destruct (lk_array _ _ _ Hl1) as (na & Hna & Hca). destruct (linked_head _ _ _ _ Hl1) as (np & Hnp & _).
  pose proof (lk_distinct _ _ _ Hl) as Hd.
  assert (x ∉ a :: p :: l) as Hx.
  { intros Hx. change (a :: p :: l ++ [x]) with ((a :: p :: l) ++ [x]) in Hd.
    apply NoDup_app in Hd as (_ & H & _). apply (H x Hx). by left. }
  assert (y ∉ a :: p :: l /\ x <> y) as [Hyl Hxy].
  { change (a :: p :: l ++ [x]) with ((a :: p :: l) ++ [x]) in Hy.
    apply not_elem_of_app in Hy as [Hy1 Hy2]. split; [done|]. intros ->. by apply Hy2, list_elem_of_singleton. }
  rewrite <- Hother in Hny by done. apply not_elem_of_cons in Hyl as [Hya Hyl], Hx as [Hxa Hxl].
  unfold add_item_to_array. rewrite !bool_decide_eq_false_2 by congruence. cbn [orb].
  apply does_bind, (does_deref _ _ _ _ Hna). rewrite Hca. cbn [head].
  apply does_bind, (does_deref _ _ _ _ Hnp). rewrite (Hf1 p np eq_refl Hnp).
  apply does_bind. unfold suffix_object. apply does_bind, (does_assign _ _ _ _ _ Hnx).
  eapply does_assign; [rewrite alter_if, Hny; done|].
  apply does_bind. eapply does_deref; [rewrite !alter_if, Hna; done|].
  rewrite (decide_False (P := y = a)), (decide_False (P := x = a)) by done. cbn [id]. rewrite Hca. cbn [head].
  apply does_bind. eapply does_assign; [rewrite !alter_if, Hnp; done|]. apply does_ret. split; [done|].
  set (h3 := alter _ p _).
  assert (forall r, r <> x -> r <> y -> n_child <$> h3 !! r = n_child <$> h1 !! r /\ n_next <$> h3 !! r = n_next <$> h1 !! r /\
    (r <> p -> h3 !! r = h1 !! r)) as Hh3.
  { intros r H1 H2. unfold h3. rewrite !alter_if. destruct (h1 !! r); [|done]. cbn.
    rewrite (decide_False (P := y = r)), (decide_False (P := x = r)) by congruence. cbn [id].
    destruct (decide (p = r)); [|done]. repeat split. congruence. }
  split; [constructor|].
  - exists na. split; [|done]. destruct (Hh3 a) as (_ & _ & H); [congruence..|].
    rewrite H; [done|]. pose proof (lk_distinct _ _ _ Hl1) as [Hap _]%NoDup_cons. intros ->. apply Hap. by left.
  - intros i r Hi. pose proof (list_elem_of_lookup_2 _ _ _ Hi) as Hr.
    destruct (lk_item _ _ _ Hl1 _ _ Hi) as (n & Hn & Hnn & Hnp').
    destruct (Hh3 r) as (_ & Hnext & Hsame); [by intros ->..|]. rewrite Hn in Hnext.
    destruct (h3 !! r) as [n3|] eqn:E3; [|done]. exists n3. split; [done|]. apply (inj Some) in Hnext.
    split; [congruence|]. intros H0. assert (r <> p) as Hrp.
    { intros ->. apply H0. apply (head_index (p :: l) i p p); [|done..].
      by pose proof (lk_distinct _ _ _ Hl1) as [_ ?]%NoDup_cons. }
    specialize (Hsame Hrp). rewrite Hn in Hsame. injection Hsame as ->. auto.
  - apply (lk_distinct _ _ _ Hl1).
  - unfold h3. rewrite !alter_if, Hnx. eexists. split; [done|].
    rewrite (decide_True (P := x = x)), (decide_False (P := y = x)) by done. by case_decide.
Qed.

(** ** In a memory of three items *)

Definition ex_heap : heap :=
  <[1%positive := mk_node None None (Some 2%positive) cJSON_Object None 0 d_zero None]>
  (<[2%positive := mk_node None (Some 2%positive) None cJSON_NULL None 0 d_zero (Some "a"%string)]>
  (<[3%positive := mk_node None None None cJSON_String (Some "x"%string) 0 d_zero None]> ∅)).

Lemma ex_chain : chain ex_heap 1 [2%positive].
Proof.
  split; [constructor|].
  - by eexists.
  - intros [|[|i]] p [= <-]. by eexists.
  - apply NoDup_cons. split; [by intros H%list_elem_of_singleton|apply NoDup_singleton].
  - left. intros p n [= <-] [= <-]. done.
Qed.

Lemma ex_object : holds ex_heap (JObject [("a"%string, JNull)]) 1 {[1%positive; 2%positive]}.
Proof.
  split; [by eexists|]. exists [2%positive], {[2%positive]}. split; [apply ex_chain|].
  split; [set_solver|]. split; [set_solver|]. exists {[2%positive]}, ∅.
  split; [set_solver|]. split; [set_solver|]. split; [|done]. split; [by eexists|].
  split; [by eexists|]. exists [], ∅. split; [by eapply leaf_chain|]. set_solver.
Qed.

Lemma add_member_refines_witness :
  exists h', add_item_to_object (Some 1%positive) (Some "b"%string) (Some 3%positive) false ex_heap
             = Some (Some (true, h')) /\
    holds h' (JObject [("a", JNull); ("b", JString "x")]%string) 1 ({[1%positive; 2%positive]} ∪ {[3%positive]}).
Proof.
  destruct (add_member_refines ex_heap [("a"%string, JNull)] 1 {[1%positive; 2%positive]} "b"%string false
              (JString "x") 3 {[3%positive]}) as (h' & E & H & _).
  - apply ex_object.
  - split; [by eexists|]. exists [], ∅. split; [by eapply leaf_chain|]. set_solver.
  - set_solver.
  - by eexists.
  - by exists h'.
Defined.

(** An array of [n] items at fresh addresses. *)
Definition new_array (n : nat) : links pointer :=
  array ← cJSON_New_Item;
  (fix loop n : links pointer :=
     match n with
     | O => mret array
     | S n => item ← cJSON_New_Item; add_item_to_array array item;; loop n
     end) n.

Definition ex_pair : heap :=
  <[1%positive := mk_node None None (Some 2%positive) cJSON_Array None 0 d_zero None]>
  (<[2%positive := mk_node (Some 3%positive) (Some 3%positive) None cJSON_NULL None 0 d_zero None]>
  (<[3%positive := mk_node None (Some 2%positive) None cJSON_NULL None 0 d_zero None]>
  (<[4%positive := mk_node None None None cJSON_NULL None 0 d_zero None]> ∅))).

Lemma add_after_detach_lost_witness :
  exists h', (cJSON_DetachItemViaPointer (Some 1%positive) (Some 3%positive);;
              add_item_to_array (Some 1%positive) (Some 4%positive)) ex_pair = Some (Some (true, h')) /\
    linked h' 1 [2%positive] /\ exists nx, h' !! 3%positive = Some nx /\ n_next nx = Some 4%positive.
Proof.
  apply (add_after_detach_lost ex_pair 1 2 [] 3 4
           (mk_node None None None cJSON_NULL None 0 d_zero None)).
  - constructor.
    + by eexists.
    + intros [|[|[|i]]] p [= <-]; by eexists.
    + by apply (bool_decide_unpack _).
  - intros p n [= <-] [= <-]. done.
  - by apply (bool_decide_unpack _).
  - done.
Defined.

(** When the last child is deleted, the next one added is written through a pointer to
    freed memory; so it is when the only child was replaced. *)
Lemma add_after_delete_dangles :
  (array ← new_array 2; item ← cJSON_New_Item;
   cJSON_DeleteItemFromArray array 1;; add_item_to_array array item) ∅ = None.
Proof. vm_compute. reflexivity. Qed.

Lemma add_after_replace_dangles :
  (array ← new_array 1; replacement ← cJSON_New_Item; item ← cJSON_New_Item;
   cJSON_ReplaceItemInArray array 0 replacement;; add_item_to_array array item) ∅ = None.
Proof. vm_compute. reflexivity. Qed.

(** Walking the chain after adding, inserting in front and in the middle, and replacing. *)
Lemma insert_replace_order :
  exists h', (array ← new_array 2; front ← cJSON_New_Item; middle ← cJSON_New_Item; other ← cJSON_New_Item;
     cJSON_InsertItemInArray array 0 front;; cJSON_InsertItemInArray array 2 middle;;
     cJSON_ReplaceItemInArray array 1 other;;
     cJSON_GetArraySize_links array) ∅ = Some (Some (4, h')).
Proof. eexists. vm_compute. reflexivity. Qed.
