(* ===== verification/Test.v ===== *)
(** * iperf.h: the data of a test

    The C structs as records, member by member and in the source's order, each
    with a prefix of its own ([st_] settings, [rs_] stream results, [ir_]
    interval results, [sp_] streams, [t_] tests).  Left out are the members no
    modelled code reads: list links (a TAILQ or
    SLIST is a Rocq list in list order), the user's [data] pointers, FILE
    handles, the handles of the JSON output but its root (the others are
    paths in [JsonTree]), and [sp->settings], which always points to the test's
    settings.  An [int] is the [Z] it holds, a [char *] an [option string], a
    buffer the list of its bytes. *)

From Stdlib Require Export Ascii.
From stdpp Require Export strings.
From S2P Require Import Prelude Double IperfTime CJson.

#[global] Open Scope Z_scope.

(** ** Constants *)

Definition PORT : Z := 5201.
Definition OMIT : Z := 0.
Definition DURATION : Z := 10.
Definition UDP_RATE : Z := 1048576.
Definition MB : Z := 1048576.
Definition MAX_TCP_BUFFER : Z := 536870912.
Definition MAX_BLOCKSIZE : Z := 1048576.
Definition MIN_UDP_BLOCKSIZE : Z := 16.
Definition MAX_UDP_BLOCKSIZE : Z := 65507.
Definition MAX_TIME : Z := 86400.
Definition MAX_BURST : Z := 1000.
Definition MAX_MSS : Z := 9216.
Definition MAX_STREAMS : Z := 128.
Definition COOKIE_SIZE : Z := 37.
Definition Ptcp : Z := 1.
Definition Pudp : Z := 2.
Definition Psctp : Z := 12.
Definition DEFAULT_UDP_BLKSIZE : Z := 1460.
Definition DEFAULT_TCP_BLKSIZE : Z := 131072.
Definition DEFAULT_SCTP_BLKSIZE : Z := 65536.
Definition DEFAULT_PACING_TIMER : Z := 1000.
Definition DEFAULT_NO_MSG_RCVD_TIMEOUT : Z := 120000.
Definition MIN_NO_MSG_RCVD_TIMEOUT : Z := 100.

(** The states of a test (iperf_api.h), the bytes of the control protocol. *)
Definition TEST_START : Z := 1.
Definition TEST_RUNNING : Z := 2.
Definition TEST_END : Z := 4.
Definition STREAM_RUNNING : Z := 6.
Definition PARAM_EXCHANGE : Z := 9.
Definition CREATE_STREAMS : Z := 10.
Definition SERVER_TERMINATE : Z := 11.
Definition CLIENT_TERMINATE : Z := 12.
Definition EXCHANGE_RESULTS : Z := 13.
Definition DISPLAY_RESULTS : Z := 14.
Definition IPERF_START : Z := 15.
Definition IPERF_DONE : Z := 16.
Definition ACCESS_DENIED : Z := -1.
Definition SERVER_ERROR : Z := -2.

(** The values of [i_errno] (iperf_api.h). *)
Definition IENONE : Z := 0.
Definition IESERVCLIENT : Z := 1.
Definition IENOROLE : Z := 2.
Definition IESERVERONLY : Z := 3.
Definition IECLIENTONLY : Z := 4.
Definition IEDURATION : Z := 5.
Definition IENUMSTREAMS : Z := 6.
Definition IEBLOCKSIZE : Z := 7.
Definition IEBUFSIZE : Z := 8.
Definition IEINTERVAL : Z := 9.
Definition IEMSS : Z := 10.
Definition IENOSENDFILE : Z := 11.
Definition IEOMIT : Z := 12.
Definition IEUNIMP : Z := 13.
Definition IEFILE : Z := 14.
Definition IEBURST : Z := 15.
Definition IEENDCONDITIONS : Z := 16.
Definition IELOGFILE : Z := 17.
Definition IENOSCTP : Z := 18.
Definition IEBIND : Z := 19.
Definition IEUDPBLOCKSIZE : Z := 20.
Definition IEBADTOS : Z := 21.
Definition IESETCLIENTAUTH : Z := 22.
Definition IESETSERVERAUTH : Z := 23.
Definition IEBADFORMAT : Z := 24.
Definition IEREVERSEBIDIR : Z := 25.
Definition IEBADPORT : Z := 26.
Definition IETOTALRATE : Z := 27.
Definition IETOTALINTERVAL : Z := 28.
Definition IESKEWTHRESHOLD : Z := 29.
Definition IEIDLETIMEOUT : Z := 30.
Definition IERCVTIMEOUT : Z := 31.
Definition IERVRSONLYRCVTIMEOUT : Z := 32.
Definition IENEWTEST : Z := 100.
Definition IEINITTEST : Z := 101.
Definition IELISTEN : Z := 102.
Definition IECONNECT : Z := 103.
Definition IEACCEPT : Z := 104.
Definition IESENDCOOKIE : Z := 105.
Definition IERECVCOOKIE : Z := 106.
Definition IECTRLWRITE : Z := 107.
Definition IECTRLREAD : Z := 108.
Definition IECTRLCLOSE : Z := 109.
Definition IEMESSAGE : Z := 110.
Definition IESENDMESSAGE : Z := 111.
Definition IERECVMESSAGE : Z := 112.
Definition IESENDPARAMS : Z := 113.
Definition IERECVPARAMS : Z := 114.
Definition IEPACKAGERESULTS : Z := 115.
Definition IESENDRESULTS : Z := 116.
Definition IERECVRESULTS : Z := 117.
Definition IESELECT : Z := 118.
Definition IECLIENTTERM : Z := 119.
Definition IESERVERTERM : Z := 120.
Definition IEACCESSDENIED : Z := 121.
Definition IESETNODELAY : Z := 122.
Definition IESETMSS : Z := 123.
Definition IESETBUF : Z := 124.
Definition IESETTOS : Z := 125.
Definition IESETCOS : Z := 126.
Definition IESETFLOW : Z := 127.
Definition IEREUSEADDR : Z := 128.
Definition IENONBLOCKING : Z := 129.
Definition IESETWINDOWSIZE : Z := 130.
Definition IEPROTOCOL : Z := 131.
Definition IEAFFINITY : Z := 132.
Definition IEDAEMON : Z := 133.
Definition IESETCONGESTION : Z := 134.
Definition IEPIDFILE : Z := 135.
Definition IEV6ONLY : Z := 136.
Definition IESETSCTPDISABLEFRAG : Z := 137.
Definition IESETSCTPNSTREAM : Z := 138.
Definition IESETSCTPBINDX : Z := 139.
Definition IESETPACING : Z := 140.
Definition IESETBUF2 : Z := 141.
Definition IEAUTHTEST : Z := 142.
Definition IEBINDDEV : Z := 143.
Definition IENOMSG : Z := 144.
Definition IESETDONTFRAGMENT : Z := 145.
Definition IECREATESTREAM : Z := 200.
Definition IEINITSTREAM : Z := 201.
Definition IESTREAMLISTEN : Z := 202.
Definition IESTREAMCONNECT : Z := 203.
Definition IESTREAMACCEPT : Z := 204.
Definition IESTREAMWRITE : Z := 205.
Definition IESTREAMREAD : Z := 206.
Definition IESTREAMCLOSE : Z := 207.
Definition IESTREAMID : Z := 208.
Definition IENEWTIMER : Z := 300.
Definition IEUPDATETIMER : Z := 301.

(** ** Structs

    With each struct comes the value all of whose bytes are zero, which
    [calloc] and [memset] produce. *)

Definition time_zero : iperf_time := mk_time 0 0.

(** The members of Linux's [struct tcp_info] the program reads. *)
Record tcp_info := mk_tcp_info {
  tcpi_total_retrans : Z; tcpi_snd_cwnd : Z; tcpi_snd_mss : Z; tcpi_snd_wnd : Z;
  tcpi_rtt : Z; tcpi_rttvar : Z; tcpi_pmtu : Z }.

Definition zero_tcp_info : tcp_info := mk_tcp_info 0 0 0 0 0 0 0.

(** [struct iperf_interval_results] *)
Record iperf_interval_results := mk_interval {
  ir_bytes_transferred : Z; ir_interval_start_time : iperf_time;
  ir_interval_end_time : iperf_time; ir_interval_duration : double;
  ir_interval_packet_count : Z; ir_interval_outoforder_packets : Z;
  ir_interval_cnt_error : Z; ir_packet_count : Z; ir_jitter : double;
  ir_outoforder_packets : Z; ir_cnt_error : Z; ir_omitted : Z; ir_tcpInfo : tcp_info;
  ir_interval_retrans : Z; ir_interval_sacks : Z; ir_snd_cwnd : Z; ir_snd_wnd : Z;
  ir_rtt : Z; ir_rttvar : Z; ir_pmtu : Z }.

#[export] Instance eta_iperf_interval_results : Eta iperf_interval_results := fun r => mk_interval
  (ir_bytes_transferred r) (ir_interval_start_time r) (ir_interval_end_time r)
    (ir_interval_duration r) (ir_interval_packet_count r)
    (ir_interval_outoforder_packets r) (ir_interval_cnt_error r) (ir_packet_count r)
    (ir_jitter r) (ir_outoforder_packets r) (ir_cnt_error r) (ir_omitted r)
    (ir_tcpInfo r) (ir_interval_retrans r) (ir_interval_sacks r) (ir_snd_cwnd r)
    (ir_snd_wnd r) (ir_rtt r) (ir_rttvar r) (ir_pmtu r).

Definition zero_interval : iperf_interval_results := mk_interval
  0 time_zero time_zero d_zero 0 0 0 0 d_zero 0 0 0 zero_tcp_info 0 0 0 0 0 0 0.

(** [struct iperf_stream_result] *)
Record iperf_stream_result := mk_result {
  rs_bytes_received : Z; rs_bytes_sent : Z; rs_bytes_received_this_interval : Z;
  rs_bytes_sent_this_interval : Z; rs_bytes_sent_omit : Z;
  rs_stream_prev_total_retrans : Z; rs_stream_retrans : Z;
  rs_stream_prev_total_sacks : Z; rs_stream_sacks : Z; rs_stream_max_rtt : Z;
  rs_stream_min_rtt : Z; rs_stream_sum_rtt : Z; rs_stream_count_rtt : Z;
  rs_stream_max_snd_cwnd : Z; rs_stream_max_snd_wnd : Z; rs_start_time : iperf_time;
  rs_end_time : iperf_time; rs_start_time_fixed : iperf_time; rs_sender_time : double;
  rs_receiver_time : double; rs_interval_results : list iperf_interval_results }.

#[export] Instance eta_iperf_stream_result : Eta iperf_stream_result := fun r => mk_result
  (rs_bytes_received r) (rs_bytes_sent r) (rs_bytes_received_this_interval r)
    (rs_bytes_sent_this_interval r) (rs_bytes_sent_omit r)
    (rs_stream_prev_total_retrans r) (rs_stream_retrans r)
    (rs_stream_prev_total_sacks r) (rs_stream_sacks r) (rs_stream_max_rtt r)
    (rs_stream_min_rtt r) (rs_stream_sum_rtt r) (rs_stream_count_rtt r)
    (rs_stream_max_snd_cwnd r) (rs_stream_max_snd_wnd r) (rs_start_time r)
    (rs_end_time r) (rs_start_time_fixed r) (rs_sender_time r) (rs_receiver_time r)
    (rs_interval_results r).

Definition zero_result : iperf_stream_result := mk_result
  0 0 0 0 0 0 0 0 0 0 0 0 0 0 0 time_zero time_zero time_zero d_zero d_zero [].

(** [struct iperf_settings] *)
Record iperf_settings := mk_settings {
  st_domain : Z; st_socket_bufsize : Z; st_blksize : Z; st_rate : Z;
  st_bitrate_limit : Z; st_bitrate_limit_interval : double;
  st_bitrate_limit_stats_per_interval : Z; st_fqrate : Z; st_pacing_timer : Z;
  st_burst : Z; st_mss : Z; st_ttl : Z; st_tos : Z; st_flowlabel : Z; st_bytes : Z;
  st_blocks : Z; st_unit_format : ascii; st_num_ostreams : Z; st_dont_fragment : Z;
  st_authtoken : option string; st_client_username : option string;
  st_client_password : option string; st_client_rsa_pubkey : option string;
  st_connect_timeout : Z; st_idle_timeout : Z; st_rcv_timeout : iperf_time }.

#[export] Instance eta_iperf_settings : Eta iperf_settings := fun r => mk_settings
  (st_domain r) (st_socket_bufsize r) (st_blksize r) (st_rate r) (st_bitrate_limit r)
    (st_bitrate_limit_interval r) (st_bitrate_limit_stats_per_interval r)
    (st_fqrate r) (st_pacing_timer r) (st_burst r) (st_mss r) (st_ttl r) (st_tos r)
    (st_flowlabel r) (st_bytes r) (st_blocks r) (st_unit_format r) (st_num_ostreams r)
    (st_dont_fragment r) (st_authtoken r) (st_client_username r)
    (st_client_password r) (st_client_rsa_pubkey r) (st_connect_timeout r)
    (st_idle_timeout r) (st_rcv_timeout r).

Definition zero_settings : iperf_settings := mk_settings
  0 0 0 0 0 d_zero 0 0 0 0 0 0 0 0 0 0 Ascii.zero 0 0 None None None None 0 0
  time_zero.

(** What the function pointers [rcv], [snd], [rcv2] and [snd2] of a stream
    point to. *)
Inductive io_fn := TcpIo | UdpIo | SctpIo | DiskIo | NoIo.

(** [struct iperf_stream] *)
Record iperf_stream := mk_stream {
  sp_local_port : Z; sp_remote_port : Z; sp_socket : Z; sp_id : Z; sp_sender : Z;
  sp_result : iperf_stream_result; sp_send_timer : option positive; sp_green_light : Z;
  sp_buffer_fd : Z; sp_buffer : list Z; sp_pending_size : Z; sp_diskfile_fd : Z;
  sp_diskfile_left : Z; sp_packet_count : Z; sp_peer_packet_count : Z;
  sp_omitted_packet_count : Z; sp_jitter : double; sp_prev_transit : double;
  sp_outoforder_packets : Z; sp_omitted_outoforder_packets : Z; sp_cnt_error : Z;
  sp_omitted_cnt_error : Z; sp_target : Z; sp_rcv : io_fn; sp_snd : io_fn;
  sp_rcv2 : io_fn; sp_snd2 : io_fn }.

#[export] Instance eta_iperf_stream : Eta iperf_stream := fun r => mk_stream
  (sp_local_port r) (sp_remote_port r) (sp_socket r) (sp_id r) (sp_sender r)
    (sp_result r) (sp_send_timer r) (sp_green_light r) (sp_buffer_fd r) (sp_buffer r)
    (sp_pending_size r) (sp_diskfile_fd r) (sp_diskfile_left r) (sp_packet_count r)
    (sp_peer_packet_count r) (sp_omitted_packet_count r) (sp_jitter r)
    (sp_prev_transit r) (sp_outoforder_packets r) (sp_omitted_outoforder_packets r)
    (sp_cnt_error r) (sp_omitted_cnt_error r) (sp_target r) (sp_rcv r) (sp_snd r)
    (sp_rcv2 r) (sp_snd2 r).

Definition zero_stream : iperf_stream := mk_stream
  0 0 0 0 0 zero_result None 0 0 [] 0 0 0 0 0 0 d_zero d_zero 0 0 0 0 0 NoIo NoIo NoIo
  NoIo.

(** [struct protocol]; the functions it points to are selected by [pr_id]. *)
Record protocol := mk_protocol { pr_id : Z; pr_name : string }.

(** [enum iperf_mode] *)
Inductive iperf_mode := SENDER | RECEIVER | BIDIRECTIONAL.

#[export] Instance iperf_mode_eq_dec : EqDecision iperf_mode.
Proof. solve_decision. Defined.

(** [struct iperf_test]; its last member is the global [i_errno], which reports
    the errors of the one test a process runs. *)
Record iperf_test := mk_test {
  t_role : ascii; t_mode : iperf_mode; t_sender_has_retransmits : Z;
  t_other_side_has_retransmits : Z; t_protocol : option protocol; t_state : Z;
  t_server_hostname : option string; t_tmp_template : option string;
  t_bind_address : option string; t_bind_dev : option string;
  t_xbind_addrs : list string; t_bind_port : Z; t_server_port : Z; t_omit : Z;
  t_duration : Z; t_diskfile_name : option string; t_affinity : Z;
  t_server_affinity : Z; t_title : option string; t_extra_data : option string;
  t_congestion : option string; t_congestion_used : option string;
  t_remote_congestion_used : option string; t_pidfile : option string;
  t_logfile : option string; t_ctrl_sck : Z; t_listener : Z; t_prot_listener : Z;
  t_ctrl_sck_mss : Z; t_server_authorized_users : option string;
  t_server_rsa_private_key : option string; t_server_skew_threshold : Z; t_daemon : Z;
  t_one_off : Z; t_no_delay : Z; t_reverse : Z; t_bidirectional : Z; t_verbose : Z;
  t_json_output : Z; t_zerocopy : Z; t_debug : Z; t_get_server_output : Z;
  t_udp_counters_64bit : Z; t_forceflush : Z; t_multisend : Z; t_repeating_payload : Z;
  t_timestamps : Z; t_timestamp_format : option string;
  t_json_output_string : option string; t_max_fd : Z; t_read_set : gset Z;
  t_write_set : gset Z; t_omitting : Z; t_stats_interval : double;
  t_reporter_interval : double; t_stats_callback : bool; t_reporter_callback : bool;
  t_omit_timer : option positive; t_timer : option positive; t_done : Z;
  t_stats_timer : option positive; t_reporter_timer : option positive;
  t_cpu_util : list double; t_remote_cpu_util : list double; t_num_streams : Z;
  t_bytes_sent : Z; t_blocks_sent : Z; t_bytes_received : Z; t_blocks_received : Z;
  t_bitrate_limit_stats_count : Z; t_bitrate_limit_intervals_traffic_bytes : list Z;
  t_bitrate_limit_last_interval_index : Z; t_bitrate_limit_exceeded : Z;
  t_server_last_run_rc : Z; t_server_forced_idle_restarts_count : Z;
  t_server_forced_no_msg_restarts_count : Z; t_server_test_number : Z;
  t_cookie : list Z; t_streams : list iperf_stream; t_settings : iperf_settings;
  t_protocols : list protocol; t_json_top : option cJSON;
  t_server_output_text : option string; t_json_server_output : option cJSON;
  t_server_output_list : list string; t_i_errno : Z }.

#[export] Instance eta_iperf_test : Eta iperf_test := fun r => mk_test
  (t_role r) (t_mode r) (t_sender_has_retransmits r) (t_other_side_has_retransmits r)
    (t_protocol r) (t_state r) (t_server_hostname r) (t_tmp_template r)
    (t_bind_address r) (t_bind_dev r) (t_xbind_addrs r) (t_bind_port r)
    (t_server_port r) (t_omit r) (t_duration r) (t_diskfile_name r) (t_affinity r)
    (t_server_affinity r) (t_title r) (t_extra_data r) (t_congestion r)
    (t_congestion_used r) (t_remote_congestion_used r) (t_pidfile r) (t_logfile r)
    (t_ctrl_sck r) (t_listener r) (t_prot_listener r) (t_ctrl_sck_mss r)
    (t_server_authorized_users r) (t_server_rsa_private_key r)
    (t_server_skew_threshold r) (t_daemon r) (t_one_off r) (t_no_delay r)
    (t_reverse r) (t_bidirectional r) (t_verbose r) (t_json_output r) (t_zerocopy r)
    (t_debug r) (t_get_server_output r) (t_udp_counters_64bit r) (t_forceflush r)
    (t_multisend r) (t_repeating_payload r) (t_timestamps r) (t_timestamp_format r)
    (t_json_output_string r) (t_max_fd r) (t_read_set r) (t_write_set r)
    (t_omitting r) (t_stats_interval r) (t_reporter_interval r) (t_stats_callback r)
    (t_reporter_callback r) (t_omit_timer r) (t_timer r) (t_done r) (t_stats_timer r)
    (t_reporter_timer r) (t_cpu_util r) (t_remote_cpu_util r) (t_num_streams r)
    (t_bytes_sent r) (t_blocks_sent r) (t_bytes_received r) (t_blocks_received r)
    (t_bitrate_limit_stats_count r) (t_bitrate_limit_intervals_traffic_bytes r)
    (t_bitrate_limit_last_interval_index r) (t_bitrate_limit_exceeded r)
    (t_server_last_run_rc r) (t_server_forced_idle_restarts_count r)
    (t_server_forced_no_msg_restarts_count r) (t_server_test_number r) (t_cookie r)
    (t_streams r) (t_settings r) (t_protocols r) (t_json_top r)
    (t_server_output_text r) (t_json_server_output r) (t_server_output_list r)
    (t_i_errno r).

Definition zero_test : iperf_test := mk_test
  Ascii.zero RECEIVER 0 0 None 0 None None None None [] 0 0 0 0 None 0 0 None None
  None None None None None 0 0 0 0 None None 0 0 0 0 0 0 0 0 0 0 0 0 0 0 0 0 None None
  0 ∅ ∅ 0 d_zero d_zero false false None None 0 None None [] [] 0 0 0 0 0 0 [] 0 0 0 0
  0 0 [] [] zero_settings [] None None None [] 0.

(** An integer as a condition. *)
Definition nonzero (z : Z) : bool := negb (z =? 0).

(** ** Reading a member of an updated struct *)

Ltac rsimpl :=
  cbn [set ir_bytes_transferred ir_interval_start_time ir_interval_end_time
    ir_interval_duration ir_interval_packet_count ir_interval_outoforder_packets
    ir_interval_cnt_error ir_packet_count ir_jitter ir_outoforder_packets ir_cnt_error
    ir_omitted ir_tcpInfo ir_interval_retrans ir_interval_sacks ir_snd_cwnd ir_snd_wnd
    ir_rtt ir_rttvar ir_pmtu rs_bytes_received rs_bytes_sent
    rs_bytes_received_this_interval rs_bytes_sent_this_interval rs_bytes_sent_omit
    rs_stream_prev_total_retrans rs_stream_retrans rs_stream_prev_total_sacks
    rs_stream_sacks rs_stream_max_rtt rs_stream_min_rtt rs_stream_sum_rtt
    rs_stream_count_rtt rs_stream_max_snd_cwnd rs_stream_max_snd_wnd rs_start_time
    rs_end_time rs_start_time_fixed rs_sender_time rs_receiver_time rs_interval_results
    st_domain st_socket_bufsize st_blksize st_rate st_bitrate_limit
    st_bitrate_limit_interval st_bitrate_limit_stats_per_interval st_fqrate
    st_pacing_timer st_burst st_mss st_ttl st_tos st_flowlabel st_bytes st_blocks
    st_unit_format st_num_ostreams st_dont_fragment st_authtoken st_client_username
    st_client_password st_client_rsa_pubkey st_connect_timeout st_idle_timeout
    st_rcv_timeout sp_local_port sp_remote_port sp_socket sp_id sp_sender sp_result
    sp_send_timer sp_green_light sp_buffer_fd sp_buffer sp_pending_size sp_diskfile_fd
    sp_diskfile_left sp_packet_count sp_peer_packet_count sp_omitted_packet_count
    sp_jitter sp_prev_transit sp_outoforder_packets sp_omitted_outoforder_packets
    sp_cnt_error sp_omitted_cnt_error sp_target sp_rcv sp_snd sp_rcv2 sp_snd2 t_role
    t_mode t_sender_has_retransmits t_other_side_has_retransmits t_protocol t_state
    t_server_hostname t_tmp_template t_bind_address t_bind_dev t_xbind_addrs t_bind_port
    t_server_port t_omit t_duration t_diskfile_name t_affinity t_server_affinity t_title
    t_extra_data t_congestion t_congestion_used t_remote_congestion_used t_pidfile
    t_logfile t_ctrl_sck t_listener t_prot_listener t_ctrl_sck_mss
    t_server_authorized_users t_server_rsa_private_key t_server_skew_threshold t_daemon
    t_one_off t_no_delay t_reverse t_bidirectional t_verbose t_json_output t_zerocopy
    t_debug t_get_server_output t_udp_counters_64bit t_forceflush t_multisend
    t_repeating_payload t_timestamps t_timestamp_format t_json_output_string t_max_fd
    t_read_set t_write_set t_omitting t_stats_interval t_reporter_interval
    t_stats_callback t_reporter_callback t_omit_timer t_timer t_done t_stats_timer
    t_reporter_timer t_cpu_util t_remote_cpu_util t_num_streams t_bytes_sent
    t_blocks_sent t_bytes_received t_blocks_received t_bitrate_limit_stats_count
    t_bitrate_limit_intervals_traffic_bytes t_bitrate_limit_last_interval_index
    t_bitrate_limit_exceeded t_server_last_run_rc t_server_forced_idle_restarts_count
    t_server_forced_no_msg_restarts_count t_server_test_number t_cookie t_streams
    t_settings t_protocols t_json_top t_server_output_text t_json_server_output
    t_server_output_list t_i_errno].

Tactic Notation "rsimpl" "in" hyp(H) :=
  cbn [set ir_bytes_transferred ir_interval_start_time ir_interval_end_time
    ir_interval_duration ir_interval_packet_count ir_interval_outoforder_packets
    ir_interval_cnt_error ir_packet_count ir_jitter ir_outoforder_packets ir_cnt_error
    ir_omitted ir_tcpInfo ir_interval_retrans ir_interval_sacks ir_snd_cwnd ir_snd_wnd
    ir_rtt ir_rttvar ir_pmtu rs_bytes_received rs_bytes_sent
    rs_bytes_received_this_interval rs_bytes_sent_this_interval rs_bytes_sent_omit
    rs_stream_prev_total_retrans rs_stream_retrans rs_stream_prev_total_sacks
    rs_stream_sacks rs_stream_max_rtt rs_stream_min_rtt rs_stream_sum_rtt
    rs_stream_count_rtt rs_stream_max_snd_cwnd rs_stream_max_snd_wnd rs_start_time
    rs_end_time rs_start_time_fixed rs_sender_time rs_receiver_time rs_interval_results
    st_domain st_socket_bufsize st_blksize st_rate st_bitrate_limit
    st_bitrate_limit_interval st_bitrate_limit_stats_per_interval st_fqrate
    st_pacing_timer st_burst st_mss st_ttl st_tos st_flowlabel st_bytes st_blocks
    st_unit_format st_num_ostreams st_dont_fragment st_authtoken st_client_username
    st_client_password st_client_rsa_pubkey st_connect_timeout st_idle_timeout
    st_rcv_timeout sp_local_port sp_remote_port sp_socket sp_id sp_sender sp_result
    sp_send_timer sp_green_light sp_buffer_fd sp_buffer sp_pending_size sp_diskfile_fd
    sp_diskfile_left sp_packet_count sp_peer_packet_count sp_omitted_packet_count
    sp_jitter sp_prev_transit sp_outoforder_packets sp_omitted_outoforder_packets
    sp_cnt_error sp_omitted_cnt_error sp_target sp_rcv sp_snd sp_rcv2 sp_snd2 t_role
    t_mode t_sender_has_retransmits t_other_side_has_retransmits t_protocol t_state
    t_server_hostname t_tmp_template t_bind_address t_bind_dev t_xbind_addrs t_bind_port
    t_server_port t_omit t_duration t_diskfile_name t_affinity t_server_affinity t_title
    t_extra_data t_congestion t_congestion_used t_remote_congestion_used t_pidfile
    t_logfile t_ctrl_sck t_listener t_prot_listener t_ctrl_sck_mss
    t_server_authorized_users t_server_rsa_private_key t_server_skew_threshold t_daemon
    t_one_off t_no_delay t_reverse t_bidirectional t_verbose t_json_output t_zerocopy
    t_debug t_get_server_output t_udp_counters_64bit t_forceflush t_multisend
    t_repeating_payload t_timestamps t_timestamp_format t_json_output_string t_max_fd
    t_read_set t_write_set t_omitting t_stats_interval t_reporter_interval
    t_stats_callback t_reporter_callback t_omit_timer t_timer t_done t_stats_timer
    t_reporter_timer t_cpu_util t_remote_cpu_util t_num_streams t_bytes_sent
    t_blocks_sent t_bytes_received t_blocks_received t_bitrate_limit_stats_count
    t_bitrate_limit_intervals_traffic_bytes t_bitrate_limit_last_interval_index
    t_bitrate_limit_exceeded t_server_last_run_rc t_server_forced_idle_restarts_count
    t_server_forced_no_msg_restarts_count t_server_test_number t_cookie t_streams
    t_settings t_protocols t_json_top t_server_output_text t_json_server_output
    t_server_output_list t_i_errno] in H.
