(* ===== verification/JsonTree.v ===== *)
(** * The JSON output of a test

    The pointers [json_start], [json_connected], [json_intervals] and [json_end] of a test
    point into the tree of [json_top]; they are paths here, which stay valid because
    members are only ever appended. *)

From S2P Require Import Prelude Double CJson Test.

#[local] Open Scope string_scope.
#[local] Open Scope Z_scope.

(** A pointer into the tree: to the member added last with a name, and to the last
    element. *)
Inductive json_step := Member (name : string) | Last.

Fixpoint at_member (name : string) (f : cJSON -> cJSON) (ms : list (string * cJSON))
    : list (string * cJSON) :=
  match ms with
  | [] => []
  | (key, item) :: ms =>
      if bool_decide (name ∈ ms.*1) then (key, item) :: at_member name f ms
      else if decide (key = name) then (key, f item) :: ms
      else (key, item) :: ms
  end.

Fixpoint at_last {A} (f : A -> A) (l : list A) : list A :=
  match l with
  | [] => []
  | [x] => [f x]
  | x :: l => x :: at_last f l
  end.

Fixpoint at_path (p : list json_step) (f : cJSON -> cJSON) (j : cJSON) : cJSON :=
  match p, j with
  | [], _ => f j
  | Member name :: p, JObject ms => JObject (at_member name (at_path p f) ms)
  | Last :: p, JArray l => JArray (at_last (at_path p f) l)
  | _, _ => j
  end.

Definition json_start : list json_step := [Member "start"].
Definition json_connected : list json_step := [Member "start"; Member "connected"].
Definition json_intervals : list json_step := [Member "intervals"].
Definition json_end : list json_step := [Member "end"].

(** [cJSON_AddItemToObject] and [cJSON_AddItemToArray] on such a pointer; nothing happens
    to the null pointers before [iperf_json_start]. *)
Definition add_json (p : list json_step) (name : string) (item : cJSON) (test : iperf_test)
    : iperf_test :=
  test <| t_json_top ::= option_map (at_path p (fun j => cJSON_AddItemToObject j name item)) |>.
Definition append_json (p : list json_step) (item : cJSON) (test : iperf_test) : iperf_test :=
  test <| t_json_top ::= option_map (at_path p (fun j => cJSON_AddItemToArray j item)) |>.
