(* ===== verification/Udp.v ===== *)
(** * iperf_udp.c: sending, receiving and accounting datagrams

    A datagram starts with the time it was sent and its sequence number, in
    network byte order, the number in 32 or 64 bits. The receiver keeps the
    highest number seen, a count of missing packets and a count of reordered
    ones, and the jitter estimate of RFC 1889. *)

From S2P Require Import Prelude Double Bytes Posix IperfTime Net Test.

(** ** The header *)

(** The three [memcpy]s of [iperf_udp_send] into the buffer; [wide] is
    [udp_counters_64bit]. The counter is an [int], converted to the unsigned
    type of its field. *)
Definition udp_put_header (h : endianness) (wide : bool) (before : iperf_time)
    (packet_count : Z) (buf : list Z) : option (list Z) :=
  let sec := hton h 4 (u32 (secs before)) in
  let usec := hton h 4 (u32 (usecs before)) in
  let pcount := if wide then hton h 8 (u64 packet_count)
                else hton h 4 (u32 packet_count) in
  buf ← put 0 (mem_store h 4 sec) buf;
  buf ← put 4 (mem_store h 4 usec) buf;
  put 8 (mem_store h (if wide then 8 else 4) pcount) buf.

(** The [memcpy]s and conversions of [iperf_udp_recv]: the time and the number. *)
Definition udp_get_header (h : endianness) (wide : bool) (buf : list Z)
    : option (iperf_time * Z) :=
  sec ← get 0 4 buf;
  usec ← get 4 4 buf;
  pc ← get 8 (if wide then 8 else 4) buf;
  let pcount := if wide then hton h 8 (mem_load h pc) else hton h 4 (mem_load h pc) in
  Some (mk_time (hton h 4 (mem_load h sec)) (hton h 4 (mem_load h usec)), pcount).

(** ** Accounting *)

(** Sequence numbers. [pcount] is a [uint64_t], the counters of the stream are
    [int]s, which C converts to [uint64_t] to compare them. *)
Definition udp_account (pcount : Z) (sp : iperf_stream) : iperf_stream :=
  let expected := u64 (i32 (sp_packet_count sp + 1)) in
  if expected <=? pcount then
    let sp :=
      if expected <? pcount
      then sp <| sp_cnt_error := i32 (u64 (u64 (sp_cnt_error sp)
               + u64 (u64 (pcount - 1) - u64 (sp_packet_count sp)))) |>
      else sp in
    sp <| sp_packet_count := i32 pcount |>
  else
    let sp := sp <| sp_outoforder_packets := i32 (sp_outoforder_packets sp + 1) |> in
    if 0 <? sp_cnt_error sp then sp <| sp_cnt_error := sp_cnt_error sp - 1 |> else sp.

(** The jitter estimate. *)
Definition udp_jitter (first_packet : bool) (transit : double) (sp : iperf_stream)
    : iperf_stream :=
  let sp := if first_packet then sp <| sp_prev_transit := transit |> else sp in
  let d := d_sub transit (sp_prev_transit sp) in
  let d := if d_lt d d_zero then d_opp d else d in
  let sp := sp <| sp_prev_transit := transit |> in
  sp <| sp_jitter := d_add (sp_jitter sp)
                       (d_div (d_sub d (sp_jitter sp)) (d_of_Z 16)) |>.

Section Udp.
Context {W : Type} {posix : Posix W} {clock : Clock W}.

(** A read into the stream's buffer overwrites its beginning. *)
Definition fill_buffer (data : list Z) (sp : iperf_stream) : iperf_stream :=
  sp <| sp_buffer ::= fun buf => data ++ drop (length data) buf |>.

Definition stack_time (w : W) : iperf_time := mk_time (u32 (stack_word w)) (u32 (stack_word w)).

Definition iperf_udp_recv (h : endianness) (test : iperf_test) (sp : iperf_stream) (w : W)
    : option (Z * iperf_stream * W) :=
  let size := st_blksize (t_settings test) in
  '(r, data, w) ← Nread (sp_socket sp) size w;
  let sp := fill_buffer data sp in
  if r <=? 0 then Some (r, sp, w)
  else if t_state test =? TEST_RUNNING then
    let first_packet := rs_bytes_received (sp_result sp) =? 0 in
    let sp := sp <| sp_result ::= fun rs => rs
      <| rs_bytes_received := u64 (rs_bytes_received rs + r) |>
      <| rs_bytes_received_this_interval :=
           u64 (rs_bytes_received_this_interval rs + r) |> |> in
    '(sent_time, pcount) ←
      udp_get_header h (negb (t_udp_counters_64bit test =? 0)) (sp_buffer sp);
    let sp := udp_account pcount sp in
    let '(c, w) := sys_clock w in
    let '(_, arrival_time) := iperf_time_now c (stack_time w) in
    let '(_, temp_time) := iperf_time_diff arrival_time sent_time in
    let transit := iperf_time_in_secs temp_time in
    Some (r, udp_jitter first_packet transit sp, w)
  else Some (r, sp, w).

Definition iperf_udp_send (h : endianness) (test : iperf_test) (sp : iperf_stream) (w : W)
    : option (Z * iperf_stream * W) :=
  let size := st_blksize (t_settings test) in
  let '(c, w) := sys_clock w in
  let '(_, before) := iperf_time_now c (stack_time w) in
  let sp := sp <| sp_packet_count := i32 (sp_packet_count sp + 1) |> in
  buf ← udp_put_header h (negb (t_udp_counters_64bit test =? 0)) before
          (sp_packet_count sp) (sp_buffer sp);
  let sp := sp <| sp_buffer := buf |> in
  '(r, w) ← Nwrite (sp_socket sp) (take (Z.to_nat size) (sp_buffer sp)) w;
  if r <? 0 then Some (r, sp, w)
  else
    let sp := sp <| sp_result ::= fun rs => rs
      <| rs_bytes_sent := u64 (rs_bytes_sent rs + r) |>
      <| rs_bytes_sent_this_interval := u64 (rs_bytes_sent_this_interval rs + r) |> |> in
    Some (r, sp, w).
End Udp.
