(* ===== verification/UdpProps.v ===== *)
(** * iperf_udp.c: properties *)

From S2P Require Import Prelude Double Bytes Posix IperfTime Net Test Udp.

#[local] Set Default Proof Using "Type".

(** ** The header *)

Lemma get_be h off n v buf :
  get off n buf = Some (be_bytes n v) -> 0 <= v ->
  get off n buf ≫= (fun bs => Some (hton h n (mem_load h bs))) =
    Some (v mod 256 ^ Z.of_nat n).
Proof.
  intros -> Hv. cbn [mbind option_bind]. f_equal.
  pose proof (load_ntoh h (be_bytes n v) (be_bytes_byte n v)) as E.
  rewrite length_be_bytes in E. rewrite E.
  unfold be_val, be_bytes. rewrite reverse_involutive. by apply le_val_bytes.
Qed.

(** What the header says of an [int] counter. *)
Definition counter_field (wide : bool) (n : Z) : Z := if wide then u64 n else u32 n.

Lemma udp_header_fits h wide before n buf :
  (16 <= length buf)%nat ->
  exists buf', udp_put_header h wide before n buf = Some buf' /\
    length buf' = length buf.
Proof.
  intros Hl. unfold udp_put_header. rewrite !store_hton.
  assert (forall off bs b, length b = length buf -> (off + length bs <= 16)%nat ->
    exists b', put off bs b = Some b' /\ length b' = length buf) as Hput.
  { intros off bs b E Ho. unfold put. rewrite decide_True by lia. eexists. split; [done|].
    rewrite !length_app, length_take, length_drop. lia. }
  destruct (Hput 0%nat (be_bytes 4 (u32 (secs before))) buf) as (b1 & -> & H1);
    [done|rewrite length_be_bytes; lia|]. cbn [mbind option_bind].
  destruct (Hput 4%nat (be_bytes 4 (u32 (usecs before))) b1) as (b2 & -> & H2);
    [done|rewrite length_be_bytes; lia|]. cbn [mbind option_bind].
  destruct wide; rewrite store_hton; apply Hput; try done; rewrite length_be_bytes; lia.
Qed.

(** Any host decodes what any host encoded. *)
Lemma udp_header_decodes h1 h2 wide before n buf buf' :
  udp_put_header h1 wide before n buf = Some buf' ->
  udp_get_header h2 wide buf' =
    Some (mk_time (u32 (secs before)) (u32 (usecs before)), counter_field wide n).
Proof.
  unfold udp_put_header. rewrite !store_hton. intros H.
  apply bind_Some in H as (b1 & E1 & H). apply bind_Some in H as (b2 & E2 & H).
  set (k := if wide then 8%nat else 4%nat) in *.
  assert (put 8 (be_bytes k (counter_field wide n)) b2 = Some buf') as E3.
  { subst k. destruct wide; rewrite store_hton in H; exact H. } clear H.
  pose proof (put_get _ _ _ _ E1) as G1. pose proof (put_get _ _ _ _ E2) as G2.
  pose proof (put_get _ _ _ _ E3) as G3. rewrite length_be_bytes in G1, G2, G3.
  rewrite <- (put_get_other _ _ 0 4 _ _ E2) in G1 by (rewrite length_be_bytes; lia).
  rewrite <- (put_get_other _ _ 0 4 _ _ E3) in G1 by (rewrite length_be_bytes; lia).
  rewrite <- (put_get_other _ _ 4 4 _ _ E3) in G2 by (rewrite length_be_bytes; lia).
  assert (forall x, 0 <= u32 x) as P32 by (intros x; apply (uint_range 32 x); lia).
  assert (forall x, 0 <= u64 x) as P64 by (intros x; apply (uint_range 64 x); lia).
  apply (get_be h2) in G1; [|done]. apply (get_be h2) in G2; [|done].
  apply (get_be h2) in G3; [|unfold counter_field; by case_match].
  change (256 ^ Z.of_nat 4) with (2 ^ 32) in G1, G2.
  unfold udp_get_header. fold k.
  destruct (get 0 4 buf') as [b|]; [|done]. cbn [mbind option_bind] in *.
  injection G1 as ->.
  destruct (get 4 4 buf') as [b'|]; [|done]. cbn [mbind option_bind] in *.
  injection G2 as ->.
  destruct (get 8 k buf') as [b''|]; [|done]. cbn [mbind option_bind] in *.
  injection G3 as G3. do 2 f_equal.
  - f_equal; rewrite Z.mod_small; try done; apply (uint_range 32); lia.
  - subst k. destruct wide; cbn [counter_field] in *; rewrite G3.
    + change (256 ^ Z.of_nat 8) with (2 ^ 64). rewrite Z.mod_small; [done|].
      apply (uint_range 64); lia.
    + change (256 ^ Z.of_nat 4) with (2 ^ 32). rewrite Z.mod_small; [done|].
      apply (uint_range 32); lia.
Qed.

(** ** Accounting *)

(** The highest number of a list, 0 when there is none. *)
Definition top (ps : list Z) : Z := foldr Z.max 0 ps.

(** How many of the numbers 1 .. [top ps] are not in [ps]: the packets that are
    missing once [ps] has arrived. *)
Definition lost (ps : list Z) : Z :=
  Z.of_nat (length (filter (fun n => n ∉ ps) (seqZ 1 (top ps)))).

(** How many of [ps], arriving in this order, do not exceed everything before
    them, [m] being the highest number so far. *)
Fixpoint reordered (m : Z) (ps : list Z) : Z :=
  match ps with
  | [] => 0
  | p :: ps => (if m <? p then 0 else 1) + reordered (Z.max m p) ps
  end.

(** The three counters of a stream. *)
Definition counters (sp : iperf_stream) : Z * Z * Z :=
  (sp_packet_count sp, sp_cnt_error sp, sp_outoforder_packets sp).

(** What [udp_account] does as long as nothing overflows. *)
Lemma udp_account_spec p sp :
  0 <= sp_packet_count sp < 2 ^ 31 - 1 -> 0 <= sp_cnt_error sp <= sp_packet_count sp ->
  0 <= sp_outoforder_packets sp < 2 ^ 31 - 1 -> 0 <= p < 2 ^ 31 - 1 ->
  counters (udp_account p sp) =
    if sp_packet_count sp <? p
    then (p, sp_cnt_error sp + (p - 1 - sp_packet_count sp), sp_outoforder_packets sp)
    else (sp_packet_count sp, Z.max 0 (sp_cnt_error sp - 1), sp_outoforder_packets sp + 1).
Proof.
  intros HM HE HO Hp. unfold udp_account, counters.
  rewrite (sint_id 32 (sp_packet_count sp + 1)) by (unfold is_sint; lia).
  rewrite (uint_id 64 (sp_packet_count sp + 1)) by (unfold is_uint; lia).
  destruct (Z.leb_spec (sp_packet_count sp + 1) p), (Z.ltb_spec (sp_packet_count sp) p);
    try lia.
  - assert (i32 p = p) as -> by (apply sint_id; [lia|unfold is_sint; lia]).
    destruct (Z.ltb_spec (sp_packet_count sp + 1) p); rsimpl.
    + cint_fold. repeat f_equal; lia.
    + f_equal; f_equal; lia.
  - rewrite (sint_id 32) by (unfold is_sint; lia). rsimpl.
    destruct (Z.ltb_spec 0 (sp_cnt_error sp)); rsimpl; repeat f_equal; lia.
Qed.

Lemma top_snoc ps p : 0 <= p -> top (ps ++ [p]) = Z.max (top ps) p.
Proof. unfold top. intros Hp. induction ps as [|q ps IH]; cbn [app foldr] in *; lia. Qed.

Lemma top_ge ps p : p ∈ ps -> p <= top ps.
Proof. unfold top. induction 1; cbn [foldr]; lia. Qed.

Lemma top_nonneg ps : 0 <= top ps.
Proof. unfold top. induction ps; cbn [foldr]; lia. Qed.

Lemma reordered_snoc m ps p :
  reordered m (ps ++ [p]) =
    reordered m ps + (if Z.max m (top ps) <? p then 0 else 1) \/ m < 0.
Proof.
  destruct (Z.ltb_spec m 0) as [|Hm]; [by right|left]. revert m Hm.
  induction ps as [|q ps IH]; intros m Hm; cbn [app reordered top foldr].
  - rewrite Z.max_l by lia. lia.
  - rewrite IH by lia. fold (top ps). rewrite Z.max_assoc. lia.
Qed.

Lemma reordered_bound m ps : 0 <= reordered m ps <= Z.of_nat (length ps).
Proof.
  revert m. induction ps as [|p ps IH]; intros m; cbn [reordered length]; [lia|].
  specialize (IH (Z.max m p)). case_bool; lia.
Qed.

(** Numbers that a new arrival does not touch are missing as before. *)
Lemma missing_frame (ps l : list Z) p :
  p ∉ l -> filter (fun n => n ∉ ps ++ [p]) l = filter (fun n => n ∉ ps) l.
Proof.
  intros Hp.
  induction l as [|n l IH]; [done|]. apply not_elem_of_cons in Hp as [Hn Hl].
  rewrite !filter_cons, IH by done.
  assert (n ∉ ps ++ [p] <-> n ∉ ps) as E by (rewrite elem_of_app, list_elem_of_singleton; naive_solver).
  by repeat case_decide; naive_solver.
Qed.

Lemma missing_all (ps l : list Z) :
  (forall n, n ∈ l -> n ∉ ps) -> filter (fun n => n ∉ ps) l = l.
Proof.
  induction l as [|n l IH]; intros H; [done|]. rewrite filter_cons, decide_True.
  - f_equal. apply IH. intros m Hm. apply H. by right.
  - apply H. by left.
Qed.

(** The range up to [m], split around one of its members. *)
Lemma seqZ_split p m :
  1 <= p <= m -> seqZ 1 m = seqZ 1 (p - 1) ++ [p] ++ seqZ (p + 1) (m - p).
Proof.
  intros Hp. replace m with ((p - 1) + (1 + (m - p))) at 1 by lia.
  rewrite !seqZ_app by lia. replace (1 + (p - 1)) with p by lia.
  done.
Qed.

Lemma arrived_not_missing (ps : list Z) p : filter (fun n => n ∉ ps ++ [p]) [p] = [].
Proof.
  rewrite filter_cons, decide_False; [done|].
  rewrite elem_of_app. intros H; apply H. right. by left.
Qed.

Lemma lost_new ps p :
  top ps < p -> lost (ps ++ [p]) = lost ps + (p - 1 - top ps).
Proof.
  intros Hp. pose proof (top_nonneg ps) as H0. unfold lost.
  rewrite top_snoc, Z.max_r, (seqZ_split p p), Z.sub_diag by lia.
  replace (p - 1) with (top ps + (p - 1 - top ps)) at 1 by lia.
  rewrite seqZ_app, !filter_app, arrived_not_missing by lia.
  rewrite !missing_frame by (rewrite elem_of_seqZ; lia).
  rewrite (missing_all ps (seqZ (1 + top ps) _)).
  - rewrite !length_app, length_seqZ. change (seqZ (p + 1) 0) with (@nil Z). cbn [length filter list_filter]. lia.
  - intros n Hn%elem_of_seqZ Hin%top_ge. lia.
Qed.

Lemma lost_late ps p :
  1 <= p <= top ps -> p ∉ ps -> lost (ps ++ [p]) + 1 = lost ps.
Proof.
  intros Hp Hps. unfold lost. rewrite top_snoc, Z.max_l by lia.
  rewrite (seqZ_split p (top ps)), !filter_app, arrived_not_missing by lia.
  rewrite !missing_frame by (rewrite elem_of_seqZ; lia).
  rewrite (missing_all ps [p]) by (intros n ->%list_elem_of_singleton; done).
  rewrite !length_app. cbn [length]. lia.
Qed.

Lemma lost_duplicate ps p : p ∈ ps -> lost (ps ++ [p]) = lost ps \/ p < 0.
Proof.
  intros Hp. destruct (Z.ltb_spec p 0); [by right|left].
  unfold lost. rewrite top_snoc, Z.max_l by (try apply top_ge; done).
  do 2 f_equal. apply list_filter_iff. intros n.
  rewrite elem_of_app, list_elem_of_singleton. naive_solver.
Qed.

Lemma lost_bound ps : 0 <= lost ps <= top ps.
Proof.
  unfold lost. pose proof (top_nonneg ps).
  pose proof (length_filter (fun n => n ∉ ps) (seqZ 1 (top ps))) as HL.
  rewrite length_seqZ in HL. lia.
Qed.

(** The counters after the packets [ps] have arrived, in this order. *)
Definition accounted (ps : list Z) (sp : iperf_stream) : Prop :=
  sp_packet_count sp = top ps /\ 0 <= sp_cnt_error sp <= lost ps /\
  (NoDup ps -> sp_cnt_error sp = lost ps) /\
  sp_outoforder_packets sp = reordered 0 ps.

Lemma accounted_nil sp : counters sp = (0, 0, 0) -> accounted [] sp.
Proof. intros [= E1 E2 E3]. unfold accounted. rewrite E1, E2, E3. vm_compute. naive_solver lia. Qed.

Lemma accounted_counters ps sp sp' :
  counters sp = counters sp' -> accounted ps sp -> accounted ps sp'.
Proof. unfold accounted. by intros [= -> -> ->]. Qed.

Definition in_range (ps : list Z) : Prop :=
  Forall (fun p => 1 <= p < 2 ^ 31 - 1) ps /\ Z.of_nat (length ps) < 2 ^ 31.

Lemma top_range ps : in_range ps -> 0 <= top ps < 2 ^ 31 - 1.
Proof.
  intros [H _]. unfold top. induction H as [|p ps Hp _ IH]; cbn [foldr]; lia.
Qed.

Lemma account_step ps p sp :
  in_range (ps ++ [p]) -> accounted ps sp -> accounted (ps ++ [p]) (udp_account p sp).
Proof.
  intros [HF HL] (HM & HE & HU & HO). apply Forall_app in HF as [HF Hp].
  inversion_clear Hp as [|? ? Hp' _]. rename Hp' into Hp.
  rewrite length_app in HL. cbn [length] in HL.
  assert (0 <= top ps < 2 ^ 31 - 1) as HT by (apply top_range; split; [done|lia]).
  pose proof (lost_bound ps) as HB. pose proof (reordered_bound 0 ps) as HR.
  pose proof (udp_account_spec p sp) as HS.
  rewrite HM, HO in HS. specialize (HS ltac:(lia) ltac:(lia) ltac:(lia) ltac:(lia)).
  destruct (reordered_snoc 0 ps p) as [Hre|]; [|lia].
  rewrite Z.max_r in Hre by lia.
  unfold accounted. rewrite top_snoc, NoDup_app by lia. revert Hre HS.
  destruct (Z.ltb_spec (top ps) p) as [Hnew|Hold]; intros Hre [= -> -> ->].
  - rewrite (lost_new ps p Hnew). repeat split; try lia.
    intros (Hnd & _). specialize (HU Hnd). lia.
  - destruct (decide (p ∈ ps)) as [Hin|Hout].
    + destruct (lost_duplicate ps p Hin) as [->|]; [|lia]. repeat split; try lia.
      intros (_ & Hdis & _). exfalso. apply (Hdis p Hin). by left.
    + pose proof (lost_late ps p ltac:(lia) Hout) as Hlate.
      pose proof (lost_bound (ps ++ [p])) as HB'.
      repeat split; try lia. intros (Hnd & _). specialize (HU Hnd). lia.
Qed.

(** ** Receiving *)

Section Receive.
Context {W : Type} {posix : Posix W} {clock : Clock W}.

(** Whether the counters in the packets are 64 bits wide. *)
Definition wide (test : iperf_test) : bool := negb (t_udp_counters_64bit test =? 0).

Lemma jitter_buffer b x sp : sp_buffer (udp_jitter b x sp) = sp_buffer sp.
Proof. by destruct b. Qed.

Lemma account_buffer p sp : sp_buffer (udp_account p sp) = sp_buffer sp.
Proof. unfold udp_account. by repeat case_match; rsimpl. Qed.

Lemma jitter_counters b x sp : counters (udp_jitter b x sp) = counters sp.
Proof. by destruct b. Qed.

(** One call of [iperf_udp_recv] that returned data in the right state accounts
    for the packet whose header is then in the buffer. *)
Lemma udp_recv_running h test sp w r sp' w' :
  iperf_udp_recv h test sp w = Some (r, sp', w') ->
  0 < r -> t_state test = TEST_RUNNING ->
  exists sent p sp1,
    udp_get_header h (wide test) (sp_buffer sp') = Some (sent, p) /\
    counters sp' = counters (udp_account p sp1) /\ counters sp1 = counters sp.
Proof.
  unfold iperf_udp_recv. intros H Hr Hst.
  apply bind_Some in H as ([[r0 data] w0] & _ & H).
  destruct (Z.leb_spec r0 0); [injection H as <- <- <-; lia|].
  rewrite Hst, Z.eqb_refl in H. fold (wide test) in H.
  apply bind_Some in H as ([sent p] & Hh & H).
  destruct (sys_clock w0) as [c w2], (iperf_time_now c _) as [? arrival],
    (iperf_time_diff arrival sent) as [? temp].
  injection H as <- <- <-.
  eexists sent, p, _. split; [by rewrite jitter_buffer, account_buffer|].
  split; [apply jitter_counters|reflexivity].
Qed.

(** [n] calls in a row, each of which returned a packet; the numbers are those
    in the headers, in order of arrival. *)
Fixpoint receive (h : endianness) (test : iperf_test) (n : nat) (sp : iperf_stream)
    (w : W) : option (list Z * iperf_stream * W) :=
  match n with
  | O => Some ([], sp, w)
  | S n =>
      '(r, sp, w) ← iperf_udp_recv h test sp w;
      if 0 <? r then
        '(_, p) ← udp_get_header h (wide test) (sp_buffer sp);
        '(ps, sp, w) ← receive h test n sp w;
        Some (p :: ps, sp, w)
      else None
  end.

Lemma receive_accounted h test n seen sp w ps sp' w' :
  t_state test = TEST_RUNNING -> receive h test n sp w = Some (ps, sp', w') ->
  in_range (seen ++ ps) -> accounted seen sp -> accounted (seen ++ ps) sp'.
Proof.
  intros Hst. revert seen sp w ps. induction n as [|n IH]; intros seen sp w ps H Hr Hacc;
    cbn [receive] in H.
  - injection H as <- <- <-. by rewrite app_nil_r.
  - apply bind_Some in H as ([[r sp1] w1] & E & H).
    destruct (Z.ltb_spec 0 r) as [Hpos|]; [|done].
    apply bind_Some in H as ([sent p] & Hh & H).
    apply bind_Some in H as ([[ps' sp2] w2] & HR & [= <- <- <-]).
    destruct (udp_recv_running _ _ _ _ _ _ _ E Hpos Hst) as (sent' & p' & sp0 & Hh' & Hc & H0).
    rewrite Hh in Hh'. injection Hh' as <- <-.
    rewrite (cons_middle p seen), app_assoc in Hr |- *. eapply IH; [exact HR|done|].
    eapply accounted_counters; [symmetry; exact Hc|]. apply account_step.
    + destruct Hr as [HF HL]. apply Forall_app in HF as [HF _]. split; [done|].
      rewrite length_app in HL. lia.
    + eapply accounted_counters; [symmetry; exact H0|done].
Qed.

(** C18: UDP loss accounting. Let a stream receive packets numbered [ps], in this
    order, starting from zeroed counters. Then the highest number is what
    [packet_count] says and [outoforder_packets] counts the packets that came
    after a higher one. The loss counter never exceeds the number of packets
    missing from 1 .. [packet_count], and it is that number exactly when the
    network did not duplicate a packet. *)
Theorem udp_loss_accounting h test n sp (w : W) ps sp' w' :
  t_state test = TEST_RUNNING -> counters sp = (0, 0, 0) ->
  receive h test n sp w = Some (ps, sp', w') -> in_range ps ->
  sp_packet_count sp' = top ps /\
  sp_outoforder_packets sp' = reordered 0 ps /\
  0 <= sp_cnt_error sp' <= lost ps /\
  (NoDup ps -> sp_cnt_error sp' = lost ps).
Proof.
  intros Hst Hz HR Hps.
  destruct (receive_accounted h test n [] sp w ps sp' w' Hst HR Hps (accounted_nil sp Hz))
    as (? & ? & ? & ?). done.
Qed.
End Receive.

Definition ex_header (n : Z) : list Z :=
  be_bytes 4 1 ++ be_bytes 4 0 ++ be_bytes 4 n ++ be_bytes 4 0.

Definition ex_udp_test : iperf_test :=
  zero_test <| t_state := TEST_RUNNING |>
            <| t_settings := zero_settings <| st_blksize := 16 |> |>.

Definition ex_udp_stream : iperf_stream := zero_stream <| sp_buffer := replicate 16 0 |>.

(** Packets 1, 4, 2, 6 arrive. *)
Lemma udp_loss_accounting_witness :
  exists sp' w',
    receive LittleEndian ex_udp_test 4 ex_udp_stream
      (Pipe.mk_pipe 16 (ex_header 1 ++ ex_header 4 ++ ex_header 2 ++ ex_header 6) [])
      = Some ([1; 4; 2; 6], sp', w') /\
    sp_packet_count sp' = 6 /\ sp_cnt_error sp' = 2 /\ sp_outoforder_packets sp' = 1.
Proof.
  eexists _, _. split; [vm_compute; reflexivity|].
  edestruct (udp_loss_accounting LittleEndian ex_udp_test 4 ex_udp_stream
    (Pipe.mk_pipe 16 (ex_header 1 ++ ex_header 4 ++ ex_header 2 ++ ex_header 6) [])
    [1; 4; 2; 6]) as (E1 & E2 & _ & E3).
  - reflexivity.
  - reflexivity.
  - vm_compute. reflexivity.
  - split; [repeat constructor; lia|cbn; lia].
  - split; [exact E1|]. split; [|exact E2].
    apply E3. apply (bool_decide_unpack _). vm_compute. exact I.
Defined.

(** ** A datagram from end to end *)

Lemma account_counters p sp1 sp2 :
  counters sp1 = counters sp2 ->
  counters (udp_account p sp1) = counters (udp_account p sp2).
Proof.
  unfold counters, udp_account. intros [= E1 E2 E3]. rewrite E1, E2, E3.
  destruct (_ <=? p); [destruct (_ <? p); rsimpl; congruence|]. rsimpl. rewrite E2.
  destruct (0 <? _); rsimpl; congruence.
Qed.

Section EndToEnd.
Context {W : Type} {posix : Posix W} {laws : PosixLaws W} {stream : StreamLaws W}
  {reliable : ReliableLaws W} {clock : Clock W} {clock_laws : ClockLaws W}.

(** The time a host reads. *)
Definition reading (w : W) : iperf_time :=
  let '(c, w') := sys_clock w in snd (iperf_time_now c (stack_time w')).

Lemma reading_wf w : time_wf (reading w).
Proof.
  unfold reading, time_wf, is_uint. destruct (sys_clock w) as [[[s n]|] w'];
    cbn [iperf_time_now snd secs usecs stack_time]; split; try apply uint_range; try lia.
  assert (0 <= u32 n < 2 ^ 32) as Hn by (apply (uint_range 32); lia).
  split; [apply Z.div_pos; lia|]. apply Z.div_lt_upper_bound; lia.
Qed.

Lemma udp_send_spec h test sp (w : W) :
  16 <= st_blksize (t_settings test) < 2 ^ 31 ->
  Z.of_nat (length (sp_buffer sp)) = st_blksize (t_settings test) ->
  0 <= sp_packet_count sp < 2 ^ 31 - 1 ->
  exists sp' w',
    iperf_udp_send h test sp w = Some (st_blksize (t_settings test), sp', w') /\
    sp_packet_count sp' = sp_packet_count sp + 1 /\
    rs_bytes_sent (sp_result sp') =
      u64 (rs_bytes_sent (sp_result sp) + st_blksize (t_settings test)) /\
    length (sp_buffer sp') = length (sp_buffer sp) /\
    outbox w' (sp_socket sp) = outbox w (sp_socket sp) ++ sp_buffer sp' /\
    forall h2, udp_get_header h2 (wide test) (sp_buffer sp') =
      Some (reading w, sp_packet_count sp + 1).
Proof using Type*.
  intros Hb Hl Hc. pose proof (reading_wf w) as Hwf. unfold reading in Hwf |- *. unfold iperf_udp_send.
  destruct (sys_clock w) as [c w1] eqn:EC. apply clock_outbox in EC.
  destruct (iperf_time_now c (stack_time w1)) as [? before]. cbn [snd] in Hwf |- *. fold (wide test). rsimpl.
  rewrite (sint_id 32) by (unfold is_sint; lia).
  destruct (udp_header_fits h (wide test) before (sp_packet_count sp + 1) (sp_buffer sp))
    as (buf & Ebuf & Hbuf); [lia|].
  rewrite Ebuf. cbn [mbind option_bind]. rsimpl. rewrite <- Hl, <- Hbuf, Nat2Z.id, take_ge by done.
  destruct (Nwrite_reliable (sp_socket sp) buf w1) as (w2 & -> & Ho & _); [lia|].
  cbn [mbind option_bind]. destruct (Z.ltb_spec (Z.of_nat (length buf)) 0); [lia|].
  eexists _, _. split; [done|]. rsimpl. repeat split; try done; [congruence|].
  intros h2. erewrite udp_header_decodes by exact Ebuf. destruct Hwf as [Hs Hu].
  rewrite (uint_id 32 (secs before)), (uint_id 32 (usecs before)) by (done || lia).
  destruct before as [s u]. cbn [secs usecs]. do 2 f_equal.
  unfold counter_field. by case_match; cint_fold.
Qed.

Lemma udp_recv_spec h test sp (w : W) buf rest sent n :
  0 < st_blksize (t_settings test) < 2 ^ 31 -> t_state test = TEST_RUNNING ->
  Z.of_nat (length buf) = st_blksize (t_settings test) ->
  length (sp_buffer sp) = length buf ->
  inbox w (sp_socket sp) = buf ++ rest ->
  udp_get_header h (wide test) buf = Some (sent, n) ->
  exists sp' w',
    iperf_udp_recv h test sp w = Some (st_blksize (t_settings test), sp', w') /\
    counters sp' = counters (udp_account n sp) /\
    rs_bytes_received (sp_result sp') =
      u64 (rs_bytes_received (sp_result sp) + st_blksize (t_settings test)) /\
    (forall r data w1, Nread (sp_socket sp) (st_blksize (t_settings test)) w = Some (r, data, w1) ->
     sp_prev_transit sp' = iperf_time_in_secs (snd (iperf_time_diff (reading w1) sent))).
Proof using laws reliable.
  intros Hb Hst Hl Hsp Hin Hh. unfold iperf_udp_recv.
  destruct (Nread_reliable (sp_socket sp) (st_blksize (t_settings test)) w)
    as (w1 & -> & _ & _); [lia|rewrite Hin, length_app; lia|].
  cbn [mbind option_bind]. destruct (Z.leb_spec (st_blksize (t_settings test)) 0); [lia|].
  rewrite Hst, Z.eqb_refl. rewrite Hin, <- Hl, Nat2Z.id, take_app_length.
  fold (wide test). rsimpl.
  assert (sp_buffer (fill_buffer buf sp) = buf) as ->.
  { unfold fill_buffer. rsimpl. by rewrite drop_ge, app_nil_r by lia. }
  rewrite Hh. cbn [mbind option_bind].
  pose proof (eq_refl (reading w1)) as Er. unfold reading in Er at 1.
  destruct (sys_clock w1) as [c w2], (iperf_time_now c _) as [? arrival]. cbn [snd] in Er. subst arrival.
  destruct (iperf_time_diff (reading w1) sent) as [? temp] eqn:Ed.
  eexists _, _. split; [done|]. split; [|split].
  - rewrite jitter_counters. by apply account_counters.
  - unfold udp_jitter, udp_account. by repeat case_match; rsimpl.
  - intros r data w1' [= _ _ <-]. by rewrite Ed.
Qed.
End EndToEnd.

(** C25: a datagram means the same on both hosts. The sender increments its
    counter and sends one datagram of [blksize] bytes, which carries the time it reads and that
    number; a receiver with the same block size and counter width, whatever the two byte orders,
    accounts for exactly that packet number, adds its bytes and takes the distance
    between the time it reads when it has the datagram and that very time for its transit. *)
Theorem udp_datagram_roundtrip {W1 W2 : Type}
    {p1 : Posix W1} {l1 : PosixLaws W1} {s1 : StreamLaws W1} {r1 : ReliableLaws W1}
    {c1 : Clock W1} {k1 : ClockLaws W1}
    {p2 : Posix W2} {l2 : PosixLaws W2} {s2 : StreamLaws W2} {r2 : ReliableLaws W2}
    {c2 : Clock W2} (h1 h2 : endianness) test1 test2 sp1 sp2 (w1 : W1) (w2 : W2) n rest :
  st_blksize (t_settings test1) = n -> st_blksize (t_settings test2) = n ->
  16 <= n < 2 ^ 31 -> wide test1 = wide test2 -> t_state test2 = TEST_RUNNING ->
  Z.of_nat (length (sp_buffer sp1)) = n -> Z.of_nat (length (sp_buffer sp2)) = n ->
  0 <= sp_packet_count sp1 < 2 ^ 31 - 1 ->
  exists sp1' w1' msg,
    iperf_udp_send h1 test1 sp1 w1 = Some (n, sp1', w1') /\
    sp_packet_count sp1' = sp_packet_count sp1 + 1 /\
    rs_bytes_sent (sp_result sp1') = u64 (rs_bytes_sent (sp_result sp1) + n) /\
    outbox w1' (sp_socket sp1) = outbox w1 (sp_socket sp1) ++ msg /\
    (inbox w2 (sp_socket sp2) = msg ++ rest ->
     exists sp2' w2', iperf_udp_recv h2 test2 sp2 w2 = Some (n, sp2', w2') /\
       counters sp2' = counters (udp_account (sp_packet_count sp1') sp2) /\
       rs_bytes_received (sp_result sp2') = u64 (rs_bytes_received (sp_result sp2) + n) /\
       udp_get_header h2 (wide test2) msg = Some (reading w1, sp_packet_count sp1') /\
       forall r data w, Nread (sp_socket sp2) n w2 = Some (r, data, w) ->
         sp_prev_transit sp2' = iperf_time_in_secs (snd (iperf_time_diff (reading w) (reading w1)))).
Proof.
  intros <- Hb2 Hb Hw Hst Hl1 Hl2 Hc.
  destruct (udp_send_spec h1 test1 sp1 w1 Hb Hl1 Hc)
    as (sp1' & w1' & HS & Hpc & Hbs & Hlen & Ho & Hh).
  exists sp1', w1', (sp_buffer sp1'). do 4 (split; [done|]). intros Hin.
  specialize (Hh h2). rewrite Hw in Hh. rewrite Hpc, <- Hb2.
  destruct (udp_recv_spec h2 test2 sp2 w2 (sp_buffer sp1') rest (reading w1)
              (sp_packet_count sp1 + 1)) as (sp2' & w2' & HR & Hco & Hbr & Ht); try done; [lia..|].
  by exists sp2', w2'.
Qed.

Lemma udp_datagram_roundtrip_witness :
  let sp2 := ex_udp_stream <| sp_packet_count := 41 |> <| sp_cnt_error := 3 |> in
  exists sp1' w1' msg,
    iperf_udp_send BigEndian ex_udp_test (ex_udp_stream <| sp_packet_count := 44 |>)
      (Pipe.mk_pipe 5 [] []) = Some (16, sp1', w1') /\
    msg = [0; 0; 0; 1; 0; 0; 0; 0; 0; 0; 0; 45; 0; 0; 0; 0] /\
    exists sp2' w2', iperf_udp_recv LittleEndian ex_udp_test sp2
                       (Pipe.mk_pipe 7 (msg ++ [9]) []) = Some (16, sp2', w2') /\
      counters sp2' = (45, 6, 0) /\ sp_prev_transit sp2' = d_zero.
Proof.
  destruct (udp_datagram_roundtrip BigEndian LittleEndian ex_udp_test ex_udp_test
    (ex_udp_stream <| sp_packet_count := 44 |>)
    (ex_udp_stream <| sp_packet_count := 41 |> <| sp_cnt_error := 3 |>)
    (Pipe.mk_pipe 5 [] [])
    (Pipe.mk_pipe 7 ([0; 0; 0; 1; 0; 0; 0; 0; 0; 0; 0; 45; 0; 0; 0; 0] ++ [9]) []) 16 [9])
    as (sp1' & w1' & msg & HS & Hpc & _ & Ho & HR);
    [reflexivity|reflexivity|lia|reflexivity|reflexivity|reflexivity|reflexivity|cbn; lia|].
  exists sp1', w1', msg. split; [exact HS|].
  assert (msg = [0; 0; 0; 1; 0; 0; 0; 0; 0; 0; 0; 45; 0; 0; 0; 0]) as ->.
  { vm_compute in HS. injection HS as _ <-. vm_compute in Ho. symmetry. exact Ho. }
  split; [reflexivity|]. destruct HR as (sp2' & w2' & E & Hc & _ & _ & Ht); [reflexivity|].
  exists sp2', w2'. split; [exact E|]. split.
  - rewrite Hc, Hpc. vm_compute. reflexivity.
  - assert (exists r data w, Nread (sp_socket ex_udp_stream) 16
      (Pipe.mk_pipe 7 ([0; 0; 0; 1; 0; 0; 0; 0; 0; 0; 0; 45; 0; 0; 0; 0] ++ [9]) [])
      = Some (r, data, w) /\ reading w = mk_time 1 0) as (r & data & w & Hn & Hw).
    { eexists _, _, _. vm_compute. split; reflexivity. }
    rewrite (Ht _ _ _ Hn), Hw. vm_compute. reflexivity.
Defined.

(** The 64-bit packet counter is 31 bits wide. The counter behind the 64-bit
    header field is an [int]: after packet 2^31 - 1 the increment wraps, and the
    next datagram carries the number 2^64 - 2^31; a receiver that has seen all
    the packets before it takes it for a jump forward and then expects
    packet 2^64 - 2^31 + 1 with a negative counter. *)
Theorem wide_counter_wraps h (before : iperf_time) buf buf' sp :
  sp_packet_count sp = 2 ^ 31 - 1 -> sp_cnt_error sp = 0 ->
  udp_put_header h true before (i32 (sp_packet_count sp + 1)) buf = Some buf' ->
  exists sent, udp_get_header h true buf' = Some (sent, 2 ^ 64 - 2 ^ 31) /\
    sp_packet_count (udp_account (2 ^ 64 - 2 ^ 31) sp) = - 2 ^ 31.
Proof.
  intros Hp Hc H. apply (udp_header_decodes h h) in H. rewrite Hp in H.
  eexists. split; [exact H|]. unfold udp_account. rewrite Hp, Hc.
  vm_compute. reflexivity.
Qed.

Definition ex_full_counter : iperf_stream :=
  zero_stream <| sp_packet_count := 2 ^ 31 - 1 |>.

Lemma wide_counter_wraps_witness :
  exists buf', udp_put_header LittleEndian true (mk_time 1 2) (- 2 ^ 31) (replicate 16 0)
    = Some buf' /\
  exists sent, udp_get_header LittleEndian true buf' = Some (sent, 2 ^ 64 - 2 ^ 31).
Proof.
  eexists. split; [vm_compute; reflexivity|].
  destruct (wide_counter_wraps LittleEndian (mk_time 1 2) (replicate 16 0) _
    ex_full_counter eq_refl eq_refl
    ltac:(vm_compute; reflexivity)) as (sent & H & _).
  exists sent. exact H.
Defined.
