(* ===== verification/Api.v ===== *)
(** * iperf_api.c: the accessors, and what decides who sends

    The getters and setters of the public interface, most of them one read or
    one assignment; the exceptions are the ones that derive [mode] and
    [sender_has_retransmits] from the role and the direction flags.  A [strdup]
    is taken to succeed. *)

From S2P Require Import Prelude Double IperfTime Test.

(** ** Getters *)

Definition iperf_get_verbose (ipt : iperf_test) := t_verbose ipt.
Definition iperf_get_control_socket (ipt : iperf_test) := t_ctrl_sck ipt.
Definition iperf_get_control_socket_mss (ipt : iperf_test) := t_ctrl_sck_mss ipt.
Definition iperf_get_test_omit (ipt : iperf_test) := t_omit ipt.
Definition iperf_get_test_duration (ipt : iperf_test) := t_duration ipt.
Definition iperf_get_test_rate (ipt : iperf_test) := st_rate (t_settings ipt).
Definition iperf_get_test_bitrate_limit (ipt : iperf_test) :=
  st_bitrate_limit (t_settings ipt).
Definition iperf_get_test_bitrate_limit_interval (ipt : iperf_test) :=
  st_bitrate_limit_interval (t_settings ipt).
Definition iperf_get_test_bitrate_limit_stats_per_interval (ipt : iperf_test) :=
  st_bitrate_limit_stats_per_interval (t_settings ipt).
Definition iperf_get_test_fqrate (ipt : iperf_test) := st_fqrate (t_settings ipt).
Definition iperf_get_test_pacing_timer (ipt : iperf_test) :=
  st_pacing_timer (t_settings ipt).
Definition iperf_get_test_bytes (ipt : iperf_test) := st_bytes (t_settings ipt).
Definition iperf_get_test_blocks (ipt : iperf_test) := st_blocks (t_settings ipt).
Definition iperf_get_test_burst (ipt : iperf_test) := st_burst (t_settings ipt).
Definition iperf_get_test_role (ipt : iperf_test) := t_role ipt.
Definition iperf_get_test_reverse (ipt : iperf_test) := t_reverse ipt.
Definition iperf_get_test_blksize (ipt : iperf_test) := st_blksize (t_settings ipt).
Definition iperf_get_test_socket_bufsize (ipt : iperf_test) :=
  st_socket_bufsize (t_settings ipt).
Definition iperf_get_test_reporter_interval (ipt : iperf_test) :=
  t_reporter_interval ipt.
Definition iperf_get_test_stats_interval (ipt : iperf_test) := t_stats_interval ipt.
Definition iperf_get_test_num_streams (ipt : iperf_test) := t_num_streams ipt.
Definition iperf_get_test_timestamps (ipt : iperf_test) := t_timestamps ipt.
Definition iperf_get_test_timestamp_format (ipt : iperf_test) := t_timestamp_format ipt.
Definition iperf_get_test_repeating_payload (ipt : iperf_test) :=
  t_repeating_payload ipt.
Definition iperf_get_test_server_port (ipt : iperf_test) := t_server_port ipt.
Definition iperf_get_test_server_hostname (ipt : iperf_test) := t_server_hostname ipt.
Definition iperf_get_test_template (ipt : iperf_test) := t_tmp_template ipt.
Definition iperf_get_test_protocol_id (ipt : iperf_test) : option Z :=
  pr_id <$> t_protocol ipt.
Definition iperf_get_test_json_output (ipt : iperf_test) := t_json_output ipt.
Definition iperf_get_test_json_output_string (ipt : iperf_test) :=
  t_json_output_string ipt.
Definition iperf_get_test_zerocopy (ipt : iperf_test) := t_zerocopy ipt.
Definition iperf_get_test_get_server_output (ipt : iperf_test) :=
  t_get_server_output ipt.
Definition iperf_get_test_unit_format (ipt : iperf_test) :=
  st_unit_format (t_settings ipt).
Definition iperf_get_test_bind_address (ipt : iperf_test) := t_bind_address ipt.
Definition iperf_get_test_bind_dev (ipt : iperf_test) := t_bind_dev ipt.
Definition iperf_get_test_udp_counters_64bit (ipt : iperf_test) :=
  t_udp_counters_64bit ipt.
Definition iperf_get_test_one_off (ipt : iperf_test) := t_one_off ipt.
Definition iperf_get_test_tos (ipt : iperf_test) := st_tos (t_settings ipt).
Definition iperf_get_test_extra_data (ipt : iperf_test) := t_extra_data ipt.
Definition iperf_get_test_no_delay (ipt : iperf_test) := t_no_delay ipt.
Definition iperf_get_test_connect_timeout (ipt : iperf_test) :=
  st_connect_timeout (t_settings ipt).
Definition iperf_get_test_idle_timeout (ipt : iperf_test) :=
  st_idle_timeout (t_settings ipt).
Definition iperf_get_dont_fragment (ipt : iperf_test) :=
  st_dont_fragment (t_settings ipt).
Definition iperf_get_test_rcv_timeout (ipt : iperf_test) :=
  st_rcv_timeout (t_settings ipt).
Definition iperf_get_test_congestion_control (ipt : iperf_test) := t_congestion ipt.

(** ** Setters *)

Definition iperf_set_verbose (ipt : iperf_test) (verbose : Z)
    : iperf_test :=
  ipt <| t_verbose := verbose |>.
Definition iperf_set_control_socket (ipt : iperf_test) (ctrl_sck : Z)
    : iperf_test :=
  ipt <| t_ctrl_sck := ctrl_sck |>.
Definition iperf_set_test_omit (ipt : iperf_test) (omit : Z)
    : iperf_test :=
  ipt <| t_omit := omit |>.
Definition iperf_set_test_duration (ipt : iperf_test) (duration : Z)
    : iperf_test :=
  ipt <| t_duration := duration |>.
Definition iperf_set_test_reporter_interval (ipt : iperf_test) (reporter_interval : double)
    : iperf_test :=
  ipt <| t_reporter_interval := reporter_interval |>.
Definition iperf_set_test_stats_interval (ipt : iperf_test) (stats_interval : double)
    : iperf_test :=
  ipt <| t_stats_interval := stats_interval |>.
Definition iperf_set_test_state (ipt : iperf_test) (state : Z)
    : iperf_test :=
  ipt <| t_state := i8 state |>.
Definition iperf_set_test_blksize (ipt : iperf_test) (blksize : Z)
    : iperf_test :=
  ipt <| t_settings ::= fun s => s <| st_blksize := blksize |> |>.
Definition iperf_set_test_logfile (ipt : iperf_test) (logfile : string)
    : iperf_test :=
  ipt <| t_logfile := Some logfile |>.
Definition iperf_set_test_rate (ipt : iperf_test) (rate : Z)
    : iperf_test :=
  ipt <| t_settings ::= fun s => s <| st_rate := rate |> |>.
Definition iperf_set_test_bitrate_limit_maximum (ipt : iperf_test) (total_rate : Z)
    : iperf_test :=
  ipt <| t_settings ::= fun s => s <| st_bitrate_limit := total_rate |> |>.
Definition iperf_set_test_bitrate_limit_interval (ipt : iperf_test) (bitrate_limit_interval : Z)
    : iperf_test :=
  ipt <| t_settings ::= fun s => s <| st_bitrate_limit_interval := d_of_Z bitrate_limit_interval |> |>.
Definition iperf_set_test_bitrate_limit_stats_per_interval (ipt : iperf_test) (bitrate_limit_stats_per_interval : Z)
    : iperf_test :=
  ipt <| t_settings ::= fun s => s <| st_bitrate_limit_stats_per_interval := i32 bitrate_limit_stats_per_interval |> |>.
Definition iperf_set_test_fqrate (ipt : iperf_test) (fqrate : Z)
    : iperf_test :=
  ipt <| t_settings ::= fun s => s <| st_fqrate := fqrate |> |>.
Definition iperf_set_test_pacing_timer (ipt : iperf_test) (pacing_timer : Z)
    : iperf_test :=
  ipt <| t_settings ::= fun s => s <| st_pacing_timer := pacing_timer |> |>.
Definition iperf_set_test_bytes (ipt : iperf_test) (bytes : Z)
    : iperf_test :=
  ipt <| t_settings ::= fun s => s <| st_bytes := bytes |> |>.
Definition iperf_set_test_blocks (ipt : iperf_test) (blocks : Z)
    : iperf_test :=
  ipt <| t_settings ::= fun s => s <| st_blocks := blocks |> |>.
Definition iperf_set_test_burst (ipt : iperf_test) (burst : Z)
    : iperf_test :=
  ipt <| t_settings ::= fun s => s <| st_burst := burst |> |>.
Definition iperf_set_test_server_port (ipt : iperf_test) (srv_port : Z)
    : iperf_test :=
  ipt <| t_server_port := srv_port |>.
Definition iperf_set_test_socket_bufsize (ipt : iperf_test) (socket_bufsize : Z)
    : iperf_test :=
  ipt <| t_settings ::= fun s => s <| st_socket_bufsize := socket_bufsize |> |>.
Definition iperf_set_test_num_streams (ipt : iperf_test) (num_streams : Z)
    : iperf_test :=
  ipt <| t_num_streams := num_streams |>.
Definition iperf_set_test_repeating_payload (ipt : iperf_test) (repeating_payload : Z)
    : iperf_test :=
  ipt <| t_repeating_payload := repeating_payload |>.
Definition iperf_set_test_timestamps (ipt : iperf_test) (timestamps : Z)
    : iperf_test :=
  ipt <| t_timestamps := timestamps |>.
Definition iperf_set_test_timestamp_format (ipt : iperf_test) (tf : string)
    : iperf_test :=
  ipt <| t_timestamp_format := Some tf |>.
Definition iperf_set_test_server_hostname (ipt : iperf_test) (server_hostname : string)
    : iperf_test :=
  ipt <| t_server_hostname := Some server_hostname |>.
Definition iperf_set_test_template (ipt : iperf_test) (tmp_template : string)
    : iperf_test :=
  ipt <| t_tmp_template := Some tmp_template |>.
Definition iperf_set_test_json_output (ipt : iperf_test) (json_output : Z)
    : iperf_test :=
  ipt <| t_json_output := json_output |>.
Definition iperf_set_test_get_server_output (ipt : iperf_test) (get_server_output : Z)
    : iperf_test :=
  ipt <| t_get_server_output := get_server_output |>.
Definition iperf_set_test_unit_format (ipt : iperf_test) (unit_format : ascii)
    : iperf_test :=
  ipt <| t_settings ::= fun s => s <| st_unit_format := unit_format |> |>.
Definition iperf_set_test_client_username (ipt : iperf_test) (client_username : string)
    : iperf_test :=
  ipt <| t_settings ::= fun s => s <| st_client_username := Some client_username |> |>.
Definition iperf_set_test_client_password (ipt : iperf_test) (client_password : string)
    : iperf_test :=
  ipt <| t_settings ::= fun s => s <| st_client_password := Some client_password |> |>.
Definition iperf_set_test_client_rsa_pubkey (load_pubkey_from_base64 : string -> option string) (ipt : iperf_test) (client_rsa_pubkey_base64 : string)
    : iperf_test :=
  ipt <| t_settings ::= fun s => s <| st_client_rsa_pubkey := load_pubkey_from_base64 client_rsa_pubkey_base64 |> |>.
Definition iperf_set_test_server_authorized_users (ipt : iperf_test) (server_authorized_users : string)
    : iperf_test :=
  ipt <| t_server_authorized_users := Some server_authorized_users |>.
Definition iperf_set_test_server_skew_threshold (ipt : iperf_test) (server_skew_threshold : Z)
    : iperf_test :=
  ipt <| t_server_skew_threshold := server_skew_threshold |>.
Definition iperf_set_test_server_rsa_privkey (load_privkey_from_base64 : string -> option string) (ipt : iperf_test) (server_rsa_privkey_base64 : string)
    : iperf_test :=
  ipt <| t_server_rsa_private_key := load_privkey_from_base64 server_rsa_privkey_base64 |>.
Definition iperf_set_test_bind_address (ipt : iperf_test) (bnd_address : string)
    : iperf_test :=
  ipt <| t_bind_address := Some bnd_address |>.
Definition iperf_set_test_bind_dev (ipt : iperf_test) (bnd_dev : string)
    : iperf_test :=
  ipt <| t_bind_dev := Some bnd_dev |>.
Definition iperf_set_test_udp_counters_64bit (ipt : iperf_test) (udp_counters_64bit : Z)
    : iperf_test :=
  ipt <| t_udp_counters_64bit := udp_counters_64bit |>.
Definition iperf_set_test_one_off (ipt : iperf_test) (one_off : Z)
    : iperf_test :=
  ipt <| t_one_off := one_off |>.
Definition iperf_set_test_tos (ipt : iperf_test) (tos : Z)
    : iperf_test :=
  ipt <| t_settings ::= fun s => s <| st_tos := tos |> |>.
Definition iperf_set_test_extra_data (ipt : iperf_test) (dat : string)
    : iperf_test :=
  ipt <| t_extra_data := Some dat |>.
Definition iperf_set_test_no_delay (ipt : iperf_test) (no_delay : Z)
    : iperf_test :=
  ipt <| t_no_delay := no_delay |>.
Definition iperf_set_test_connect_timeout (ipt : iperf_test) (ct : Z)
    : iperf_test :=
  ipt <| t_settings ::= fun s => s <| st_connect_timeout := ct |> |>.
Definition iperf_set_test_idle_timeout (ipt : iperf_test) (to : Z)
    : iperf_test :=
  ipt <| t_settings ::= fun s => s <| st_idle_timeout := to |> |>.
Definition iperf_set_dont_fragment (ipt : iperf_test) (dnf : Z)
    : iperf_test :=
  ipt <| t_settings ::= fun s => s <| st_dont_fragment := dnf |> |>.
Definition iperf_set_test_congestion_control (ipt : iperf_test) (cc : string)
    : iperf_test :=
  ipt <| t_congestion := Some cc |>.

(** tcp_info.c and iperf_util.c answer these two at compile time, on Linux. *)
Definition has_tcpinfo : bool := true.
Definition has_tcpinfo_retransmits : bool := true.
Definition has_sendfile : bool := true.

Definition iperf_has_zerocopy : bool := has_sendfile.

Definition iperf_set_test_zerocopy (ipt : iperf_test) (zerocopy : Z) : iperf_test :=
  ipt <| t_zerocopy := if negb (zerocopy =? 0) && has_sendfile then 1 else 0 |>.

Definition iperf_set_test_rcv_timeout (ipt : iperf_test) (to : iperf_time) : iperf_test :=
  ipt <| t_settings ::= fun s => s <| st_rcv_timeout := mk_time (secs to) (usecs to) |> |>.

(** ** Role, direction and mode *)

(** [None] is the null dereference of [ipt->protocol]. *)
Definition check_sender_has_retransmits (ipt : iperf_test) : option iperf_test :=
  if decide (t_mode ipt = RECEIVER) then Some (ipt <| t_sender_has_retransmits := 0 |>)
  else
    p ← t_protocol ipt;
    Some (ipt <| t_sender_has_retransmits :=
            if (pr_id p =? Ptcp) && has_tcpinfo_retransmits then 1 else 0 |>).

#[local] Open Scope char_scope.

Definition iperf_set_test_role (ipt : iperf_test) (role : ascii) : option iperf_test :=
  let ipt := ipt <| t_role := role |> in
  let ipt :=
    if (t_reverse ipt =? 0)%Z then
      if negb (t_bidirectional ipt =? 0)%Z then ipt <| t_mode := BIDIRECTIONAL |>
      else if decide (role = "c") then ipt <| t_mode := SENDER |>
      else if decide (role = "s") then ipt <| t_mode := RECEIVER |>
      else ipt
    else
      if decide (role = "c") then ipt <| t_mode := RECEIVER |>
      else if decide (role = "s") then ipt <| t_mode := SENDER |>
      else ipt in
  check_sender_has_retransmits ipt.

Definition iperf_set_test_reverse (ipt : iperf_test) (reverse : Z) : option iperf_test :=
  let ipt := ipt <| t_reverse := reverse |> in
  let ipt :=
    if (t_reverse ipt =? 0)%Z then
      if decide (t_role ipt = "c") then ipt <| t_mode := SENDER |>
      else if decide (t_role ipt = "s") then ipt <| t_mode := RECEIVER |>
      else ipt
    else
      if decide (t_role ipt = "c") then ipt <| t_mode := RECEIVER |>
      else if decide (t_role ipt = "s") then ipt <| t_mode := SENDER |>
      else ipt in
  check_sender_has_retransmits ipt.

Definition iperf_set_test_bidirectional (ipt : iperf_test) (bidirectional : Z)
    : option iperf_test :=
  let ipt := ipt <| t_bidirectional := bidirectional |> in
  if negb (bidirectional =? 0)%Z then Some (ipt <| t_mode := BIDIRECTIONAL |>)
  else iperf_set_test_reverse ipt (t_reverse ipt).

#[local] Close Scope char_scope.

(** ** Protocols *)

Definition get_protocol (test : iperf_test) (prot_id : Z) : option protocol :=
  head (filter (fun prot => pr_id prot = prot_id) (t_protocols test)).

Definition set_protocol (test : iperf_test) (prot_id : Z) : option (Z * iperf_test) :=
  match get_protocol test prot_id with
  | Some prot =>
      test ← check_sender_has_retransmits (test <| t_protocol := Some prot |>);
      Some (0, test)
  | None => Some (-1, test <| t_i_errno := IEPROTOCOL |>)
  end.
