(* ===== verification/Stats.v ===== *)
(** * iperf_api.c: gathering statistics

    The statistics of a running test: what happens at the end of each interval
    ([iperf_stats_callback]), at the end of the omitted period
    ([iperf_reset_stats]), and the server's limit on the total rate
    ([iperf_check_total_rate]). The TCP snapshots come from tcp_info.c. *)

From S2P Require Import Prelude Double Posix IperfTime Test Api.

(** ** tcp_info.c *)

(** [getsockopt(TCP_INFO)]; [None] when it fails. *)
Class TcpInfo (W : Type) := sys_tcp_info : Z -> W -> option tcp_info * W.

Section TcpInfo.
Context {W : Type} {tcpinfo : TcpInfo W}.

Definition save_tcpinfo (sp : iperf_stream) (irp : iperf_interval_results) (w : W)
    : iperf_interval_results * W :=
  match sys_tcp_info (sp_socket sp) w with
  | (Some ti, w) => (irp <| ir_tcpInfo := ti |>, w)
  | (None, w) => (irp, w)
  end.
End TcpInfo.

(** The getters answer a [long]; the product of two 32-bit members wraps. *)
Definition get_total_retransmits (irp : iperf_interval_results) : Z :=
  tcpi_total_retrans (ir_tcpInfo irp).
Definition get_snd_cwnd (irp : iperf_interval_results) : Z :=
  u32 (tcpi_snd_cwnd (ir_tcpInfo irp) * tcpi_snd_mss (ir_tcpInfo irp)).
Definition get_snd_wnd (irp : iperf_interval_results) : Z := tcpi_snd_wnd (ir_tcpInfo irp).
Definition get_rtt (irp : iperf_interval_results) : Z := tcpi_rtt (ir_tcpInfo irp).
Definition get_rttvar (irp : iperf_interval_results) : Z := tcpi_rttvar (ir_tcpInfo irp).
Definition get_pmtu (irp : iperf_interval_results) : Z := tcpi_pmtu (ir_tcpInfo irp).

(** ** The server's limit on the total rate *)

(** The loop that adds up the first [n] entries; [None] reads past the array. *)
Fixpoint sum_intervals (n : nat) (traffic : list Z) (total_bytes : Z) : option Z :=
  match n, traffic with
  | O, _ => Some total_bytes
  | S _, [] => None
  | S n, b :: traffic => sum_intervals n traffic (u64 (total_bytes + b))
  end.

(** [None] is an access outside the array, or a rate that does not fit. *)
Definition iperf_check_total_rate (test : iperf_test) (last_interval_bytes_transferred : Z)
    : option iperf_test :=
  let per := st_bitrate_limit_stats_per_interval (t_settings test) in
  if negb (t_done test =? 0) || (st_bitrate_limit (t_settings test) =? 0) then Some test
  else
    let i := u64 (t_bitrate_limit_last_interval_index test + 1) in
    let i := if u64 per <=? i then 0 else i in
    let test := test <| t_bitrate_limit_last_interval_index := i |> in
    if Z.of_nat (length (t_bitrate_limit_intervals_traffic_bytes test)) <=? i then None
    else
      let test := test <| t_bitrate_limit_intervals_traffic_bytes ::=
        <[Z.to_nat i := last_interval_bytes_transferred]> |> in
      let test := test <| t_bitrate_limit_stats_count ::= fun c => u64 (c + 1) |> in
      if t_bitrate_limit_stats_count test <? u64 per then Some test
      else
        total_bytes ← sum_intervals (Z.to_nat per)
                        (t_bitrate_limit_intervals_traffic_bytes test) 0;
        let seconds := d_mul (t_stats_interval test) (d_of_Z per) in
        bits_per_second ← d_to_u64 (d_div (d_of_Z (u64 (total_bytes * 8))) seconds);
        if st_bitrate_limit (t_settings test) <? bits_per_second
        then Some (test <| t_bitrate_limit_exceeded := 1 |>)
        else Some test.

Section Stats.
Context {W : Type} {clock : Clock W} {tcpinfo : TcpInfo W}.

(** [iperf_time_now(&x)] for a variable that holds [x]. *)
Definition time_now (x : iperf_time) (w : W) : iperf_time * W :=
  let '(c, w) := sys_clock w in ((iperf_time_now c x).2, w).

(** The part of [iperf_stats_callback] for TCP. *)
Definition stats_tcp (test : iperf_test) (sp : iperf_stream) (rp : iperf_stream_result)
    (temp : iperf_interval_results) (w : W)
    : iperf_stream_result * iperf_interval_results * W :=
  if has_tcpinfo then
    let '(temp, w) := save_tcpinfo sp temp w in
    if t_sender_has_retransmits test =? 1 then
      let total_retrans := get_total_retransmits temp in
      let temp := temp <| ir_interval_retrans :=
                    i32 (total_retrans - rs_stream_prev_total_retrans rp) |> in
      let rp := rp <| rs_stream_retrans ::= fun n => i32 (n + ir_interval_retrans temp) |>
                   <| rs_stream_prev_total_retrans := i32 total_retrans |> in
      let temp := temp <| ir_snd_cwnd := i32 (get_snd_cwnd temp) |> in
      let rp := if rs_stream_max_snd_cwnd rp <? ir_snd_cwnd temp
                then rp <| rs_stream_max_snd_cwnd := ir_snd_cwnd temp |> else rp in
      let temp := temp <| ir_snd_wnd := i32 (get_snd_wnd temp) |> in
      let rp := if rs_stream_max_snd_wnd rp <? ir_snd_wnd temp
                then rp <| rs_stream_max_snd_wnd := ir_snd_wnd temp |> else rp in
      let temp := temp <| ir_rtt := i32 (get_rtt temp) |> in
      let rp := if rs_stream_max_rtt rp <? ir_rtt temp
                then rp <| rs_stream_max_rtt := ir_rtt temp |> else rp in
      let rp := if (rs_stream_min_rtt rp =? 0) || (ir_rtt temp <? rs_stream_min_rtt rp)
                then rp <| rs_stream_min_rtt := ir_rtt temp |> else rp in
      let rp := rp <| rs_stream_sum_rtt ::= fun n => i32 (n + ir_rtt temp) |>
                   <| rs_stream_count_rtt ::= fun n => i32 (n + 1) |> in
      let temp := temp <| ir_rttvar := i32 (get_rttvar temp) |>
                       <| ir_pmtu := i32 (get_pmtu temp) |> in
      (rp, temp, w)
    else (rp, temp, w)
  else (rp, temp, w).

(** The part for the other protocols; [irp] is the previous interval. *)
Definition stats_datagram (sp : iperf_stream) (irp : option iperf_interval_results)
    (temp : iperf_interval_results) : iperf_interval_results :=
  let temp := match irp with
    | None => temp
        <| ir_interval_packet_count := sp_packet_count sp |>
        <| ir_interval_outoforder_packets := sp_outoforder_packets sp |>
        <| ir_interval_cnt_error := sp_cnt_error sp |>
    | Some irp => temp
        <| ir_interval_packet_count := i32 (sp_packet_count sp - ir_packet_count irp) |>
        <| ir_interval_outoforder_packets :=
             i32 (sp_outoforder_packets sp - ir_outoforder_packets irp) |>
        <| ir_interval_cnt_error := i32 (sp_cnt_error sp - ir_cnt_error irp) |>
    end in
  temp <| ir_packet_count := sp_packet_count sp |>
       <| ir_jitter := sp_jitter sp |>
       <| ir_outoforder_packets := sp_outoforder_packets sp |>
       <| ir_cnt_error := sp_cnt_error sp |>.

Definition add_to_interval_list (rp : iperf_stream_result) (new : iperf_interval_results)
    : iperf_stream_result :=
  rp <| rs_interval_results ::= fun l => l ++ [new] |>.

(** The body of the loop over the streams, for the protocol [prot]; [temp] is
    the local the C code reuses for every stream. *)
Definition stats_stream (test : iperf_test) (prot : Z) (sp : iperf_stream)
    (temp : iperf_interval_results) (w : W)
    : iperf_stream * iperf_interval_results * W :=
  let rp := sp_result sp in
  let temp := temp <| ir_bytes_transferred :=
    if negb (sp_sender sp =? 0) then rs_bytes_sent_this_interval rp
    else rs_bytes_received_this_interval rp |> in
  let irp := last (rs_interval_results rp) in
  let temp := temp <| ir_interval_start_time :=
    match irp with Some _ => rs_end_time rp | None => rs_start_time rp end |> in
  let '(now, w) := time_now (rs_end_time rp) w in
  let rp := rp <| rs_end_time := now |> in
  let temp := temp <| ir_interval_end_time := rs_end_time rp |> in
  let '(_, temp_time) :=
    iperf_time_diff (ir_interval_start_time temp) (ir_interval_end_time temp) in
  let temp := temp <| ir_interval_duration := d_to_float (iperf_time_in_secs temp_time) |> in
  let '(rp, temp, w) :=
    if prot =? Ptcp then stats_tcp test sp rp temp w
    else (rp, stats_datagram sp irp temp, w) in
  let rp := add_to_interval_list rp temp in
  let rp := rp <| rs_bytes_received_this_interval := 0 |>
               <| rs_bytes_sent_this_interval := 0 |> in
  (sp <| sp_result := rp |>, temp, w).

(** The loop; [total] is the traffic of all the streams in this interval. *)
Fixpoint stats_streams (test : iperf_test) (prot : Z) (sps : list iperf_stream)
    (temp : iperf_interval_results) (total : Z) (w : W) : list iperf_stream * Z * W :=
  match sps with
  | [] => ([], total, w)
  | sp :: sps =>
      let rp := sp_result sp in
      let total := u64 (total + u64 (rs_bytes_sent_this_interval rp
                                     + rs_bytes_received_this_interval rp)) in
      let '(sp, temp, w) := stats_stream test prot sp temp w in
      let '(sps, total, w) := stats_streams test prot sps temp total w in
      (sp :: sps, total, w)
  end.

(** [temp0] is what the uninitialised local holds. *)
Definition iperf_stats_callback (temp0 : iperf_interval_results) (test : iperf_test) (w : W)
    : option (iperf_test * W) :=
  let temp := temp0 <| ir_omitted := t_omitting test |> in
  prot ← iperf_get_test_protocol_id test;
  let '(sps, total, w) := stats_streams test prot (t_streams test) temp 0 w in
  let test := test <| t_streams := sps |> in
  if decide (t_role test = "s"%char)
  then test ← iperf_check_total_rate test total; Some (test, w)
  else Some (test, w).

(** ** The end of the omitted period *)

Definition reset_stream (test : iperf_test) (now : iperf_time)
    (ir : iperf_interval_results) (sp : iperf_stream) (w : W) : iperf_stream * W :=
  let sp := sp <| sp_omitted_packet_count := sp_packet_count sp |>
               <| sp_omitted_cnt_error := sp_cnt_error sp |>
               <| sp_omitted_outoforder_packets := sp_outoforder_packets sp |>
               <| sp_jitter := d_zero |> in
  let rp := sp_result sp in
  let rp := rp <| rs_bytes_sent_omit := rs_bytes_sent rp |>
               <| rs_bytes_received := 0 |>
               <| rs_bytes_received_this_interval := 0 |>
               <| rs_bytes_sent_this_interval := 0 |> in
  let '(rp, w) :=
    if t_sender_has_retransmits test =? 1 then
      let '(ir, w) := save_tcpinfo sp ir w in
      (rp <| rs_stream_prev_total_retrans := i32 (get_total_retransmits ir) |>, w)
    else (rp, w) in
  (sp <| sp_result := rp <| rs_stream_retrans := 0 |> <| rs_start_time := now |> |>, w).

Fixpoint reset_streams (test : iperf_test) (now : iperf_time)
    (ir : iperf_interval_results) (sps : list iperf_stream) (w : W)
    : list iperf_stream * W :=
  match sps with
  | [] => ([], w)
  | sp :: sps =>
      let '(sp, w) := reset_stream test now ir sp w in
      let '(sps, w) := reset_streams test now ir sps w in (sp :: sps, w)
  end.

Definition iperf_reset_stats (ir0 : iperf_interval_results) (now0 : iperf_time)
    (test : iperf_test) (w : W) : iperf_test * W :=
  let test := test <| t_bytes_sent := 0 |> <| t_blocks_sent := 0 |> in
  let '(now, w) := time_now now0 w in
  let '(sps, w) := reset_streams test now ir0 (t_streams test) w in
  (test <| t_streams := sps |>, w).
End Stats.
