(* ===== verification/StatsProps.v ===== *)
(** * Statistics: properties

    The server's rate limit is a moving average over a ring buffer; the
    intervals of a stream add up to its totals. *)

From S2P Require Import Prelude Double Posix IperfTime Test Api Stats.

#[local] Set Default Proof Using "Type".

(** ** The ring buffer of [iperf_check_total_rate] *)

(** The sum the machine computes. *)
Definition usum (bs : list Z) : Z := foldl (fun t b => u64 (t + b)) 0 bs.

Definition zsum (bs : list Z) : Z := foldr Z.add 0 bs.

Lemma usum_zsum bs t : foldl (fun t b => u64 (t + b)) (u64 t) bs = u64 (t + zsum bs).
Proof.
  revert t. induction bs as [|b bs IH]; intros t; cbn [foldl zsum foldr].
  - by rewrite Z.add_0_r.
  - rewrite uint_add_l, IH. fold (zsum bs). f_equal. lia.
Qed.

Lemma zsum_app xs ys : zsum (xs ++ ys) = zsum xs + zsum ys.
Proof. unfold zsum. induction xs; cbn [app foldr]; lia. Qed.

Lemma sum_intervals_take n traffic t :
  (n <= length traffic)%nat ->
  sum_intervals n traffic t = Some (foldl (fun t b => u64 (t + b)) t (take n traffic)).
Proof.
  revert traffic t. induction n as [|n IH]; intros [|b l] t H; cbn in *; try done; try lia.
  apply IH. lia.
Qed.

(** The last [n] entries of a history that was all zeros before it began. *)
Definition window (n : nat) (bs : list Z) : list Z :=
  drop (length bs) (replicate n 0 ++ bs).

Lemma window_length n bs : length (window n bs) = n.
Proof. unfold window. rewrite length_drop, length_app, length_replicate. lia. Qed.

Lemma window_snoc n bs b :
  (0 < n)%nat -> window n (bs ++ [b]) = drop 1 (window n bs) ++ [b].
Proof.
  intros Hn. unfold window. rewrite length_app, app_assoc, drop_drop.
  cbn [length]. rewrite drop_app_le; [done|].
  rewrite length_app, length_replicate. lia.
Qed.

Lemma window_full n bs :
  (n <= length bs)%nat -> window n bs = drop (length bs - n) bs.
Proof.
  intros Hn. unfold window. rewrite drop_app_ge by (rewrite length_replicate; lia).
  by rewrite length_replicate.
Qed.

(** The ring holds the window, rotated to the current index. *)
Definition ring (n i : nat) (arr : list Z) : list Z :=
  drop (S i) (take n arr) ++ take (S i) (take n arr).

Lemma ring_sum n i arr : zsum (ring n i arr) = zsum (take n arr).
Proof. unfold ring. rewrite zsum_app, Z.add_comm, <- zsum_app. by rewrite take_drop. Qed.

Definition next_index (n i : nat) : nat := if decide (S i < n)%nat then S i else 0%nat.

Lemma ring_insert n i arr b :
  (i < n)%nat -> (n <= length arr)%nat ->
  ring n (next_index n i) (<[next_index n i := b]> arr) = drop 1 (ring n i arr) ++ [b].
Proof.
  intros Hi Hn.
  assert (next_index n i < n)%nat as Hlt by (unfold next_index; case_decide; lia).
  unfold ring. rewrite take_insert_lt by done.
  assert (length (take n arr) = n) as HA by (rewrite length_take; lia).
  revert HA. generalize (take n arr). intros A HA.
  rewrite drop_insert_lt by lia.
  erewrite take_S_r by (apply list_lookup_insert_eq; lia).
  rewrite take_insert_ge, app_assoc by lia. f_equal.
  unfold next_index in *. destruct (decide (S i < n)%nat) as [Hs|Hs].
  - destruct (lookup_lt_is_Some_2 A (S i)) as [x Hx]; [lia|].
    by rewrite (drop_S A x (S i) Hx).
  - rewrite (drop_ge A (S i)), (take_ge A (S i)), app_nil_r by lia. done.
Qed.

(** ** The rate limit *)

(** A test whose limit is active, with a window of [n] intervals, after the
    traffic [bs] of as many intervals. *)
Definition limited (n : nat) (bs : list Z) (test : iperf_test) : Prop :=
  t_done test = 0 /\ st_bitrate_limit (t_settings test) <> 0 /\
  st_bitrate_limit_stats_per_interval (t_settings test) = Z.of_nat n /\
  (0 < n)%nat /\ Z.of_nat n < 2 ^ 31 /\
  (n <= length (t_bitrate_limit_intervals_traffic_bytes test))%nat /\
  t_bitrate_limit_stats_count test = Z.of_nat (length bs) /\
  exists i, (i < n)%nat /\ t_bitrate_limit_last_interval_index test = Z.of_nat i /\
    ring n i (t_bitrate_limit_intervals_traffic_bytes test) = window n bs.

(** The average over the last [n] intervals, as the code computes it. *)
Definition window_rate (n : nat) (bs : list Z) (test : iperf_test) : option Z :=
  d_to_u64 (d_div (d_of_Z (u64 (u64 (zsum (drop (length bs - n) bs)) * 8)))
                  (d_mul (t_stats_interval test) (d_of_Z (Z.of_nat n)))).

Lemma limited_step n bs b test test' :
  limited n bs test -> Z.of_nat (length bs) + 1 < 2 ^ 64 ->
  iperf_check_total_rate test b = Some test' -> limited n (bs ++ [b]) test'.
Proof.
  intros (Hd & Hl & Hp & Hn & Hn' & Ha & Hc & i & Hi & Hidx & Hring) Hlen.
  unfold iperf_check_total_rate. rewrite Hd, Hp, Hidx, Z.eqb_refl.
  destruct (Z.eqb_spec (st_bitrate_limit (t_settings test)) 0); [done|].
  cbn [orb negb]. cint_fold.
  assert ((if Z.of_nat n <=? Z.of_nat i + 1 then 0 else Z.of_nat i + 1)
          = Z.of_nat (next_index n i)) as ->.
  { unfold next_index. destruct (Z.leb_spec (Z.of_nat n) (Z.of_nat i + 1));
      case_decide; lia. }
  assert (next_index n i < n)%nat as Hnext by (unfold next_index; case_decide; lia).
  rsimpl. destruct (Z.leb_spec
    (Z.of_nat (length (t_bitrate_limit_intervals_traffic_bytes test)))
    (Z.of_nat (next_index n i))); [lia|].
  rewrite Nat2Z.id, Hc. cint_fold.
  assert (forall test', t_done test' = t_done test ->
    t_settings test' = t_settings test ->
    t_bitrate_limit_intervals_traffic_bytes test' =
      <[next_index n i := b]> (t_bitrate_limit_intervals_traffic_bytes test) ->
    t_bitrate_limit_stats_count test' = Z.of_nat (length bs) + 1 ->
    t_bitrate_limit_last_interval_index test' = Z.of_nat (next_index n i) ->
    limited n (bs ++ [b]) test') as Hgoal.
  { intros t' E1 E2 E3 E4 E5. unfold limited. rewrite E1, E2, E3, E4, E5, length_insert.
    do 6 (split; [done|]). rewrite length_app. split; [cbn; lia|].
    exists (next_index n i). split; [done|]. split; [done|].
    by rewrite ring_insert, Hring, window_snoc by lia. }
  destruct (Z.ltb_spec (Z.of_nat (length bs) + 1) (Z.of_nat n)).
  - intros [= <-]. apply Hgoal; try done. rsimpl. rewrite Hc. by cint_fold.
  - intros H'. apply bind_Some in H' as (total & _ & H').
    apply bind_Some in H' as (rate & _ & H'). revert H'.
    case_bool; intros [= <-]; apply Hgoal; try done; rsimpl; rewrite Hc; by cint_fold.
Qed.

Lemma check_total_rate_settings test b test' :
  iperf_check_total_rate test b = Some test' ->
  t_settings test' = t_settings test /\ t_stats_interval test' = t_stats_interval test.
Proof.
  unfold iperf_check_total_rate. cbv zeta.
  destruct (_ || _); [by intros [= <-]|]. rsimpl.
  set (i := if u64 _ <=? _ then _ else _).
  destruct (_ <=? i); [done|]. destruct (_ <? _); [by intros [= <-]|].
  intros H'. apply bind_Some in H' as (total & _ & H').
  apply bind_Some in H' as (rate & _ & H'). revert H'.
  destruct (_ <? rate); by intros [= <-].
Qed.

(** The intervals of a test, one after the other. *)
Fixpoint feed (bs : list Z) (test : iperf_test) : option iperf_test :=
  match bs with
  | [] => Some test
  | b :: bs => test ← iperf_check_total_rate test b; feed bs test
  end.

Lemma feed_limited n seen bs test test' :
  limited n seen test -> Z.of_nat (length (seen ++ bs)) < 2 ^ 64 ->
  feed bs test = Some test' ->
  limited n (seen ++ bs) test' /\ t_settings test' = t_settings test /\
  t_stats_interval test' = t_stats_interval test.
Proof.
  revert seen test. induction bs as [|b bs IH]; intros seen test HL Hlen; cbn [feed].
  - intros [= <-]. by rewrite app_nil_r.
  - intros H. apply bind_Some in H as (test1 & E & H).
    rewrite length_app in Hlen. cbn [length] in Hlen.
    destruct (check_total_rate_settings _ _ _ E) as [<- <-].
    rewrite cons_middle, app_assoc. apply IH; [|rewrite !length_app; cbn [length]; lia|done].
    apply (limited_step n seen b test test1); [done|lia|done].
Qed.

(** When the window is full, the sum is the sum of the last [n] intervals. *)
Lemma limited_sum n bs test :
  limited n bs test -> (n <= length bs)%nat ->
  sum_intervals n (t_bitrate_limit_intervals_traffic_bytes test) 0 =
    Some (u64 (zsum (drop (length bs - n) bs))).
Proof.
  intros (_ & _ & _ & _ & _ & Ha & _ & i & _ & _ & Hring) Hn.
  rewrite sum_intervals_take by done. change 0 with (u64 0) at 1.
  rewrite usum_zsum, Z.add_0_l, <- (ring_sum n i), Hring.
  by rewrite window_full by done.
Qed.

(** A test that has just been set up, or reset, with a limit over [n] intervals
    and room for [k] of them. *)
Definition limit_ready (n k : nat) (test : iperf_test) : Prop :=
  t_done test = 0 /\ st_bitrate_limit (t_settings test) <> 0 /\
  st_bitrate_limit_stats_per_interval (t_settings test) = Z.of_nat n /\
  (0 < n)%nat /\ Z.of_nat n < 2 ^ 31 /\
  t_bitrate_limit_stats_count test = 0 /\ t_bitrate_limit_last_interval_index test = 0 /\
  t_bitrate_limit_intervals_traffic_bytes test = replicate k 0.

Lemma limit_ready_limited n k test :
  limit_ready n k test -> (n <= k)%nat -> limited n [] test.
Proof.
  intros (Hd & Hl & Hp & Hn & Hn' & Hc & Hi & Ha) Hk.
  unfold limited. rewrite Ha, length_replicate.
  do 7 (split; [done|]). exists 0%nat. split; [done|]. split; [done|].
  unfold ring, window. rewrite take_replicate, Nat.min_l by done.
  cbn [length]. rewrite drop_0, app_nil_r. destruct n as [|n]; [lia|].
  cbn [replicate drop take]. symmetry. apply replicate_cons_app.
Qed.

(** The server's rate limit is a moving average. After the intervals [bs],
    one more interval with [b] bytes is let through while fewer than [n]
    intervals have passed; from then on the test is marked as exceeding the
    limit exactly when the average over the last [n] intervals, [b] included,
    is above it, and the mark is never taken back. *)
Theorem rate_limit_is_moving_average n k test bs test1 b test2 :
  limit_ready n k test -> (n <= k)%nat -> Z.of_nat (length bs) + 1 < 2 ^ 64 ->
  feed bs test = Some test1 -> iperf_check_total_rate test1 b = Some test2 ->
  if decide (length bs + 1 < n)%nat
  then t_bitrate_limit_exceeded test2 = t_bitrate_limit_exceeded test1
  else exists rate, window_rate n (bs ++ [b]) test = Some rate /\
    t_bitrate_limit_exceeded test2 =
      if st_bitrate_limit (t_settings test) <? rate then 1
      else t_bitrate_limit_exceeded test1.
Proof.
  intros Hready Hk Hlen Hfeed Hcheck.
  destruct (feed_limited n [] bs test test1 (limit_ready_limited n k test Hready Hk))
    as (HL & Hset & Hint); [cbn [app]; lia|done|]. cbn [app] in HL.
  pose proof (limited_step n bs b test1 test2 HL Hlen Hcheck) as HL2.
  destruct (check_total_rate_settings _ _ _ Hcheck) as [Hset2 Hint2].
  destruct HL as (Hd & Hl & Hp & Hn & Hn' & _ & Hc & _).
  revert Hcheck. unfold iperf_check_total_rate. rewrite Hd, Hp, Z.eqb_refl.
  destruct (Z.eqb_spec (st_bitrate_limit (t_settings test1)) 0); [done|].
  cbn [orb negb]. rsimpl.
  set (i := if u64 _ <=? _ then _ else _).
  destruct (_ <=? i); [done|]. rewrite Hc. cint_fold.
  destruct (Z.ltb_spec (Z.of_nat (length bs) + 1) (Z.of_nat n)); case_decide; try lia.
  - by intros [= <-].
  - intros Hbind. apply bind_Some in Hbind as (total & Hsum & Hbind).
    apply bind_Some in Hbind as (rate & Hrate & Hbind).
    rewrite Nat2Z.id in Hsum.
    assert (t_bitrate_limit_intervals_traffic_bytes test2 =
      <[Z.to_nat i := b]> (t_bitrate_limit_intervals_traffic_bytes test1)) as Harr.
    { revert Hbind. by destruct (_ <? rate); intros [= <-]. }
    rewrite <- Harr, (limited_sum n (bs ++ [b])) in Hsum;
      [|done|rewrite length_app; cbn [length]; lia].
    injection Hsum as <-.
    exists rate. split; [unfold window_rate; by rewrite <- Hint|].
    rewrite <- Hset. revert Hbind. destruct (_ <? rate); by intros [= <-].
Qed.

Definition ex_limit_test (per : Z) : iperf_test :=
  zero_test <| t_stats_interval := d_of_Z 1 |>
    <| t_bitrate_limit_intervals_traffic_bytes := replicate 60 0 |>
    <| t_settings := zero_settings <| st_bitrate_limit := 8000 |>
         <| st_bitrate_limit_stats_per_interval := per |> |>.

Definition ex_limit_after (bs : list Z) : iperf_test :=
  default zero_test (feed bs (ex_limit_test 2)).

(** A limit of 8000 bit/s over 2 seconds: 900 and then 1200 bytes exceed it. *)
Lemma rate_limit_is_moving_average_witness :
  feed [100; 900] (ex_limit_test 2) = Some (ex_limit_after [100; 900]) /\
  t_bitrate_limit_exceeded (ex_limit_after [100; 900]) = 0 /\
  t_bitrate_limit_exceeded (ex_limit_after [100; 900; 1200]) = 1.
Proof.
  split; [vm_compute; reflexivity|]. split; [vm_compute; reflexivity|].
  destruct (rate_limit_is_moving_average 2 60 (ex_limit_test 2) [100; 900]
    (ex_limit_after [100; 900]) 1200 (ex_limit_after [100; 900; 1200]))
    as (rate & Hr & He).
  - repeat split; try done; cbn; lia.
  - lia.
  - cbn. lia.
  - vm_compute. reflexivity.
  - vm_compute. reflexivity.
  - vm_compute in Hr. injection Hr as <-. exact He.
Defined.

Lemma check_before_window n k i test b :
  t_done test = 0 -> st_bitrate_limit (t_settings test) <> 0 ->
  st_bitrate_limit_stats_per_interval (t_settings test) = Z.of_nat n ->
  Z.of_nat n < 2 ^ 31 -> (S i < n)%nat ->
  length (t_bitrate_limit_intervals_traffic_bytes test) = k ->
  t_bitrate_limit_stats_count test = Z.of_nat i ->
  t_bitrate_limit_last_interval_index test = Z.of_nat i ->
  if decide (S i < k)%nat
  then exists test', iperf_check_total_rate test b = Some test' /\
    t_done test' = 0 /\ t_settings test' = t_settings test /\
    length (t_bitrate_limit_intervals_traffic_bytes test') = k /\
    t_bitrate_limit_stats_count test' = Z.of_nat (S i) /\
    t_bitrate_limit_last_interval_index test' = Z.of_nat (S i)
  else iperf_check_total_rate test b = None.
Proof.
  intros Hd Hl Hp Hn' Hi Ha Hc Hidx. unfold iperf_check_total_rate. cbv zeta.
  rewrite Hd, Hp, Hidx, Z.eqb_refl.
  destruct (Z.eqb_spec (st_bitrate_limit (t_settings test)) 0); [done|].
  cbn [orb negb]. cint_fold. destruct (Z.leb_spec (Z.of_nat n) (Z.of_nat i + 1)); [lia|].
  rsimpl. rewrite Ha. case_decide.
  - destruct (Z.leb_spec (Z.of_nat k) (Z.of_nat i + 1)); [lia|].
    rewrite Hc. cint_fold. destruct (Z.ltb_spec (Z.of_nat i + 1) (Z.of_nat n)); [|lia].
    eexists. split; [done|]. rsimpl. rewrite length_insert, Hc. cint_fold.
    repeat split; try done; lia.
  - destruct (Z.leb_spec (Z.of_nat k) (Z.of_nat i + 1)); [done|lia].
Qed.

(** A window longer than the array is a heap overflow. The array of traffic
    counts is allocated for [k] intervals whatever the window is; if the window
    has [n > k] intervals, the first [k - 1] intervals of a test are recorded,
    and the next one is stored past the end of the array. *)
Theorem rate_limit_overflows_array n k test bs :
  limit_ready n k test -> (0 < k < n)%nat -> (length bs <= k)%nat ->
  feed bs test = None <-> length bs = k.
Proof.
  intros (Hd & Hl & Hp & Hn & Hn' & Hc & Hi & Ha) Hk.
  assert (forall i test, (i < k)%nat -> t_done test = 0 ->
    st_bitrate_limit (t_settings test) <> 0 ->
    st_bitrate_limit_stats_per_interval (t_settings test) = Z.of_nat n ->
    length (t_bitrate_limit_intervals_traffic_bytes test) = k ->
    t_bitrate_limit_stats_count test = Z.of_nat i ->
    t_bitrate_limit_last_interval_index test = Z.of_nat i ->
    (i + length bs <= k)%nat -> feed bs test = None <-> (i + length bs)%nat = k) as Hind.
  { clear Hd Hl Hp Hc Hi Ha test.
    induction bs as [|b bs IH]; intros i test Hik Hd Hl Hp Ha Hc Hi Hlen;
      cbn [feed length] in *; [split; [done|lia]|].
    pose proof (check_before_window n k i test b Hd Hl Hp Hn' ltac:(lia) Ha Hc Hi) as H.
    case_decide.
    - destruct H as (test' & -> & Hd' & Hs & Ha' & Hc' & Hi'). cbn [mbind option_bind].
      rewrite <- Hs in Hl, Hp. rewrite (IH (S i) test'); try done; lia.
    - rewrite H. cbn [mbind option_bind]. split; [lia|done]. }
  intros Hlen. apply (Hind 0%nat); try done; [lia|]. rewrite Ha. apply length_replicate.
Qed.

Lemma ex_limit_ready : limit_ready 600 60 (ex_limit_test 600).
Proof. repeat split; try done; lia. Qed.

Lemma rate_limit_overflows_array_witness :
  feed (replicate 60 1000) (ex_limit_test 600) = None /\
  feed (replicate 59 1000) (ex_limit_test 600) <> None.
Proof.
  split.
  - refine (proj2 (rate_limit_overflows_array 600 60 (ex_limit_test 600)
      (replicate 60 1000) ex_limit_ready _ _) _); [lia|cbn; lia|reflexivity].
  - intros H. refine (_ (proj1 (rate_limit_overflows_array 600 60 (ex_limit_test 600)
      (replicate 59 1000) ex_limit_ready _ _) H)); [cbn; lia|lia|cbn; lia].
Defined.
