(* ===== verification/Stream.v ===== *)
(** * Streams: moving test data (iperf_tcp.c, iperf_api.c)

    The send and receive functions a stream's pointers [snd] and [rcv] select,
    the files behind [-F], the throttle, and the two loops over all streams,
    [iperf_send] and [iperf_recv].  These functions change the stream, and
    sometimes the test ([done], the descriptor sets, the totals), so each
    returns the test and the stream it leaves behind. [None] is undefined
    behaviour: an access outside a buffer, a conversion that does not fit, a
    null function pointer. *)

From S2P Require Import Prelude Double Bytes Posix IperfTime Net Test Api Udp Stats.

Section Stream.
Context {W : Type} {posix : Posix W} {clock : Clock W}.

(** ** iperf_tcp.c *)

Definition iperf_tcp_recv (test : iperf_test) (sp : iperf_stream) (w : W)
    : option (Z * iperf_stream * W) :=
  '(r, data, w) ← Nread (sp_socket sp) (st_blksize (t_settings test)) w;
  let sp := fill_buffer data sp in
  if r <? 0 then Some (r, sp, w)
  else if t_state test =? TEST_RUNNING then
    Some (r, sp <| sp_result ::= fun rs => rs
      <| rs_bytes_received ::= fun n => u64 (n + r) |>
      <| rs_bytes_received_this_interval ::= fun n => u64 (n + r) |> |>, w)
  else Some (r, sp, w).

(** A negative [pending_size] would be converted to a huge [size_t]. *)
Definition iperf_tcp_send (test : iperf_test) (sp : iperf_stream) (w : W)
    : option (Z * iperf_stream * W) :=
  let sp := if sp_pending_size sp =? 0
            then sp <| sp_pending_size := st_blksize (t_settings test) |> else sp in
  if (sp_pending_size sp <? 0)
     || (Z.of_nat (length (sp_buffer sp)) <? sp_pending_size sp) then None
  else
    '(r, w) ←
      if negb (t_zerocopy test =? 0)
      then Nsendfile (sp_buffer_fd sp) (sp_socket sp) (sp_pending_size sp) w
      else Nwrite (sp_socket sp) (take (Z.to_nat (sp_pending_size sp)) (sp_buffer sp)) w;
    if r <? 0 then Some (r, sp, w)
    else Some (r, sp
      <| sp_pending_size ::= fun n => n - r |>
      <| sp_result ::= fun rs => rs
           <| rs_bytes_sent ::= fun n => u64 (n + r) |>
           <| rs_bytes_sent_this_interval ::= fun n => u64 (n + r) |> |>, w).

(** ** The function pointers *)

(** [prot->send] and [prot->recv]; [h] is the byte order of this host. *)
Definition net_send (h : endianness) (f : io_fn) (test : iperf_test) (sp : iperf_stream)
    (w : W) : option (Z * iperf_stream * W) :=
  match f with
  | TcpIo => iperf_tcp_send test sp w
  | UdpIo => iperf_udp_send h test sp w
  | _ => None
  end.

Definition net_recv (h : endianness) (f : io_fn) (test : iperf_test) (sp : iperf_stream)
    (w : W) : option (Z * iperf_stream * W) :=
  match f with
  | TcpIo => iperf_tcp_recv test sp w
  | UdpIo => iperf_udp_recv h test sp w
  | _ => None
  end.

(** ** Files *)

(** The [read] of [diskfile_send]; -1 and no data when it fails. *)
Definition file_read (fd n : Z) (w : W) : Z * list Z * W :=
  match sys_read fd n w with
  | (Ok data, w) => (Z.of_nat (length data), data, w)
  | (Err _, w) => (-1, [], w)
  end.

(** What is left in the buffer is moved to its front. *)
Definition slide (blksize left : Z) (sp : iperf_stream) : option iperf_stream :=
  rest ← get (Z.to_nat (blksize - left)) (Z.to_nat left) (sp_buffer sp);
  buf ← put 0 rest (sp_buffer sp);
  Some (sp <| sp_buffer := buf |>).

Definition diskfile_send (h : endianness) (test : iperf_test) (sp : iperf_stream) (w : W)
    : option (Z * iperf_test * iperf_stream * W) :=
  let blksize := st_blksize (t_settings test) in
  let buffer_left := sp_diskfile_left sp in
  let '(buffer_left, test, sp, w) :=
    if (sp_diskfile_left sp <? blksize) && (t_done test =? 0) then
      let '(r, data, w) := file_read (sp_diskfile_fd sp) (blksize - sp_diskfile_left sp) w in
      let sp := fill_buffer data sp in
      let buffer_left := buffer_left + r in
      let sp := if negb (buffer_left =? blksize)
                then sp <| sp_pending_size := buffer_left |> else sp in
      let test := if buffer_left =? 0 then test <| t_done := 1 |> else test in
      (buffer_left, test, sp, w)
    else (buffer_left, test, sp, w) in
  if negb (t_done test =? 0) || (buffer_left =? 0)
  then Some (0, test <| t_done := 1 |>, sp, w)
  else
    '(r, sp, w) ← net_send h (sp_snd2 sp) test sp w;
    if r <? 0 then Some (r, test, sp, w)
    else
      let sp := sp <| sp_diskfile_left := buffer_left - r |> in
      sp ← if negb (sp_diskfile_left sp =? 0) && (sp_diskfile_left sp <? blksize)
           then slide blksize (sp_diskfile_left sp) sp else Some sp;
      Some (r, test, sp, w).

Definition diskfile_recv (h : endianness) (test : iperf_test) (sp : iperf_stream) (w : W)
    : option (Z * iperf_stream * W) :=
  '(r, sp, w) ← net_recv h (sp_rcv2 sp) test sp w;
  if 0 <? r then
    let '(_, w) := sys_write (sp_diskfile_fd sp) (take (Z.to_nat r) (sp_buffer sp)) w in
    Some (r, sp, w)
  else Some (r, sp, w).

(** [sp->snd(sp)] and [sp->rcv(sp)] *)
Definition stream_send (h : endianness) (test : iperf_test) (sp : iperf_stream) (w : W)
    : option (Z * iperf_test * iperf_stream * W) :=
  match sp_snd sp with
  | DiskIo => diskfile_send h test sp w
  | f => '(r, sp, w) ← net_send h f test sp w; Some (r, test, sp, w)
  end.

Definition stream_recv (h : endianness) (test : iperf_test) (sp : iperf_stream) (w : W)
    : option (Z * iperf_stream * W) :=
  match sp_rcv sp with
  | DiskIo => diskfile_recv h test sp w
  | f => net_recv h f test sp w
  end.

(** ** The throttle *)

Definition iperf_check_throttle (test : iperf_test) (sp : iperf_stream)
    (nowP : iperf_time) : option (iperf_test * iperf_stream) :=
  if negb (t_done test =? 0) || (st_rate (t_settings test) =? 0) then Some (test, sp)
  else
    let '(_, temp_time) := iperf_time_diff (rs_start_time_fixed (sp_result sp)) nowP in
    let seconds := iperf_time_in_secs temp_time in
    bits_per_second ←
      d_to_u64 (d_div (d_of_Z (u64 (rs_bytes_sent (sp_result sp) * 8))) seconds);
    if bits_per_second <? st_rate (t_settings test) then
      Some (test <| t_write_set ::= fun s => s ∪ {[sp_socket sp]} |>,
            sp <| sp_green_light := 1 |>)
    else
      Some (test <| t_write_set ::= fun s => s ∖ {[sp_socket sp]} |>,
            sp <| sp_green_light := 0 |>).

(** ** The list of streams *)

(** The streams live in the test; [with_stream] runs [f] on the [i]-th one and
    stores what it leaves. *)
Definition put_stream (i : nat) (sp : iperf_stream) (test : iperf_test) : iperf_test :=
  test <| t_streams ::= <[i := sp]> |>.

Definition throttle_stream (i : nat) (now : iperf_time) (test : iperf_test)
    : option iperf_test :=
  sp ← t_streams test !! i;
  '(test, sp) ← iperf_check_throttle test sp now;
  Some (put_stream i sp test).

(** ** iperf_send *)

(** How a pass over the streams ended: a hard error leaves the function at once. *)
Inductive pass := Failed (r : Z) | Passed (streams_active : bool).

(** One [SLIST_FOREACH] of [iperf_send], from stream [i] on, [k] streams left. *)
Fixpoint send_pass (h : endianness) (k i : nat) (multisend : Z) (no_throttle_check : bool)
    (now : iperf_time) (write_set : option (gset Z)) (test : iperf_test) (active : bool)
    (w : W) : option (pass * iperf_test * W) :=
  match k with
  | O => Some (Passed active, test, w)
  | S k =>
      sp ← t_streams test !! i;
      let ready := match write_set with
                   | None => true | Some s => bool_decide (sp_socket sp ∈ s) end in
      if negb (sp_green_light sp =? 0) && negb (sp_sender sp =? 0) && ready then
        let st := t_settings test in
        if (1 <? multisend) && negb (st_bytes st =? 0) && (st_bytes st <=? t_bytes_sent test)
        then Some (Passed active, test, w)
        else if (1 <? multisend) && negb (st_blocks st =? 0)
                && (st_blocks st <=? t_blocks_sent test)
        then Some (Passed active, test, w)
        else
          '(r, test, sp, w) ← stream_send h test sp w;
          let test := put_stream i sp test in
          if r <? 0 then
            if r =? NET_SOFTERROR then Some (Passed active, test, w)
            else Some (Failed r, test <| t_i_errno := IESTREAMWRITE |>, w)
          else
            let test := test <| t_bytes_sent ::= fun n => u64 (n + r) |> in
            let test := if sp_pending_size sp =? 0
              then test <| t_blocks_sent ::= fun n => u64 (n + 1) |> else test in
            test ← if no_throttle_check then throttle_stream i now test else Some test;
            send_pass h k (S i) multisend no_throttle_check now write_set test true w
      else send_pass h k (S i) multisend no_throttle_check now write_set test active w
  end.

(** The [for (; multisend > 0; --multisend)] loop; [now] is the local that an
    earlier iteration may have set. *)
Fixpoint send_loop (h : endianness) (fuel : nat) (multisend : Z) (no_throttle_check : bool)
    (now : iperf_time) (write_set : option (gset Z)) (test : iperf_test) (w : W)
    : option (option Z * iperf_time * iperf_test * W) :=
  match fuel with
  | O => Some (None, now, test, w)
  | S fuel =>
      if 0 <? multisend then
        let '(now, w) := if no_throttle_check then time_now now w else (now, w) in
        '(p, test, w) ← send_pass h (length (t_streams test)) 0 multisend no_throttle_check
                          now write_set test false w;
        match p with
        | Failed r => Some (Some r, now, test, w)
        | Passed false => Some (None, now, test, w)
        | Passed true =>
            send_loop h fuel (multisend - 1) no_throttle_check now write_set test w
        end
      else Some (None, now, test, w)
  end.

(** The throttle check of every sender after the loop. *)
Fixpoint throttle_senders (k i : nat) (now : iperf_time) (test : iperf_test)
    : option iperf_test :=
  match k with
  | O => Some test
  | S k =>
      sp ← t_streams test !! i;
      test ← if negb (sp_sender sp =? 0) then throttle_stream i now test else Some test;
      throttle_senders k (S i) now test
  end.

Definition clear_sockets (test : iperf_test) (s : gset Z) : gset Z :=
  foldl (fun s sp => s ∖ {[sp_socket sp]}) s (t_streams test).

Definition iperf_send (h : endianness) (test : iperf_test) (write_set : option (gset Z))
    (now0 : iperf_time) (w : W) : option (Z * option (gset Z) * iperf_test * W) :=
  let st := t_settings test in
  let multisend :=
    if negb (st_burst st =? 0) then st_burst st
    else if st_rate st =? 0 then t_multisend test else 1 in
  let no_throttle_check := negb (st_rate st =? 0) && (st_burst st =? 0) in
  '(failed, now, test, w) ← send_loop h (Z.to_nat multisend) multisend no_throttle_check
                              now0 write_set test w;
  match failed with
  | Some r => Some (r, write_set, test, w)
  | None =>
      '(test, w) ←
        if no_throttle_check then Some (test, w)
        else
          let '(now, w) := time_now now w in
          test ← throttle_senders (length (t_streams test)) 0 now test; Some (test, w);
      Some (0, clear_sockets test <$> write_set, test, w)
  end.

(** ** iperf_recv *)

Fixpoint recv_pass (h : endianness) (k i : nat) (read_set : gset Z) (test : iperf_test)
    (w : W) : option (Z * gset Z * iperf_test * W) :=
  match k with
  | O => Some (0, read_set, test, w)
  | S k =>
      sp ← t_streams test !! i;
      if bool_decide (sp_socket sp ∈ read_set) && (sp_sender sp =? 0) then
        '(r, sp, w) ← stream_recv h test sp w;
        let test := put_stream i sp test in
        if r <? 0 then Some (r, read_set, test <| t_i_errno := IESTREAMREAD |>, w)
        else
          let test := test <| t_bytes_received ::= fun n => u64 (n + r) |>
                           <| t_blocks_received ::= fun n => u64 (n + 1) |> in
          recv_pass h k (S i) (read_set ∖ {[sp_socket sp]}) test w
      else recv_pass h k (S i) read_set test w
  end.

Definition iperf_recv (h : endianness) (test : iperf_test) (read_set : gset Z) (w : W)
    : option (Z * gset Z * iperf_test * W) :=
  recv_pass h (length (t_streams test)) 0 read_set test w.
End Stream.
