(* ===== verification/Accounting.v ===== *)
(** * The intervals of a stream add up

    Everything that touches the counters of the streams during a test of TCP or UDP, as
    step relations: sending and receiving, the end of an interval, the end of the
    omitted period, and whatever else changes the test. Invariants by induction on the steps relate the list of
    intervals, from which the reports are printed, to the totals that are
    exchanged at the end of the test. *)

From S2P Require Import Prelude Double Bytes Posix IperfTime Net Test Api Udp Stats Stream.
From S2P Require Import StatsProps UdpProps.

#[local] Set Default Proof Using "Type".

Section Steps.
Context {W : Type} {posix : Posix W} {clock : Clock W} {tcpinfo : TcpInfo W}.

(** One call of a send or receive function for a stream (those of SCTP, which the build
    does not have, are left out). *)
Inductive io_step (h : endianness) (test : iperf_test) : iperf_stream -> iperf_stream -> Prop :=
| io_tcp_recv sp w r sp' w' :
    iperf_tcp_recv test sp w = Some (r, sp', w') -> io_step h test sp sp'
| io_tcp_send sp w r sp' w' :
    iperf_tcp_send test sp w = Some (r, sp', w') -> io_step h test sp sp'
| io_udp_recv sp w r sp' w' :
    iperf_udp_recv h test sp w = Some (r, sp', w') -> io_step h test sp sp'
| io_udp_send sp w r sp' w' :
    iperf_udp_send h test sp w = Some (r, sp', w') -> io_step h test sp sp'.

(** A test, while its streams stay the same ones: one of them sends or receives, an
    interval ends, the omitted period ends ([omit_proc] of Session.v), or
    anything else of the test changes, its state, its settings, its counts. *)
Inductive test_step (h : endianness) : iperf_test -> iperf_test -> Prop :=
| step_io test i sp sp' :
    t_streams test !! i = Some sp -> io_step h test sp sp' ->
    test_step h test (put_stream i sp' test)
| step_interval temp0 test w test' w' :
    iperf_stats_callback temp0 test w = Some (test', w') -> test_step h test test'
| step_omit_over ir now test w test' w' :
    t_omitting test = 1 ->
    iperf_reset_stats ir now (test <| t_omitting := 0 |>) w = (test', w') ->
    test_step h test test'
| step_other test test' :
    t_streams test' = t_streams test -> t_omitting test' = t_omitting test ->
    test_step h test test'.

(** The same seen by one stream alone, of a test whose protocol is [prot]; the
    interval record and the test are any. *)
Inductive stream_step (h : endianness) (prot : Z) :
    iperf_test * iperf_stream -> iperf_test * iperf_stream -> Prop :=
| stream_io test sp sp' : io_step h test sp sp' -> stream_step h prot (test, sp) (test, sp')
| stream_interval test sp temp w sp' temp' w' :
    stats_stream test prot sp temp w = (sp', temp', w') ->
    stream_step h prot (test, sp) (test, sp')
| stream_omit_over test now ir sp w sp' w' :
    reset_stream test now ir sp w = (sp', w') ->
    stream_step h prot (test, sp) (test, sp')
| stream_other test test' sp : stream_step h prot (test, sp) (test', sp).

(** ** Bytes *)

Definition is_sender (sp : iperf_stream) : bool := negb (sp_sender sp =? 0).

(** The bytes this end of the stream is accountable for. *)
Definition total_bytes (sp : iperf_stream) : Z :=
  if is_sender sp
  then rs_bytes_sent (sp_result sp) - rs_bytes_sent_omit (sp_result sp)
  else rs_bytes_received (sp_result sp).

Definition bytes_this_interval (sp : iperf_stream) : Z :=
  if is_sender sp then rs_bytes_sent_this_interval (sp_result sp)
  else rs_bytes_received_this_interval (sp_result sp).

(** The bytes of the intervals that were not omitted. *)
Definition reported_bytes (irs : list iperf_interval_results) : Z :=
  zsum (ir_bytes_transferred <$> filter (fun ir => ir_omitted ir = 0) irs).

Definition bytes_accounted (s : iperf_test * iperf_stream) : Prop :=
  let '(test, sp) := s in
  if decide (t_omitting test = 0)
  then u64 (reported_bytes (rs_interval_results (sp_result sp)) + bytes_this_interval sp)
       = u64 (total_bytes sp)
  else Forall (fun ir => ir_omitted ir <> 0) (rs_interval_results (sp_result sp)).

Lemma reported_snoc irs ir :
  reported_bytes (irs ++ [ir]) =
    reported_bytes irs + (if decide (ir_omitted ir = 0) then ir_bytes_transferred ir else 0).
Proof.
  unfold reported_bytes. rewrite filter_app, fmap_app, zsum_app. f_equal.
  rewrite filter_cons. case_decide; cbn; lia.
Qed.

Lemma reported_omitted irs :
  Forall (fun ir => ir_omitted ir <> 0) irs -> reported_bytes irs = 0.
Proof.
  unfold reported_bytes. induction 1 as [|ir irs Hir _ IH]; [done|].
  by rewrite filter_cons, decide_False.
Qed.

(** Moving [r] bytes adds them to the total and to the current interval, or to
    neither. *)
Definition moved (sp sp' : iperf_stream) : Prop :=
  is_sender sp' = is_sender sp /\
  rs_interval_results (sp_result sp') = rs_interval_results (sp_result sp) /\
  exists r, u64 (bytes_this_interval sp') = u64 (bytes_this_interval sp + r) /\
            u64 (total_bytes sp') = u64 (total_bytes sp + r).

Lemma moved_same sp sp' :
  sp_result sp' = sp_result sp -> sp_sender sp' = sp_sender sp -> moved sp sp'.
Proof.
  intros E1 E2. unfold moved, is_sender, bytes_this_interval, total_bytes, is_sender.
  rewrite E1, E2. split; [done|]. split; [done|]. exists 0. by rewrite !Z.add_0_r.
Qed.

Lemma moved_received sp sp' r :
  sp_sender sp' = sp_sender sp ->
  sp_result sp' = sp_result sp
    <| rs_bytes_received ::= fun n => u64 (n + r) |>
    <| rs_bytes_received_this_interval ::= fun n => u64 (n + r) |> ->
  moved sp sp'.
Proof.
  intros E1 E2. unfold moved, bytes_this_interval, total_bytes, is_sender.
  rewrite E1, E2. rsimpl. split; [done|]. split; [done|].
  destruct (negb _); [exists 0; by rewrite !Z.add_0_r|]. exists r.
  by rewrite !(uint_id 64 (u64 _)) by (apply (uint_range 64); lia).
Qed.

Lemma u64_sub_l x y : u64 (u64 x - y) = u64 (x - y).
Proof. unfold uint. apply Zminus_mod_idemp_l. Qed.

Lemma moved_sent sp sp' r :
  sp_sender sp' = sp_sender sp ->
  sp_result sp' = sp_result sp
    <| rs_bytes_sent ::= fun n => u64 (n + r) |>
    <| rs_bytes_sent_this_interval ::= fun n => u64 (n + r) |> ->
  moved sp sp'.
Proof.
  intros E1 E2. unfold moved, bytes_this_interval, total_bytes, is_sender.
  rewrite E1, E2. rsimpl. split; [done|]. split; [done|].
  destruct (negb _); [|exists 0; by rewrite !Z.add_0_r]. exists r.
  rewrite !(uint_id 64 (u64 _)) by (apply (uint_range 64); lia). split; [done|].
  rewrite u64_sub_l. f_equal. lia.
Qed.

Lemma tcp_recv_moved test sp w r sp' w' :
  iperf_tcp_recv test sp w = Some (r, sp', w') -> moved sp sp'.
Proof.
  unfold iperf_tcp_recv. intros H. apply bind_Some in H as ([[r0 data] w0] & _ & H).
  destruct (r0 <? 0); [injection H as _ <- _; by apply moved_same|].
  destruct (t_state test =? TEST_RUNNING); injection H as _ <- _;
    [by apply (moved_received _ _ r0)|by apply moved_same].
Qed.

Lemma tcp_send_moved test sp w r sp' w' :
  iperf_tcp_send test sp w = Some (r, sp', w') -> moved sp sp'.
Proof.
  unfold iperf_tcp_send. intros H.
  set (sp0 := if sp_pending_size sp =? 0 then _ else _) in H.
  assert (sp_result sp0 = sp_result sp) as E1 by (subst sp0; by destruct (_ =? _)).
  assert (sp_sender sp0 = sp_sender sp) as E2 by (subst sp0; by destruct (_ =? _)).
  destruct (_ || _); [done|]. apply bind_Some in H as ([r0 w0] & _ & H).
  destruct (r0 <? 0); injection H as _ <- _; [by apply moved_same|].
  apply (moved_sent _ _ r0); rsimpl; [done|by rewrite E1].
Qed.

Lemma account_result p sp :
  sp_result (udp_account p sp) = sp_result sp /\ sp_sender (udp_account p sp) = sp_sender sp.
Proof. unfold udp_account. by repeat case_match; rsimpl. Qed.

Lemma udp_recv_moved h test sp w r sp' w' :
  iperf_udp_recv h test sp w = Some (r, sp', w') -> moved sp sp'.
Proof.
  unfold iperf_udp_recv. intros H. apply bind_Some in H as ([[r0 data] w0] & _ & H).
  destruct (r0 <=? 0); [injection H as _ <- _; by apply moved_same|].
  destruct (t_state test =? TEST_RUNNING); [|injection H as _ <- _; by apply moved_same].
  apply bind_Some in H as ([sent p] & _ & H).
  destruct (sys_clock w0) as [c w2], (iperf_time_now c _) as [? arrival],
    (iperf_time_diff arrival sent) as [? temp].
  injection H as _ <- _.
  set (sp1 := set sp_result _ _). destruct (account_result p sp1) as [E1 E2].
  apply (moved_received _ _ r0).
  - unfold udp_jitter. by case_match; rsimpl; rewrite E2.
  - transitivity (sp_result (udp_account p sp1)); [|by rewrite E1].
    unfold udp_jitter. by case_match.
Qed.

Lemma udp_send_moved h test sp w r sp' w' :
  iperf_udp_send h test sp w = Some (r, sp', w') -> moved sp sp'.
Proof.
  unfold iperf_udp_send. intros H.
  destruct (sys_clock w) as [c w1], (iperf_time_now c _) as [? before].
  apply bind_Some in H as (buf & _ & H). apply bind_Some in H as ([r0 w0] & _ & H).
  destruct (r0 <? 0); injection H as _ <- _; [by apply moved_same|].
  by apply (moved_sent _ _ r0).
Qed.

Lemma bytes_moved test sp sp' :
  moved sp sp' -> bytes_accounted (test, sp) -> bytes_accounted (test, sp').
Proof.
  intros (_ & Hirs & r & Hi & Ht). unfold bytes_accounted. rewrite Hirs.
  case_decide; [|done]. intros Hacc.
  rewrite <- uint_add_r, Hi, uint_add_r, Z.add_assoc, <- uint_add_l, Hacc, uint_add_l.
  by rewrite Ht.
Qed.

(** The end of an interval moves the bytes of the interval into the list. *)
Lemma stats_stream_bytes test prot sp temp w sp' temp' w' :
  stats_stream test prot sp temp w = (sp', temp', w') ->
  exists ir, rs_interval_results (sp_result sp') = rs_interval_results (sp_result sp) ++ [ir] /\
    ir_omitted ir = ir_omitted temp /\ ir_bytes_transferred ir = bytes_this_interval sp /\
    bytes_this_interval sp' = 0 /\ total_bytes sp' = total_bytes sp /\ temp' = ir.
Proof.
  unfold stats_stream. cbv zeta.
  destruct (time_now _ w) as [now w1]. destruct (iperf_time_diff _ _) as [? td].
  set (rp0 := set rs_end_time _ _). set (temp0 := set ir_interval_duration _ _).
  assert (exists rp1 temp1 w2,
    (if prot =? Ptcp then stats_tcp test sp rp0 temp0 w1
     else (rp0, stats_datagram sp (last (rs_interval_results (sp_result sp))) temp0, w1))
    = (rp1, temp1, w2) /\
    rs_interval_results rp1 = rs_interval_results (sp_result sp) /\
    ir_omitted temp1 = ir_omitted temp /\ ir_bytes_transferred temp1 = bytes_this_interval sp /\
    rs_bytes_sent rp1 = rs_bytes_sent (sp_result sp) /\
    rs_bytes_sent_omit rp1 = rs_bytes_sent_omit (sp_result sp) /\
    rs_bytes_received rp1 = rs_bytes_received (sp_result sp))
    as (rp1 & temp1 & w2 & -> & E1 & E2 & E3 & E4 & E5 & E6).
  { destruct (prot =? Ptcp).
    - unfold stats_tcp, save_tcpinfo, has_tcpinfo.
      destruct (sys_tcp_info _ _) as [[ti|] w2]; destruct (_ =? 1);
        eexists _, _, _; (split; [reflexivity|]);
        repeat (match goal with |- context [if ?b then _ else _] => destruct b end);
        rsimpl; done.
    - eexists _, _, _. split; [reflexivity|]. unfold stats_datagram.
      destruct (last _); rsimpl; done. }
  intros [= <- <- <-]. exists temp1.
  unfold total_bytes, bytes_this_interval, is_sender, add_to_interval_list in *. rsimpl.
  rewrite E1, E4, E5, E6. repeat split; try done. by destruct (negb _).
Qed.

Lemma io_moved h test sp sp' : io_step h test sp sp' -> moved sp sp'.
Proof.
  destruct 1; eauto using tcp_recv_moved, tcp_send_moved, udp_recv_moved, udp_send_moved.
Qed.

(** The streams of the test keep their places. *)
Definition accounted_at (i : nat) (test : iperf_test) : Prop :=
  forall sp, t_streams test !! i = Some sp -> bytes_accounted (test, sp).

Lemma bytes_interval test sp temp w sp' temp' w' prot :
  ir_omitted temp = t_omitting test ->
  stats_stream test prot sp temp w = (sp', temp', w') ->
  bytes_accounted (test, sp) -> bytes_accounted (test, sp').
Proof.
  intros Ho H. apply stats_stream_bytes in H as (ir & Eirs & Eo & Eb & Ei & Et & _).
  unfold bytes_accounted. rewrite Eirs, reported_snoc, Eo, Ho, Ei, Et, Z.add_0_r, Eb.
  case_decide; [done|]. intros HF. apply Forall_app. split; [done|].
  constructor; [by rewrite Eo, Ho|done].
Qed.

Lemma stats_streams_bytes test prot sps temp total w sps' total' w' i sp' :
  ir_omitted temp = t_omitting test ->
  stats_streams test prot sps temp total w = (sps', total', w') ->
  sps' !! i = Some sp' ->
  exists sp, sps !! i = Some sp /\ (bytes_accounted (test, sp) -> bytes_accounted (test, sp')).
Proof.
  revert temp total w sps' total' w' i. induction sps as [|sp sps IH];
    intros temp total w sps' total' w' i Ho H Hi; cbn [stats_streams] in H.
  { injection H as <- <- <-. by rewrite lookup_nil in Hi. }
  destruct (stats_stream test prot sp temp w) as [[sp1 temp1] w1] eqn:E.
  destruct (stats_streams _ _ sps temp1 _ w1) as [[sps1 total1] w2] eqn:E2.
  injection H as <- <- <-. destruct i as [|i]; cbn in Hi |- *.
  - injection Hi as <-. exists sp. split; [done|]. by eapply bytes_interval.
  - apply stats_stream_bytes in E as (ir & _ & Eo & _ & _ & _ & ->).
    refine (IH _ _ _ _ _ _ _ _ E2 Hi). congruence.
Qed.

Lemma check_total_rate_same test total test' :
  iperf_check_total_rate test total = Some test' ->
  t_streams test' = t_streams test /\ t_omitting test' = t_omitting test.
Proof.
  unfold iperf_check_total_rate. cbv zeta. intros H.
  repeat match type of H with
    | (if ?b then _ else _) = _ => destruct b
    | Some _ = Some _ => injection H as <-
    | None = _ => discriminate
    | _ ≫= _ = Some _ => apply bind_Some in H as (? & _ & H)
    end; done.
Qed.

Lemma bytes_same test test' sp :
  t_omitting test' = t_omitting test -> bytes_accounted (test, sp) -> bytes_accounted (test', sp).
Proof. unfold bytes_accounted. by intros ->. Qed.

Lemma callback_bytes temp0 test w test' w' i :
  iperf_stats_callback temp0 test w = Some (test', w') ->
  accounted_at i test -> accounted_at i test'.
Proof.
  unfold iperf_stats_callback. intros H Hacc sp' Hi. apply bind_Some in H as (prot & _ & H).
  destruct (stats_streams _ _ _ _ _ _) as [[sps total] w1] eqn:E.
  assert (t_streams test' = sps /\ t_omitting test' = t_omitting test) as [Es Eo].
  { case_decide; [|by injection H as <- _].
    apply bind_Some in H as (test1 & H1 & [= <- _]). by apply check_total_rate_same in H1. }
  rewrite Es in Hi.
  destruct (stats_streams_bytes test prot (t_streams test) (temp0 <| ir_omitted := t_omitting test |>)
              0 w sps total w1 i sp' ltac:(by rsimpl) E Hi) as (sp & Hsp & H').
  eapply bytes_same; [done|]. apply H'. by apply Hacc.
Qed.

Lemma bytes_omit_over test now ir sp w sp' w' :
  t_omitting test = 1 -> reset_stream (test <| t_omitting := 0 |>) now ir sp w = (sp', w') ->
  bytes_accounted (test, sp) -> bytes_accounted (test <| t_omitting := 0 |>, sp').
Proof.
  unfold bytes_accounted, reset_stream. intros Ho H. rsimpl.
  rewrite Ho. rewrite decide_False, decide_True by done. intros HF.
  set (rp := set rs_bytes_sent_this_interval _ _) in H.
  set (x := if _ =? 1 then _ else _) in H.
  assert (rs_interval_results x.1 = rs_interval_results (sp_result sp) /\
          rs_bytes_sent x.1 = rs_bytes_sent (sp_result sp) /\
          rs_bytes_sent_omit x.1 = rs_bytes_sent (sp_result sp) /\
          rs_bytes_received x.1 = 0 /\ rs_bytes_sent_this_interval x.1 = 0 /\
          rs_bytes_received_this_interval x.1 = 0) as (E1 & E2 & E3 & E4 & E5 & E6).
  { subst x. destruct (_ =? 1); [destruct (save_tcpinfo _ _ _)|]; cbn [fst]; rsimpl; done. }
  destruct x as [rp' w1]. injection H as <- _. cbn [fst] in *.
  unfold bytes_this_interval, total_bytes, is_sender. rsimpl.
  rewrite E1, E2, E3, E4, E5, E6, (reported_omitted _ HF). destruct (negb _); f_equal; lia.
Qed.

Lemma reset_streams_lookup test now ir sps w sps' w' i sp' :
  reset_streams test now ir sps w = (sps', w') -> sps' !! i = Some sp' ->
  exists sp w1 w2, sps !! i = Some sp /\ reset_stream test now ir sp w1 = (sp', w2).
Proof.
  revert w sps' w' i. induction sps as [|sp sps IH]; intros w sps' w' i H Hi;
    cbn [reset_streams] in H; [by injection H as <- <-|].
  destruct (reset_stream test now ir sp w) as [sp1 w1] eqn:E.
  destruct (reset_streams test now ir sps w1) as [sps1 w2] eqn:E2. injection H as <- <-.
  destruct i as [|i]; cbn in Hi |- *; [injection Hi as <-; by exists sp, w, w1|by eapply IH].
Qed.

Lemma reset_bytes ir now test w test' w' i :
  t_omitting test = 1 ->
  iperf_reset_stats ir now (test <| t_omitting := 0 |>) w = (test', w') ->
  accounted_at i test -> accounted_at i test'.
Proof.
  unfold iperf_reset_stats. intros Ho H Hacc sp' Hi.
  destruct (time_now now w) as [now1 w1]. destruct (reset_streams _ _ _ _ _) as [sps w2] eqn:E.
  injection H as <- _. cbn in Hi.
  destruct (reset_streams_lookup _ _ _ _ _ _ _ i sp' E Hi) as (sp & wa & wb & Hsp & E').
  eapply (bytes_same (test <| t_omitting := 0 |>)); [done|].
  eapply bytes_omit_over; [done| |by apply Hacc].
  exact E'.
Qed.

Lemma bytes_step h i test test' : test_step h test test' -> accounted_at i test -> accounted_at i test'.
Proof.
  destruct 1 as [test j sp sp' Hj Hio|temp0 test w test' w' H|ir now test w test' w' Ho H|test test' Es Eo].
  - intros Hacc sp1 Hi. unfold put_stream in Hi. cbn in Hi.
    apply (bytes_same test); [done|]. destruct (decide (j = i)) as [->|Hne].
    + rewrite list_lookup_insert_eq in Hi by (by apply lookup_lt_Some in Hj). injection Hi as <-.
      eapply bytes_moved; [by eapply io_moved|by apply Hacc].
    + rewrite list_lookup_insert_ne in Hi by done. by apply Hacc.
  - by eapply callback_bytes.
  - by eapply reset_bytes.
  - intros Hacc sp Hi. rewrite Es in Hi. eapply bytes_same; [done|by apply Hacc].
Qed.

(** C19: no byte is lost between the reports and the totals. Follow a stream of a test from
    when it is fresh, through whatever sequence of sends and receives of TCP and UDP of
    any stream, calls of [iperf_stats_callback] at the ends of intervals, the end of the
    omitted period, and other changes of the test, its state among them: once nothing is
    being omitted, the bytes of the reported intervals and of the current one add up to the
    total of this end of the stream, which is what [send_results] puts in the exchange. *)
Theorem intervals_account_for_bytes h test test' i sp sp' :
  rtc (test_step h) test test' ->
  t_streams test !! i = Some sp -> sp_result sp = zero_result ->
  t_streams test' !! i = Some sp' -> t_omitting test' = 0 ->
  u64 (reported_bytes (rs_interval_results (sp_result sp')) + bytes_this_interval sp')
    = u64 (total_bytes sp').
Proof.
  intros Hsteps Hi Hfresh Hi' Ho.
  assert (accounted_at i test) as Hinit.
  { intros sp0 Hsp0. assert (sp0 = sp) as -> by congruence.
    unfold bytes_accounted, bytes_this_interval, total_bytes. rewrite Hfresh.
    case_decide; [by destruct (is_sender sp)|constructor]. }
  assert (accounted_at i test') as Hacc.
  { revert Hinit. clear Hi Hi' Ho. induction Hsteps; eauto using bytes_step. }
  specialize (Hacc sp' Hi'). unfold bytes_accounted in Hacc. by rewrite Ho, decide_True in Hacc.
Qed.

(** ** Packets *)

(** The counters of the last interval, all 0 before the first one. *)
Definition last_counters (irs : list iperf_interval_results) : Z * Z * Z :=
  match last irs with
  | Some ir => (ir_packet_count ir, ir_cnt_error ir, ir_outoforder_packets ir)
  | None => (0, 0, 0)
  end.

(** The sums of the per-interval counters, as 32-bit integers. *)
Definition summed_counters (irs : list iperf_interval_results) : Z * Z * Z :=
  (i32 (zsum (ir_interval_packet_count <$> irs)),
   i32 (zsum (ir_interval_cnt_error <$> irs)),
   i32 (zsum (ir_interval_outoforder_packets <$> irs))).

Definition narrow (x : Z * Z * Z) : Z * Z * Z :=
  let '(a, b, c) := x in (i32 a, i32 b, i32 c).

Definition packets_accounted (irs : list iperf_interval_results) : Prop :=
  summed_counters irs = narrow (last_counters irs).

Lemma sum_step irs n l x :
  i32 (zsum irs) = i32 l -> (n = i32 (x - l) \/ (n = x /\ l = 0)) ->
  i32 (zsum (irs ++ [n])) = i32 x.
Proof.
  intros Hs Hn. rewrite zsum_app. cbn [zsum foldr]. rewrite Z.add_0_r, <- sint_add_l, Hs.
  destruct Hn as [->|[-> ->]].
  - rewrite sint_add_l, sint_add_r. f_equal. lia.
  - by rewrite sint_add_l.
Qed.

Lemma stats_stream_datagram test prot sp temp w sp' temp' w' :
  prot <> Ptcp -> stats_stream test prot sp temp w = (sp', temp', w') ->
  packets_accounted (rs_interval_results (sp_result sp)) ->
  packets_accounted (rs_interval_results (sp_result sp')) /\
  last_counters (rs_interval_results (sp_result sp')) =
    (sp_packet_count sp', sp_cnt_error sp', sp_outoforder_packets sp').
Proof.
  intros Hp. unfold stats_stream. cbv zeta.
  destruct (time_now _ w) as [now w1]. destruct (iperf_time_diff _ _) as [? td].
  destruct (Z.eqb_spec prot Ptcp) as [|_]; [done|].
  set (temp0 := set ir_interval_duration _ _). clearbody temp0.
  intros [= <- _ _]. unfold add_to_interval_list. rsimpl.
  set (irs := rs_interval_results (sp_result sp)).
  unfold packets_accounted, summed_counters, last_counters at 2 3.
  rewrite last_snoc, !fmap_app. cbn [fmap list_fmap].
  unfold last_counters, stats_datagram. intros H.
  destruct (last irs) as [ir|]; rsimpl; injection H as H1 H2 H3; split; try done;
    (apply (f_equal2 pair); [apply (f_equal2 pair)|]);
    (eapply sum_step; [eassumption|]); auto.
Qed.

Lemma packets_step h prot s s' :
  prot <> Ptcp -> stream_step h prot s s' ->
  packets_accounted (rs_interval_results (sp_result s.2)) ->
  packets_accounted (rs_interval_results (sp_result s'.2)).
Proof.
  intros Hp H. destruct H as [test sp sp' H|test sp temp w sp' temp' w' H
    |test now ir sp w sp' w' H|test test' sp]; cbn [snd]; [| | |done].
  - by apply io_moved in H as (_ & -> & _).
  - apply (stats_stream_datagram _ _ _ _ _ _ _ _ Hp H).
  - unfold reset_stream in H.
    destruct (t_sender_has_retransmits test =? 1);
      [destruct (save_tcpinfo _ _ _)|]; by injection H as <- _.
Qed.

(** C26: the packet, loss and reordering counts of the UDP intervals telescope.
    When an interval ends, the per-interval counts of all the intervals so far,
    the omitted ones included, sum up to the stream's counters. *)
Theorem udp_intervals_telescope h prot test sp test1 sp1 temp w sp2 temp' w' :
  prot <> Ptcp -> sp_result sp = zero_result ->
  rtc (stream_step h prot) (test, sp) (test1, sp1) ->
  stats_stream test1 prot sp1 temp w = (sp2, temp', w') ->
  summed_counters (rs_interval_results (sp_result sp2)) =
    narrow (sp_packet_count sp2, sp_cnt_error sp2, sp_outoforder_packets sp2).
Proof.
  intros Hp Hfresh Hsteps Hstats.
  assert (packets_accounted (rs_interval_results (sp_result sp1))) as Hacc.
  { assert (packets_accounted (rs_interval_results (sp_result (test, sp).2))) as Hinit
      by (cbn [snd]; by rewrite Hfresh).
    change sp1 with ((test1, sp1).2).
    revert Hinit. induction Hsteps; eauto using packets_step. }
  destruct (stats_stream_datagram _ _ _ _ _ _ _ _ Hp Hstats Hacc) as [H Hl].
  unfold packets_accounted in H. by rewrite H, Hl.
Qed.
End Steps.

#[global] Instance pipe_tcpinfo : TcpInfo Pipe.pipe := fun _ w => (None, w).

(** A UDP receiver: packets 1 and 4 arrive, an interval ends, packet 6 arrives,
    and a second interval ends. *)
Definition ex_recv (n : Z) (sp : iperf_stream) : option (Z * iperf_stream * Pipe.pipe) :=
  iperf_udp_recv LittleEndian ex_udp_test sp (Pipe.mk_pipe 16 (ex_header n) []).

Definition ex_recvd (n : Z) (sp : iperf_stream) : iperf_stream :=
  match ex_recv n sp with Some (_, sp, _) => sp | None => zero_stream end.

Definition ex_stats (sp : iperf_stream)
    : iperf_stream * iperf_interval_results * Pipe.pipe :=
  stats_stream ex_udp_test Pudp sp zero_interval (Pipe.mk_pipe 1 [] []).

Definition ex_before_last : iperf_stream :=
  ex_recvd 6 (ex_stats (ex_recvd 4 (ex_recvd 1 ex_udp_stream))).1.1.

Lemma ex_recv_step n sp :
  ex_recv n sp <> None ->
  stream_step (W := Pipe.pipe) LittleEndian Pudp (ex_udp_test, sp) (ex_udp_test, ex_recvd n sp).
Proof.
  unfold ex_recvd. destruct (ex_recv n sp) as [[[r sp'] w']|] eqn:E; [|done]. intros _.
  eapply stream_io, io_udp_recv, E.
Qed.

Lemma ex_stats_step sp :
  stream_step (W := Pipe.pipe) LittleEndian Pudp (ex_udp_test, sp)
    (ex_udp_test, (ex_stats sp).1.1).
Proof.
  destruct (ex_stats sp) as [[sp' temp] w] eqn:E. cbn [fst].
  eapply stream_interval, E.
Qed.

Lemma ex_steps :
  rtc (stream_step (W := Pipe.pipe) LittleEndian Pudp) (ex_udp_test, ex_udp_stream)
    (ex_udp_test, ex_before_last).
Proof.
  unfold ex_before_last.
  eapply rtc_l; [apply (ex_recv_step 1 ex_udp_stream); by vm_compute|].
  eapply rtc_l; [apply (ex_recv_step 4 (ex_recvd 1 ex_udp_stream)); by vm_compute|].
  eapply rtc_l; [apply (ex_stats_step (ex_recvd 4 (ex_recvd 1 ex_udp_stream)))|].
  apply rtc_once, ex_recv_step. by vm_compute.
Qed.

(** The same in a test: an interval of 32 bytes that is reported, and 16 bytes more. *)
Definition ex_counted : iperf_test :=
  ex_udp_test <| t_protocol := Some (mk_protocol Pudp "UDP") |> <| t_role := "c"%char |>
    <| t_streams := [ex_udp_stream] |>.

Definition ex_move (test : iperf_test) (n : Z) : iperf_test :=
  match t_streams test with sp :: _ => put_stream 0 (ex_recvd n sp) test | [] => test end.

Definition ex_interval (test : iperf_test) : iperf_test :=
  match iperf_stats_callback zero_interval test (Pipe.mk_pipe 1 [] []) with
  | Some (test, _) => test | None => test end.

Definition ex_moved1 : iperf_test := ex_move ex_counted 1.
Definition ex_moved2 : iperf_test := ex_move ex_moved1 4.
Definition ex_moved3 : iperf_test := ex_interval ex_moved2.
Definition ex_counted_later : iperf_test := ex_move ex_moved3 6.

Definition first_stream (test : iperf_test) : iperf_stream :=
  default zero_stream (t_streams test !! 0%nat).

Lemma ex_move_step test n :
  t_streams test !! 0%nat = Some (first_stream test) -> t_state test = t_state ex_udp_test ->
  t_settings test = t_settings ex_udp_test -> t_udp_counters_64bit test = 0 ->
  ex_recv n (first_stream test) <> None ->
  test_step (W := Pipe.pipe) LittleEndian test (ex_move test n).
Proof.
  generalize (first_stream test) as sp.
  intros sp Hsp Hst Hset Hw Hn. unfold ex_move, ex_recvd, ex_recv in *.
  destruct (t_streams test) as [|sp0 sps] eqn:E; [done|]. injection Hsp as ->.
  destruct (iperf_udp_recv LittleEndian ex_udp_test sp (Pipe.mk_pipe 16 (ex_header n) []))
    as [[[r sp'] w']|] eqn:E2; [|done].
  eapply step_io; [by rewrite E|]. eapply io_udp_recv with (r := r) (w' := w').
  rewrite <- E2. unfold iperf_udp_recv. by rewrite Hst, Hset, Hw.
Qed.

Lemma ex_interval_step test : test_step (W := Pipe.pipe) LittleEndian test (ex_interval test).
Proof.
  unfold ex_interval. destruct (iperf_stats_callback _ _ _) as [[test' w']|] eqn:E.
  - eapply step_interval, E.
  - by apply step_other.
Qed.

Lemma ex_counted_steps : rtc (test_step (W := Pipe.pipe) LittleEndian) ex_counted ex_counted_later.
Proof.
  apply rtc_l with ex_moved1.
  { apply ex_move_step; [vm_compute; reflexivity..|vm_compute; discriminate]. }
  apply rtc_l with ex_moved2.
  { apply ex_move_step; [vm_compute; reflexivity..|vm_compute; discriminate]. }
  apply rtc_l with ex_moved3; [apply ex_interval_step|].
  apply rtc_once, ex_move_step; [vm_compute; reflexivity..|vm_compute; discriminate].
Qed.

Definition ex_counted_stream : iperf_stream := first_stream ex_counted_later.

Lemma intervals_account_for_bytes_witness :
  u64 (reported_bytes (rs_interval_results (sp_result ex_counted_stream))
       + bytes_this_interval ex_counted_stream) = 48 /\
  reported_bytes (rs_interval_results (sp_result ex_counted_stream)) = 32.
Proof.
  split; [|vm_compute; reflexivity].
  rewrite (intervals_account_for_bytes LittleEndian ex_counted ex_counted_later 0 ex_udp_stream
    ex_counted_stream ex_counted_steps
    ltac:(vm_compute; reflexivity) ltac:(vm_compute; reflexivity)
    ltac:(vm_compute; reflexivity) ltac:(vm_compute; reflexivity)).
  vm_compute. reflexivity.
Defined.

Lemma ex_stats_eq sp :
  stats_stream ex_udp_test Pudp sp zero_interval (Pipe.mk_pipe 1 [] []) =
    ((ex_stats sp).1.1, (ex_stats sp).1.2, (ex_stats sp).2).
Proof. unfold ex_stats. by destruct (stats_stream _ _ _ _ _) as [[? ?] ?]. Qed.

Lemma udp_intervals_telescope_witness :
  summed_counters (rs_interval_results (sp_result (ex_stats ex_before_last).1.1)) = (6, 3, 0) /\
  ir_interval_packet_count <$>
    rs_interval_results (sp_result (ex_stats ex_before_last).1.1) = [4; 2].
Proof.
  split; [|vm_compute; reflexivity].
  rewrite (udp_intervals_telescope LittleEndian Pudp ex_udp_test ex_udp_stream
    ex_udp_test ex_before_last zero_interval _ _ _ _
    ltac:(done) eq_refl ex_steps (ex_stats_eq ex_before_last)).
  vm_compute. reflexivity.
Defined.
