(* ===== verification/StreamProps.v ===== *)
(** * Streams: properties

    What a file sent with [-F] looks like on the wire and in the file of the receiver, and
    how far a sender can
    overshoot the number of bytes it was asked to send. *)

From S2P Require Import Prelude Double Bytes Posix IperfTime Net Test Udp UdpProps Api Stats.
From S2P Require Import Stream.

#[local] Set Default Proof Using "Type".

(** ** Sending a file *)

Section File.
Context {W : Type} {posix : Posix W} {laws : PosixLaws W} {stream : StreamLaws W}
  {reliable : ReliableLaws W} {clock : Clock W} {files : FileLaws W}.

(** A stream that sends a file over TCP, with nothing left from earlier calls. *)
Definition file_stream (test : iperf_test) (sp : iperf_stream) : Prop :=
  sp_snd sp = DiskIo /\ sp_snd2 sp = TcpIo /\ ends (sp_diskfile_fd sp) /\
  sp_diskfile_left sp = 0 /\ sp_pending_size sp = 0 /\
  Z.of_nat (length (sp_buffer sp)) = st_blksize (t_settings test).

Lemma file_read_spec fd n (w : W) :
  ends fd -> 0 < n ->
  exists data w', file_read fd n w = (Z.of_nat (length data), data, w') /\
    Z.of_nat (length data) <= n /\ inbox w fd = data ++ inbox w' fd /\
    outbox w' = outbox w /\ (data = [] -> inbox w fd = []).
Proof using laws reliable.
  intros Hf Hn. unfold file_read. destruct (decide (inbox w fd = [])) as [E|E].
  - destruct (read_eof fd n w Hf E) as [w' Hr]. rewrite Hr.
    apply read_ok in Hr as [Hi Ho]. exists [], w'. cbn. repeat split; try done; lia.
  - destruct (read_progress fd n w Hn E) as (data & w' & Hr & Hd). rewrite Hr.
    pose proof (read_bound _ _ _ _ _ Hr). apply read_ok in Hr as [Hi Ho].
    exists data, w'. repeat split; try done; lia.
Qed.

(** Sending a whole buffer, or the part [pending_size] says. *)
Lemma tcp_send_whole test sp (w : W) data rest :
  t_zerocopy test = 0 -> sp_buffer sp = data ++ rest -> data <> [] ->
  Z.of_nat (length (sp_buffer sp)) < 2 ^ 31 ->
  (sp_pending_size sp = Z.of_nat (length data) \/
   sp_pending_size sp = 0 /\ st_blksize (t_settings test) = Z.of_nat (length data)) ->
  exists w', iperf_tcp_send test sp w = Some (Z.of_nat (length data),
      sp <| sp_pending_size := 0 |> <| sp_result ::= fun rs => rs
        <| rs_bytes_sent ::= fun n => u64 (n + Z.of_nat (length data)) |>
        <| rs_bytes_sent_this_interval ::= fun n => u64 (n + Z.of_nat (length data)) |> |>,
      w') /\
    outbox w' (sp_socket sp) = outbox w (sp_socket sp) ++ data /\ inbox w' = inbox w.
Proof using laws reliable.
  intros Hz Hbuf Hd Hlen Hp. unfold iperf_tcp_send. rewrite Hz, Z.eqb_refl. cbn [negb].
  assert (0 < Z.of_nat (length data)) as Hpos by (destruct data; [done|cbn; lia]).
  rewrite Hbuf, length_app in Hlen.
  set (sp0 := if sp_pending_size sp =? 0 then _ else _).
  assert (sp0 = sp <| sp_pending_size := Z.of_nat (length data) |>) as ->.
  { subst sp0. destruct Hp as [E|[E <-]].
    - rewrite E. destruct (Z.eqb_spec (Z.of_nat (length data)) 0); [lia|].
      rewrite <- E. by destruct sp.
    - by rewrite E, Z.eqb_refl. }
  rsimpl. rewrite Hbuf, length_app, Nat2Z.id, take_app_length.
  destruct (Z.ltb_spec (Z.of_nat (length data)) 0); [lia|].
  destruct (Z.ltb_spec (Z.of_nat (length data + length rest))
    (Z.of_nat (length data))); [lia|]. cbn [orb].
  destruct (Nwrite_reliable (sp_socket sp) data w) as (w' & -> & Ho & Hi); [lia|].
  cbn [mbind option_bind]. destruct (Z.ltb_spec (Z.of_nat (length data)) 0); [lia|].
  exists w'. split; [|done]. unfold set. by rewrite Z.sub_diag.
Qed.

(** One call moves one read's worth of the file to the socket, or finds the end. *)
Lemma diskfile_send_step h test sp (w : W) :
  t_zerocopy test = 0 -> t_done test = 0 -> 0 < st_blksize (t_settings test) < 2 ^ 31 ->
  file_stream test sp ->
  exists r test' sp' w' data, diskfile_send h test sp w = Some (r, test', sp', w') /\
    r = Z.of_nat (length data) /\ file_stream test' sp' /\
    t_settings test' = t_settings test /\ t_zerocopy test' = t_zerocopy test /\
    sp_socket sp' = sp_socket sp /\ sp_diskfile_fd sp' = sp_diskfile_fd sp /\
    inbox w (sp_diskfile_fd sp) = data ++ inbox w' (sp_diskfile_fd sp) /\
    outbox w' (sp_socket sp) = outbox w (sp_socket sp) ++ data /\
    t_done test' = (if decide (data = []) then 1 else 0) /\
    (data = [] -> inbox w (sp_diskfile_fd sp) = []).
Proof using laws reliable.
  intros Hz Hdone Hb (Hs1 & Hs2 & Hfile & Hleft & Hpend & Hbuf).
  unfold diskfile_send. rewrite Hleft, Hdone, Z.sub_0_r.
  destruct (Z.ltb_spec 0 (st_blksize (t_settings test))); [|lia]. cbn [andb Z.eqb].
  destruct (file_read_spec (sp_diskfile_fd sp) (st_blksize (t_settings test)) w)
    as (data & w1 & -> & Hdl & Hin & Hout & Heof); [done|lia|].
  cbv zeta. rewrite Z.add_0_l.
  assert (length (data ++ drop (length data) (sp_buffer sp)) = length (sp_buffer sp)) as HL.
  { rewrite length_app, length_drop. lia. }
  destruct (decide (data = [])) as [->|Hne].
  - change (Z.of_nat (length [])) with 0. rewrite Z.eqb_refl.
    destruct (Z.eqb_spec 0 (st_blksize (t_settings test))); [lia|]. rsimpl.
    cbn [negb orb Z.eqb]. eexists 0, _, _, w1, []. split; [done|].
    split; [done|]. split; [unfold file_stream, fill_buffer; rsimpl; repeat split; done|].
    rewrite app_nil_r, Hout. repeat split; done.
  - assert (0 < Z.of_nat (length data)) as Hpos by (destruct data; [done|cbn; lia]).
    destruct (Z.eqb_spec (Z.of_nat (length data)) 0); [lia|]. rewrite Hdone.
    cbn [negb orb Z.eqb].
    set (sp1 := if negb _ then _ else _).
    assert (sp_buffer sp1 = data ++ drop (length data) (sp_buffer sp)
            /\ sp_snd sp1 = DiskIo /\ sp_snd2 sp1 = TcpIo
            /\ sp_socket sp1 = sp_socket sp /\ sp_diskfile_fd sp1 = sp_diskfile_fd sp
            /\ (sp_pending_size sp1 = Z.of_nat (length data) \/
                sp_pending_size sp1 = 0 /\
                st_blksize (t_settings test) = Z.of_nat (length data)))
      as (E1 & E2 & E3 & E4 & E5 & E6).
    { subst sp1. unfold fill_buffer.
      destruct (Z.eqb_spec (Z.of_nat (length data)) (st_blksize (t_settings test)));
        cbn [negb]; rsimpl; repeat split; auto. }
    clearbody sp1. rewrite E3. cbn [net_send].
    destruct (tcp_send_whole test sp1 w1 data _ Hz E1 Hne) as (w2 & -> & Ho2 & Hi2);
      [rewrite E1, HL; lia|done|].
    cbn [mbind option_bind]. destruct (Z.ltb_spec (Z.of_nat (length data)) 0); [lia|].
    rsimpl. rewrite Z.sub_diag. cbn [negb andb Z.eqb].
    eexists _, _, _, w2, data. split; [done|]. split; [done|].
    split; [|rsimpl; rewrite decide_False, Hi2, <- E4, Ho2, Hout by done;
             repeat split; done].
    unfold file_stream. rsimpl. rewrite E1, E2, E3, E5, HL. repeat split; done.
Qed.

(** Calling [diskfile_send] until the test is done. *)
Fixpoint send_file (h : endianness) (n : nat) (test : iperf_test) (sp : iperf_stream) (w : W)
    : option (iperf_test * iperf_stream * W) :=
  match n with
  | O => None
  | S n =>
      '(r, test, sp, w) ← stream_send h test sp w;
      if r <? 0 then None
      else if negb (t_done test =? 0) then Some (test, sp, w) else send_file h n test sp w
  end.

Lemma send_file_spec h n test sp (w : W) :
  t_zerocopy test = 0 -> t_done test = 0 -> 0 < st_blksize (t_settings test) < 2 ^ 31 ->
  file_stream test sp -> (length (inbox w (sp_diskfile_fd sp)) < n)%nat ->
  exists test' sp' w', send_file h n test sp w = Some (test', sp', w') /\
    t_done test' = 1 /\ inbox w' (sp_diskfile_fd sp) = [] /\
    outbox w' (sp_socket sp) = outbox w (sp_socket sp) ++ inbox w (sp_diskfile_fd sp).
Proof using laws reliable.
  intros Hz Hd Hb Hsp Hn. revert test sp w Hz Hd Hb Hsp Hn.
  induction n as [|n IH]; intros test sp w Hz Hd Hb Hsp Hn; [lia|].
  cbn [send_file]. unfold stream_send. pose proof (proj1 Hsp) as Hsnd. rewrite Hsnd.
  destruct (diskfile_send_step h test sp w Hz Hd Hb Hsp)
    as (r & test1 & sp1 & w1 & data & -> & -> & Hsp1 & Hset & Hz1 & Hs1 & Hf1 & Hin & Hout
        & Hd1 & Heof).
  cbn [mbind option_bind].
  destruct (Z.ltb_spec (Z.of_nat (length data)) 0); [lia|]. rewrite Hd1.
  destruct (decide (data = [])) as [->|Hne]; cbn [Z.eqb negb].
  - exists test1, sp1, w1. rewrite (Heof eq_refl) in *. cbn [app] in Hin.
    rewrite <- Hin. done.
  - rewrite Hin, length_app in Hn.
    destruct (IH test1 sp1 w1) as (test' & sp' & w' & -> & Hdone & Hi & Ho);
      [congruence|done|by rewrite Hset|done| |].
    { rewrite Hf1. destruct data; [done|]. cbn [length] in Hn. lia. }
    exists test', sp', w'. rewrite Hf1, Hs1 in *. repeat split; try done.
    by rewrite Ho, Hout, Hin, app_assoc.
Qed.
End File.

(** ** The receiver of a file *)

Section FileReceived.
Context {W : Type} {posix : Posix W} {laws : PosixLaws W} {stream : StreamLaws W}
  {reliable : ReliableLaws W} {clock : Clock W} {files : FileLaws W} {disk : WholeWrites W}.

(** Reading from a descriptor that ends: what is there, up to what is asked for. *)
Lemma Nread_loop_ends fuel fd n buf (w : W) :
  ends fd -> 0 <= n -> Z.of_nat (length buf) + n < 2 ^ 31 -> (Z.to_nat n < fuel)%nat ->
  exists w',
    Nread_loop fuel fd (Z.of_nat (length buf) + n) n buf w =
      Some (Z.of_nat (length (buf ++ take (Z.to_nat n) (inbox w fd))),
            buf ++ take (Z.to_nat n) (inbox w fd), w') /\
    inbox w' fd = drop (Z.to_nat n) (inbox w fd) /\ outbox w' = outbox w.
Proof using laws reliable.
  intros He. revert n buf w. induction fuel as [|fuel IH]; intros n buf w Hn Hc Hf; [lia|].
  cbn [Nread_loop]. assert (forall k, 0 <= k < 2 ^ 31 -> i32 k = k) as Hi.
  { intros k ?. apply sint_id; [lia|]. unfold is_sint. lia. }
  destruct (Z.ltb_spec 0 n) as [Hpos|Hz].
  2: { assert (n = 0) as -> by lia. exists w. cbn [Z.to_nat take]. rewrite app_nil_r, Hi by lia.
       by replace (Z.of_nat (length buf) + 0 - 0) with (Z.of_nat (length buf)) by lia. }
  destruct (decide (inbox w fd = [])) as [E|E].
  - destruct (read_eof fd n w He E) as [w' Hr]. rewrite Hr. apply read_ok in Hr as [Hin Hout].
    rewrite E in Hin |- *. cbn [length Z.of_nat Z.eqb]. rewrite take_nil, drop_nil, app_nil_r.
    exists w'. rewrite Hi by lia.
    by replace (Z.of_nat (length buf) + n - n) with (Z.of_nat (length buf)) by lia.
  - destruct (read_progress fd n w Hpos E) as (data & w1 & Hr & Hd). rewrite Hr.
    pose proof (read_bound _ _ _ _ _ Hr). apply read_ok in Hr as [Hin Hout].
    assert (0 < length data)%nat by (destruct data; [done|cbn; lia]).
    destruct (Z.eqb_spec (Z.of_nat (length data)) 0); [lia|].
    destruct (IH (n - Z.of_nat (length data)) (buf ++ data) w1) as (w' & HL & Hi' & Ho');
      [lia|rewrite length_app; lia|lia|].
    assert (take (Z.to_nat n) (inbox w fd) =
            data ++ take (Z.to_nat (n - Z.of_nat (length data))) (inbox w1 fd)) as Ht.
    { rewrite Hin, take_app. rewrite take_ge by lia. do 2 f_equal. lia. }
    exists w'. rewrite length_app in HL.
    replace (Z.of_nat (length buf + length data) + (n - Z.of_nat (length data)))
      with (Z.of_nat (length buf) + n) in HL by lia.
    rewrite HL, Ht, app_assoc, Hi', Ho', Hin. split; [done|]. split; [|done].
    rewrite (drop_app data), (drop_ge data), app_nil_l by lia. f_equal. lia.
Qed.

Lemma Nread_ends fd n (w : W) :
  ends fd -> 0 <= n < 2 ^ 31 ->
  exists w', let data := take (Z.to_nat n) (inbox w fd) in
    Nread fd n w = Some (Z.of_nat (length data), data, w') /\
    inbox w' fd = drop (Z.to_nat n) (inbox w fd) /\ outbox w' = outbox w.
Proof using laws reliable.
  intros He Hn. destruct (Nread_loop_ends (S (Z.to_nat n)) fd n [] w He) as (w' & H);
    [lia|cbn; lia|lia|].
  by exists w'.
Qed.

(** A stream that receives a file over TCP. *)
Definition file_receiver (sp : iperf_stream) : Prop :=
  sp_rcv sp = DiskIo /\ sp_rcv2 sp = TcpIo /\ ends (sp_socket sp) /\ whole (sp_diskfile_fd sp).

(** One call moves one block from the connection to the file. *)
Lemma diskfile_recv_step h test sp (w : W) :
  0 < st_blksize (t_settings test) < 2 ^ 31 -> file_receiver sp ->
  exists sp' w', let data := take (Z.to_nat (st_blksize (t_settings test))) (inbox w (sp_socket sp)) in
    diskfile_recv h test sp w = Some (Z.of_nat (length data), sp', w') /\
    file_receiver sp' /\ sp_socket sp' = sp_socket sp /\ sp_diskfile_fd sp' = sp_diskfile_fd sp /\
    inbox w' (sp_socket sp) =
      drop (Z.to_nat (st_blksize (t_settings test))) (inbox w (sp_socket sp)) /\
    outbox w' (sp_diskfile_fd sp) = outbox w (sp_diskfile_fd sp) ++ data.
Proof using laws reliable.
  intros Hb (H1 & H2 & H3 & H4). unfold diskfile_recv. rewrite H2. cbn [net_recv].
  unfold iperf_tcp_recv.
  destruct (Nread_ends (sp_socket sp) (st_blksize (t_settings test)) w H3) as (w1 & HN & Hi & Ho); [lia|].
  rewrite HN. cbn [mbind option_bind]. set (data := take _ (inbox w _)) in *.
  destruct (Z.ltb_spec (Z.of_nat (length data)) 0); [lia|].
  set (sp1 := fill_buffer data sp).
  assert (exists sp', (if t_state test =? TEST_RUNNING
     then Some (Z.of_nat (length data), sp1 <| sp_result ::= fun rs => rs
      <| rs_bytes_received ::= fun n => u64 (n + Z.of_nat (length data)) |>
      <| rs_bytes_received_this_interval ::= fun n => u64 (n + Z.of_nat (length data)) |> |>, w1)
     else Some (Z.of_nat (length data), sp1, w1)) = Some (Z.of_nat (length data), sp', w1) /\
     sp_buffer sp' = data ++ drop (length data) (sp_buffer sp) /\ file_receiver sp' /\
     sp_socket sp' = sp_socket sp /\ sp_diskfile_fd sp' = sp_diskfile_fd sp)
    as (sp' & -> & Hbuf & Hrec & Hs & Hd).
  { destruct (t_state test =? TEST_RUNNING); (eexists; split; [reflexivity|]);
      unfold sp1, fill_buffer, file_receiver; rsimpl; by split_and!. }
  cbn [mbind option_bind]. destruct (Z.ltb_spec 0 (Z.of_nat (length data))) as [Hpos|Hz].
  - rewrite Hbuf, Hd, Nat2Z.id, take_app_length.
    destruct (write_whole (sp_diskfile_fd sp) data w1 H4) as [w2 Hw]. rewrite Hw.
    apply write_ok in Hw as [Hwo Hwi]. exists sp', w2. split; [done|].
    split_and!; try done; [by rewrite Hwi|].
    by rewrite Hwo, Ho, Nat2Z.id, firstn_all.
  - exists sp', w1. assert (data = []) as -> by (by destruct data; [|cbn in Hz; lia]).
    split; [done|]. split_and!; try done. by rewrite app_nil_r, Ho.
Qed.

(** Calling [diskfile_recv] until nothing comes. *)
Fixpoint recv_file (h : endianness) (n : nat) (test : iperf_test) (sp : iperf_stream) (w : W)
    : option (iperf_stream * W) :=
  match n with
  | O => None
  | S n =>
      '(r, sp, w) ← stream_recv h test sp w;
      if r <? 0 then None else if r =? 0 then Some (sp, w) else recv_file h n test sp w
  end.

Lemma recv_file_spec h n test sp (w : W) :
  0 < st_blksize (t_settings test) < 2 ^ 31 -> file_receiver sp ->
  (length (inbox w (sp_socket sp)) < n)%nat ->
  exists sp' w', recv_file h n test sp w = Some (sp', w') /\
    inbox w' (sp_socket sp) = [] /\
    outbox w' (sp_diskfile_fd sp) = outbox w (sp_diskfile_fd sp) ++ inbox w (sp_socket sp).
Proof using laws reliable.
  intros Hb. revert sp w. induction n as [|n IH]; intros sp w Hsp Hn; [lia|].
  cbn [recv_file]. unfold stream_recv. rewrite (proj1 Hsp).
  destruct (diskfile_recv_step h test sp w Hb Hsp) as (sp1 & w1 & -> & Hsp1 & Hs & Hd & Hi & Ho).
  cbn [mbind option_bind]. set (m := Z.to_nat (st_blksize (t_settings test))) in *.
  rewrite length_take. destruct (Z.ltb_spec (Z.of_nat (m `min` length (inbox w (sp_socket sp)))) 0); [lia|].
  destruct (Z.eqb_spec (Z.of_nat (m `min` length (inbox w (sp_socket sp)))) 0) as [E|E].
  - assert (inbox w (sp_socket sp) = []) as E0 by (apply nil_length_inv; lia).
    exists sp1, w1. rewrite E0, take_nil in Ho. rewrite E0, drop_nil in Hi. by rewrite E0.
  - destruct (IH sp1 w1 Hsp1) as (sp' & w' & -> & Hi' & Ho').
    { rewrite Hs, Hi, length_drop. lia. }
    exists sp', w'. rewrite Hs, Hd in *. split; [done|]. split; [done|].
    by rewrite Ho', Ho, Hi, <- app_assoc, take_drop.
Qed.
End FileReceived.

(** C20: a file sent over TCP arrives as it is. On the sender's host, whose socket takes
    some of every write (as a blocking one does), however short reads and writes are, sending
    the file block by block ends, with the test marked done and the file exhausted, after the
    bytes of the file, in order, have been put on the connection; a receiver to which these
    bytes come, whatever its block size, writes exactly them to its file, if the writes to
    that file are not short. *)
Theorem file_transfer {W1 W2 : Type}
    {p1 : Posix W1} {l1 : PosixLaws W1} {s1 : StreamLaws W1} {r1 : ReliableLaws W1}
    {c1 : Clock W1} {f1 : FileLaws W1}
    {p2 : Posix W2} {l2 : PosixLaws W2} {s2 : StreamLaws W2} {r2 : ReliableLaws W2}
    {c2 : Clock W2} {f2 : FileLaws W2} {d2 : WholeWrites W2}
    h1 h2 n1 n2 test1 test2 sp1 sp2 (w1 : W1) (w2 : W2) :
  t_zerocopy test1 = 0 -> t_done test1 = 0 -> 0 < st_blksize (t_settings test1) < 2 ^ 31 ->
  file_stream (W:=W1) test1 sp1 -> (length (inbox w1 (sp_diskfile_fd sp1)) < n1)%nat ->
  0 < st_blksize (t_settings test2) < 2 ^ 31 -> file_receiver (W:=W2) sp2 ->
  (length (inbox w2 (sp_socket sp2)) < n2)%nat ->
  exists test1' sp1' w1' msg, send_file h1 n1 test1 sp1 w1 = Some (test1', sp1', w1') /\
    t_done test1' = 1 /\ inbox w1' (sp_diskfile_fd sp1) = [] /\
    outbox w1' (sp_socket sp1) = outbox w1 (sp_socket sp1) ++ msg /\
    (inbox w2 (sp_socket sp2) = msg ->
     exists sp2' w2', recv_file h2 n2 test2 sp2 w2 = Some (sp2', w2') /\
       outbox w2' (sp_diskfile_fd sp2) =
         outbox w2 (sp_diskfile_fd sp2) ++ inbox w1 (sp_diskfile_fd sp1)).
Proof.
  intros Hz Hd Hb1 Hsp1 Hn1 Hb2 Hsp2 Hn2.
  destruct (send_file_spec h1 n1 test1 sp1 w1 Hz Hd Hb1 Hsp1 Hn1) as (test' & sp' & w' & E & Ht & Hi & Ho).
  exists test', sp', w', (inbox w1 (sp_diskfile_fd sp1)). do 4 (split; [done|]). intros Hin.
  destruct (recv_file_spec h2 n2 test2 sp2 w2 Hb2 Hsp2 Hn2) as (sp2' & w2' & E2 & _ & Ho2).
  exists sp2', w2'. split; [done|]. by rewrite Ho2, Hin.
Qed.

(** A host whose reads are short and whose writes are not. *)
Module Disk.
Record host := mk_host { incoming : list Z; outgoing : list Z }.

#[global] Instance posix_host : Posix host := {|
  sys_read := fun _ n w =>
    let k := Z.to_nat (Z.min n 3) in
    (Ok (take k (incoming w)), mk_host (drop k (incoming w)) (outgoing w));
  sys_write := fun _ data w =>
    (Ok (Z.of_nat (length data)), mk_host (incoming w) (outgoing w ++ data));
  sys_sendfile := fun _ _ _ _ w => (Ok 0, w) |}.

#[global] Instance host_clock : Clock host := {|
  sys_clock := fun w => (Some (1, 0), w); stack_word := fun _ => 0 |}.

#[global] Instance host_laws : PosixLaws host.
Proof.
  split; cbn.
  - intros fd n w data w' [= <- <-]. rewrite length_take. lia.
  - intros fd data w k w' [= <- <-]. lia.
  - intros o i off n w k w' [= <- <-]. lia.
Qed.

#[global] Instance host_stream : StreamLaws host.
Proof.
  refine {| inbox := fun w _ => incoming w; outbox := fun w _ => outgoing w |}; cbn.
  - intros fd n w data w' [= <- <-]. cbn. by rewrite take_drop.
  - done.
  - intros fd data w k w' [= <- <-]. cbn. by rewrite Nat2Z.id, firstn_all.
  - done.
Defined.

#[global] Instance host_reliable : ReliableLaws host.
Proof.
  split; cbn.
  - intros fd n w Hn Hne. eexists _, _. split; [done|].
    destruct (incoming w) as [|b l]; [done|].
    destruct (Z.to_nat (Z.min n 3)) eqn:E; [lia|done].
  - intros fd data w Hne. eexists _, _. split; [done|]. destruct data; [done|]. cbn [length]. lia.
Qed.

#[global] Instance host_files : FileLaws host.
Proof.
  refine {| ends := fun _ => True |}. cbn. intros fd n w _ ->. rewrite take_nil. by eexists.
Defined.

#[global] Instance host_whole : WholeWrites host.
Proof. refine {| whole := fun _ => True |}. cbn. intros fd data w _. by eexists. Defined.
End Disk.

Definition ex_file_test : iperf_test :=
  zero_test <| t_settings := zero_settings <| st_blksize := 4 |> |>.

Definition ex_file_stream : iperf_stream :=
  zero_stream <| sp_buffer := [0; 0; 0; 0] |> <| sp_snd := DiskIo |> <| sp_snd2 := TcpIo |>
    <| sp_rcv := DiskIo |> <| sp_rcv2 := TcpIo |> <| sp_diskfile_fd := 7 |> <| sp_socket := 8 |>.

Definition ex_file : list Z := [1; 2; 3; 4; 5; 6; 7; 8; 9; 10; 11].

Lemma file_transfer_witness :
  exists sp' w',
    recv_file BigEndian 12 ex_file_test ex_file_stream (Disk.mk_host ex_file []) = Some (sp', w') /\
    outbox w' 7 = ex_file.
Proof.
  destruct (file_transfer LittleEndian BigEndian 12 12 ex_file_test ex_file_test ex_file_stream
      ex_file_stream (Pipe.mk_pipe 3 ex_file []) (Disk.mk_host ex_file []))
    as (test' & sp' & w' & msg & E & _ & _ & Ho & H).
  - reflexivity.
  - reflexivity.
  - cbn. lia.
  - repeat split.
  - cbn. lia.
  - cbn. lia.
  - repeat split.
  - cbn. lia.
  - assert (msg = ex_file) as ->.
    { vm_compute in E. injection E as _ _ <-. vm_compute in Ho. symmetry. exact Ho. }
    destruct (H eq_refl) as (sp2 & w2 & E2 & Hout). exists sp2, w2. split; [exact E2|exact Hout].
Defined.

(** ** A file over a socket that accepts less than a block

    The data sockets are non-blocking, so a write may take part of a block and
    the next one answer EAGAIN. *)
Module Congested.
(** The sizes the next writes accept, a 0 standing for EAGAIN; after the last
    one everything is accepted. *)
Record kernel := mk_kernel { budget : list Z; file : list Z; wire : list Z }.

Definition write (fd : Z) (data : list Z) (k : kernel) : sysres Z * kernel :=
  match budget k with
  | [] => (Ok (Z.of_nat (length data)), mk_kernel [] (file k) (wire k ++ data))
  | b :: bs =>
      if b <=? 0 then (Err EAGAIN, mk_kernel bs (file k) (wire k))
      else
        let n := Z.min b (Z.of_nat (length data)) in
        (Ok n, mk_kernel bs (file k) (wire k ++ take (Z.to_nat n) data))
  end.

Definition read (fd n : Z) (k : kernel) : sysres (list Z) * kernel :=
  (Ok (take (Z.to_nat n) (file k)),
   mk_kernel (budget k) (drop (Z.to_nat n) (file k)) (wire k)).

#[global] Instance kernel_posix : Posix kernel := {|
  sys_read := read; sys_write := write; sys_sendfile := fun _ _ _ _ k => (Ok 0, k) |}.

#[global] Instance kernel_clock : Clock kernel := {|
  sys_clock := fun k => (Some (1, 0), k); stack_word := fun _ => 0 |}.

#[global] Instance kernel_laws : PosixLaws kernel.
Proof.
  split; cbn.
  - intros fd n w data w' [= <- <-]. rewrite length_take. lia.
  - unfold write. intros fd data w k w'. destruct (budget w) as [|b bs].
    + intros [= <- <-]. lia.
    + destruct (Z.leb_spec b 0); [done|]. intros [= <- <-]. lia.
  - intros o i off n w k w' [= <- <-]. lia.
Qed.
End Congested.

(** A file sent over a congested connection arrives with its blocks out of
    order. What a partial write leaves is moved to the front of the buffer, but
    the next call reads the file over it. Here the first write takes 2 of 4
    bytes; the bytes 3 and 4 arrive after the bytes 5 to 8. *)
Theorem diskfile_send_reorders_file :
  exists test' sp' k',
    send_file LittleEndian 9 ex_file_test ex_file_stream
      (Congested.mk_kernel [2; 0] [1; 2; 3; 4; 5; 6; 7; 8] []) = Some (test', sp', k') /\
    Congested.wire k' = [1; 2; 5; 6; 7; 8; 3; 4].
Proof.
  eexists _, _, _. split; [vm_compute; reflexivity|]. reflexivity.
Qed.

(** ** How much one call of iperf_send sends *)

Section Overshoot.
Context {W : Type} {posix : Posix W} {laws : PosixLaws W} {stream : StreamLaws W}
  {clock : Clock W}.

(** A stream of a test without [-F] and [-Z]: what is pending is at most a block. *)
Definition plain_stream (b : Z) (sp : iperf_stream) : Prop :=
  (sp_snd sp = TcpIo \/ sp_snd sp = UdpIo) /\ 0 <= sp_pending_size sp <= b /\
  Z.of_nat (length (sp_buffer sp)) = b.

Definition plain_test (test : iperf_test) : Prop :=
  t_zerocopy test = 0 /\ st_rate (t_settings test) = 0 /\
  16 <= st_blksize (t_settings test) < 2 ^ 31 /\
  Forall (plain_stream (st_blksize (t_settings test))) (t_streams test).

Lemma plain_send h test sp (w : W) :
  plain_test test -> plain_stream (st_blksize (t_settings test)) sp ->
  exists r sp' w', stream_send h test sp w = Some (r, test, sp', w') /\
    r <= st_blksize (t_settings test) /\
    plain_stream (st_blksize (t_settings test)) sp'.
Proof using laws stream.
  intros (Hz & _ & Hb & _) ([Hs|Hs] & Hp & Hl); unfold stream_send; rewrite Hs; cbn [net_send].
  - unfold iperf_tcp_send. rewrite Hz, Z.eqb_refl. cbn [negb].
    set (sp0 := if sp_pending_size sp =? 0 then _ else _).
    assert (0 <= sp_pending_size sp0 <= st_blksize (t_settings test) /\
            sp_buffer sp0 = sp_buffer sp /\ sp_snd sp0 = sp_snd sp) as (Hp0 & E1 & E2).
    { subst sp0. destruct (sp_pending_size sp =? 0); rsimpl; repeat split; try done; lia. }
    clearbody sp0. rewrite E1.
    destruct (Z.ltb_spec (sp_pending_size sp0) 0); [lia|].
    destruct (Z.ltb_spec (Z.of_nat (length (sp_buffer sp))) (sp_pending_size sp0)); [lia|].
    cbn [orb].
    destruct (Nwrite_result (sp_socket sp0)
      (take (Z.to_nat (sp_pending_size sp0)) (sp_buffer sp)) w)
      as (r & w' & -> & Hr); [rewrite length_take; lia|].
    rewrite length_take in Hr. cbn [mbind option_bind].
    destruct (Z.ltb_spec r 0); eexists r, _, w'; (split; [reflexivity|]);
      (split; [lia|]); unfold plain_stream; rsimpl; rewrite E2, ?E1; repeat split; auto; lia.
  - unfold iperf_udp_send. destruct (sys_clock w) as [c w1], (iperf_time_now c _) as [? before].
    rsimpl. fold (negb (t_udp_counters_64bit test =? 0)).
    destruct (udp_header_fits h (negb (t_udp_counters_64bit test =? 0)) before
      (i32 (sp_packet_count sp + 1)) (sp_buffer sp)) as (buf & -> & Hbuf); [lia|].
    cbn [mbind option_bind]. rsimpl.
    destruct (Nwrite_result (sp_socket sp)
      (take (Z.to_nat (st_blksize (t_settings test))) buf) w1) as (r & w' & -> & Hr);
      [rewrite length_take; lia|].
    rewrite length_take in Hr. cbn [mbind option_bind].
    destruct (Z.ltb_spec r 0); eexists r, _, w'; (split; [reflexivity|]);
      (split; [lia|]); unfold plain_stream; rsimpl; rewrite Hbuf; repeat split; auto; lia.
Qed.

(** What [iperf_send] leaves alone. *)
Definition same_plain (test test' : iperf_test) : Prop :=
  plain_test test' /\ t_settings test' = t_settings test /\
  length (t_streams test') = length (t_streams test).

Lemma same_plain_refl test : plain_test test -> same_plain test test.
Proof. done. Qed.

Lemma same_plain_trans t1 t2 t3 : same_plain t1 t2 -> same_plain t2 t3 -> same_plain t1 t3.
Proof. unfold same_plain. intros (_ & E1 & E2) (? & E3 & E4). split; [done|]. split; congruence. Qed.

Lemma put_plain test i sp :
  plain_test test -> plain_stream (st_blksize (t_settings test)) sp ->
  plain_test (put_stream i sp test).
Proof.
  intros (Hz & Hr & Hb & HF) Hsp. unfold plain_test, put_stream. rsimpl.
  repeat split; try done; [lia..|]. by apply Forall_insert.
Qed.

(** One pass sends at most a block per stream; while more passes are to come and
    a number of bytes was asked for, it stops once they have been sent. *)
Lemma pass_bound h k i m now ws test active (w : W) :
  plain_test test -> (i + k = length (t_streams test))%nat -> 0 <= t_bytes_sent test ->
  t_bytes_sent test + Z.of_nat k * st_blksize (t_settings test) < 2 ^ 64 ->
  exists p test' w', send_pass h k i m false now ws test active w = Some (p, test', w') /\
    same_plain test test' /\
    t_bytes_sent test <= t_bytes_sent test' <=
      t_bytes_sent test + Z.of_nat k * st_blksize (t_settings test) /\
    (1 < m -> st_bytes (t_settings test) <> 0 ->
     t_bytes_sent test' <= Z.max (t_bytes_sent test)
       (st_bytes (t_settings test) - 1 + st_blksize (t_settings test))).
Proof using laws stream.
  revert i test active w. induction k as [|k IH]; intros i test active w Ht Hik H0 Hw.
  { eexists _, test, w. split; [done|]. split; [by apply same_plain_refl|]. lia. }
  pose proof (same_plain_refl test Ht) as Hrefl.
  cbn [send_pass].
  destruct (lookup_lt_is_Some_2 (t_streams test) i) as [sp Hsp]; [lia|]. rewrite Hsp.
  cbn [mbind option_bind].
  assert (plain_stream (st_blksize (t_settings test)) sp) as Hplain.
  { destruct Ht as (_ & _ & _ & HF). eapply Forall_lookup_1 in HF; done. }
  assert (0 < st_blksize (t_settings test)) as Hb by (destruct Ht as (_ & _ & ? & _); lia).
  assert (0 <= Z.of_nat k * st_blksize (t_settings test)) as Hkb by lia.
  destruct (negb (sp_green_light sp =? 0) && _ && _).
  2:{ destruct (IH (S i) test active w) as (p & test' & w' & -> & Hs & Hbd & Hlim);
        [done|lia..|]. exists p, test', w'. split; [done|]. split; [done|]. lia. }
  destruct ((1 <? m) && negb (st_bytes (t_settings test) =? 0) && _) eqn:Estop; [eexists _, test, w; (split; [done|]); (split; [done|]); lia|].
  destruct ((1 <? m) && negb (st_blocks (t_settings test) =? 0) && _); [eexists _, test, w; (split; [done|]); (split; [done|]); lia|].
  destruct (plain_send h test sp w Ht Hplain) as (r & sp' & w1 & -> & Hr & Hsp').
  cbn [mbind option_bind].
  pose proof (put_plain test i sp' Ht Hsp') as Hput.
  assert (same_plain test (put_stream i sp' test)) as Hsame.
  { split; [done|]. unfold put_stream. rsimpl. by rewrite length_insert. }
  destruct (Z.ltb_spec r 0).
  { destruct (r =? NET_SOFTERROR); eexists _, _, w1; (split; [reflexivity|]);
      (split; [exact Hsame|]); unfold put_stream; rsimpl; lia. }
  set (test1 := set t_bytes_sent _ _). set (test2 := if sp_pending_size sp' =? 0 then _ else _).
  assert (t_bytes_sent test2 = t_bytes_sent test + r) as E2.
  { assert (t_bytes_sent test2 = t_bytes_sent test1) as ->
      by (subst test2; by destruct (sp_pending_size sp' =? 0)).
    subst test1. unfold put_stream. rsimpl. cint_fold. done. }
  assert (same_plain test test2) as Hsame2.
  { unfold same_plain, plain_test in *. subst test2 test1.
    destruct (sp_pending_size sp' =? 0); rsimpl; exact Hsame. }
  clearbody test2. cbn [mbind option_bind].
  pose proof Hsame2 as (Ht2 & Eset & Elen).
  destruct (IH (S i) test2 true w1) as (p & test' & w' & -> & Hs & Hbd & Hlim);
    [done|lia|lia|rewrite E2, Eset; lia|].
  rewrite E2, Eset in *. exists p, test', w'. split; [done|].
  split; [by eapply same_plain_trans|]. split; [lia|]. intros Hm Hl.
  specialize (Hlim Hm Hl).
  destruct (Z.ltb_spec 1 m); [|lia].
  destruct (Z.eqb_spec (st_bytes (t_settings test)) 0); [lia|].
  cbn [andb negb] in Estop. apply Z.leb_gt in Estop. lia.
Qed.

Lemma loop_bound h fuel m now ws test (w : W) :
  plain_test test -> fuel = Z.to_nat m -> 0 <= t_bytes_sent test ->
  st_bytes (t_settings test) <> 0 ->
  let b := st_blksize (t_settings test) in
  let n := Z.of_nat (length (t_streams test)) in
  let bound := Z.max (t_bytes_sent test) (st_bytes (t_settings test) - 1 + b) + n * b in
  bound < 2 ^ 64 ->
  exists f now' test' w', send_loop h fuel m false now ws test w = Some (f, now', test', w') /\
    same_plain test test' /\ t_bytes_sent test <= t_bytes_sent test' <= bound.
Proof using laws stream.
  intros Ht -> H0 Hl b n bound Hw. subst b n bound.
  remember (Z.to_nat m) as fuel eqn:Hf. revert m test w Hf Ht H0 Hl Hw.
  induction fuel as [|fuel IH]; intros m test w Hf Ht H0 Hl Hw.
  { eexists _, _, test, w. split; [done|]. split; [by apply same_plain_refl|].
    assert (0 < st_blksize (t_settings test)) by (destruct Ht as (_ & _ & ? & _); lia).
    assert (0 <= Z.of_nat (length (t_streams test)) * st_blksize (t_settings test)) by lia.
    lia. }
  assert (0 < st_blksize (t_settings test)) as Hb by (destruct Ht as (_ & _ & ? & _); lia).
  assert (0 <= Z.of_nat (length (t_streams test)) * st_blksize (t_settings test)) as Hnb
    by lia.
  cbn [send_loop]. destruct (Z.ltb_spec 0 m); [|lia].
  destruct (pass_bound h (length (t_streams test)) 0 m now ws test false w)
    as (p & test1 & w1 & -> & Hs & Hbd & Hlim); [done|lia|lia|lia|].
  cbn [mbind option_bind].
  destruct p as [r|[|]]; [eexists _, _, test1, w1; (split; [done|]); (split; [done|]); lia| |
    eexists _, _, test1, w1; (split; [done|]); (split; [done|]); lia].
  destruct (decide (m = 1)) as [->|Hm].
  { destruct fuel; [|lia]. cbn [send_loop]. eexists _, _, test1, w1.
    split; [done|]. split; [done|]. lia. }
  specialize (Hlim ltac:(lia) Hl). destruct Hs as (Ht1 & Eset & Elen).
  destruct (IH (m - 1) test1 w1) as (f & now' & test' & w' & -> & Hs' & Hbd');
    [lia|done|lia|by rewrite Eset|rewrite Eset, Elen; lia|].
  rewrite Eset, Elen in Hbd'. eexists _, _, test', w'. split; [done|].
  split; [by eapply same_plain_trans|lia].
Qed.

(** With no rate to keep the throttle does nothing. *)
Lemma throttle_senders_idle k i now test :
  plain_test test -> (i + k = length (t_streams test))%nat ->
  exists test', throttle_senders k i now test = Some test' /\
    t_bytes_sent test' = t_bytes_sent test.
Proof.
  revert i test. induction k as [|k IH]; intros i test Ht Hik; [by exists test|].
  cbn [throttle_senders].
  destruct (lookup_lt_is_Some_2 (t_streams test) i) as [sp Hsp]; [lia|]. rewrite Hsp.
  cbn [mbind option_bind]. destruct (negb (sp_sender sp =? 0)); [|apply IH; [done|lia]].
  unfold throttle_stream. rewrite Hsp. cbn [mbind option_bind].
  pose proof Ht as (_ & Hr & _ & HF). unfold iperf_check_throttle.
  rewrite Hr, Z.eqb_refl, orb_true_r. cbn [mbind option_bind].
  destruct (IH (S i) (put_stream i sp test)) as (test' & -> & E).
  - apply put_plain; [done|]. eapply Forall_lookup_1 in HF; done.
  - unfold put_stream. rsimpl. rewrite length_insert. lia.
  - by exists test'.
Qed.

(** C21: a sender overshoots by a bounded amount. When an unthrottled test was
    asked for [limit] bytes, one call of [iperf_send] on [n] streams returns, and
    leaves the count of bytes sent at most a block per stream above what it was
    or above the last count below the limit plus a block. *)
Theorem send_overshoot_bounded h test ws now (w : W) :
  let limit := st_bytes (t_settings test) in
  let b := st_blksize (t_settings test) in
  let n := Z.of_nat (length (t_streams test)) in
  let bound := Z.max (t_bytes_sent test) (limit - 1 + b) + n * b in
  plain_test test -> limit <> 0 -> 0 <= t_bytes_sent test -> bound < 2 ^ 64 ->
  exists r ws' test' w', iperf_send h test ws now w = Some (r, ws', test', w') /\
    t_bytes_sent test <= t_bytes_sent test' <= bound.
Proof using laws stream.
  intros limit b n bound Ht Hl H0 Hw. unfold iperf_send.
  pose proof Ht as (_ & Hr & _ & _). rewrite Hr, Z.eqb_refl. cbn [negb andb].
  set (m := if negb _ then _ else _).
  destruct (loop_bound h (Z.to_nat m) m now ws test w Ht eq_refl H0 Hl Hw)
    as (f & now' & test1 & w1 & -> & (Ht1 & Eset & Elen) & Hbd).
  cbn [mbind option_bind]. destruct f as [r|]; [by eexists _, _, test1, w1|].
  destruct (time_now now' w1) as [now2 w2].
  destruct (throttle_senders_idle (length (t_streams test1)) 0 now2 test1 Ht1)
    as (test2 & -> & E); [lia|].
  cbn [mbind option_bind]. eexists _, _, test2, w2. split; [done|]. by rewrite E.
Qed.
End Overshoot.

Definition ex_sender (fd : Z) : iperf_stream :=
  zero_stream <| sp_buffer := replicate 16 7 |> <| sp_snd := TcpIo |> <| sp_socket := fd |>
    <| sp_sender := 1 |> <| sp_green_light := 1 |>.

Definition ex_send_test : iperf_test :=
  zero_test <| t_settings := zero_settings <| st_blksize := 16 |> <| st_bytes := 40 |> |>
    <| t_streams := [ex_sender 5; ex_sender 6] |> <| t_multisend := 10 |>.

(** 40 bytes in blocks of 16 over two streams: 48 are sent. *)
Lemma send_overshoot_bounded_witness :
  exists r ws' test' w',
    iperf_send LittleEndian ex_send_test None time_zero (Pipe.mk_pipe 9 [] [])
      = Some (r, ws', test', w') /\
    t_bytes_sent test' <= 87 /\ t_bytes_sent test' = 48.
Proof.
  destruct (send_overshoot_bounded LittleEndian ex_send_test None time_zero
      (Pipe.mk_pipe 9 [] [])) as (r & ws' & test' & w' & H & Hb).
  - split; [reflexivity|]. split; [reflexivity|]. split; [cbn; lia|].
    repeat constructor; cbn; lia.
  - discriminate.
  - reflexivity.
  - reflexivity.
  - exists r, ws', test', w'. split; [exact H|]. split; [apply Hb|].
    assert (option_map (fun x => t_bytes_sent x.1.2)
      (iperf_send LittleEndian ex_send_test None time_zero (Pipe.mk_pipe 9 [] []))
      = Some 48) as E by (vm_compute; reflexivity).
    rewrite H in E. injection E as E. exact E.
Defined.
