(* ===== verification/Params.v ===== *)
(** * iperf_api.c: the parameters a client sends and a server takes over

    [send_parameters] and [get_parameters], as the JSON object the one builds
    and the changes the other makes to its test; [JSON_write] and [JSON_read]
    carry the text of that object. *)

From S2P Require Import Prelude Double Bytes Posix IperfTime Net CJson Test JsonTree Api.

#[local] Open Scope string_scope.
#[local] Open Scope Z_scope.

(** ** Building an object *)

(** The members one conditional [cJSON_Add...ToObject] adds. *)
Definition add_true (cond : bool) (name : string) : list (string * cJSON) :=
  if cond then [(name, JBool true 0)] else [].
Definition add_number (cond : bool) (name : string) (z : Z) : list (string * cJSON) :=
  if cond then [(name, cJSON_CreateNumber (d_of_Z z))] else [].
Definition add_string (name : string) (s : option string) : list (string * cJSON) :=
  match s with Some s => [(name, JString s)] | None => [] end.

Definition IPERF_VERSION : string := "3.10.1".

(** The object of [send_parameters], for the protocol with this id; [token] is
    the authentication token, when the client has credentials. *)
Definition parameters_json (prot : Z) (token : option string) (test : iperf_test) : cJSON :=
  let st := t_settings test in
  JObject (
    add_true (prot =? Ptcp) "tcp" ++
    add_true (negb (prot =? Ptcp) && (prot =? Pudp)) "udp" ++
    add_true (negb (prot =? Ptcp) && negb (prot =? Pudp) && (prot =? Psctp)) "sctp" ++
    add_number true "omit" (t_omit test) ++
    add_number (negb (t_server_affinity test =? -1)) "server_affinity"
      (t_server_affinity test) ++
    add_number true "time" (t_duration test) ++
    add_number (nonzero (st_bytes st)) "num" (st_bytes st) ++
    add_number (nonzero (st_blocks st)) "blockcount" (st_blocks st) ++
    add_number (nonzero (st_mss st)) "MSS" (st_mss st) ++
    add_true (nonzero (t_no_delay test)) "nodelay" ++
    add_number true "parallel" (t_num_streams test) ++
    add_true (nonzero (t_reverse test)) "reverse" ++
    add_true (nonzero (t_bidirectional test)) "bidirectional" ++
    add_number (nonzero (st_socket_bufsize st)) "window" (st_socket_bufsize st) ++
    add_number (nonzero (st_blksize st)) "len" (st_blksize st) ++
    add_number (nonzero (st_rate st)) "bandwidth" (st_rate st) ++
    add_number (nonzero (st_fqrate st)) "fqrate" (st_fqrate st) ++
    add_number (nonzero (st_pacing_timer st)) "pacing_timer" (st_pacing_timer st) ++
    add_number (nonzero (st_burst st)) "burst" (st_burst st) ++
    add_number (nonzero (st_tos st)) "TOS" (st_tos st) ++
    add_number (nonzero (st_flowlabel st)) "flowlabel" (st_flowlabel st) ++
    add_string "title" (t_title test) ++
    add_string "extra_data" (t_extra_data test) ++
    add_string "congestion" (t_congestion test) ++
    add_string "congestion_used" (t_congestion_used test) ++
    add_number (nonzero (t_get_server_output test)) "get_server_output"
      (iperf_get_test_get_server_output test) ++
    add_number (nonzero (t_udp_counters_64bit test)) "udp_counters_64bit"
      (iperf_get_test_udp_counters_64bit test) ++
    add_number (nonzero (t_repeating_payload test)) "repeating_payload"
      (t_repeating_payload test) ++
    add_number (nonzero (st_dont_fragment st)) "dont_fragment" (st_dont_fragment st) ++
    add_string "authtoken" token ++
    [("client_version", JString IPERF_VERSION)]).

(** ** Taking an object over *)

(** [if ((j_p = cJSON_GetObjectItem(j, name)) != NULL) f], for an [f] that may
    dereference a null pointer. *)
Definition on_item (j : cJSON) (name : string)
    (f : cJSON -> iperf_test -> option iperf_test) (test : iperf_test) : option iperf_test :=
  match cJSON_GetObjectItem j name with Some j_p => f j_p test | None => Some test end.

(** An [int] member of the test, or of its settings, is assigned [valueint]. *)
Definition take_int (upd : Z -> iperf_test -> iperf_test) (j_p : cJSON) (test : iperf_test)
    : option iperf_test := Some (upd (i32 (valueint j_p)) test).
Definition take_u64 (upd : Z -> iperf_test -> iperf_test) (j_p : cJSON) (test : iperf_test)
    : option iperf_test := Some (upd (u64 (valueint j_p)) test).

(** [strdup(j_p->valuestring)]: a null pointer unless the item is a string. *)
Definition take_string (upd : option string -> iperf_test -> iperf_test) (j_p : cJSON)
    (test : iperf_test) : option iperf_test :=
  s ← valuestring j_p; Some (upd (Some s) test).

Definition take_flag (upd : iperf_test -> iperf_test) (_ : cJSON) (test : iperf_test)
    : option iperf_test := Some (upd test).

Definition take_protocol (prot : Z) (_ : cJSON) (test : iperf_test) : option iperf_test :=
  snd <$> set_protocol test prot.

Definition set_st (f : iperf_settings -> iperf_settings) (test : iperf_test) : iperf_test :=
  test <| t_settings ::= f |>.

(** [get_parameters] once the object has arrived, in the order of the code. *)
Definition take_protocols (j : cJSON) (test : iperf_test) : option iperf_test :=
  test ← on_item j "tcp" (take_protocol Ptcp) test;
  test ← on_item j "udp" (take_protocol Pudp) test;
  on_item j "sctp" (take_protocol Psctp) test.

Definition take_limits (j : cJSON) (test : iperf_test) : option iperf_test :=
  test ← on_item j "omit" (take_int (fun v t => t <| t_omit := v |>)) test;
  test ← on_item j "server_affinity"
           (take_int (fun v t => t <| t_server_affinity := v |>)) test;
  test ← on_item j "time" (take_int (fun v t => t <| t_duration := v |>)) test;
  test ← on_item j "num" (take_u64 (fun v => set_st (fun s => s <| st_bytes := v |>))) test;
  test ← on_item j "blockcount"
           (take_u64 (fun v => set_st (fun s => s <| st_blocks := v |>))) test;
  test ← on_item j "MSS" (take_int (fun v => set_st (fun s => s <| st_mss := v |>))) test;
  test ← on_item j "nodelay" (take_flag (fun t => t <| t_no_delay := 1 |>)) test;
  on_item j "parallel" (take_int (fun v t => t <| t_num_streams := v |>)) test.

Definition take_direction (j : cJSON) (test : iperf_test) : option iperf_test :=
  test ← on_item j "reverse" (fun _ t => iperf_set_test_reverse t 1) test;
  on_item j "bidirectional" (fun _ t => iperf_set_test_bidirectional t 1) test.

Definition take_settings (j : cJSON) (test : iperf_test) : option iperf_test :=
  test ← on_item j "window"
           (take_int (fun v => set_st (fun s => s <| st_socket_bufsize := v |>))) test;
  test ← on_item j "len" (take_int (fun v => set_st (fun s => s <| st_blksize := v |>))) test;
  test ← on_item j "bandwidth"
           (take_u64 (fun v => set_st (fun s => s <| st_rate := v |>))) test;
  test ← on_item j "fqrate"
           (take_u64 (fun v => set_st (fun s => s <| st_fqrate := v |>))) test;
  test ← on_item j "pacing_timer"
           (take_int (fun v => set_st (fun s => s <| st_pacing_timer := v |>))) test;
  test ← on_item j "burst" (take_int (fun v => set_st (fun s => s <| st_burst := v |>))) test;
  test ← on_item j "TOS" (take_int (fun v => set_st (fun s => s <| st_tos := v |>))) test;
  on_item j "flowlabel" (take_int (fun v => set_st (fun s => s <| st_flowlabel := v |>))) test.

Definition take_strings (j : cJSON) (test : iperf_test) : option iperf_test :=
  test ← on_item j "title" (take_string (fun v t => t <| t_title := v |>)) test;
  test ← on_item j "extra_data" (take_string (fun v t => t <| t_extra_data := v |>)) test;
  test ← on_item j "congestion" (take_string (fun v t => t <| t_congestion := v |>)) test;
  on_item j "congestion_used" (take_string (fun v t => t <| t_congestion_used := v |>)) test.

Definition take_options (j : cJSON) (test : iperf_test) : option iperf_test :=
  test ← on_item j "get_server_output"
           (take_flag (fun t => iperf_set_test_get_server_output t 1)) test;
  test ← on_item j "udp_counters_64bit"
           (take_flag (fun t => iperf_set_test_udp_counters_64bit t 1)) test;
  test ← on_item j "repeating_payload"
           (take_flag (fun t => t <| t_repeating_payload := 1 |>)) test;
  on_item j "dont_fragment"
    (take_int (fun v => set_st (fun s => s <| st_dont_fragment := v |>))) test.

Definition apply_parameters (j : cJSON) (test : iperf_test) : option iperf_test :=
  test ← take_protocols j test;
  test ← take_limits j test;
  test ← take_direction j test;
  test ← take_settings j test;
  test ← take_strings j test;
  test ← take_options j test;
  test ← on_item j "authtoken"
           (take_string (fun v => set_st (fun s => s <| st_authtoken := v |>))) test;
  if decide (t_mode test = RECEIVER) then Some test
  else
    p ← t_protocol test;
    Some (if (pr_id p =? Ptcp) && has_tcpinfo_retransmits
          then test <| t_sender_has_retransmits := 1 |> else test).

(** ** The exchange *)

Section Exchange.
Context {W : Type} {posix : Posix W}.
(** [cJSON_PrintUnformatted] and [cJSON_Parse], and [encode_auth_setting], whose
    [None] is a failure of the encryption. *)
Variables (print : cJSON -> option (list Z)) (parse : list Z -> option cJSON)
  (encode_auth : string -> string -> string -> option string).

(** The result, the test and the kernel. *)
Definition send_parameters (h : endianness) (test : iperf_test) (w : W)
    : option (Z * iperf_test * W) :=
  p ← t_protocol test;
  let st := t_settings test in
  match st_client_username st, st_client_password st, st_client_rsa_pubkey st with
  | Some u, Some pw, Some key =>
      match encode_auth u pw key with
      | None => Some (-1, test <| t_i_errno := IESENDPARAMS |>, w)
      | Some token =>
          let test := set_st (fun s => s <| st_authtoken := Some token |>) test in
          '(r, w) ← JSON_write h (t_ctrl_sck test)
                      (print (parameters_json (pr_id p) (Some token) test)) w;
          if r <? 0 then Some (-1, test <| t_i_errno := IESENDPARAMS |>, w)
          else Some (0, test, w)
      end
  | _, _, _ =>
      '(r, w) ← JSON_write h (t_ctrl_sck test)
                  (print (parameters_json (pr_id p) None test)) w;
      if r <? 0 then Some (-1, test <| t_i_errno := IESENDPARAMS |>, w)
      else Some (0, test, w)
  end.

(** The rate, in the JSON output; a null [json_start] takes nothing. *)
Definition show_target_bitrate (test : iperf_test) : iperf_test :=
  let rate := st_rate (t_settings test) in
  if rate =? 0 then test
  else add_json json_start "target_bitrate" (cJSON_CreateNumber (d_of_Z rate)) test.

Definition get_parameters (h : endianness) (stack : list Z) (calloc_ok : bool)
    (test : iperf_test) (w : W) : option (Z * iperf_test * W) :=
  '(j, w) ← JSON_read h parse stack calloc_ok (t_ctrl_sck test) w;
  match j with
  | None => Some (-1, test <| t_i_errno := IERECVPARAMS |>, w)
  | Some j => test ← apply_parameters j test; Some (0, show_target_bitrate test, w)
  end.
End Exchange.
