(* ===== verification/ParamsProps.v ===== *)
(** * Parameters: properties *)

From S2P Require Import Prelude Double Bytes Posix IperfTime Net CJson Test Api Params.

#[local] Open Scope string_scope.
#[local] Open Scope Z_scope.

(** ** When taking an object over dereferences a null pointer *)

(** The members the code copies with [strdup(j_p->valuestring)]. *)
Definition string_members : list string :=
  ["title"; "extra_data"; "congestion"; "congestion_used"; "authtoken"].

Definition is_string (j : cJSON) : bool :=
  match j with JString _ => true | _ => false end.

(** A member that is absent or a string. *)
Definition string_or_absent (j : cJSON) (name : string) : bool :=
  match cJSON_GetObjectItem j name with Some item => is_string item | None => true end.

(** The protocol pointer is set, and stays so. *)
Definition has_protocol (test : iperf_test) : Prop := is_Some (t_protocol test).

Lemma check_sender_protocol test :
  has_protocol test ->
  exists test', check_sender_has_retransmits test = Some test' /\ has_protocol test'.
Proof.
  intros Hp. unfold check_sender_has_retransmits. case_decide; [by eexists|].
  destruct Hp as [p Hp]. rewrite Hp. eexists. split; [done|]. unfold has_protocol. rsimpl.
  by eexists.
Qed.

(** A step of [apply_parameters] that cannot fail. *)
Definition harmless (f : cJSON -> iperf_test -> option iperf_test) : Prop :=
  forall j test, has_protocol test -> exists test', f j test = Some test' /\ has_protocol test'.

Lemma harmless_protocol prot : harmless (take_protocol prot).
Proof.
  intros j test Hp. unfold take_protocol, set_protocol.
  destruct (get_protocol test prot) as [p|]; [|by eexists].
  destruct (check_sender_protocol (test <| t_protocol := Some p |>)) as (test' & -> & H);
    [by eexists|]. by eexists.
Qed.

Lemma harmless_reverse v : harmless (fun _ t => iperf_set_test_reverse t v).
Proof.
  intros j test Hp. unfold iperf_set_test_reverse. apply check_sender_protocol.
  unfold has_protocol in *. by repeat case_match; rsimpl.
Qed.

Lemma harmless_bidirectional : harmless (fun _ t => iperf_set_test_bidirectional t 1).
Proof. intros j test Hp. by eexists. Qed.

Lemma harmless_int upd :
  (forall v t, t_protocol (upd v t) = t_protocol t) -> harmless (take_int upd).
Proof. intros E j test Hp. eexists. split; [done|]. unfold has_protocol. by rewrite E. Qed.

Lemma harmless_u64 upd :
  (forall v t, t_protocol (upd v t) = t_protocol t) -> harmless (take_u64 upd).
Proof. intros E j test Hp. eexists. split; [done|]. unfold has_protocol. by rewrite E. Qed.

Lemma harmless_flag upd :
  (forall t, t_protocol (upd t) = t_protocol t) -> harmless (take_flag upd).
Proof. intros E j test Hp. eexists. split; [done|]. unfold has_protocol. by rewrite E. Qed.

Lemma on_item_harmless j name f (k : iperf_test -> option iperf_test) P test :
  harmless f -> has_protocol test ->
  (forall test, has_protocol test -> is_Some (k test) <-> P) ->
  is_Some (on_item j name f test ≫= k) <-> P.
Proof.
  intros Hf Hp Hk. unfold on_item. destruct (cJSON_GetObjectItem j name) as [item|];
    [|by apply Hk]. destruct (Hf item test Hp) as (test' & -> & Hp'). by apply Hk.
Qed.

Lemma on_item_string j name upd (k : iperf_test -> option iperf_test) P test :
  (forall v t, t_protocol (upd v t) = t_protocol t) -> has_protocol test ->
  (forall test, has_protocol test -> is_Some (k test) <-> P) ->
  is_Some (on_item j name (take_string upd) test ≫= k) <->
    string_or_absent j name = true /\ P.
Proof.
  intros E Hp Hk. unfold on_item, string_or_absent.
  destruct (cJSON_GetObjectItem j name) as [item|]; [|rewrite <- Hk by done; naive_solver].
  unfold take_string. destruct item as [| | |s| |]; cbn;
    try (split; [by intros [? ?]|by intros [? ?]]).
  rewrite Hk; [naive_solver|]. unfold has_protocol. by rewrite E.
Qed.

#[local] Hint Resolve harmless_protocol harmless_reverse harmless_bidirectional harmless_int
  harmless_u64 harmless_flag : core.

(** Walks down a chain of steps, one [on_item] at a time. *)
Ltac chain_step :=
  rewrite ?obind_assoc;
  first [apply on_item_harmless; [by auto|done|] | apply on_item_string; [done|done|]];
  let t := fresh "t" in let Ht := fresh "Ht" in intros t Ht; cbv beta.

(** C27: what a hostile client can crash a server with. Taking a parameter object
    over dereferences a null pointer exactly when one of the five string
    members is present but is not a string; whatever else the object holds, the
    server goes on. *)
Theorem parameters_crash_iff j test :
  has_protocol test ->
  is_Some (apply_parameters j test) <->
    Forall (fun name => string_or_absent j name = true) string_members.
Proof.
  intros Hp. unfold string_members. rewrite !Forall_cons, Forall_nil.
  unfold apply_parameters, take_protocols, take_limits, take_direction, take_settings,
    take_strings, take_options.
  do 30 chain_step. split; [done|]. intros _. destruct Ht28 as [p Hpr].
  case_decide; [by eexists|]. rewrite Hpr. by eexists.
Qed.

Lemma parameters_crash_iff_witness :
  apply_parameters (JObject [("tcp", JBool true 0); ("Title", cJSON_CreateNumber (d_of_Z 5))])
    (zero_test <| t_protocol := Some (mk_protocol Ptcp "TCP") |>) = None.
Proof.
  destruct (apply_parameters _ _) eqn:E; [|reflexivity]. exfalso.
  assert (is_Some (apply_parameters
    (JObject [("tcp", JBool true 0); ("Title", cJSON_CreateNumber (d_of_Z 5))])
    (zero_test <| t_protocol := Some (mk_protocol Ptcp "TCP") |>))) as H
    by (rewrite E; eexists; reflexivity).
  apply parameters_crash_iff in H; [|eexists; reflexivity].
  apply Forall_inv in H. vm_compute in H. discriminate H.
Defined.

(** ** Round trip *)

(** The members of the client's object, one lookup at a time. *)
Lemma get_add_true name c key :
  get_member name (add_true c key) =
    if c && case_insensitive_eq name key then Some (JBool true 0) else None.
Proof. destruct c; cbn; [by destruct (case_insensitive_eq name key)|done]. Qed.

Lemma get_add_number name c key z :
  get_member name (add_number c key z) =
    if c && case_insensitive_eq name key then Some (cJSON_CreateNumber (d_of_Z z)) else None.
Proof. destruct c; cbn; [by destruct (case_insensitive_eq name key)|done]. Qed.

Lemma get_add_string name key s :
  get_member name (add_string key s) =
    if case_insensitive_eq name key then JString <$> s else None.
Proof. destruct s; cbn; by destruct (case_insensitive_eq name key). Qed.

Ltac lookup_parameter :=
  unfold parameters_json, cJSON_GetObjectItem; rewrite !get_member_app;
  rewrite ?get_add_true, ?get_add_number, ?get_add_string;
  repeat match goal with
    | |- context [case_insensitive_eq ?a ?b] =>
        let v := eval vm_compute in (case_insensitive_eq a b) in
        change (case_insensitive_eq a b) with v
    end;
  rewrite ?andb_false_r, ?andb_true_r; cbn [get_member].

Definition number_if (cond : bool) (z : Z) : option cJSON :=
  if cond then Some (cJSON_CreateNumber (d_of_Z z)) else None.
Definition true_if (cond : bool) : option cJSON := if cond then Some (JBool true 0) else None.

(** What a lookup in the client's object finds, member by member. *)
Section Lookup.
Context (prot : Z) (token : option string) (c : iperf_test).
Let find (name : string) : option cJSON :=
  cJSON_GetObjectItem (parameters_json prot token c) name.
Let st := t_settings c.

Ltac found := subst find st; cbv beta; unfold number_if, true_if; lookup_parameter;
  first [reflexivity | match goal with |- context [if ?b then _ else _] => by destruct b end
        | match goal with |- context [_ <$> ?o] => by destruct o end].

Lemma find_tcp : find "tcp" = true_if (prot =? Ptcp). Proof. found. Qed.
Lemma find_udp : find "udp" = true_if (negb (prot =? Ptcp) && (prot =? Pudp)).
Proof. found. Qed.
Lemma find_sctp :
  find "sctp" = true_if (negb (prot =? Ptcp) && negb (prot =? Pudp) && (prot =? Psctp)).
Proof. found. Qed.
Lemma find_omit : find "omit" = number_if true (t_omit c). Proof. found. Qed.
Lemma find_affinity :
  find "server_affinity" = number_if (negb (t_server_affinity c =? -1)) (t_server_affinity c).
Proof. found. Qed.
Lemma find_time : find "time" = number_if true (t_duration c). Proof. found. Qed.
Lemma find_num : find "num" = number_if (nonzero (st_bytes st)) (st_bytes st).
Proof. found. Qed.
Lemma find_blockcount : find "blockcount" = number_if (nonzero (st_blocks st)) (st_blocks st).
Proof. found. Qed.
Lemma find_mss : find "MSS" = number_if (nonzero (st_mss st)) (st_mss st).
Proof. found. Qed.
Lemma find_nodelay : find "nodelay" = true_if (nonzero (t_no_delay c)). Proof. found. Qed.
Lemma find_parallel : find "parallel" = number_if true (t_num_streams c). Proof. found. Qed.
Lemma find_reverse : find "reverse" = true_if (nonzero (t_reverse c)). Proof. found. Qed.
Lemma find_bidirectional : find "bidirectional" = true_if (nonzero (t_bidirectional c)).
Proof. found. Qed.
Lemma find_window :
  find "window" = number_if (nonzero (st_socket_bufsize st)) (st_socket_bufsize st).
Proof. found. Qed.
Lemma find_len : find "len" = number_if (nonzero (st_blksize st)) (st_blksize st).
Proof. found. Qed.
Lemma find_bandwidth : find "bandwidth" = number_if (nonzero (st_rate st)) (st_rate st).
Proof. found. Qed.
Lemma find_fqrate : find "fqrate" = number_if (nonzero (st_fqrate st)) (st_fqrate st).
Proof. found. Qed.
Lemma find_pacing_timer :
  find "pacing_timer" = number_if (nonzero (st_pacing_timer st)) (st_pacing_timer st).
Proof. found. Qed.
Lemma find_burst : find "burst" = number_if (nonzero (st_burst st)) (st_burst st).
Proof. found. Qed.
Lemma find_tos : find "TOS" = number_if (nonzero (st_tos st)) (st_tos st).
Proof. found. Qed.
Lemma find_flowlabel : find "flowlabel" = number_if (nonzero (st_flowlabel st)) (st_flowlabel st).
Proof. found. Qed.
Lemma find_title : find "title" = JString <$> t_title c. Proof. found. Qed.
Lemma find_extra_data : find "extra_data" = JString <$> t_extra_data c. Proof. found. Qed.
Lemma find_congestion : find "congestion" = JString <$> t_congestion c. Proof. found. Qed.
Lemma find_congestion_used : find "congestion_used" = JString <$> t_congestion_used c.
Proof. found. Qed.
Lemma find_get_server_output :
  find "get_server_output" =
    number_if (nonzero (t_get_server_output c)) (t_get_server_output c).
Proof. found. Qed.
Lemma find_udp_counters :
  find "udp_counters_64bit" =
    number_if (nonzero (t_udp_counters_64bit c)) (t_udp_counters_64bit c).
Proof. found. Qed.
Lemma find_repeating_payload :
  find "repeating_payload" =
    number_if (nonzero (t_repeating_payload c)) (t_repeating_payload c).
Proof. found. Qed.
Lemma find_dont_fragment :
  find "dont_fragment" = number_if (nonzero (st_dont_fragment st)) (st_dont_fragment st).
Proof. found. Qed.
Lemma find_authtoken : find "authtoken" = JString <$> token. Proof. found. Qed.
End Lookup.

(** One step of [apply_parameters] on the client's object: with a default on the
    server equal to what the client does not send, every step is an assignment. *)
Definition exact (z : Z) : Prop := Z.abs z < 2 ^ 53.

Lemma step_int j name cond z upd test :
  cJSON_GetObjectItem j name = number_if cond z -> is_sint 32 z ->
  (cond = false -> upd z test = test) ->
  on_item j name (take_int upd) test = Some (upd z test).
Proof.
  unfold on_item, number_if, take_int, is_sint. intros -> Hz Hdef. destruct cond; [|by rewrite Hdef].
  rewrite create_number_exact by lia. cbn [valueint].
  by rewrite sint_id by (unfold is_sint; lia).
Qed.

Lemma step_u64 j name cond z upd test :
  cJSON_GetObjectItem j name = number_if cond z -> 0 <= z < 2 ^ 53 ->
  (cond = false -> upd z test = test) ->
  on_item j name (take_u64 upd) test = Some (upd z test).
Proof.
  unfold on_item, number_if, take_u64. intros -> Hz Hdef. destruct cond; [|by rewrite Hdef].
  rewrite create_number_exact by lia. cbn [valueint].
  by rewrite uint_id by (unfold is_uint; lia).
Qed.

Lemma step_string j name s upd test :
  cJSON_GetObjectItem j name = JString <$> s ->
  (s = None -> upd s test = test) ->
  on_item j name (take_string upd) test = Some (upd s test).
Proof.
  unfold on_item, take_string. intros -> Hdef. destruct s as [s|]; [done|].
  cbn. by rewrite Hdef.
Qed.

Definition flag (b : bool) : Z := if b then 1 else 0.

Lemma step_flag j name item (cond : bool) (upd : Z -> iperf_test -> iperf_test) test :
  cJSON_GetObjectItem j name = (if cond then Some item else None) ->
  (cond = false -> upd 0 test = test) ->
  on_item j name (take_flag (upd 1)) test = Some (upd (flag cond) test).
Proof. unfold on_item, take_flag. intros -> Hdef. destruct cond; [done|]. cbn. by rewrite Hdef. Qed.

(** [r] with a member assigned the value it has is [r]. *)
Ltac same_test :=
  match goal with
  | |- set ?f (fun _ => ?v) ?r = ?r =>
      let H := fresh in
      assert (f r = v) as H by (rsimpl; first [congruence|done]);
      revert H; generalize r; intros x H; destruct x; cbn in H |- *; by subst
  end.

Lemma set_st_same f test : f (t_settings test) = t_settings test -> set_st f test = test.
Proof. destruct test. unfold set_st, set. cbn. by intros ->. Qed.

Ltac same_settings :=
  apply set_st_same;
  match goal with
  | |- set ?f (fun _ => ?v) ?r = _ =>
      let H := fresh in
      assert (f r = v) as H by (rsimpl; first [congruence|done]);
      revert H; generalize r; intros x H; destruct x; cbn in H |- *; by subst
  end.

(** * The round trip *)


(** A client that has been set up: its numbers fit the fields and are small enough
    for a JSON number. A zero block size or pacing timer is not sent. *)
Definition client_ok (c : iperf_test) : Prop :=
  let st := t_settings c in
  (is_sint 32 (t_omit c) /\ is_sint 32 (t_server_affinity c) /\ is_sint 32 (t_duration c) /\
   is_sint 32 (st_mss st) /\ is_sint 32 (t_num_streams c)) /\
  (is_sint 32 (st_socket_bufsize st) /\ is_sint 32 (st_blksize st) /\
   is_sint 32 (st_pacing_timer st) /\ is_sint 32 (st_burst st) /\ is_sint 32 (st_tos st) /\
   is_sint 32 (st_flowlabel st) /\ is_sint 32 (st_dont_fragment st)) /\
  (0 <= st_bytes st < 2 ^ 53 /\ 0 <= st_blocks st < 2 ^ 53 /\
   0 <= st_rate st < 2 ^ 53 /\ 0 <= st_fqrate st < 2 ^ 53) /\
  st_blksize st <> 0 /\ st_pacing_timer st <> 0 /\
  (t_reverse c = 0 \/ t_bidirectional c = 0).

(** A server waiting for its first client. *)
Definition server_fresh (s : iperf_test) : Prop :=
  let st := t_settings s in
  t_role s = "s"%char /\ t_mode s = RECEIVER /\ t_reverse s = 0 /\ t_bidirectional s = 0 /\
  t_sender_has_retransmits s = 0 /\ t_server_affinity s = -1 /\ t_no_delay s = 0 /\
  t_title s = None /\ t_extra_data s = None /\ t_congestion s = None /\
  t_congestion_used s = None /\ t_get_server_output s = 0 /\ t_udp_counters_64bit s = 0 /\
  t_repeating_payload s = 0 /\
  st_bytes st = 0 /\ st_blocks st = 0 /\ st_mss st = 0 /\ st_socket_bufsize st = 0 /\
  st_rate st = 0 /\ st_fqrate st = 0 /\ st_burst st = 0 /\ st_tos st = 0 /\
  st_flowlabel st = 0 /\ st_dont_fragment st = 0 /\ st_authtoken st = None.

(** The mode of the server of a client. *)
Definition opposite (c : iperf_test) : iperf_mode :=
  if nonzero (t_bidirectional c) then BIDIRECTIONAL
  else if nonzero (t_reverse c) then SENDER else RECEIVER.

(** The server agrees with the client on every parameter. *)
Definition agrees (c s : iperf_test) : Prop :=
  let cs := t_settings c in
  let ss := t_settings s in
  t_omit s = t_omit c /\ t_server_affinity s = t_server_affinity c /\
  t_duration s = t_duration c /\ t_num_streams s = t_num_streams c /\
  t_no_delay s = flag (nonzero (t_no_delay c)) /\
  t_reverse s = flag (nonzero (t_reverse c)) /\
  t_bidirectional s = flag (nonzero (t_bidirectional c)) /\ t_mode s = opposite c /\
  t_title s = t_title c /\ t_extra_data s = t_extra_data c /\
  t_congestion s = t_congestion c /\ t_congestion_used s = t_congestion_used c /\
  t_get_server_output s = flag (nonzero (t_get_server_output c)) /\
  t_udp_counters_64bit s = flag (nonzero (t_udp_counters_64bit c)) /\
  t_repeating_payload s = flag (nonzero (t_repeating_payload c)) /\
  st_bytes ss = st_bytes cs /\ st_blocks ss = st_blocks cs /\ st_mss ss = st_mss cs /\
  st_socket_bufsize ss = st_socket_bufsize cs /\ st_blksize ss = st_blksize cs /\
  st_rate ss = st_rate cs /\ st_fqrate ss = st_fqrate cs /\
  st_pacing_timer ss = st_pacing_timer cs /\ st_burst ss = st_burst cs /\
  st_tos ss = st_tos cs /\ st_flowlabel ss = st_flowlabel cs /\
  st_dont_fragment ss = st_dont_fragment cs.

(** The three protocol lookups select the client's protocol. *)
Lemma select_protocol token c s p :
  t_mode s = RECEIVER -> t_sender_has_retransmits s = 0 ->
  get_protocol s (pr_id p) = Some p -> pr_id p = Ptcp \/ pr_id p = Pudp ->
  take_protocols (parameters_json (pr_id p) token c) s = Some (s <| t_protocol := Some p |>).
Proof.
  intros Hm Hr Hp Hid.
  assert (take_protocol (pr_id p) JNull s = Some (s <| t_protocol := Some p |>)) as Htake.
  { unfold take_protocol, set_protocol. rewrite Hp. unfold check_sender_has_retransmits.
    rsimpl. rewrite Hm, decide_True by done. cbn [mbind option_bind fmap option_fmap option_map snd].
    f_equal. same_test. }
  unfold take_protocols, on_item. rewrite find_tcp, find_udp, find_sctp. unfold true_if.
  destruct Hid as [E|E]; rewrite E in *; cbn [Z.eqb Ptcp Pudp Psctp Pos.eqb negb andb];
    exact (f_equal (fun o => o ≫= Some) Htake) || exact Htake.
Qed.

(** The two direction lookups derive the server's mode. *)
Lemma select_direction prot token c s :
  t_role s = "s"%char -> t_mode s = RECEIVER -> t_reverse s = 0 -> t_bidirectional s = 0 ->
  is_Some (t_protocol s) -> (t_reverse c = 0 \/ t_bidirectional c = 0) ->
  exists r, take_direction (parameters_json prot token c) s =
    Some (s <| t_reverse := flag (nonzero (t_reverse c)) |>
            <| t_bidirectional := flag (nonzero (t_bidirectional c)) |>
            <| t_mode := opposite c |> <| t_sender_has_retransmits := r |>).
Proof.
  intros Hrole Hm Hr Hb [p Hp] Hc. unfold take_direction, on_item, opposite.
  rewrite find_reverse, find_bidirectional. unfold true_if.
  destruct (nonzero (t_reverse c)) eqn:Er, (nonzero (t_bidirectional c)) eqn:Eb;
    cbn [mbind option_bind flag].
  - unfold nonzero in Er, Eb. destruct Hc as [E|E]; rewrite E in *; done.
  - unfold iperf_set_test_reverse, check_sender_has_retransmits. rsimpl.
    rewrite Hrole. cbn [Z.eqb].
    destruct (decide ("s"%char = "c"%char)); [done|].
    destruct (decide ("s"%char = "s"%char)); [|done]. rsimpl.
    destruct (decide (SENDER = RECEIVER)); [done|]. rewrite Hp. cbn [mbind option_bind].
    assert (s <| t_reverse := 1 |> <| t_bidirectional := 0 |> = s <| t_reverse := 1 |>) as ->
      by same_test.
    eexists. reflexivity.
  - unfold iperf_set_test_bidirectional. cbn [Z.eqb negb].
    assert (s <| t_reverse := 0 |> = s) as -> by same_test.
    exists (t_sender_has_retransmits s). apply (f_equal Some). symmetry. same_test.
  - assert (s <| t_reverse := 0 |> = s) as -> by same_test.
    assert (s <| t_bidirectional := 0 |> = s) as -> by same_test.
    assert (s <| t_mode := RECEIVER |> = s) as -> by same_test.
    exists (t_sender_has_retransmits s). apply (f_equal Some). symmetry. same_test.
Qed.

(** The other lookups, group by group. *)
Ltac absent := let E := fresh in
  intros E; first [ discriminate E | apply negb_false_iff, Z.eqb_eq in E; try rewrite E
                  | try rewrite E ];
  first [same_test | same_settings].

Tactic Notation "next" open_constr(L) :=
  rewrite L; [cbn [mbind option_bind]|done|absent].

Section Groups.
Context (prot : Z) (token : option string) (c : iperf_test).
Let st := t_settings c.

Lemma round_limits s :
  is_sint 32 (t_omit c) -> is_sint 32 (t_server_affinity c) -> is_sint 32 (t_duration c) ->
  is_sint 32 (st_mss st) -> is_sint 32 (t_num_streams c) ->
  0 <= st_bytes st < 2 ^ 53 -> 0 <= st_blocks st < 2 ^ 53 ->
  t_server_affinity s = -1 -> st_bytes (t_settings s) = 0 -> st_blocks (t_settings s) = 0 ->
  st_mss (t_settings s) = 0 -> t_no_delay s = 0 ->
  take_limits (parameters_json prot token c) s = Some
    (set_st (fun x => x <| st_mss := st_mss st |>)
      (set_st (fun x => x <| st_blocks := st_blocks st |>)
        (set_st (fun x => x <| st_bytes := st_bytes st |>)
          (s <| t_omit := t_omit c |> <| t_server_affinity := t_server_affinity c |>
             <| t_duration := t_duration c |>)))
     <| t_no_delay := flag (nonzero (t_no_delay c)) |>
     <| t_num_streams := t_num_streams c |>).
Proof.
  intros. unfold take_limits.
  next (step_int _ _ _ _ _ _ (find_omit prot token c)).
  next (step_int _ _ _ _ _ _ (find_affinity prot token c)).
  next (step_int _ _ _ _ _ _ (find_time prot token c)).
  next (step_u64 _ _ _ _ _ _ (find_num prot token c)).
  next (step_u64 _ _ _ _ _ _ (find_blockcount prot token c)).
  next (step_int _ _ _ _ _ _ (find_mss prot token c)).
  rewrite (step_flag _ _ _ _ (fun v t => t <| t_no_delay := v |>) _ (find_nodelay prot token c)); [cbn [mbind option_bind]|absent].
  rewrite (step_int _ _ _ _ _ _ (find_parallel prot token c)); [done|done|absent].
Qed.

Lemma round_settings s :
  is_sint 32 (st_socket_bufsize st) -> is_sint 32 (st_blksize st) ->
  is_sint 32 (st_pacing_timer st) -> is_sint 32 (st_burst st) -> is_sint 32 (st_tos st) ->
  is_sint 32 (st_flowlabel st) -> 0 <= st_rate st < 2 ^ 53 -> 0 <= st_fqrate st < 2 ^ 53 ->
  st_blksize st <> 0 -> st_pacing_timer st <> 0 ->
  st_socket_bufsize (t_settings s) = 0 -> st_rate (t_settings s) = 0 ->
  st_fqrate (t_settings s) = 0 -> st_burst (t_settings s) = 0 -> st_tos (t_settings s) = 0 ->
  st_flowlabel (t_settings s) = 0 ->
  take_settings (parameters_json prot token c) s = Some
    (set_st (fun x => x <| st_flowlabel := st_flowlabel st |>)
    (set_st (fun x => x <| st_tos := st_tos st |>)
    (set_st (fun x => x <| st_burst := st_burst st |>)
    (set_st (fun x => x <| st_pacing_timer := st_pacing_timer st |>)
    (set_st (fun x => x <| st_fqrate := st_fqrate st |>)
    (set_st (fun x => x <| st_rate := st_rate st |>)
    (set_st (fun x => x <| st_blksize := st_blksize st |>)
    (set_st (fun x => x <| st_socket_bufsize := st_socket_bufsize st |>) s)))))))).
Proof.
  intros. unfold take_settings.
  next (step_int _ _ _ _ _ _ (find_window prot token c)).
  next (step_int _ _ _ _ _ _ (find_len prot token c)).
  next (step_u64 _ _ _ _ _ _ (find_bandwidth prot token c)).
  next (step_u64 _ _ _ _ _ _ (find_fqrate prot token c)).
  next (step_int _ _ _ _ _ _ (find_pacing_timer prot token c)).
  next (step_int _ _ _ _ _ _ (find_burst prot token c)).
  next (step_int _ _ _ _ _ _ (find_tos prot token c)).
  rewrite (step_int _ _ _ _ _ _ (find_flowlabel prot token c)); [done|done|absent].
Qed.

Lemma round_strings s :
  t_title s = None -> t_extra_data s = None -> t_congestion s = None ->
  t_congestion_used s = None ->
  take_strings (parameters_json prot token c) s = Some
    (s <| t_title := t_title c |> <| t_extra_data := t_extra_data c |>
       <| t_congestion := t_congestion c |> <| t_congestion_used := t_congestion_used c |>).
Proof.
  intros. unfold take_strings.
  rewrite (step_string _ _ _ _ _ (find_title prot token c));
    [cbn [mbind option_bind]|absent].
  rewrite (step_string _ _ _ _ _ (find_extra_data prot token c));
    [cbn [mbind option_bind]|absent].
  rewrite (step_string _ _ _ _ _ (find_congestion prot token c));
    [cbn [mbind option_bind]|absent].
  rewrite (step_string _ _ _ _ _ (find_congestion_used prot token c)); [done|absent].
Qed.

Lemma round_options s :
  is_sint 32 (st_dont_fragment st) ->
  t_get_server_output s = 0 -> t_udp_counters_64bit s = 0 -> t_repeating_payload s = 0 ->
  st_dont_fragment (t_settings s) = 0 ->
  take_options (parameters_json prot token c) s = Some
    (set_st (fun x => x <| st_dont_fragment := st_dont_fragment st |>)
      (s <| t_get_server_output := flag (nonzero (t_get_server_output c)) |>
         <| t_udp_counters_64bit := flag (nonzero (t_udp_counters_64bit c)) |>
         <| t_repeating_payload := flag (nonzero (t_repeating_payload c)) |>)).
Proof.
  intros. unfold take_options, iperf_set_test_get_server_output,
    iperf_set_test_udp_counters_64bit.
  rewrite (step_flag _ _ _ _ (fun v t => t <| t_get_server_output := v |>) _ (find_get_server_output prot token c)); [cbn [mbind option_bind]|absent].
  rewrite (step_flag _ _ _ _ (fun v t => t <| t_udp_counters_64bit := v |>) _ (find_udp_counters prot token c)); [cbn [mbind option_bind]|absent].
  rewrite (step_flag _ _ _ _ (fun v t => t <| t_repeating_payload := v |>) _ (find_repeating_payload prot token c)); [cbn [mbind option_bind]|absent].
  rewrite (step_int _ _ _ _ _ _ (find_dont_fragment prot token c)); [done|done|absent].
Qed.
End Groups.

(** What each group decides, as one value; a group leaves the values of the others. *)
Definition limits (t : iperf_test) :=
  (t_omit t, t_server_affinity t, t_duration t, t_no_delay t, t_num_streams t,
   st_bytes (t_settings t), st_blocks (t_settings t), st_mss (t_settings t)).

Definition direction (t : iperf_test) := (t_mode t, t_reverse t, t_bidirectional t).

Definition rates (t : iperf_test) :=
  (st_socket_bufsize (t_settings t), st_blksize (t_settings t), st_rate (t_settings t),
   st_fqrate (t_settings t), st_pacing_timer (t_settings t), st_burst (t_settings t),
   st_tos (t_settings t), st_flowlabel (t_settings t)).

Definition texts (t : iperf_test) :=
  (t_title t, t_extra_data t, t_congestion t, t_congestion_used t).

Definition options (t : iperf_test) :=
  (t_get_server_output t, t_udp_counters_64bit t, t_repeating_payload t,
   st_dont_fragment (t_settings t)).

Definition session (t : iperf_test) :=
  (t_role t, t_protocol t, st_authtoken (t_settings t)).

Ltac views := unfold limits, direction, rates, texts, options, session in *;
  repeat match goal with
  | H : (_, _) = (_, _) |- _ => injection H; clear H; intros
  end.

Section Views.
Context (prot : Z) (token : option string) (c : iperf_test).

Lemma limits_taken s :
  client_ok c -> limits s = (t_omit s, -1, t_duration s, 0, t_num_streams s, 0, 0, 0) ->
  exists s', take_limits (parameters_json prot token c) s = Some s' /\
  limits s' = (t_omit c, t_server_affinity c, t_duration c, flag (nonzero (t_no_delay c)),
               t_num_streams c, st_bytes (t_settings c), st_blocks (t_settings c),
               st_mss (t_settings c)) /\
  direction s' = direction s /\
  rates s' = rates s /\
  texts s' = texts s /\
  options s' = options s /\
  session s' = session s.
Proof.
  intros ((? & ? & ? & ? & ?) & _ & (? & ? & _) & _) Hs. views.
  eexists. split; [apply round_limits; done|]. repeat split.
Qed.

Lemma direction_taken s :
  client_ok c -> t_role s = "s"%char -> direction s = (RECEIVER, 0, 0) ->
  is_Some (t_protocol s) ->
  exists s', take_direction (parameters_json prot token c) s = Some s' /\
  direction s' = (opposite c, flag (nonzero (t_reverse c)), flag (nonzero (t_bidirectional c))) /\
  rates s' = rates s /\
  texts s' = texts s /\
  options s' = options s /\
  session s' = session s /\
  limits s' = limits s.
Proof.
  intros (_ & _ & _ & _ & _ & Hc) Hrole Hs Hp. views.
  destruct (select_direction prot token c s) as [r Hr]; [done..|].
  eexists. split; [exact Hr|]. repeat split.
Qed.

Lemma rates_taken s :
  client_ok c ->
  rates s = (0, st_blksize (t_settings s), 0, 0, st_pacing_timer (t_settings s), 0, 0, 0) ->
  exists s', take_settings (parameters_json prot token c) s = Some s' /\
  rates s' = rates c /\
  direction s' = direction s /\
  texts s' = texts s /\
  options s' = options s /\
  session s' = session s /\
  limits s' = limits s.
Proof.
  intros (_ & (? & ? & ? & ? & ? & ? & _) & (_ & _ & ? & ?) & ? & ? & _) Hs. views.
  eexists. split; [apply round_settings; done|]. repeat split.
Qed.

Lemma texts_taken s :
  texts s = (None, None, None, None) ->
  exists s', take_strings (parameters_json prot token c) s = Some s' /\
  texts s' = texts c /\
  direction s' = direction s /\
  rates s' = rates s /\
  options s' = options s /\
  session s' = session s /\
  limits s' = limits s.
Proof.
  intros Hs. views. eexists. split; [apply round_strings; done|]. repeat split.
Qed.

Lemma options_taken s :
  client_ok c -> options s = (0, 0, 0, 0) ->
  exists s', take_options (parameters_json prot token c) s = Some s' /\
  options s' = (flag (nonzero (t_get_server_output c)), flag (nonzero (t_udp_counters_64bit c)),
                flag (nonzero (t_repeating_payload c)), st_dont_fragment (t_settings c)) /\
  direction s' = direction s /\
  rates s' = rates s /\
  texts s' = texts s /\
  session s' = session s /\
  limits s' = limits s.
Proof.
  intros (_ & (_ & _ & _ & _ & _ & _ & ?) & _) Hs. views.
  eexists. split; [apply round_options; done|]. repeat split.
Qed.
End Views.

(** The group of one lookup, the token, and the check of the mode come last. *)
Lemma agrees_token c s token :
  agrees c s -> agrees c (set_st (fun st => st <| st_authtoken := token |>) s).
Proof. intros H. exact H. Qed.

Lemma agrees_retransmits c s : agrees c s -> agrees c (s <| t_sender_has_retransmits := 1 |>).
Proof. intros H. exact H. Qed.

Lemma token_taken prot token c s p :
  agrees c s -> t_protocol s = Some p -> st_authtoken (t_settings s) = None ->
  exists s', (test ← on_item (parameters_json prot token c) "authtoken"
                (take_string (fun v => set_st (fun st => st <| st_authtoken := v |>))) s;
              if decide (t_mode test = RECEIVER) then Some test
              else p ← t_protocol test;
                   Some (if (pr_id p =? Ptcp) && has_tcpinfo_retransmits
                         then test <| t_sender_has_retransmits := 1 |> else test)) = Some s' /\
    t_protocol s' = Some p /\ st_authtoken (t_settings s') = token /\ agrees c s'.
Proof.
  intros Hagree Hp Htok.
  rewrite (step_string _ _ _ _ _ (find_authtoken prot token c));
    [cbn [mbind option_bind]|intros ->; same_settings].
  apply (agrees_token _ _ token) in Hagree. revert Hagree.
  assert (st_authtoken (t_settings (set_st (fun st => st <| st_authtoken := token |>) s)) = token)
    as Htok' by reflexivity.
  assert (t_protocol (set_st (fun st => st <| st_authtoken := token |>) s) = Some p) as Hp'
    by exact Hp. revert Htok' Hp'.
  generalize (set_st (fun st => st <| st_authtoken := token |>) s) as s'.
  intros s' Htok' Hp' Hagree. rewrite Hp'. cbn [mbind option_bind].
  destruct (decide _); [by exists s'|]. eexists. split; [reflexivity|].
  destruct (_ && _); [|done]. split; [exact Hp'|]. split; [exact Htok'|].
  by apply agrees_retransmits.
Qed.

(** The views of a fresh server. *)
Lemma fresh_views s :
  server_fresh s ->
  t_role s = "s"%char /\ direction s = (RECEIVER, 0, 0) /\
  t_sender_has_retransmits s = 0 /\ st_authtoken (t_settings s) = None /\
  limits s = (t_omit s, -1, t_duration s, 0, t_num_streams s, 0, 0, 0) /\
  rates s = (0, st_blksize (t_settings s), 0, 0, st_pacing_timer (t_settings s), 0, 0, 0) /\
  texts s = (None, None, None, None) /\ options s = (0, 0, 0, 0).
Proof.
  intros (Hrole & Hmode & Hrev & Hbi & Hretr & Haff & Hnd & Htitle & Hextra & Hcong & Hused &
          Hgso & H64 & Hrep & Hbytes & Hblocks & Hmss & Hwin & Hrate & Hfq & Hburst & Htos &
          Hflow & Hdf & Htok).
  unfold direction, limits, rates, texts, options.
  rewrite Hrole, Hmode, Hrev, Hbi, Hretr, Haff, Hnd, Htitle, Hextra, Hcong, Hused, Hgso, H64,
    Hrep, Hbytes, Hblocks, Hmss, Hwin, Hrate, Hfq, Hburst, Htos, Hflow, Hdf, Htok.
  split_and!; reflexivity.
Qed.

(** C2: the server takes over exactly what the client asked for. A server that has
    not run a test, given the object [send_parameters] builds for a well-formed
    client of TCP or UDP, agrees with the client on every parameter the client
    sends, and faces it: it sends when the client asked for the reverse
    direction, receives otherwise, and does both when asked for both. *)
Theorem parameters_roundtrip token c s p :
  client_ok c -> server_fresh s ->
  get_protocol s (pr_id p) = Some p -> pr_id p = Ptcp \/ pr_id p = Pudp ->
  exists s', apply_parameters (parameters_json (pr_id p) token c) s = Some s' /\
    t_protocol s' = Some p /\ st_authtoken (t_settings s') = token /\ agrees c s'.
Proof.
  intros Hc Hs Hp Hid.
  destruct (fresh_views s Hs) as (Hrole & Hdir & Hretr & Htok & Hlim & Hrate & Htext & Hopt).
  unfold apply_parameters.
  rewrite select_protocol by (done || views; done). cbn [mbind option_bind].
  set (s0 := s <| t_protocol := Some p |>).
  assert (direction s0 = direction s /\ rates s0 = rates s /\ texts s0 = texts s /\
          options s0 = options s /\ limits s0 = limits s /\
          session s0 = (t_role s, Some p, st_authtoken (t_settings s)))
    as (E1 & E2 & E3 & E4 & E5 & E6) by repeat split.
  clearbody s0.
  destruct (limits_taken (pr_id p) token c s0) as (s1 & -> & A1 & B1 & B2 & B3 & B4 & B5);
    [done|views; congruence|cbn [mbind option_bind]].
  destruct (direction_taken (pr_id p) token c s1) as (s2 & -> & A2 & C1 & C2 & C3 & C4 & C5);
    [done|views; congruence|congruence|exists p; views; congruence|cbn [mbind option_bind]].
  destruct (rates_taken (pr_id p) token c s2) as (s3 & -> & A3 & D1 & D2 & D3 & D4 & D5);
    [done|views; congruence|cbn [mbind option_bind]].
  destruct (texts_taken (pr_id p) token c s3) as (s4 & -> & A4 & F1 & F2 & F3 & F4 & F5);
    [congruence|cbn [mbind option_bind]].
  destruct (options_taken (pr_id p) token c s4) as (s5 & -> & A5 & G1 & G2 & G3 & G4 & G5);
    [done|congruence|cbn [mbind option_bind]].
  assert (session s5 = (t_role s, Some p, st_authtoken (t_settings s))) as Hses
    by (rewrite G4, F4, D4, C4, B5; done).
  assert (agrees c s5) as Hagree.
  { assert (limits s5 = limits s1 /\ direction s5 = direction s2 /\ rates s5 = rates s3 /\
            texts s5 = texts s4) as (K1 & K2 & K3 & K4)
      by (rewrite G5, F5, D5, C5, G1, F1, D1, G2, F2, G3; done).
    clear - A1 A2 A3 A4 A5 K1 K2 K3 K4. views. unfold agrees. repeat split; congruence. }
  assert (t_protocol s5 = Some p /\ st_authtoken (t_settings s5) = None) as [Hprot Htok5]
    by (clear - Hses Htok; unfold session in Hses; injection Hses; intros; split; congruence).
  by apply token_taken.
Qed.

Definition ex_tcp : protocol := mk_protocol Ptcp "TCP".
Definition ex_udp : protocol := mk_protocol Pudp "UDP".

Definition ex_client : iperf_test :=
  zero_test <| t_role := "c"%char |> <| t_duration := 10 |> <| t_num_streams := 4 |>
    <| t_server_affinity := -1 |> <| t_reverse := 1 |> <| t_title := Some "a test" |>
    <| t_settings := zero_settings <| st_blksize := 1460 |> <| st_pacing_timer := 1000 |>
         <| st_rate := 1048576 |> |>.

Definition ex_server : iperf_test :=
  zero_test <| t_role := "s"%char |> <| t_protocol := Some ex_tcp |>
    <| t_protocols := [ex_tcp; ex_udp] |> <| t_server_affinity := -1 |>
    <| t_settings := zero_settings <| st_pacing_timer := 1000 |> |>.

Lemma parameters_roundtrip_witness :
  exists s', apply_parameters (parameters_json Pudp None ex_client) ex_server = Some s' /\
    t_protocol s' = Some ex_udp /\ t_mode s' = SENDER /\ t_num_streams s' = 4 /\
    st_rate (t_settings s') = 1048576 /\ t_title s' = Some "a test".
Proof.
  destruct (parameters_roundtrip None ex_client ex_server ex_udp)
    as (s' & H & Hp & _ & Hagree).
  - unfold client_ok, is_sint. cbn. repeat split; try lia.
  - repeat split.
  - reflexivity.
  - right. reflexivity.
  - exists s'. split; [exact H|]. split; [exact Hp|].
    unfold agrees in Hagree. destruct_and! Hagree. repeat split; assumption.
Defined.
