(* ===== verification/Results.v ===== *)
(** * iperf_api.c: the results both sides exchange at the end of a test

    [send_results] as the JSON object it builds, [get_results] as the changes it
    makes to the test, stream by stream, and [iperf_exchange_results]. *)

From S2P Require Import Prelude Double Bytes Posix IperfTime Net CJson Test Api Params.

#[local] Open Scope string_scope.
#[local] Open Scope Z_scope.

(** ** What is sent *)

Definition number (d : double) : cJSON := cJSON_CreateNumber d.
Definition int_number (z : Z) : cJSON := cJSON_CreateNumber (d_of_Z z).

(** The bytes this end of the stream counted, without the omitted ones. *)
Definition bytes_transferred (sp : iperf_stream) : Z :=
  let rp := sp_result sp in
  if nonzero (sp_sender sp) then u64 (rs_bytes_sent rp - rs_bytes_sent_omit rp)
  else rs_bytes_received rp.

Definition retransmits (test : iperf_test) (sp : iperf_stream) : Z :=
  if nonzero (sp_sender sp) && nonzero (t_sender_has_retransmits test)
  then rs_stream_retrans (sp_result sp) else -1.

(** The time from the start of the stream to [t], in seconds. *)
Definition since_start (rp : iperf_stream_result) (t : iperf_time) : double :=
  iperf_time_in_secs (iperf_time_diff (rs_start_time rp) t).2.

Definition stream_json (test : iperf_test) (sp : iperf_stream) : cJSON :=
  let rp := sp_result sp in
  JObject [("id", int_number (sp_id sp)); ("bytes", int_number (bytes_transferred sp));
           ("retransmits", int_number (retransmits test sp));
           ("jitter", number (sp_jitter sp)); ("errors", int_number (sp_cnt_error sp));
           ("packets", int_number (sp_packet_count sp));
           ("start_time", number (since_start rp (rs_start_time rp)));
           ("end_time", number (since_start rp (rs_end_time rp)))].

(** What a receiver says about retransmissions is -1. *)
Definition has_retransmits (test : iperf_test) : Z :=
  if decide (t_mode test = RECEIVER) then -1 else t_sender_has_retransmits test.

(** The output of the server, when the client asked for it: the JSON document,
    or the concatenation of the lines printed so far. *)
Definition server_output (test : iperf_test) : list (string * cJSON) :=
  if bool_decide (t_role test = "s"%char) && nonzero (t_get_server_output test) then
    if nonzero (t_json_output test) then
      match t_json_top test with Some top => [("server_output_json", top)] | None => [] end
    else [("server_output_text", JString (foldr String.append "" (t_server_output_list test)))]
  else [].

(** [cpu_util[i]] of an array of three. *)
Definition cpu (l : list double) (i : nat) : double := default d_zero (l !! i).

Definition results_json (test : iperf_test) : cJSON :=
  JObject (
    [("cpu_util_total", number (cpu (t_cpu_util test) 0));
     ("cpu_util_user", number (cpu (t_cpu_util test) 1));
     ("cpu_util_system", number (cpu (t_cpu_util test) 2));
     ("sender_has_retransmits", int_number (has_retransmits test))] ++
    add_string "congestion_used" (t_congestion_used test) ++
    server_output test ++
    [("streams", JArray (stream_json test <$> t_streams test))]).

(** ** What is taken over *)

(** The length of the peer's test, when it said so. *)
Definition remote_time (j_start_time j_end_time : option cJSON) : double :=
  match j_start_time, j_end_time with
  | Some s, Some e => d_sub (valuedouble e) (valuedouble s)
  | _, _ => d_zero
  end.

(** A stream that sends learns what arrived; one that receives, what was sent. *)
Definition merge_stream (bytes retrans : Z) (jitter : double) (cerror pcount : Z)
    (time : double) (sp : iperf_stream) : iperf_stream :=
  if nonzero (sp_sender sp) then
    sp <| sp_jitter := jitter |> <| sp_cnt_error := cerror |>
       <| sp_peer_packet_count := pcount |>
       <| sp_result ::= fun r => r <| rs_bytes_received := bytes |>
                                   <| rs_receiver_time := time |> |>
  else
    sp <| sp_peer_packet_count := pcount |>
       <| sp_result ::= fun r => r <| rs_bytes_sent := bytes |>
                                   <| rs_stream_retrans := retrans |>
                                   <| rs_sender_time := time |> |>.

(** [SLIST_FOREACH ... if (sp->id == sid) break]: the first stream with this id is
    updated; [None] when there is none. *)
Fixpoint update_stream (sid : Z) (f : iperf_stream -> iperf_stream)
    (sps : list iperf_stream) : option (list iperf_stream) :=
  match sps with
  | [] => None
  | sp :: sps =>
      if sp_id sp =? sid then Some (f sp :: sps)
      else sps ← update_stream sid f sps; Some (sp :: sps)
  end.

(** One element of the "streams" array: the result of the exchange so far, and
    the test. *)
Definition take_stream (j_stream : cJSON) (r : Z) (test : iperf_test) : Z * iperf_test :=
  match cJSON_GetObjectItem j_stream "id", cJSON_GetObjectItem j_stream "bytes",
        cJSON_GetObjectItem j_stream "retransmits", cJSON_GetObjectItem j_stream "jitter",
        cJSON_GetObjectItem j_stream "errors", cJSON_GetObjectItem j_stream "packets" with
  | Some j_id, Some j_bytes, Some j_retransmits, Some j_jitter, Some j_errors,
    Some j_packets =>
      let f := merge_stream (u64 (valueint j_bytes)) (i32 (valueint j_retransmits))
                 (valuedouble j_jitter) (i32 (valueint j_errors)) (i32 (valueint j_packets))
                 (remote_time (cJSON_GetObjectItem j_stream "start_time")
                              (cJSON_GetObjectItem j_stream "end_time")) in
      match update_stream (i32 (valueint j_id)) f (t_streams test) with
      | Some sps => (r, test <| t_streams := sps |>)
      | None => (-1, test <| t_i_errno := IESTREAMID |>)
      end
  | _, _, _, _, _, _ => (-1, test <| t_i_errno := IERECVRESULTS |>)
  end.

Fixpoint take_streams (j_streams : cJSON) (n i : nat) (r : Z) (test : iperf_test)
    : Z * iperf_test :=
  match n with
  | O => (r, test)
  | S n =>
      let '(r, test) :=
        match cJSON_GetArrayItem j_streams i with
        | None => (-1, test <| t_i_errno := IERECVRESULTS |>)
        | Some j_stream => take_stream j_stream r test
        end in
      take_streams j_streams n (S i) r test
  end.

(** The server's output; the object loses its JSON form. *)
Definition take_server_output (j : cJSON) (test : iperf_test) : option (cJSON * iperf_test) :=
  if bool_decide (t_role test = "c"%char)
     && nonzero (iperf_get_test_get_server_output test) then
    match cJSON_DetachItemFromObject j "server_output_json" with
    | Some (out, j) => Some (j, test <| t_json_server_output := Some out |>)
    | None =>
        match cJSON_GetObjectItem j "server_output_text" with
        | Some out =>
            text ← valuestring out;
            Some (j, test <| t_server_output_text := Some text |>)
        | None => Some (j, test)
        end
    end
  else Some (j, test).

Definition take_retransmits (result_has_retransmits : Z) (test : iperf_test) : iperf_test :=
  match t_mode test with
  | RECEIVER => test <| t_sender_has_retransmits := result_has_retransmits |>
                     <| t_other_side_has_retransmits := 0 |>
  | BIDIRECTIONAL => test <| t_other_side_has_retransmits := result_has_retransmits |>
  | SENDER => test
  end.

(** [get_results] once the object has arrived; [None] is the null pointer that
    [strdup] dereferences. *)
Definition apply_results (j : cJSON) (test : iperf_test) : option (Z * iperf_test) :=
  '(r, j, test) ←
    match cJSON_GetObjectItem j "cpu_util_total", cJSON_GetObjectItem j "cpu_util_user",
          cJSON_GetObjectItem j "cpu_util_system",
          cJSON_GetObjectItem j "sender_has_retransmits" with
    | Some total, Some user, Some system, Some has =>
        let test := test <| t_remote_cpu_util :=
          [valuedouble total; valuedouble user; valuedouble system] |> in
        let test := take_retransmits (i32 (valueint has)) test in
        match cJSON_GetObjectItem j "streams" with
        | None => Some (-1, j, test <| t_i_errno := IERECVRESULTS |>)
        | Some j_streams =>
            let '(r, test) := take_streams j_streams (Z.to_nat (cJSON_GetArraySize j_streams))
                                0 0 test in
            '(j, test) ← take_server_output j test;
            Some (r, j, test)
        end
    | _, _, _, _ => Some (-1, j, test <| t_i_errno := IERECVRESULTS |>)
    end;
  match cJSON_GetObjectItem j "congestion_used" with
  | Some item =>
      used ← valuestring item;
      Some (r, test <| t_remote_congestion_used := Some used |>)
  | None => Some (r, test)
  end.

(** ** The exchange *)

Section Exchange.
Context {W : Type} {posix : Posix W}.
Variables (print : cJSON -> option (list Z)) (parse : list Z -> option cJSON).

Definition send_results (h : endianness) (test : iperf_test) (w : W)
    : option (Z * iperf_test * W) :=
  '(r, w) ← JSON_write h (t_ctrl_sck test) (print (results_json test)) w;
  if r <? 0 then Some (-1, test <| t_i_errno := IESENDRESULTS |>, w)
  else Some (0, test, w).

Definition get_results (h : endianness) (stack : list Z) (calloc_ok : bool)
    (test : iperf_test) (w : W) : option (Z * iperf_test * W) :=
  '(j, w) ← JSON_read h parse stack calloc_ok (t_ctrl_sck test) w;
  match j with
  | None => Some (-1, test <| t_i_errno := IERECVRESULTS |>, w)
  | Some j => '(r, test) ← apply_results j test; Some (r, test, w)
  end.

Definition iperf_exchange_results (h : endianness) (stack : list Z) (calloc_ok : bool)
    (test : iperf_test) (w : W) : option (Z * iperf_test * W) :=
  if decide (t_role test = "c"%char) then
    '(r, test, w) ← send_results h test w;
    if r <? 0 then Some (-1, test, w)
    else
      '(r, test, w) ← get_results h stack calloc_ok test w;
      if r <? 0 then Some (-1, test, w) else Some (0, test, w)
  else
    '(r, test, w) ← get_results h stack calloc_ok test w;
    if r <? 0 then Some (-1, test, w)
    else
      '(r, test, w) ← send_results h test w;
      if r <? 0 then Some (-1, test, w) else Some (0, test, w).
End Exchange.
