(* ===== verification/ResultsProps.v ===== *)
(** * Results: what the two ends of a stream tell each other *)

From S2P Require Import Prelude Double Bytes Posix IperfTime Net CJson Test Api Params ParamsProps.
From S2P Require Import Results.

#[local] Open Scope string_scope.
#[local] Open Scope Z_scope.

(** ** Numbers *)

Lemma valuedouble_number d : valuedouble (number d) = d.
Proof. done. Qed.

Lemma valueint_int_number z : Z.abs z < 2 ^ 53 -> valueint (int_number z) = z.
Proof. intros H. unfold int_number. by rewrite create_number_exact. Qed.

Lemma i32_int_number z : is_sint 32 z -> i32 (valueint (int_number z)) = z.
Proof.
  intros H. rewrite valueint_int_number by (unfold is_sint in H; lia).
  by apply sint_id.
Qed.

Lemma u64_int_number z : 0 <= z < 2 ^ 53 -> u64 (valueint (int_number z)) = z.
Proof.
  intros H. rewrite valueint_int_number by lia. apply Z.mod_small. lia.
Qed.

(** ** One stream *)

(** The counters of a stream that a JSON number holds exactly. *)
Definition stream_ok (test : iperf_test) (sp : iperf_stream) : Prop :=
  is_sint 32 (sp_id sp) /\ 0 <= bytes_transferred sp < 2 ^ 53 /\
  is_sint 32 (retransmits test sp) /\ is_sint 32 (sp_cnt_error sp) /\
  is_sint 32 (sp_packet_count sp).

(** What a stream of the peer becomes. *)
Definition merged (test : iperf_test) (sp : iperf_stream) : iperf_stream -> iperf_stream :=
  let rp := sp_result sp in
  merge_stream (bytes_transferred sp) (retransmits test sp) (sp_jitter sp) (sp_cnt_error sp)
    (sp_packet_count sp)
    (d_sub (since_start rp (rs_end_time rp)) (since_start rp (rs_start_time rp))).

Lemma merged_id test sp sp' : sp_id (merged test sp sp') = sp_id sp'.
Proof. unfold merged, merge_stream. by destruct (nonzero _). Qed.

Lemma take_stream_json a sp r test :
  stream_ok a sp ->
  take_stream (stream_json a sp) r test =
    match update_stream (sp_id sp) (merged a sp) (t_streams test) with
    | Some sps => (r, test <| t_streams := sps |>)
    | None => (-1, test <| t_i_errno := IESTREAMID |>)
    end.
Proof.
  intros (Hid & Hb & Hr & He & Hp).
  change (take_stream (stream_json a sp) r test) with
    (match update_stream (i32 (valueint (int_number (sp_id sp))))
       (merge_stream (u64 (valueint (int_number (bytes_transferred sp))))
          (i32 (valueint (int_number (retransmits a sp)))) (sp_jitter sp)
          (i32 (valueint (int_number (sp_cnt_error sp))))
          (i32 (valueint (int_number (sp_packet_count sp))))
          (d_sub (since_start (sp_result sp) (rs_end_time (sp_result sp)))
                 (since_start (sp_result sp) (rs_start_time (sp_result sp)))))
       (t_streams test) with
     | Some sps => (r, test <| t_streams := sps |>)
     | None => (-1, test <| t_i_errno := IESTREAMID |>)
     end).
  by rewrite !i32_int_number, u64_int_number.
Qed.

(** With distinct identifiers, updating the first stream with an identifier is
    updating every stream with it. *)
Lemma update_stream_map sid f sps :
  NoDup (sp_id <$> sps) -> sid ∈ sp_id <$> sps ->
  update_stream sid f sps = Some ((fun sp => if sp_id sp =? sid then f sp else sp) <$> sps).
Proof.
  induction sps as [|sp sps IH]; cbn [fmap list_fmap update_stream]; intros Hnd Hin.
  - by apply elem_of_nil in Hin.
  - apply NoDup_cons in Hnd as [Hn Hnd].
    destruct (Z.eqb_spec (sp_id sp) sid) as [E|E].
    + apply (f_equal Some), (f_equal (cons (f sp))). rewrite E in Hn.
      clear - Hn. induction sps as [|s sps IH]; [done|].
      cbn [fmap list_fmap] in *. apply not_elem_of_cons in Hn as [Hs Hn].
      destruct (Z.eqb_spec (sp_id s) sid); [congruence|]. by rewrite <- IH.
    + apply elem_of_cons in Hin as [?|Hin]; [congruence|]. by rewrite IH.
Qed.

(** ** All the streams *)

(** The streams of a test after the results of [sas] have been taken over. *)
Definition absorb (a : iperf_test) (sas : list iperf_stream) (sp : iperf_stream)
    : iperf_stream :=
  foldl (fun sp sa => if sp_id sp =? sp_id sa then merged a sa sp else sp) sp sas.

Lemma absorb_id a sas sp : sp_id (absorb a sas sp) = sp_id sp.
Proof.
  revert sp. induction sas as [|sa sas IH]; intros sp; [done|].
  cbn [absorb foldl]. unfold absorb in IH. rewrite IH.
  case_match; [apply merged_id|done].
Qed.

Lemma absorb_other a sas sp :
  sp_id sp ∉ sp_id <$> sas -> absorb a sas sp = sp.
Proof.
  induction sas as [|sa sas IH]; [done|]. cbn [fmap list_fmap].
  intros [Hs Hn]%not_elem_of_cons. cbn [absorb foldl].
  destruct (Z.eqb_spec (sp_id sp) (sp_id sa)); [done|]. by apply IH.
Qed.

Lemma absorb_match a sas sa sp :
  NoDup (sp_id <$> sas) -> sa ∈ sas -> sp_id sa = sp_id sp ->
  absorb a sas sp = merged a sa sp.
Proof.
  induction sas as [|s sas IH]; intros Hnd Hin E; [by apply elem_of_nil in Hin|].
  cbn [fmap list_fmap] in Hnd. apply NoDup_cons in Hnd as [Hn Hnd]. cbn [absorb foldl].
  apply elem_of_cons in Hin as [->|Hin].
  - rewrite E, Z.eqb_refl. apply absorb_other. by rewrite merged_id, <- E.
  - destruct (Z.eqb_spec (sp_id sp) (sp_id s)) as [Es|]; [|by apply IH].
    destruct Hn. rewrite <- Es, <- E. by apply list_elem_of_fmap_2.
Qed.

Lemma take_streams_absorb a sas : forall pre todo r test,
  sas = (pre ++ todo)%list -> Forall (stream_ok a) todo ->
  NoDup (sp_id <$> t_streams test) ->
  Forall (fun sa => sp_id sa ∈ sp_id <$> t_streams test) todo ->
  take_streams (JArray (stream_json a <$> sas)) (length todo) (length pre) r test =
    (r, test <| t_streams := absorb a todo <$> t_streams test |>).
Proof.
  intros pre todo. revert pre. induction todo as [|sa todo IH];
    intros pre r test Hs Hok Hnd Hin; cbn [length take_streams].
  - f_equal. unfold absorb. cbn [foldl]. rewrite list_fmap_id. by destruct test.
  - unfold cJSON_GetArrayItem, children.
    rewrite list_lookup_fmap, Hs, lookup_app_r, Nat.sub_diag by lia.
    cbn [lookup list_lookup fmap option_fmap option_map].
    apply Forall_cons in Hok as [Hsa Hok]. apply Forall_cons in Hin as [Hi Hin].
    rewrite take_stream_json, update_stream_map by done.
    set (test1 := test <| t_streams := _ |>).
    assert (sp_id <$> t_streams test1 = sp_id <$> t_streams test) as Hids.
    { unfold test1. rsimpl. rewrite <- list_fmap_compose. apply list_fmap_ext.
      intros i sp _. cbn. case_match; [apply merged_id|done]. }
    rewrite <- Hs. replace (S (length pre)) with (length (pre ++ [sa])%list)
      by (rewrite length_app; cbn; lia).
    rewrite (IH (pre ++ [sa])%list r test1);
      [|by rewrite <- app_assoc|done|by rewrite Hids|by rewrite Hids].
    f_equal. unfold test1. rsimpl. rewrite <- list_fmap_compose. done.
Qed.

(** ** The object *)

Section Members.
Context (a : iperf_test).

Definition optional_members : list (string * cJSON) :=
  (add_string "congestion_used" (t_congestion_used a) ++ server_output a)%list.

(** The keys an optional member has. *)
Definition optional_key (key : string) : Prop :=
  key = "congestion_used" \/ key = "server_output_json" \/ key = "server_output_text".

Lemma optional_keys : Forall (fun m => optional_key m.1) optional_members.
Proof.
  unfold optional_members, add_string, server_output, optional_key.
  apply Forall_app. split.
  - destruct (t_congestion_used a); repeat constructor.
  - destruct (_ && _); [|constructor].
    destruct (nonzero _); [destruct (t_json_top a)|]; try constructor; cbn; auto.
Qed.

Lemma optional_absent name :
  case_insensitive_eq name "congestion_used" = false ->
  case_insensitive_eq name "server_output_json" = false ->
  case_insensitive_eq name "server_output_text" = false ->
  get_member name optional_members = None.
Proof.
  intros H1 H2 H3. pose proof optional_keys as H. revert H.
  induction optional_members as [|[key item] ms IH]; [done|].
  intros [Hk Hms]%Forall_cons. cbn [get_member fst] in *.
  destruct Hk as [->|[-> | ->]]; rewrite ?H1, ?H2, ?H3; auto.
Qed.

Lemma results_object :
  results_json a = JObject
    ([("cpu_util_total", number (cpu (t_cpu_util a) 0));
      ("cpu_util_user", number (cpu (t_cpu_util a) 1));
      ("cpu_util_system", number (cpu (t_cpu_util a) 2));
      ("sender_has_retransmits", int_number (has_retransmits a))] ++
     optional_members ++ [("streams", JArray (stream_json a <$> t_streams a))])%list.
Proof. unfold results_json, optional_members. by rewrite <- app_assoc. Qed.

Lemma results_streams :
  cJSON_GetObjectItem (results_json a) "streams"
    = Some (JArray (stream_json a <$> t_streams a)).
Proof.
  rewrite results_object. unfold cJSON_GetObjectItem.
  rewrite !get_member_app, optional_absent by reflexivity. reflexivity.
Qed.

End Members.

(** ** Names *)

Lemma case_insensitive_join s1 s2 key :
  case_insensitive_eq s1 key = true -> case_insensitive_eq s2 key = true ->
  case_insensitive_eq s1 s2 = true.
Proof.
  revert s2 key. induction s1 as [|c1 s1 IH]; intros [|c2 s2] [|k key]; try done;
    cbn [case_insensitive_eq]; intros H1 H2; try done.
  destruct (decide (tolower c1 = tolower k)) as [E1|]; [|done].
  destruct (decide (tolower c2 = tolower k)) as [E2|]; [|done].
  rewrite decide_True by congruence. eauto.
Qed.

(** Detaching a member leaves the members with another name. *)
Lemma detach_member_other n m ms item ms' :
  case_insensitive_eq m n = false ->
  detach_member n ms = Some (item, ms') -> get_member m ms' = get_member m ms.
Proof.
  intros Hn. revert item ms'. induction ms as [|[key v] ms IH]; intros item ms'; [done|].
  cbn [detach_member get_member].
  destruct (case_insensitive_eq n key) eqn:E.
  - intros [= <- <-]. destruct (case_insensitive_eq m key) eqn:Em; [|done].
    by rewrite (case_insensitive_join m n key) in Hn.
  - destruct (detach_member n ms) as [[found ms1]|]; [|done].
    intros [= <- <-]. cbn [get_member]. by rewrite (IH found ms1).
Qed.

Lemma detach_other j n m item j' :
  case_insensitive_eq m n = false ->
  cJSON_DetachItemFromObject j n = Some (item, j') ->
  cJSON_GetObjectItem j' m = cJSON_GetObjectItem j m.
Proof.
  intros Hn. destruct j as [| | | | |ms]; try done. cbn [cJSON_DetachItemFromObject].
  destruct (detach_member n ms) as [[i ms']|] eqn:E; [|done].
  intros [= <- <-]. exact (detach_member_other n m ms i ms' Hn E).
Qed.

(** ** The server's output *)

(** A test without what the exchange of the results is about. *)
Definition unexchanged (test : iperf_test) : iperf_test :=
  test <| t_streams := [] |> <| t_remote_cpu_util := [] |> <| t_remote_congestion_used := None |>
       <| t_sender_has_retransmits := 0 |> <| t_other_side_has_retransmits := 0 |>
       <| t_json_server_output := None |> <| t_server_output_text := None |>.

(** A client that asked for the server's output, and what it keeps of it. *)
Definition asked_output (test : iperf_test) : Prop :=
  t_role test = "c"%char /\ t_get_server_output test <> 0.

Definition kept_output (test : iperf_test) : option cJSON * option string :=
  (t_json_server_output test, t_server_output_text test).

(** What taking the server's output over leaves alone. *)
Definition same_results (test test' : iperf_test) : Prop :=
  unexchanged test' = unexchanged test /\
  (asked_output test \/ kept_output test' = kept_output test) /\
  t_other_side_has_retransmits test' = t_other_side_has_retransmits test /\
  t_streams test' = t_streams test /\ t_remote_cpu_util test' = t_remote_cpu_util test /\
  t_sender_has_retransmits test' = t_sender_has_retransmits test /\
  t_remote_congestion_used test' = t_remote_congestion_used test /\
  t_ctrl_sck test' = t_ctrl_sck test.

(** It dereferences a null pointer exactly when a client that wants the output
    gets no JSON document, but a text that is not a string. *)
Definition bad_output (j : cJSON) (test : iperf_test) : Prop :=
  t_role test = "c"%char /\ t_get_server_output test <> 0 /\
  cJSON_DetachItemFromObject j "server_output_json" = None /\
  string_or_absent j "server_output_text" = false.

Lemma take_server_output_spec j test :
  (take_server_output j test = None /\ bad_output j test) \/
  (~ bad_output j test /\
   exists j' test', take_server_output j test = Some (j', test') /\
    same_results test test' /\
    cJSON_GetObjectItem j' "congestion_used" = cJSON_GetObjectItem j "congestion_used").
Proof.
  unfold take_server_output, bad_output, string_or_absent.
  case_bool_decide as Hr; cbn [andb].
  2: { right. split; [by intros (? & _)|]. exists j, test. split; [done|]. split; [|done].
       unfold same_results. auto 10. }
  unfold iperf_get_test_get_server_output, nonzero.
  destruct (Z.eqb_spec (t_get_server_output test) 0) as [E|E]; cbn [negb].
  { right. split; [by intros (_ & ? & _)|]. exists j, test. split; [done|]. split; [|done].
    unfold same_results. auto 10. }
  assert (asked_output test) as Hask by done.
  destruct (cJSON_DetachItemFromObject j "server_output_json") as [[out j']|] eqn:D.
  { right. split; [by intros (_ & _ & ? & _)|]. eexists j', _. split; [done|].
    split; [unfold same_results; auto 10|]. by apply (detach_other _ "server_output_json" _ out). }
  destruct (cJSON_GetObjectItem j "server_output_text") as [out|] eqn:G.
  2: { right. split; [by intros (_ & _ & _ & ?)|]. exists j, test. split; [done|]. split; [|done].
       unfold same_results. auto 10. }
  destruct out; cbn [valuestring is_string mbind option_bind];
    [left; done..|right|left; done|left; done].
  split; [by intros (_ & _ & _ & ?)|]. eexists j, _. split; [done|]. split; [|done].
  unfold same_results. auto 10.
Qed.

(** ** What a message can crash a test with *)

(** The items without which the streams are not looked at. *)
Definition summary_present (j : cJSON) : bool :=
  forallb (fun name => match cJSON_GetObjectItem j name with Some _ => true | None => false end)
    ["cpu_util_total"; "cpu_util_user"; "cpu_util_system"; "sender_has_retransmits"; "streams"].

(** The test in which the server's output is looked at: taking the streams over
    changes neither the role nor what was asked for. *)
Lemma take_streams_frame js n : forall i r test,
  let test' := (take_streams js n i r test).2 in
  t_role test' = t_role test /\ t_get_server_output test' = t_get_server_output test.
Proof.
  induction n as [|n IH]; intros i r test; [done|]. cbn [take_streams].
  assert (forall j, let test' := (take_stream j r test).2 in
            t_role test' = t_role test /\ t_get_server_output test' = t_get_server_output test)
    as Hone.
  { intros j. unfold take_stream. by repeat case_match. }
  destruct (cJSON_GetArrayItem js i) as [j|].
  - specialize (Hone j). destruct (take_stream j r test) as [r1 test1].
    cbn [snd] in Hone. destruct (IH (S i) r1 test1) as [-> ->]. done.
  - by destruct (IH (S i) (-1) (test <| t_i_errno := IERECVRESULTS |>)) as [-> ->].
Qed.

Lemma take_congestion_spec j (r : Z) test :
  (match cJSON_GetObjectItem j "congestion_used" with
   | Some item => used ← valuestring item;
                  Some (r, test <| t_remote_congestion_used := Some used |>)
   | None => Some (r, test)
   end = None) <-> string_or_absent j "congestion_used" = false.
Proof.
  unfold string_or_absent. destruct (cJSON_GetObjectItem j "congestion_used") as [item|];
    [|done]. by destruct item.
Qed.

(** What the peer can crash a test with when it reports its results. Taking a
    result object over dereferences a null pointer exactly when
    "congestion_used" is present and is not a string, or when this side is a
    client that asked for the server's output and the object, complete
    otherwise, has no JSON document but a "server_output_text" that is not a
    string. Everything else, however malformed, is answered with an error. *)
Theorem results_crash_iff j test :
  apply_results j test = None <->
    string_or_absent j "congestion_used" = false \/
    (summary_present j = true /\ bad_output j test).
Proof.
  unfold apply_results, summary_present. cbn [forallb].
  destruct (cJSON_GetObjectItem j "cpu_util_total") as [j1|],
    (cJSON_GetObjectItem j "cpu_util_user") as [j2|],
    (cJSON_GetObjectItem j "cpu_util_system") as [j3|],
    (cJSON_GetObjectItem j "sender_has_retransmits") as [j4|],
    (cJSON_GetObjectItem j "streams") as [js|];
    cbn [mbind option_bind andb];
    try (rewrite take_congestion_spec; split; [auto|intros [?|[? _]]; done]).
  match goal with |- context [take_streams js ?n ?i ?r ?t] =>
    pose proof (take_streams_frame js n i r t) as Hframe;
    destruct (take_streams js n i r t) as [r' test1] end.
  cbn [snd] in Hframe. destruct Hframe as [Hrole Hout].
  assert (bad_output j test1 <-> bad_output j test) as Hbad.
  { unfold bad_output. rewrite Hrole, Hout. unfold take_retransmits.
    destruct (t_mode _); rsimpl; done. }
  destruct (take_server_output_spec j test1) as [[-> Hb]|[Hb (j' & test2 & -> & _ & Hc)]];
    cbn [mbind option_bind].
  - rewrite Hbad in Hb. split; [by right|done].
  - rewrite take_congestion_spec. unfold string_or_absent. rewrite Hc, <- Hbad.
    split; [auto|intros [?|[_ ?]]; done].
Qed.

(** ** The exchange *)

(** How long the other side measured its stream. *)
Definition elapsed (sa : iperf_stream) : double :=
  let rp := sp_result sa in
  d_sub (since_start rp (rs_end_time rp)) (since_start rp (rs_start_time rp)).

(** What the stream [sb] of one side knows once the other side, the test [a],
    has reported its stream [sa]: the sending end learns what arrived, the
    receiving end what was sent, and each keeps its own count and everything else. *)
Definition learned (a : iperf_test) (sa sb sb' : iperf_stream) : Prop :=
  if nonzero (sp_sender sb) then
    sb' = sb <| sp_peer_packet_count := sp_packet_count sa |>
             <| sp_jitter := sp_jitter sa |> <| sp_cnt_error := sp_cnt_error sa |>
             <| sp_result := sp_result sb <| rs_bytes_received := bytes_transferred sa |>
                                          <| rs_receiver_time := elapsed sa |> |>
  else
    sb' = sb <| sp_peer_packet_count := sp_packet_count sa |>
             <| sp_result := sp_result sb <| rs_bytes_sent := bytes_transferred sa |>
                                          <| rs_stream_retrans := retransmits a sa |>
                                          <| rs_sender_time := elapsed sa |> |>.

Lemma merged_learned a sa sb : learned a sa sb (merged a sa sb).
Proof. unfold learned, merged, merge_stream. by destruct (nonzero (sp_sender sb)). Qed.

Lemma results_string a name :
  name = "congestion_used" \/ name = "server_output_text" ->
  string_or_absent (results_json a) name = true.
Proof.
  intros Hn. unfold string_or_absent. rewrite results_object. unfold cJSON_GetObjectItem.
  rewrite !get_member_app. unfold optional_members. rewrite get_member_app.
  unfold add_string, server_output.
  destruct Hn as [-> | ->]; destruct (t_congestion_used a), (_ && _); try done;
    destruct (nonzero _); try done; by destruct (t_json_top a).
Qed.

Lemma results_congestion a :
  cJSON_GetObjectItem (results_json a) "congestion_used" = JString <$> t_congestion_used a.
Proof.
  rewrite results_object. unfold cJSON_GetObjectItem.
  rewrite !get_member_app. unfold optional_members. rewrite get_member_app.
  unfold add_string, server_output.
  destruct (t_congestion_used a), (_ && _); try done;
    destruct (nonzero _); try done; by destruct (t_json_top a).
Qed.

Lemma results_summary a :
  cJSON_GetObjectItem (results_json a) "cpu_util_total" = Some (number (cpu (t_cpu_util a) 0)) /\
  cJSON_GetObjectItem (results_json a) "cpu_util_user" = Some (number (cpu (t_cpu_util a) 1)) /\
  cJSON_GetObjectItem (results_json a) "cpu_util_system" = Some (number (cpu (t_cpu_util a) 2)) /\
  cJSON_GetObjectItem (results_json a) "sender_has_retransmits"
    = Some (int_number (has_retransmits a)).
Proof. by repeat split. Qed.

(** What the report of [a] makes of [b]. *)
Definition taken (a b b' : iperf_test) : Prop :=
  t_streams b' = absorb a (t_streams a) <$> t_streams b /\
  t_remote_cpu_util b' = [cpu (t_cpu_util a) 0; cpu (t_cpu_util a) 1; cpu (t_cpu_util a) 2] /\
  t_remote_congestion_used b' =
    match t_congestion_used a with Some u => Some u | None => t_remote_congestion_used b end /\
  t_sender_has_retransmits b' =
    (if decide (t_mode b = RECEIVER) then has_retransmits a else t_sender_has_retransmits b) /\
  t_other_side_has_retransmits b' =
    match t_mode b with
    | RECEIVER => 0
    | BIDIRECTIONAL => has_retransmits a
    | SENDER => t_other_side_has_retransmits b
    end /\
  unexchanged b' = unexchanged b /\ (asked_output b \/ kept_output b' = kept_output b) /\
  t_ctrl_sck b' = t_ctrl_sck b.

Lemma results_taken a b :
  Forall (stream_ok a) (t_streams a) -> is_sint 32 (t_sender_has_retransmits a) ->
  NoDup (sp_id <$> t_streams b) ->
  Forall (fun sa => sp_id sa ∈ sp_id <$> t_streams b) (t_streams a) ->
  exists b', apply_results (results_json a) b = Some (0, b') /\ taken a b b'.
Proof.
  intros Hok Hhas Hndb Hin. unfold apply_results.
  destruct (results_summary a) as (-> & -> & -> & ->). rewrite results_streams.
  set (b1 := take_retransmits _ _).
  assert (t_streams b1 = t_streams b) as Hb1 by (unfold b1, take_retransmits; by case_match).
  pose proof (take_streams_absorb a (t_streams a) [] (t_streams a) 0 b1 eq_refl Hok) as HT.
  rewrite Hb1 in HT. specialize (HT Hndb Hin). cbn [length] in HT.
  unfold cJSON_GetArraySize, children. rewrite length_fmap, Nat2Z.id, HT. clear HT.
  set (b2 := b1 <| t_streams := _ |>).
  destruct (take_server_output_spec (results_json a) b2)
    as [[_ (_ & _ & _ & H)]|[_ (j' & b3 & -> & (Hun & Hout & Hoth & Hst & Hcpu & Hret & Hcong & Hctrl) & Hc)]].
  { by rewrite results_string in H by auto. }
  cbn [mbind option_bind]. rewrite Hc, results_congestion.
  assert (t_remote_congestion_used b2 = t_remote_congestion_used b /\
          t_ctrl_sck b2 = t_ctrl_sck b /\
          t_remote_cpu_util b2
            = [cpu (t_cpu_util a) 0; cpu (t_cpu_util a) 1; cpu (t_cpu_util a) 2] /\
          t_sender_has_retransmits b2 =
            (if decide (t_mode b = RECEIVER) then has_retransmits a
             else t_sender_has_retransmits b) /\
          t_other_side_has_retransmits b2 =
            match t_mode b with
            | RECEIVER => 0
            | BIDIRECTIONAL => has_retransmits a
            | SENDER => t_other_side_has_retransmits b
            end /\ unexchanged b2 = unexchanged b /\ kept_output b2 = kept_output b /\
          t_role b2 = t_role b /\ t_get_server_output b2 = t_get_server_output b)
    as (E1 & E2 & E3 & E4 & E5 & E6 & E7 & E8 & E9).
  { unfold b2, b1, take_retransmits. rsimpl.
    assert (i32 (valueint (int_number (has_retransmits a))) = has_retransmits a) as Hi.
    { apply i32_int_number. unfold has_retransmits. destruct (decide _); [unfold is_sint; lia|done]. }
    destruct (t_mode b) eqn:Em; rsimpl; rewrite ?Em; split_and!; try done. }
  rewrite E1 in Hcong. rewrite E2 in Hctrl. rewrite E3 in Hcpu. rewrite E4 in Hret. rewrite E5 in Hoth.
  rewrite E6 in Hun. unfold asked_output in Hout. rewrite E7, E8, E9 in Hout.
  unfold taken. destruct (t_congestion_used a) as [u|]; cbn [fmap option_fmap option_map].
  - eexists. split; [done|]. by split_and!.
  - eexists. split; [done|]. by split_and!.
Qed.

(** C3: the two ends of every stream exchange their counts. Let [a] report its
    results to [b], every stream of [a] having a stream of the same identifier
    in [b]. Then [b] takes the report over without an error; each of its
    streams that [a] reported on has learned exactly what [a] counted and is
    otherwise as it was, and the other streams are as they were; the processor
    load and the congestion control algorithm of [a] are known to [b], a
    receiver, or an end of a test in both directions, knows whether the other
    side counted retransmissions; a client that asked for the server's output
    may keep it, and nothing else changes. *)
Theorem results_exchanged a b :
  Forall (stream_ok a) (t_streams a) -> is_sint 32 (t_sender_has_retransmits a) ->
  NoDup (sp_id <$> t_streams a) -> NoDup (sp_id <$> t_streams b) ->
  Forall (fun sa => sp_id sa ∈ sp_id <$> t_streams b) (t_streams a) ->
  exists b', apply_results (results_json a) b = Some (0, b') /\
    length (t_streams b') = length (t_streams b) /\
    (forall i sb, t_streams b !! i = Some sb -> exists sb', t_streams b' !! i = Some sb' /\
      ((sp_id sb ∉ sp_id <$> t_streams a -> sb' = sb) /\
       forall sa, sa ∈ t_streams a -> sp_id sa = sp_id sb -> learned a sa sb sb')) /\
    t_remote_cpu_util b' = [cpu (t_cpu_util a) 0; cpu (t_cpu_util a) 1; cpu (t_cpu_util a) 2] /\
    t_remote_congestion_used b' =
      match t_congestion_used a with Some u => Some u | None => t_remote_congestion_used b end /\
    t_sender_has_retransmits b' =
      (if decide (t_mode b = RECEIVER) then has_retransmits a else t_sender_has_retransmits b) /\
    t_other_side_has_retransmits b' =
      match t_mode b with
      | RECEIVER => 0
      | BIDIRECTIONAL => has_retransmits a
      | SENDER => t_other_side_has_retransmits b
      end /\
    (asked_output b \/ kept_output b' = kept_output b) /\
    unexchanged b' = unexchanged b.
Proof.
  intros Hok Hhas Hnda Hndb Hin.
  destruct (results_taken a b Hok Hhas Hndb Hin) as (b' & E & Hst & Hcpu & Hcong & Hret & Hoth & Hun & Hout & _).
  exists b'. split; [done|]. rewrite Hst, length_fmap. split; [done|].
  split; [|by split_and!].
  - intros i sb Hi. rewrite list_lookup_fmap, Hi. eexists. split; [done|].
    split; [by apply absorb_other|]. intros sa Hsa Eid.
    rewrite (absorb_match a _ sa sb Hnda Hsa Eid). apply merged_learned.
Qed.

(** Two streams of a test in both directions, as its two ends see them. *)
Definition ex_end (id sender sent received : Z) : iperf_stream :=
  zero_stream <| sp_id := id |> <| sp_sender := sender |>
    <| sp_result := zero_result <| rs_bytes_sent := sent |>
                                <| rs_bytes_received := received |> |>.

Definition ex_reporter : iperf_test :=
  zero_test <| t_role := "s"%char |> <| t_mode := BIDIRECTIONAL |>
    <| t_cpu_util := [d_of_Z 3; d_of_Z 2; d_of_Z 1] |>
    <| t_streams := [ex_end 1 0 0 1000; ex_end 2 1 500 0] |>.

Definition ex_listener : iperf_test :=
  zero_test <| t_role := "c"%char |> <| t_mode := BIDIRECTIONAL |>
    <| t_streams := [ex_end 1 1 1200 0; ex_end 2 0 0 480] |>.

Lemma results_exchanged_witness :
  exists b' s1 s2, apply_results (results_json ex_reporter) ex_listener = Some (0, b') /\
    t_streams b' !! 0%nat = Some s1 /\ rs_bytes_received (sp_result s1) = 1000 /\
    t_streams b' !! 1%nat = Some s2 /\ rs_bytes_sent (sp_result s2) = 500.
Proof.
  assert (forall id, id = 1 \/ id = 2 -> id ∈ [1; 2]) as Hids.
  { intros id [-> | ->]; [apply list_elem_of_here|apply list_elem_of_further, list_elem_of_here]. }
  assert (NoDup [1; 2]) as Hnd by (apply (bool_decide_unpack _); vm_compute; exact I).
  destruct (results_exchanged ex_reporter ex_listener) as (b' & H & _ & Hs & _).
  - repeat constructor; unfold stream_ok, is_sint; vm_compute; intuition congruence.
  - unfold is_sint. cbn. lia.
  - exact Hnd.
  - exact Hnd.
  - repeat constructor; apply Hids; auto.
  - destruct (Hs 0%nat _ eq_refl) as (s1 & E1 & _ & L1).
    destruct (Hs 1%nat _ eq_refl) as (s2 & E2 & _ & L2).
    pose proof (L1 (ex_end 1 0 0 1000) ltac:(apply list_elem_of_here) eq_refl) as R1.
    pose proof (L2 (ex_end 2 1 500 0) ltac:(apply list_elem_of_further, list_elem_of_here) eq_refl) as R2.
    cbv [learned] in R1, R2. cbn in R1, R2. exists b', s1, s2.
    split; [exact H|]. split; [exact E1|]. split; [rewrite R1; reflexivity|].
    split; [exact E2|]. rewrite R2. reflexivity.
Defined.
