(* ===== verification/Sockets.v ===== *)
(** * Sockets and descriptors as the program sees them

    The calls of the socket interface on a kernel state [W], and the laws of
    what they allocate: [live] is the set of descriptors the process has open
    and of address lists [getaddrinfo] has allocated. A function that leaves a
    descriptor open, or an address list allocated, behind an error leaves it in
    that set. *)

From Stdlib Require Import Ascii.
From stdpp Require Import strings.
From S2P Require Import Prelude Posix.

#[local] Open Scope Z_scope.

(** Linux's numbers. *)
Definition AF_UNSPEC : Z := 0.
Definition AF_INET : Z := 2.
Definition AF_INET6 : Z := 10.
Definition SOCK_STREAM : Z := 1.
Definition ETIMEDOUT : Z := 110.
Definition EINPROGRESS : Z := 115.
Definition O_NONBLOCK : Z := 2048.
Definition INT_MAX : Z := 2 ^ 31 - 1.
Definition IP_PMTUDISC_DO : Z := 2.

(** A socket address: the family, the address bytes, the port, and the flow
    information of IPv6. *)
Record sockaddr := mk_sockaddr {
  sa_family : Z; sa_addr : list Z; sa_port : Z; sa_flowinfo : Z }.

Definition with_port (port : Z) (a : sockaddr) : sockaddr :=
  mk_sockaddr (sa_family a) (sa_addr a) port (sa_flowinfo a).
Definition with_flowinfo (info : Z) (a : sockaddr) : sockaddr :=
  mk_sockaddr (sa_family a) (sa_addr a) (sa_port a) info.

(** The first element of a list [getaddrinfo] allocated, and its address. *)
Record addrinfo := mk_addrinfo { ai_ptr : Z; ai_family : Z; ai_addr : sockaddr }.

(** The options the program sets or reads; an argument is an [int] but for the
    name of a device and the flow label request. *)
Inductive sockopt :=
| SO_REUSEADDR | SO_RCVBUF | SO_SNDBUF | SO_ERROR | SO_MAX_PACING_RATE | SO_RCVTIMEO
| TCP_NODELAY | TCP_MAXSEG | IPV6_V6ONLY | IPV6_FLOWINFO_SEND | IP_TOS | IPV6_TCLASS
| IP_MTU_DISCOVER
| SO_BINDTODEVICE (dev : string) | TCP_CONGESTION (name : string)
| IPV6_FLOWLABEL_MGR (label : Z) (dst : list Z).

Inductive resource := Fd (fd : Z) | Info (ptr : Z).

#[export] Instance resource_eq_dec : EqDecision resource.
Proof. solve_decision. Defined.

#[export] Program Instance resource_countable : Countable resource :=
  inj_countable' (fun r => match r with Fd z => inl z | Info z => inr z end)
    (fun s => match s with inl z => Fd z | inr z => Info z end) _.
Next Obligation. by intros []. Qed.

Class Sockets (W : Type) := {
  (** domain, socket type, passive, host, service *)
  sys_getaddrinfo : Z -> Z -> bool -> option string -> option Z -> W
                    -> sysres addrinfo * W;
  sys_freeaddrinfo : Z -> W -> W;
  sys_socket : Z -> Z -> W -> sysres Z * W;
  sys_close : Z -> W -> W;
  sys_setsockopt : Z -> sockopt -> Z -> W -> sysres unit * W;
  sys_getsockopt : Z -> sockopt -> W -> sysres Z * W;
  sys_bind : Z -> sockaddr -> W -> sysres unit * W;
  sys_listen : Z -> Z -> W -> sysres unit * W;
  sys_connect : Z -> sockaddr -> W -> sysres unit * W;
  sys_accept : Z -> W -> sysres Z * W;
  sys_recvfrom : Z -> Z -> W -> sysres (list Z * sockaddr) * W;
  sys_getsockname : Z -> W -> sysres sockaddr * W;
  sys_getpeername : Z -> W -> sysres sockaddr * W;
  sys_getfl : Z -> W -> Z * W;
  sys_setfl : Z -> Z -> W -> sysres unit * W;
  (** [poll] of one descriptor for writing: how many are ready *)
  sys_poll : Z -> Z -> W -> sysres Z * W }.

Section Laws.
Context (W : Type) `{Posix W} `{Sockets W}.

(** A call that allocates and frees nothing. *)
Definition passive {A} (live : W -> gset resource) (m : W -> A * W) : Prop :=
  forall w, live (m w).2 = live w.

Class SocketLaws := {
  live : W -> gset resource;
  getaddrinfo_ok domain type pass host service w ai w' :
    sys_getaddrinfo domain type pass host service w = (Ok ai, w') ->
    Info (ai_ptr ai) ∉ live w /\ live w' = {[Info (ai_ptr ai)]} ∪ live w;
  getaddrinfo_err domain type pass host service w e w' :
    sys_getaddrinfo domain type pass host service w = (Err e, w') -> live w' = live w;
  freeaddrinfo_live p w : live (sys_freeaddrinfo p w) = live w ∖ {[Info p]};
  socket_ok domain type w fd w' :
    sys_socket domain type w = (Ok fd, w') ->
    0 <= fd /\ Fd fd ∉ live w /\ live w' = {[Fd fd]} ∪ live w;
  socket_err domain type w e w' :
    sys_socket domain type w = (Err e, w') -> live w' = live w;
  accept_ok lfd w fd w' :
    sys_accept lfd w = (Ok fd, w') ->
    0 <= fd /\ Fd fd ∉ live w /\ live w' = {[Fd fd]} ∪ live w;
  accept_err lfd w e w' :
    sys_accept lfd w = (Err e, w') -> live w' = live w;
  close_live fd w : live (sys_close fd w) = live w ∖ {[Fd fd]};
  passive_setsockopt fd o v : passive live (sys_setsockopt fd o v);
  passive_getsockopt fd o : passive live (sys_getsockopt fd o);
  passive_bind fd a : passive live (sys_bind fd a);
  passive_listen fd n : passive live (sys_listen fd n);
  passive_connect fd a : passive live (sys_connect fd a);
  passive_recvfrom fd n : passive live (sys_recvfrom fd n);
  passive_getsockname fd : passive live (sys_getsockname fd);
  passive_getpeername fd : passive live (sys_getpeername fd);
  passive_getfl fd : passive live (sys_getfl fd);
  passive_setfl fd fl : passive live (sys_setfl fd fl);
  passive_poll fd t : passive live (sys_poll fd t);
  passive_read fd n : passive live (sys_read fd n);
  passive_write fd data : passive live (sys_write fd data) }.
End Laws.

Arguments passive {W A} live m.
Arguments live {W _ _ _} w.

#[export] Hint Resolve passive_setsockopt passive_getsockopt passive_bind passive_listen
  passive_connect passive_recvfrom passive_getsockname passive_getpeername passive_getfl
  passive_setfl passive_poll passive_read passive_write : live.

(** ** Files, and the kernel's random numbers *)

Class Files (W : Type) := {
  (** the descriptor of the temporary file and the name it got *)
  sys_mkstemp : string -> W -> sysres (Z * string) * W;
  sys_unlink : string -> W -> sysres unit * W;
  sys_ftruncate : Z -> Z -> W -> sysres unit * W;
  (** the bytes of a private mapping of a file *)
  sys_mmap : Z -> Z -> W -> sysres (list Z) * W;
  (** [true] opens for reading, [false] truncates for writing *)
  sys_open : string -> bool -> W -> sysres Z * W;
  (** [None]: /dev/urandom could not be opened or was too short *)
  sys_urandom : Z -> W -> option (list Z) * W;
  (** [select] of one descriptor fails with [EBADF] *)
  sys_badfd : Z -> W -> bool }.

Class FileSysLaws (W : Type) `{SocketLaws W} `{Files W} := {
  mkstemp_ok template (w : W) fd name w' :
    sys_mkstemp template w = (Ok (fd, name), w') ->
    0 <= fd /\ Fd fd ∉ live w /\ live w' = {[Fd fd]} ∪ live w;
  mkstemp_err template (w : W) e w' :
    sys_mkstemp template w = (Err e, w') -> live w' = live w;
  open_ok name rd (w : W) fd w' :
    sys_open name rd w = (Ok fd, w') ->
    0 <= fd /\ Fd fd ∉ live w /\ live w' = {[Fd fd]} ∪ live w;
  open_err name rd (w : W) e w' :
    sys_open name rd w = (Err e, w') -> live w' = live w;
  passive_unlink name : passive live (sys_unlink name : W -> _);
  passive_ftruncate fd n : passive live (sys_ftruncate fd n : W -> _);
  passive_mmap fd n : passive live (sys_mmap fd n : W -> _);
  passive_urandom n : passive live (sys_urandom n : W -> _);
  mmap_length fd n (w : W) data w' :
    sys_mmap fd n w = (Ok data, w') -> length data = Z.to_nat n;
  urandom_bytes n (w : W) data w' :
    sys_urandom n w = (Some data, w') ->
    length data = Z.to_nat n /\ Forall (fun b => 0 <= b < 256) data;
  badfd_live fd (w : W) : sys_badfd fd w = true <-> Fd fd ∉ live w }.

#[export] Hint Resolve passive_unlink passive_ftruncate passive_mmap passive_urandom : live.

(** ** Sequences of calls with early returns *)

Definition act (S A : Type) : Type := S -> A * S.

Section Actions.
Context {S : Type}.

Definition give {A} (a : A) : act S A := fun s => (a, s).
Definition do_ {A} (f : S -> S) (k : act S A) : act S A := fun s => k (f s).
Definition andthen {A B} (m : act S A) (k : A -> act S B) : act S B :=
  fun s => let '(a, s) := m s in k a s.

(** A call, what to do when it fails, and what follows it. *)
Definition attempt {A B} (m : act S (sysres A)) (h : Z -> act S B) (k : A -> act S B)
    : act S B :=
  fun s => match m s with (Ok a, s) => k a s | (Err e, s) => h e s end.

(** [if (b) { if (call < 0) failure; }] *)
Definition attempt_if {A B} (b : bool) (m : act S (sysres A)) (h : act S B) (k : act S B)
    : act S B :=
  if b then attempt m (fun _ => h) (fun _ => k) else k.
End Actions.

Declare Scope act_scope.
Delimit Scope act_scope with act.
Notation "'try' x ':=' m 'otherwise' h ';' k" := (attempt m (fun _ => h) (fun x => k))
  (at level 200, x name, m at level 100, h at level 100, k at level 200,
   format "'[v' 'try'  x  ':='  m  'otherwise'  h ';' '/' k ']'") : act_scope.
Notation "'call' x ':=' m ';' k" := (andthen m (fun x => k))
  (at level 200, x name, m at level 100, k at level 200,
   format "'[v' 'call'  x  ':='  m ';' '/' k ']'") : act_scope.
Notation "'run' f ';' k" := (do_ f k)
  (at level 200, f at level 100, k at level 200,
   format "'[v' 'run'  f ';' '/' k ']'") : act_scope.
Notation "'check' b 'then' m 'otherwise' h ';' k" := (attempt_if b m h k)
  (at level 200, b at level 100, m at level 100, h at level 100, k at level 200,
   format "'[v' 'check'  b  'then'  m  'otherwise'  h ';' '/' k ']'") : act_scope.

(** ** A kernel that satisfies the laws

    Every call asks a plan whether it fails; descriptors and address lists are
    numbered upwards. *)
Module Host.

Record host := mk_host {
  h_live : gset resource; h_plan : list Z; h_family : Z; h_in : list Z; h_out : list Z }.

Definition h_set_live (L : gset resource) (w : host) : host :=
  mk_host L (h_plan w) (h_family w) (h_in w) (h_out w).

Definition number_of (r : resource) : Z := match r with Fd z | Info z => z end.
Definition top (L : gset resource) : Z :=
  foldr (fun r m => Z.max (number_of r) m) 0 (elements L).

Lemma host_top_bound L r : r ∈ L -> number_of r <= top L.
Proof.
  rewrite <- elem_of_elements. unfold top.
  induction (elements L) as [|x l IH]; [by intros ?%elem_of_nil|].
  cbn [foldr]. intros [->|H]%elem_of_cons; [lia|]. apply IH in H. lia.
Qed.

Lemma host_top_nonneg L : 0 <= top L.
Proof. unfold top. induction (elements L); cbn [foldr]; lia. Qed.

(** The next entry of the plan: 0 succeeds, anything else is the [errno]. *)
Definition planned {A} (good : host -> A * host) (w : host) : sysres A * host :=
  let w' := mk_host (h_live w) (drop 1 (h_plan w)) (h_family w) (h_in w) (h_out w) in
  match h_plan w with
  | e :: _ => if e =? 0 then let '(a, w') := good w' in (Ok a, w') else (Err e, w')
  | [] => let '(a, w') := good w' in (Ok a, w')
  end.

Definition allocate {A} (mk : Z -> resource) (f : Z -> A) (w : host) : A * host :=
  let n := top (h_live w) + 1 in
  (f n, h_set_live ({[mk n]} ∪ h_live w) w).

Definition release (r : resource) (w : host) : host :=
  h_set_live (h_live w ∖ {[r]}) w.

Definition quiet {A} (a : A) (w : host) : A * host := (a, w).

Definition address (w : host) : sockaddr := mk_sockaddr (h_family w) [127; 0; 0; 1] 5201 0.

#[global] Instance host_sockets : Sockets host := {
  sys_getaddrinfo _ _ _ _ _ w :=
    planned (allocate Info (fun p => mk_addrinfo p (h_family w) (address w))) w;
  sys_freeaddrinfo p := release (Info p);
  sys_socket _ _ := planned (allocate Fd id);
  sys_close fd := release (Fd fd);
  sys_setsockopt _ _ _ := planned (quiet tt);
  sys_getsockopt _ _ := planned (quiet (2 ^ 20));
  sys_bind _ _ := planned (quiet tt);
  sys_listen _ _ := planned (quiet tt);
  sys_connect _ _ := planned (quiet tt);
  sys_accept _ := planned (allocate Fd id);
  sys_recvfrom _ _ w := planned (quiet ([1; 2; 3; 4], address w)) w;
  sys_getsockname _ w := planned (quiet (address w)) w;
  sys_getpeername _ w := planned (quiet (address w)) w;
  sys_getfl _ := quiet 0;
  sys_setfl _ _ := planned (quiet tt);
  sys_poll _ _ := planned (quiet 1) }.

(** All descriptors share what arrives and what is sent. *)
Definition take_in (n : Z) (w : host) : list Z * host :=
  (take (Z.to_nat n) (h_in w),
   mk_host (h_live w) (h_plan w) (h_family w) (drop (Z.to_nat n) (h_in w)) (h_out w)).
Definition put_out (data : list Z) (w : host) : Z * host :=
  (Z.of_nat (length data),
   mk_host (h_live w) (h_plan w) (h_family w) (h_in w) (h_out w ++ data)).

#[global] Instance host_posix : Posix host := {
  sys_read _ n := planned (take_in n);
  sys_write _ data := planned (put_out data);
  sys_sendfile _ _ _ n := planned (quiet (Z.max 0 n)) }.

Lemma planned_live {A} (good : host -> A * host) w :
  (forall w0, h_live (good w0).2 = h_live w0) -> h_live (planned good w).2 = h_live w.
Proof.
  intros Hg. unfold planned. set (w0 := mk_host _ _ _ _ _). specialize (Hg w0).
  destruct (good w0), (h_plan w) as [|e p]; [done|]. by destruct (e =? 0).
Qed.

Lemma planned_ok {A} good w (a : A) w' :
  planned good w = (Ok a, w') ->
  exists w0, h_live w0 = h_live w /\ h_in w0 = h_in w /\ h_out w0 = h_out w /\
    good w0 = (a, w').
Proof.
  unfold planned. set (w0 := mk_host _ _ _ _ _). intros H. exists w0.
  split; [done|]. split; [done|]. split; [done|].
  destruct (h_plan w) as [|e p]; [|destruct (e =? 0); [|done]];
    destruct (good w0); by injection H as -> ->.
Qed.

Lemma planned_err {A} (good : host -> A * host) w e w' :
  planned good w = (Err e, w') ->
  h_live w' = h_live w /\ h_in w' = h_in w /\ h_out w' = h_out w.
Proof.
  unfold planned. destruct (h_plan w) as [|e' p]; [by destruct (good _)|].
  destruct (e' =? 0); [by destruct (good _)|]. by intros [= _ <-].
Qed.

Lemma allocate_fresh {A} mk (f : Z -> A) w0 a w' :
  (forall z, number_of (mk z) = z) -> allocate mk f w0 = (a, w') ->
  exists n, 0 <= n /\ a = f n /\ mk n ∉ h_live w0 /\ h_live w' = {[mk n]} ∪ h_live w0.
Proof.
  intros Hmk [= <- <-]. pose proof (host_top_nonneg (h_live w0)).
  exists (top (h_live w0) + 1). split_and!; [lia|done| |done].
  intros Hin. apply host_top_bound in Hin. rewrite Hmk in Hin. lia.
Qed.

#[global] Program Instance host_laws : SocketLaws host := {| live := h_live |}.
Solve All Obligations with (intros; intros ?; by apply planned_live).
Next Obligation.
  intros * (w0 & <- & _ & _ & H)%planned_ok.
  apply allocate_fresh in H as (n & _ & -> & ? & ?); done.
Qed.
Next Obligation. intros * H. apply planned_err in H. tauto. Qed.
Next Obligation. done. Qed.
Next Obligation.
  intros * (w0 & <- & _ & _ & H)%planned_ok.
  by apply allocate_fresh in H as (n & ? & -> & ? & ?).
Qed.
Next Obligation. intros * H. apply planned_err in H. tauto. Qed.
Next Obligation.
  intros * (w0 & <- & _ & _ & H)%planned_ok.
  by apply allocate_fresh in H as (n & ? & -> & ? & ?).
Qed.
Next Obligation. intros * H. apply planned_err in H. tauto. Qed.
Next Obligation. done. Qed.
Next Obligation. intros * w. done. Qed.

(** Mapped files hold zeros; the random numbers are not. *)
#[global] Instance host_files : Files host := {
  sys_mkstemp t := planned (allocate Fd (fun fd => (fd, t)));
  sys_unlink _ := planned (quiet tt);
  sys_ftruncate _ _ := planned (quiet tt);
  sys_mmap _ n := planned (quiet (replicate (Z.to_nat n) 0));
  sys_open _ _ := planned (allocate Fd id);
  sys_urandom n := quiet (Some (replicate (Z.to_nat n) 7));
  sys_badfd fd w := bool_decide (Fd fd ∉ h_live w) }.

#[global] Program Instance host_file_laws : FileSysLaws host.
Solve All Obligations with (intros; intros ?; first [by apply planned_live | done]).
Next Obligation.
  intros * H. cbn. apply planned_ok in H as (w0 & <- & _ & _ & H).
  apply allocate_fresh in H as (n & ? & [= <- _] & ? & ?); done.
Qed.
Next Obligation. intros * H. apply planned_err in H. cbn. tauto. Qed.
Next Obligation.
  intros * H. cbn. apply planned_ok in H as (w0 & <- & _ & _ & H).
  by apply allocate_fresh in H as (n & ? & -> & ? & ?).
Qed.
Next Obligation. intros * H. apply planned_err in H. cbn. tauto. Qed.
Next Obligation.
  intros fd n w data w' (w0 & _ & _ & _ & [= <- _])%planned_ok. apply length_replicate.
Qed.
Next Obligation.
  intros n w data w' [= <- _]. rewrite length_replicate. split; [done|]. by apply Forall_replicate.
Qed.
Next Obligation. intros. cbn. by rewrite bool_decide_eq_true. Qed.

#[global] Instance host_posix_laws : PosixLaws host.
Proof.
  split.
  - intros fd n w data w' (w0 & _ & _ & _ & [= <- _])%planned_ok. rewrite length_take. lia.
  - intros fd data w k w' (w0 & _ & _ & _ & [= <- _])%planned_ok. lia.
  - intros out_fd in_fd off n w k w' (w0 & _ & _ & _ & [= <- _])%planned_ok. lia.
Qed.

#[global] Program Instance host_stream : StreamLaws host := {|
  inbox w _ := h_in w; outbox w _ := h_out w |}.
Next Obligation.
  intros fd n w data w' (w0 & _ & Hi & Ho & [= <- <-])%planned_ok. cbn.
  by rewrite Hi, Ho, take_drop.
Qed.
Next Obligation. intros * H. apply planned_err in H as (_ & -> & ->). done. Qed.
Next Obligation.
  intros fd data w k w' (w0 & _ & Hi & Ho & [= <- <-])%planned_ok. cbn.
  by rewrite Hi, Ho, Nat2Z.id, take_ge.
Qed.
Next Obligation. intros * H. apply planned_err in H as (_ & -> & ->). done. Qed.

(** Its clock stands still, a thousand seconds after it started. *)
#[global] Instance host_clock : Clock host := {
  sys_clock := quiet (Some (1000, 0));
  stack_word _ := 0 }.
End Host.
