(* ===== verification/Dial.v ===== *)
(** * net.c: making and announcing connections

    [timeout_connect], [netdial] and [netannounce]; the socket they answer, or
    -1. What [errno] is saved and restored to across the clean-up is not
    modelled, no caller reads it. *)

From Stdlib Require Import Ascii.
From stdpp Require Import strings.
From S2P Require Import Prelude Bytes Posix Sockets.

#[local] Open Scope Z_scope.
#[local] Open Scope act_scope.

Section Dial.
Context {W : Type} {sockets : Sockets W}.

(** The connection itself, and how it failed. *)
Definition timeout_connect (s : Z) (name : sockaddr) (timeout : Z) : act W (sysres unit) :=
  let restore (flags : Z) (ret : sysres unit) : act W (sysres unit) :=
    if negb (timeout =? -1) then
      attempt (sys_setfl s flags) (fun e => give (Err e)) (fun _ => give ret)
    else give ret in
  let go (flags : Z) : act W (sysres unit) :=
    attempt (sys_connect s name)
      (fun e =>
         if e =? EINPROGRESS then
           attempt (sys_poll s timeout)
             (fun e => restore flags (Err e))
             (fun n =>
                if n =? 1 then
                  attempt (sys_getsockopt s SO_ERROR)
                    (fun e => restore flags (Err e))
                    (fun optval => restore flags (if optval =? 0 then Ok tt else Err optval))
                else restore flags (Err (if n =? 0 then ETIMEDOUT else e)))
         else restore flags (Err e))
      (fun _ => restore flags (Ok tt)) in
  if negb (timeout =? -1) then
    call flags := sys_getfl s;
    attempt (sys_setfl s (Z.lor flags O_NONBLOCK)) (fun e => give (Err e)) (fun _ => go flags)
  else go 0.

(** [close(s)] and [freeaddrinfo] on the way out of an error. *)
Definition free_local (local_res : option addrinfo) (w : W) : W :=
  match local_res with Some ai => sys_freeaddrinfo (ai_ptr ai) w | None => w end.

(** The address [--cport] without [--bind] binds to; [None] is an address family
    the code does not know. *)
Definition any_address (family port : Z) : option sockaddr :=
  if family =? AF_INET then Some (mk_sockaddr AF_INET (replicate 4 0) port 0)
  else if family =? AF_INET6 then Some (mk_sockaddr AF_INET6 (replicate 16 0) port 0)
  else None.

Definition connect_to (server_res : addrinfo) (s port timeout : Z) : act W Z :=
  call ret := timeout_connect s (with_port port (ai_addr server_res)) timeout;
  let failed := match ret with Ok _ => false | Err e => negb (e =? EINPROGRESS) end in
  if failed then
    run sys_close s; run sys_freeaddrinfo (ai_ptr server_res); give (-1)
  else run sys_freeaddrinfo (ai_ptr server_res); give s.

Definition netdial (domain proto : Z) (local bind_dev : option string) (local_port : Z)
    (server : option string) (port timeout : Z) : act W Z :=
  let resolve_local (k : option addrinfo -> act W Z) : act W Z :=
    match local with
    | Some l =>
        try ai := sys_getaddrinfo domain proto false (Some l) None otherwise give (-1);
        k (Some ai)
    | None => k None
    end in
  resolve_local (fun local_res =>
  try server_res := sys_getaddrinfo domain proto false server None otherwise give (-1);
  let free_both (w : W) : W :=
    sys_freeaddrinfo (ai_ptr server_res) (free_local local_res w) in
  try s := sys_socket (ai_family server_res) proto otherwise (run free_both; give (-1));
  let fail : act W Z := run sys_close s; run free_both; give (-1) in
  let dial : act W Z :=
    match local_res with
    | Some ai =>
        let addr := if negb (local_port =? 0) then with_port local_port (ai_addr ai)
                    else ai_addr ai in
        try ok := sys_bind s addr otherwise fail;
        run sys_freeaddrinfo (ai_ptr ai);
        connect_to server_res s port timeout
    | None =>
        if negb (local_port =? 0) then
          match any_address (ai_family server_res) local_port with
          | None => give (-1)
          | Some lcl =>
              try ok := sys_bind s lcl otherwise fail;
              connect_to server_res s port timeout
          end
        else connect_to server_res s port timeout
    end in
  match bind_dev with
  | Some dev => try ok := sys_setsockopt s (SO_BINDTODEVICE dev) 0 otherwise fail; dial
  | None => dial
  end).

(** Whether an IPv6 socket takes IPv4 connections as well. *)
Definition netannounce (domain proto : Z) (local bind_dev : option string) (port : Z)
    : act W Z :=
  let family :=
    if (domain =? AF_UNSPEC) && bool_decide (local = None) then AF_INET6 else domain in
  try res := sys_getaddrinfo family proto true local (Some port) otherwise give (-1);
  try s := sys_socket (ai_family res) proto
    otherwise (run sys_freeaddrinfo (ai_ptr res); give (-1));
  let fail : act W Z := run sys_close s; run sys_freeaddrinfo (ai_ptr res); give (-1) in
  let announce : act W Z :=
    try ok := sys_setsockopt s SO_REUSEADDR 1 otherwise fail;
    check (ai_family res =? AF_INET6) && ((domain =? AF_UNSPEC) || (domain =? AF_INET6))
      then sys_setsockopt s IPV6_V6ONLY (if domain =? AF_UNSPEC then 0 else 1)
      otherwise fail;
    try ok := sys_bind s (ai_addr res) otherwise fail;
    run sys_freeaddrinfo (ai_ptr res);
    check proto =? SOCK_STREAM then sys_listen s INT_MAX
      otherwise (run sys_close s; give (-1));
    give s in
  match bind_dev with
  | Some dev => try ok := sys_setsockopt s (SO_BINDTODEVICE dev) 0 otherwise fail; announce
  | None => announce
  end.

(** [setnonblocking]: the flags are written back only when they change. *)
Definition setnonblocking (fd : Z) (nonblocking : bool) : act W Z :=
  call flags := sys_getfl fd;
  if flags <? 0 then give (-1)
  else
    let newflags := if nonblocking then Z.lor flags O_NONBLOCK
                    else Z.land flags (Z.lnot O_NONBLOCK) in
    check negb (newflags =? flags) then sys_setfl fd newflags otherwise give (-1);
    give 0.

Definition getsockdomain (sock : Z) : act W Z :=
  try sa := sys_getsockname sock otherwise give (-1);
  give (sa_family sa).
End Dial.

(** * Descriptors *)

#[local] Set Default Proof Using "Type".

Section Descriptors.
Context {W : Type} {posix : Posix W} {sockets : Sockets W} {laws : SocketLaws W}.

Lemma passive_step {A} (m : W -> A * W) w a w' :
  passive live m -> m w = (a, w') -> live w' = live w.
Proof. intros Hm E. specialize (Hm w). by rewrite E in Hm. Qed.

Lemma passive_give {A} (a : A) : passive live (give a : act W A).
Proof. done. Qed.

Lemma passive_attempt {A B} (m : act W (sysres A)) (h : Z -> act W B) (k : A -> act W B) :
  passive live m -> (forall e, passive live (h e)) -> (forall a, passive live (k a)) ->
  passive live (attempt m h k).
Proof.
  intros Hm Hh Hk w. unfold attempt. specialize (Hm w).
  destruct (m w) as [[a|e] w1]; cbn [snd] in Hm; [rewrite (Hk a w1)|rewrite (Hh e w1)]; done.
Qed.

Lemma passive_andthen {A B} (m : act W A) (k : A -> act W B) :
  passive live m -> (forall a, passive live (k a)) -> passive live (andthen m k).
Proof.
  intros Hm Hk w. unfold andthen. specialize (Hm w).
  destruct (m w) as [a w1]. cbn [snd] in Hm. by rewrite (Hk a w1).
Qed.

Lemma passive_if {A} (b : bool) (m1 m2 : act W A) :
  passive live m1 -> passive live m2 -> passive live (if b then m1 else m2).
Proof. by destruct b. Qed.
End Descriptors.

#[export] Hint Resolve passive_give passive_attempt passive_andthen passive_if : live.

Ltac passive_act :=
  repeat first
    [ apply passive_if | apply passive_attempt | apply passive_andthen | apply passive_give
    | progress intros | solve [eauto with live] ].

(** ** What a sequence of calls leaves

    [leaves L m Q]: run where [L] is live, [m] ends with an answer and live
    resources that satisfy [Q]. One rule per way to go on. *)

Section Leaves.
Context {W : Type} {posix : Posix W} {sockets : Sockets W} {laws : SocketLaws W}.

Definition leaves {A} (L : gset resource) (m : act W A) (Q : A -> gset resource -> Prop) :=
  forall w, live w = L -> Q (m w).1 (live (m w).2).

Context {R : Type}.
Implicit Types (L : gset resource) (k : act W R) (Q : R -> gset resource -> Prop).

Lemma leaves_give L r Q : Q r L -> leaves L (give r) Q.
Proof. by intros H w <-. Qed.

Lemma leaves_close L s k Q : leaves (L ∖ {[Fd s]}) k Q -> leaves L (run sys_close s; k) Q.
Proof. intros H w <-. apply H, close_live. Qed.

Lemma leaves_free L p k Q :
  leaves (L ∖ {[Info p]}) k Q -> leaves L (run sys_freeaddrinfo p; k) Q.
Proof. intros H w <-. apply H, freeaddrinfo_live. Qed.

Lemma leaves_run_compose L f g k Q :
  leaves L (run g; run f; k) Q -> leaves L (run (fun w => f (g w)); k) Q.
Proof. done. Qed.

Lemma leaves_id L k Q : leaves L k Q -> leaves L (run (fun w => w); k) Q.
Proof. done. Qed.

Lemma leaves_passive {A} L (m : act W (sysres A)) h (f : A -> act W R) Q :
  passive live m -> leaves L h Q -> (forall a, leaves L (f a) Q) ->
  leaves L (try x := m otherwise h; f x) Q.
Proof.
  intros Hm Hh Hf w <-. unfold attempt. pose proof (Hm w) as Hl.
  destruct (m w) as [[a|e] w1]; [by apply Hf|by apply Hh].
Qed.

Lemma leaves_check {A} L b (m : act W (sysres A)) h k Q :
  passive live m -> leaves L h Q -> leaves L k Q ->
  leaves L (check b then m otherwise h; k) Q.
Proof. intros Hm Hh Hk. destruct b; [by apply leaves_passive|done]. Qed.

Lemma leaves_call {A} L (m : act W A) (f : A -> act W R) Q :
  passive live m -> (forall a, leaves L (f a) Q) -> leaves L (call x := m; f x) Q.
Proof.
  intros Hm Hf w <-. unfold andthen. pose proof (Hm w) as Hl.
  destruct (m w) as [a w1]. by apply Hf.
Qed.

Lemma leaves_socket L domain type h (f : Z -> act W R) Q :
  leaves L h Q ->
  (forall s, 0 <= s -> Fd s ∉ L -> leaves ({[Fd s]} ∪ L) (f s) Q) ->
  leaves L (try s := sys_socket domain type otherwise h; f s) Q.
Proof.
  intros Hh Hf w <-. unfold attempt.
  destruct (sys_socket domain type w) as [[s|e] w1] eqn:E.
  - apply (@socket_ok W _ _ _) in E as (Hs & Hn & E). by apply Hf.
  - apply (@socket_err W _ _ _) in E. by apply Hh.
Qed.

Lemma leaves_accept L lfd h (f : Z -> act W R) Q :
  leaves L h Q ->
  (forall s, 0 <= s -> Fd s ∉ L -> leaves ({[Fd s]} ∪ L) (f s) Q) ->
  leaves L (try s := sys_accept lfd otherwise h; f s) Q.
Proof.
  intros Hh Hf w <-. unfold attempt.
  destruct (sys_accept lfd w) as [[s|e] w1] eqn:E.
  - apply (@accept_ok W _ _ _) in E as (Hs & Hn & E). by apply Hf.
  - apply (@accept_err W _ _ _) in E. by apply Hh.
Qed.

Lemma leaves_getaddrinfo L domain type pass host service h (f : addrinfo -> act W R) Q :
  leaves L h Q ->
  (forall ai, Info (ai_ptr ai) ∉ L -> leaves ({[Info (ai_ptr ai)]} ∪ L) (f ai) Q) ->
  leaves L (try ai := sys_getaddrinfo domain type pass host service otherwise h; f ai) Q.
Proof.
  intros Hh Hf w <-. unfold attempt.
  destruct (sys_getaddrinfo domain type pass host service w) as [[ai|e] w1] eqn:E.
  - apply (@getaddrinfo_ok W _ _ _) in E as (Hn & E). by apply Hf.
  - apply (@getaddrinfo_err W _ _ _) in E. by apply Hh.
Qed.
End Leaves.

(** One rule; a [give] is left for the end. *)
Ltac leaves_step :=
  lazymatch goal with
  | |- leaves _ (give _) _ => apply leaves_give
  | |- leaves _ (run sys_close _; _) _ => apply leaves_close
  | |- leaves _ (run sys_freeaddrinfo _; _) _ => apply leaves_free
  | |- leaves _ (run (fun w => sys_freeaddrinfo ?p (@?g w)); ?k) _ =>
      apply (leaves_run_compose _ (sys_freeaddrinfo p) g k)
  | |- leaves _ (run (fun w => w); _) _ => apply leaves_id
  | |- leaves _ (try _ := sys_socket _ _ otherwise _; _) _ =>
      apply leaves_socket; [|intros ???]
  | |- leaves _ (try _ := sys_accept _ otherwise _; _) _ =>
      apply leaves_accept; [|intros ???]
  | |- leaves _ (try _ := sys_getaddrinfo _ _ _ _ _ otherwise _; _) _ =>
      apply leaves_getaddrinfo; [|intros ??]
  | |- leaves _ (try _ := _ otherwise _; _) _ =>
      apply leaves_passive; [solve [eauto with live]| |intros ?]
  | |- leaves _ (check _ then _ otherwise _; _) _ =>
      apply leaves_check; [solve [eauto with live]| |]
  | |- leaves _ (call _ := _; _) _ => apply leaves_call; [solve [eauto with live]|intros ?]
  | |- leaves _ (if ?b then _ else _) _ => destruct b eqn:?
  | |- leaves _ (match ?o with Some _ => _ | None => _ end) _ => destruct o eqn:?
  | |- leaves _ (match ?r with Ok _ => _ | Err _ => _ end) _ => destruct r eqn:?
  end; cbv beta.

(** The end of a path: what is live is computed from what it allocated. *)
Ltac made :=
  hnf; solve [ right; split; [done|set_solver]
        | left; split_and!; [done|set_solver|set_solver] ].

Section Dialling.
Context {W : Type} {posix : Posix W} {sockets : Sockets W} {laws : SocketLaws W}.

Lemma passive_timeout_connect s name timeout : passive live (timeout_connect s name timeout).
Proof. unfold timeout_connect. cbv zeta. passive_act. Qed.

(** What a function that makes a socket did: it answers a fresh descriptor, the
    only thing it leaves allocated, or -1 and leaves nothing. *)
Definition makes_socket (L : gset resource) (r : Z) (L' : gset resource) : Prop :=
  (0 <= r /\ Fd r ∉ L /\ L' = {[Fd r]} ∪ L) \/ (r = -1 /\ L' = L).

Lemma netannounce_leaves domain proto local bind_dev port L :
  leaves L (netannounce domain proto local bind_dev port) (makes_socket L).
Proof. unfold netannounce. cbv zeta. repeat leaves_step. all: made. Qed.

(** C32: announcing leaks nothing. [netannounce] answers a fresh descriptor, the
    only thing it leaves allocated, or -1, having closed and freed everything
    it had allocated, whichever of its calls failed. *)
Theorem netannounce_clean domain proto local bind_dev port w :
  let '(r, w') := netannounce domain proto local bind_dev port w in
  makes_socket (live w) r (live w').
Proof.
  pose proof (netannounce_leaves domain proto local bind_dev port (live w) w eq_refl) as H.
  by destruct (netannounce _ _ _ _ _ w).
Qed.

(** A bound on what [netdial] leaves behind a -1, enough for its callers: the local address list, when the server's name
    does not resolve; the socket and the server's address list, when a local
    port is asked for and the address is neither IPv4 nor IPv6. *)
Definition dial_leaks (local : option string) (local_port : Z) (L L' : gset resource) : Prop :=
  (is_Some local /\ exists p, Info p ∉ L /\ L' = {[Info p]} ∪ L) \/
  (local = None /\ local_port <> 0 /\
   exists fd p, Fd fd ∉ L /\ Info p ∉ L /\ L' = {[Fd fd]} ∪ ({[Info p]} ∪ L)).

Lemma leaves_connect_to L server_res s port timeout Q :
  Q (-1) (L ∖ {[Fd s]} ∖ {[Info (ai_ptr server_res)]}) ->
  Q s (L ∖ {[Info (ai_ptr server_res)]}) ->
  leaves L (connect_to server_res s port timeout) Q.
Proof.
  intros Hfail Hok. unfold connect_to.
  apply leaves_call; [apply passive_timeout_connect|]. intros ret. cbv zeta.
  repeat leaves_step; done.
Qed.

Lemma netdial_leaves domain proto local bind_dev local_port server port timeout L :
  leaves L (netdial domain proto local bind_dev local_port server port timeout)
    (fun r L' => makes_socket L r L' \/ (r = -1 /\ dial_leaks local local_port L L')).
Proof.
  unfold netdial. cbv zeta. unfold free_local.
  destruct local as [l|]; cbn beta iota;
    repeat (leaves_step || apply leaves_connect_to); try solve [left; made]; right.
  - split; [done|]. left. split; [done|]. by exists (ai_ptr ai).
  - split; [done|]. right. split; [done|].
    split; [by destruct (Z.eqb_spec local_port 0)|].
    exists s, (ai_ptr ai). set_solver.
  - split; [done|]. right. split; [done|].
    split; [by destruct (Z.eqb_spec local_port 0)|].
    exists s, (ai_ptr ai). set_solver.
Qed.

(** ** Which call loses what *)

(** What a failing [netdial] that starts in [w] does not give back, by the call that fails:
    the list of local addresses, when the local name resolves and the server's does not; the
    socket and the list of the server's addresses, when the server's name resolves, the
    socket is made and bound to its device, and its family is neither IPv4 nor IPv6, while a
    local port is asked for without a local name. Any other failure loses nothing. *)
Definition dial_lost (domain proto : Z) (local bind_dev : option string) (local_port : Z)
    (server : option string) (w : W) : gset resource :=
  match local with
  | Some l =>
      match sys_getaddrinfo domain proto false (Some l) None w with
      | (Ok ai, w1) =>
          match sys_getaddrinfo domain proto false server None w1 with
          | (Err _, _) => {[Info (ai_ptr ai)]}
          | _ => ∅
          end
      | _ => ∅
      end
  | None =>
      match sys_getaddrinfo domain proto false server None w with
      | (Ok ai, w1) =>
          if decide (local_port = 0 \/ ai_family ai = AF_INET \/ ai_family ai = AF_INET6) then ∅
          else
            match sys_socket (ai_family ai) proto w1 with
            | (Ok s, w2) =>
                match bind_dev with
                | None => {[Fd s; Info (ai_ptr ai)]}
                | Some dev =>
                    match sys_setsockopt s (SO_BINDTODEVICE dev) 0 w2 with
                    | (Ok _, _) => {[Fd s; Info (ai_ptr ai)]}
                    | _ => ∅
                    end
                end
            | _ => ∅
            end
      | _ => ∅
      end
  end.

(** A fresh descriptor and nothing else, or -1 and what was lost. *)
Definition dials (L lost : gset resource) (r : Z) (L' : gset resource) : Prop :=
  (0 <= r /\ Fd r ∉ L /\ L' = {[Fd r]} ∪ L) \/ (r = -1 /\ L' = lost ∪ L).

Lemma makes_dials L r L' : makes_socket L r L' -> dials L ∅ r L'.
Proof. intros [?|[-> ->]]; [by left|right]. split; [done|set_solver]. Qed.

Lemma leaves_run {A} (m : act W A) L Q w : leaves L m Q -> live w = L -> Q (m w).1 (live (m w).2).
Proof. intros H. apply H. Qed.

Lemma any_address_unknown family port :
  family <> AF_INET -> family <> AF_INET6 -> any_address family port = None.
Proof. intros H4 H6. unfold any_address. by rewrite (proj2 (Z.eqb_neq _ _) H4), (proj2 (Z.eqb_neq _ _) H6). Qed.

Lemma attempt_ok {A B} (m : act W (sysres A)) (h : Z -> act W B) k w a w' :
  m w = (Ok a, w') -> attempt m h k w = k a w'.
Proof. unfold attempt. by intros ->. Qed.

Lemma attempt_err {A B} (m : act W (sysres A)) (h : Z -> act W B) k w e w' :
  m w = (Err e, w') -> attempt m h k w = h e w'.
Proof. unfold attempt. by intros ->. Qed.

Lemma known_address local_port family :
  local_port = 0 \/ family = AF_INET \/ family = AF_INET6 ->
  negb (local_port =? 0) = true -> any_address family local_port = None -> False.
Proof.
  unfold any_address. intros [->|[->| ->]] H; [done|done|]. by destruct (AF_INET6 =? AF_INET).
Qed.

Lemma netdial_dials domain proto local bind_dev local_port server port timeout w :
  let a := netdial domain proto local bind_dev local_port server port timeout w in
  dials (live w) (dial_lost domain proto local bind_dev local_port server w) a.1 (live a.2).
Proof.
  assert (forall w', live w' = live w -> dials (live w) ∅ (-1) (live w')) as Hnone.
  { intros w' E. right. split; [done|]. by rewrite E, (left_id_L ∅ (∪)). }
  cbv zeta. unfold netdial, dial_lost. cbv zeta.
  destruct local as [l|]; cbn beta iota.
  - destruct (sys_getaddrinfo domain proto false (Some l) None w) as [[ai|e] w1] eqn:E1.
    2: { erewrite attempt_err by exact E1. apply Hnone. by apply (@getaddrinfo_err W _ _ _) in E1. }
    erewrite attempt_ok by exact E1. apply (@getaddrinfo_ok W _ _ _) in E1 as [Hn1 E1].
    destruct (sys_getaddrinfo domain proto false server None w1) as [[sai|e] w2] eqn:E2.
    2: { erewrite attempt_err by exact E2. apply (@getaddrinfo_err W _ _ _) in E2.
         right. split; [done|]. cbn [give snd]. congruence. }
    erewrite attempt_ok by exact E2. apply (@getaddrinfo_ok W _ _ _) in E2 as [Hn2 E2].
    rewrite E1 in E2, Hn2.
    apply makes_dials. eapply leaves_run; [|exact E2]. unfold free_local.
    repeat (leaves_step || apply leaves_connect_to). all: made.
  - destruct (sys_getaddrinfo domain proto false server None w) as [[ai|e] w1] eqn:E1.
    2: { erewrite attempt_err by exact E1. apply Hnone. by apply (@getaddrinfo_err W _ _ _) in E1. }
    erewrite attempt_ok by exact E1. apply (@getaddrinfo_ok W _ _ _) in E1 as [Hn1 E1].
    unfold free_local. case_decide as Hknown.
    + apply makes_dials. eapply leaves_run; [|exact E1].
      repeat (leaves_step || apply leaves_connect_to).
      all: try made.
      all: exfalso; by eapply known_address.
    + destruct (sys_socket (ai_family ai) proto w1) as [[s|e] w2] eqn:E2.
      2: { erewrite attempt_err by exact E2. apply (@socket_err W _ _ _) in E2. rewrite E1 in E2.
           apply makes_dials. eapply leaves_run; [|exact E2]. repeat leaves_step. made. }
      erewrite attempt_ok by exact E2. apply (@socket_ok W _ _ _) in E2 as (Hs & Hn2 & E2).
      rewrite E1 in E2, Hn2.
      apply Decidable.not_or in Hknown as [Hport [H4 H6]%Decidable.not_or].
      apply Z.eqb_neq in Hport. rewrite Hport. cbn [negb].
      rewrite (any_address_unknown _ local_port H4 H6).
      destruct bind_dev as [dev|].
      * destruct (sys_setsockopt s (SO_BINDTODEVICE dev) 0 w2) as [[u|e] w3] eqn:E3.
        -- erewrite attempt_ok by exact E3. apply passive_step in E3; [|eauto with live].
           right. split; [done|]. cbn [give snd]. rewrite E3, E2. set_solver.
        -- erewrite attempt_err by exact E3. apply passive_step in E3; [|eauto with live].
           rewrite E2 in E3. apply makes_dials. eapply leaves_run; [|exact E3].
           repeat leaves_step. made.
      * right. split; [done|]. cbn [give snd]. rewrite E2. set_solver.
Qed.

(** C31: what dialling leaks. [netdial] answers a fresh descriptor, the only thing
    it leaves allocated, or -1; behind a -1 it has closed and freed everything
    but in two cases ([dial_lost]): the list of local addresses stays allocated when the
    local name resolves and the server's does not, and the socket and the list of the server's
    addresses stay when a local port is asked for without a local name and the
    server's address is neither IPv4 nor IPv6. *)
Theorem netdial_descriptors domain proto local bind_dev local_port server port timeout w :
  let '(r, w') := netdial domain proto local bind_dev local_port server port timeout w in
  (0 <= r /\ Fd r ∉ live w /\ live w' = {[Fd r]} ∪ live w) \/
  (r = -1 /\ live w' = dial_lost domain proto local bind_dev local_port server w ∪ live w).
Proof.
  pose proof (netdial_dials domain proto local bind_dev local_port server port timeout w) as H.
  by destruct (netdial _ _ _ _ _ _ _ _ w).
Qed.
End Dialling.

(** The fourth call, [bind], fails; then everything succeeds. *)
Lemma netannounce_clean_witness :
  let w := Host.mk_host ∅ [0; 0; 0; 0; 98] AF_INET6 [] [] in
  let '(r, w') := netannounce AF_UNSPEC SOCK_STREAM None None 5201 w in
  makes_socket (live w) r (live w') /\ r = -1.
Proof.
  pose proof (netannounce_clean AF_UNSPEC SOCK_STREAM None None 5201
    (Host.mk_host ∅ [0; 0; 0; 0; 98] AF_INET6 [] [])) as H. cbv zeta.
  destruct (netannounce _ _ _ _ _ _) as [r w'] eqn:E.
  split; [exact H|]. vm_compute in E. congruence.
Defined.

Lemma netdial_descriptors_witness :
  let w := Host.mk_host ∅ [0; 11] AF_INET [] [] in
  let '(r, w') := netdial AF_UNSPEC SOCK_STREAM (Some "localhost"%string) None 0
                    (Some "no.such.host"%string) 5201 (-1) w in
  r = -1 /\ live w' = {[Info 1]} ∪ live w.
Proof.
  pose proof (netdial_descriptors AF_UNSPEC SOCK_STREAM (Some "localhost"%string) None 0
    (Some "no.such.host"%string) 5201 (-1) (Host.mk_host ∅ [0; 11] AF_INET [] [])) as H. cbv zeta.
  destruct (netdial _ _ _ _ _ _ _ _ _) as [r w'] eqn:E.
  assert (r = -1) as -> by (vm_compute in E; by injection E as <- _). split; [reflexivity|].
  destruct H as [[H _]|[_ H]]; [lia|]. rewrite H. vm_compute. reflexivity.
Defined.
