(* ===== verification/Connect.v ===== *)
(** * iperf_tcp.c, iperf_udp.c: listening, connecting, accepting

    The sockets of the streams. Every function answers the descriptor or -1,
    and the test with [i_errno] and the members it sets. Warnings about buffers and
    pacing and debugging output are not modelled. *)

From S2P Require Import Prelude Double Bytes Posix Net CJson Test JsonTree Sockets Dial.

#[local] Open Scope Z_scope.
#[local] Open Scope act_scope.

Section Connect.
Context {W : Type} {posix : Posix W} {sockets : Sockets W}.

(** The answer of these functions. *)
Definition failed (ie : Z) (test : iperf_test) : act W (Z * iperf_test) :=
  give (-1, test <| t_i_errno := ie |>).

(** [SO_MAX_PACING_RATE], in bytes per second as an [unsigned int]; a kernel that
    refuses it is only warned about. *)
Definition set_pacing {A} (s : Z) (test : iperf_test) (k : act W A) : act W A :=
  let fqrate := u32 (st_fqrate (t_settings test) / 8) in
  if negb (st_fqrate (t_settings test) =? 0) && (0 <? fqrate)
  then call _ := sys_setsockopt s SO_MAX_PACING_RATE fqrate; k
  else k.

(** A conditional [setsockopt] on the way to a TCP socket. *)
Definition option_or (b : bool) (s : Z) (o : sockopt) (v : Z)
    (fail : Z -> act W (Z * iperf_test)) (ie : Z) (k : act W (Z * iperf_test)) :=
  check b then sys_setsockopt s o v otherwise fail ie; k.

(** ** TCP *)

(** The size the kernel gave the buffer [o] is read back and compared. *)
Definition verify_buffer (s : Z) (o : sockopt) (test : iperf_test)
    (fail : Z -> act W (Z * iperf_test)) (k : Z -> act W (Z * iperf_test)) :=
  let size := st_socket_bufsize (t_settings test) in
  try actual := sys_getsockopt s o otherwise fail IESETBUF;
  if negb (size =? 0) && (actual <? size) then failed IESETBUF2 test else k actual.

(** The sizes of the buffers, in the JSON output. *)
Definition buffers_json (sndbuf_actual rcvbuf_actual : Z) (test : iperf_test) : iperf_test :=
  if negb (t_json_output test =? 0) then
    let number name z := add_json json_start name (cJSON_CreateNumber (d_of_Z z)) in
    number "rcvbuf_actual" rcvbuf_actual
      (number "sndbuf_actual" sndbuf_actual
        (number "sock_bufsize" (st_socket_bufsize (t_settings test)) test))
  else test.

(** The new listening socket, with the options of the test. *)
Definition tcp_relisten (test : iperf_test) (k : Z -> iperf_test -> act W (Z * iperf_test))
    : act W (Z * iperf_test) :=
  let st := t_settings test in
  let family := if (st_domain st =? AF_UNSPEC) && bool_decide (t_bind_address test = None)
                then AF_INET6 else st_domain st in
  try res := sys_getaddrinfo family SOCK_STREAM true (t_bind_address test)
               (Some (t_server_port test)) otherwise failed IESTREAMLISTEN test;
  try s := sys_socket (ai_family res) SOCK_STREAM
    otherwise (run sys_freeaddrinfo (ai_ptr res); failed IESTREAMLISTEN test);
  let fail (ie : Z) : act W (Z * iperf_test) :=
    run sys_close s; run sys_freeaddrinfo (ai_ptr res); failed ie test in
  option_or (negb (t_no_delay test =? 0)) s TCP_NODELAY 1 fail IESETNODELAY (
  option_or (negb (st_mss st =? 0)) s TCP_MAXSEG (st_mss st) fail IESETMSS (
  option_or (negb (st_socket_bufsize st =? 0)) s SO_RCVBUF (st_socket_bufsize st) fail IESETBUF (
  option_or (negb (st_socket_bufsize st =? 0)) s SO_SNDBUF (st_socket_bufsize st) fail IESETBUF (
  set_pacing s test (
  option_or true s SO_REUSEADDR 1 fail IEREUSEADDR (
  option_or ((ai_family res =? AF_INET6)
             && ((st_domain st =? AF_UNSPEC) || (st_domain st =? AF_INET)))
    s IPV6_V6ONLY (if st_domain st =? AF_UNSPEC then 0 else 1) fail IEV6ONLY (
  try ok := sys_bind s (ai_addr res) otherwise fail IESTREAMLISTEN;
  run sys_freeaddrinfo (ai_ptr res);
  try ok := sys_listen s INT_MAX otherwise failed IESTREAMLISTEN test;
  k s (test <| t_listener := s |>)))))))).

Definition iperf_tcp_listen (test : iperf_test) : act W (Z * iperf_test) :=
  let st := t_settings test in
  let verify (s : Z) (test : iperf_test) : act W (Z * iperf_test) :=
    let fail (ie : Z) : act W (Z * iperf_test) := run sys_close s; failed ie test in
    verify_buffer s SO_SNDBUF test fail (fun sndbuf_actual =>
    verify_buffer s SO_RCVBUF test fail (fun rcvbuf_actual =>
    give (s, buffers_json sndbuf_actual rcvbuf_actual test))) in
  let s := t_listener test in
  if negb (t_no_delay test =? 0) || negb (st_mss st =? 0)
     || negb (st_socket_bufsize st =? 0) then
    let test := test <| t_read_set ::= fun l => l ∖ {[s]} |> in
    run sys_close s;
    tcp_relisten test verify
  else verify s test.

(** [IPV6_FLOWINFO_FLOWLABEL] *)
Definition FLOWLABEL_MASK : Z := 0xfffff.

(** The flow label is registered with the kernel and put into the address. *)
Definition set_flowlabel (h : endianness) (s : Z) (test : iperf_test) (addr : sockaddr)
    (fail : Z -> act W (Z * iperf_test)) (k : sockaddr -> act W (Z * iperf_test)) :=
  if negb (st_flowlabel (t_settings test) =? 0) then
    if negb (sa_family addr =? AF_INET6) then fail IESETFLOW
    else
      let label := hton h 4 (Z.land (st_flowlabel (t_settings test)) FLOWLABEL_MASK) in
      try ok := sys_setsockopt s (IPV6_FLOWLABEL_MGR label (sa_addr addr)) 0
        otherwise fail IESETFLOW;
      try ok := sys_setsockopt s IPV6_FLOWINFO_SEND 1 otherwise fail IESETFLOW;
      k (with_flowinfo label addr)
  else k addr.

(** [iperf_tcp_connect] up to the connection. *)
Definition tcp_connect_socket (h : endianness) (test : iperf_test) : act W (Z * iperf_test) :=
  let st := t_settings test in
  let resolve_local (k : option addrinfo -> act W (Z * iperf_test)) :=
    match t_bind_address test with
    | Some l =>
        try ai := sys_getaddrinfo (st_domain st) SOCK_STREAM false (Some l) None
          otherwise failed IESTREAMCONNECT test;
        k (Some ai)
    | None => k None
    end in
  resolve_local (fun local_res =>
  try server_res := sys_getaddrinfo (st_domain st) SOCK_STREAM false (t_server_hostname test)
                      (Some (t_server_port test))
    otherwise (run free_local local_res; failed IESTREAMCONNECT test);
  try s := sys_socket (ai_family server_res) SOCK_STREAM
    otherwise (run free_local local_res; run sys_freeaddrinfo (ai_ptr server_res);
               failed IESTREAMCONNECT test);
  let fail (test : iperf_test) (ie : Z) : act W (Z * iperf_test) :=
    run sys_close s; run sys_freeaddrinfo (ai_ptr server_res); failed ie test in
  let go_on : act W (Z * iperf_test) :=
    option_or (negb (t_no_delay test =? 0)) s TCP_NODELAY 1 (fail test) IESETNODELAY (
    option_or (negb (st_mss st =? 0)) s TCP_MAXSEG (st_mss st) (fail test) IESETMSS (
    option_or (negb (st_socket_bufsize st =? 0)) s SO_RCVBUF (st_socket_bufsize st) (fail test) IESETBUF (
    option_or (negb (st_socket_bufsize st =? 0)) s SO_SNDBUF (st_socket_bufsize st) (fail test) IESETBUF (
    verify_buffer s SO_SNDBUF test (fail test) (fun sndbuf_actual =>
    verify_buffer s SO_RCVBUF test (fail test) (fun rcvbuf_actual =>
    let test := buffers_json sndbuf_actual rcvbuf_actual test in
    set_flowlabel h s test (ai_addr server_res) (fail test) (fun addr =>
    set_pacing s test (
    call r := sys_connect s addr;
    let refused := match r with Ok _ => false | Err e => negb (e =? EINPROGRESS) end in
    if refused then fail test IESTREAMCONNECT
    else run sys_freeaddrinfo (ai_ptr server_res); give (s, test))))))))) in
  match local_res with
  | Some ai =>
      try ok := sys_bind s (with_port (t_bind_port test) (ai_addr ai))
        otherwise (run sys_close s; run sys_freeaddrinfo (ai_ptr ai);
                   run sys_freeaddrinfo (ai_ptr server_res); failed IESTREAMCONNECT test);
      run sys_freeaddrinfo (ai_ptr ai); go_on
  | None =>
      if negb (t_bind_port test =? 0) then
        match any_address (ai_family server_res) (t_bind_port test) with
        | None => fail test IEPROTOCOL
        | Some lcl => try ok := sys_bind s lcl otherwise fail test IESTREAMCONNECT; go_on
        end
      else go_on
  end).

(** The cookie is sent as the first bytes of the stream. *)
Definition iperf_tcp_connect (h : endianness) (test : iperf_test) (w : W)
    : option (Z * iperf_test * W) :=
  let '(s, test, w) := tcp_connect_socket h test w in
  if s <? 0 then Some (s, test, w)
  else
    '(r, w) ← Nwrite s (t_cookie test) w;
    if r <? 0 then Some (-1, test <| t_i_errno := IESENDCOOKIE |>, sys_close s w)
    else Some (s, test, w).

(** The C string at the start of a buffer, and [strcmp(a, b) == 0]. *)
Fixpoint c_string (l : list Z) : list Z :=
  match l with
  | [] => []
  | c :: l => if c =? 0 then [] else c :: c_string l
  end.

Definition strcmp_eq (a b : list Z) : bool := bool_decide (c_string a = c_string b).

(** [stack] is what the uninitialised cookie buffer holds. A connection with the
    wrong cookie is refused and closed, and its descriptor is still answered. *)
Definition iperf_tcp_accept (stack : list Z) (test : iperf_test) (w : W)
    : option (Z * iperf_test * W) :=
  match sys_accept (t_listener test) w with
  | (Err _, w) => Some (-1, test <| t_i_errno := IESTREAMCONNECT |>, w)
  | (Ok s, w) =>
      '(r, bytes, w) ← Nread s COOKIE_SIZE w;
      if r <? 0 then Some (-1, test <| t_i_errno := IERECVCOOKIE |>, w)
      else
        let cookie := bytes ++ drop (length bytes) stack in
        if strcmp_eq (t_cookie test) cookie then Some (s, test, w)
        else
          '(_, w) ← Nwrite s [u8 ACCESS_DENIED] w;
          Some (s, test, sys_close s w)
  end.

(** ** UDP *)

Definition UDP_BUFFER_EXTRA : Z := 1024.

(** 0, 1 when a datagram may not fit the buffers, or -1. *)
Definition iperf_udp_buffercheck (s : Z) (test : iperf_test) : act W (Z * iperf_test) :=
  let st := t_settings test in
  let size := st_socket_bufsize st in
  check negb (size =? 0) then sys_setsockopt s SO_RCVBUF size otherwise failed IESETBUF test;
  check negb (size =? 0) then sys_setsockopt s SO_SNDBUF size otherwise failed IESETBUF test;
  try sndbuf := sys_getsockopt s SO_SNDBUF otherwise failed IESETBUF test;
  if negb (size =? 0) && (sndbuf <? size) then failed IESETBUF2 test
  else
    try rcvbuf := sys_getsockopt s SO_RCVBUF otherwise failed IESETBUF test;
    if negb (size =? 0) && (rcvbuf <? size) then failed IESETBUF2 test
    else give (if (sndbuf <? st_blksize st) || (rcvbuf <? st_blksize st) then 1 else 0,
               buffers_json sndbuf rcvbuf test).

(** The check, and one attempt to make the default buffers larger. *)
Definition udp_buffers (s : Z) (test : iperf_test)
    (k : iperf_test -> act W (Z * iperf_test)) : act W (Z * iperf_test) :=
  call r := iperf_udp_buffercheck s test;
  let '(rc, test) := r in
  if rc <? 0 then give (rc, test)
  else if (0 <? rc) && (st_socket_bufsize (t_settings test) =? 0) then
    let bufsize := i32 (st_blksize (t_settings test) + UDP_BUFFER_EXTRA) in
    let test := test <| t_settings ::= fun st => st <| st_socket_bufsize := bufsize |> |> in
    call r := iperf_udp_buffercheck s test;
    let '(rc, test) := r in
    if rc <? 0 then give (rc, test) else k test
  else k test.

(** [write] and [recv] of one [int]. *)
Definition write_int (h : endianness) (s z : Z) : act W (sysres Z) :=
  sys_write s (mem_store h 4 z).

Definition iperf_udp_accept (h : endianness) (test : iperf_test) : act W (Z * iperf_test) :=
  let s := t_prot_listener test in
  try peer := sys_recvfrom s 4 otherwise failed IESTREAMACCEPT test;
  try ok := sys_connect s peer.2 otherwise failed IESTREAMACCEPT test;
  udp_buffers s test (fun test =>
  set_pacing s test (
  call l := netannounce (st_domain (t_settings test)) Pudp (t_bind_address test)
              (t_bind_dev test) (t_server_port test);
  let test := test <| t_prot_listener := l |> in
  if l <? 0 then failed IESTREAMLISTEN test
  else
    let test := test <| t_read_set ::= fun fds => fds ∪ {[l]} |>
                     <| t_max_fd ::= fun m => if m <? l then l else m |> in
    try n := write_int h s 987654321 otherwise failed IESTREAMWRITE test;
    give (s, test))).

Definition iperf_udp_listen (test : iperf_test) : act W (Z * iperf_test) :=
  call s := netannounce (st_domain (t_settings test)) Pudp (t_bind_address test)
              (t_bind_dev test) (t_server_port test);
  if s <? 0 then failed IESTREAMLISTEN test else give (s, test).

Definition iperf_udp_connect (h : endianness) (test : iperf_test) : act W (Z * iperf_test) :=
  call s := netdial (st_domain (t_settings test)) Pudp (t_bind_address test) (t_bind_dev test)
              (t_bind_port test) (t_server_hostname test) (t_server_port test) (-1);
  if s <? 0 then failed IESTREAMCONNECT test
  else
    udp_buffers s test (fun test =>
    set_pacing s test (
    call _ := sys_setsockopt s SO_RCVTIMEO 30;
    try n := write_int h s 123456789 otherwise failed IESTREAMWRITE test;
    try reply := sys_recvfrom s 4 otherwise failed IESTREAMREAD test;
    give (s, test))).

Definition iperf_udp_init (test : iperf_test) : Z := 0.
End Connect.
