(* ===== verification/ConnectProps.v ===== *)
(** * What the sockets of the streams leave allocated, and who is let in *)

From S2P Require Import Prelude Bytes Posix Net CJson Test Sockets Dial Connect.

#[local] Open Scope Z_scope.
#[local] Open Scope act_scope.
#[local] Set Default Proof Using "Type".

Section Rules.
Context {W : Type} {posix : Posix W} {sockets : Sockets W} {laws : SocketLaws W}.
Implicit Types (L : gset resource) (test : iperf_test)
  (Q : Z * iperf_test -> gset resource -> Prop).

Lemma leaves_failed L ie test Q :
  Q (-1, test <| t_i_errno := ie |>) L -> leaves L (failed ie test) Q.
Proof. apply leaves_give. Qed.

Lemma leaves_set_pacing L s test (k : act W (Z * iperf_test)) Q :
  leaves L k Q -> leaves L (set_pacing s test k) Q.
Proof.
  intros Hk. unfold set_pacing. destruct (_ && _); [|done].
  apply leaves_call; [eauto with live|done].
Qed.

Lemma leaves_option_or L b s o v fail ie k Q :
  leaves L (fail ie) Q -> leaves L k Q -> leaves L (option_or b s o v fail ie k) Q.
Proof. intros. apply leaves_check; [eauto with live|done..]. Qed.

Lemma leaves_verify_buffer L s o test fail k Q :
  leaves L (fail IESETBUF) Q -> Q (-1, test <| t_i_errno := IESETBUF2 |>) L ->
  (forall v, leaves L (k v) Q) -> leaves L (verify_buffer s o test fail k) Q.
Proof.
  intros Hf H2 Hk. unfold verify_buffer.
  apply leaves_passive; [eauto with live|done|]. intros actual.
  destruct (_ && _); [by apply leaves_failed|done].
Qed.

Lemma leaves_set_flowlabel L h s test addr fail k Q :
  leaves L (fail IESETFLOW) Q -> (forall a, leaves L (k a) Q) ->
  leaves L (set_flowlabel h s test addr fail k) Q.
Proof.
  intros Hf Hk. unfold set_flowlabel. cbv zeta.
  repeat (leaves_step; try done).
Qed.

Lemma passive_buffercheck s test : passive live (iperf_udp_buffercheck s test).
Proof.
  unfold iperf_udp_buffercheck, failed, attempt_if. cbv zeta. passive_act.
Qed.

(** Checking the buffers changes nothing but the requested buffer size and, on
    failure, the error. *)
Lemma leaves_udp_buffers L s test (k : iperf_test -> act W (Z * iperf_test)) Q :
  (forall r test', r < 0 -> Q (r, test') L) -> (forall test', leaves L (k test') Q) ->
  leaves L (udp_buffers s test k) Q.
Proof.
  intros Hf Hk. unfold udp_buffers.
  apply leaves_call; [apply passive_buffercheck|]. intros [rc test1].
  destruct (Z.ltb_spec rc 0); [by apply leaves_give, Hf|].
  destruct (_ && _); [|done]. cbv zeta.
  apply leaves_call; [apply passive_buffercheck|]. intros [rc2 test2].
  destruct (Z.ltb_spec rc2 0); [by apply leaves_give, Hf|done].
Qed.

Lemma leaves_weaken {A} L (m : act W A) (Q1 Q2 : A -> gset resource -> Prop) :
  leaves L m Q1 -> (forall a L', Q1 a L' -> Q2 a L') -> leaves L m Q2.
Proof. intros H HQ w Hw. by apply HQ, H. Qed.

(** A call that may allocate, and what follows it. *)
Lemma leaves_andthen {A B} L (m : act W A) (k : A -> act W B) (Q1 : A -> gset resource -> Prop)
    (Q2 : B -> gset resource -> Prop) :
  leaves L m Q1 -> (forall a L', Q1 a L' -> leaves L' (k a) Q2) ->
  leaves L (call a := m; k a) Q2.
Proof.
  intros Hm Hk w Hw. unfold andthen. specialize (Hm w Hw).
  destruct (m w) as [a w1]. by apply (Hk a (live w1)).
Qed.
End Rules.

Ltac connect_step :=
  first
    [ apply leaves_failed | apply leaves_set_pacing | apply leaves_option_or
    | apply leaves_verify_buffer; [| |intros ?] | apply leaves_set_flowlabel; [|intros ?]
    | leaves_step ].

Section TcpConnect.
Context {W : Type} {posix : Posix W} {sockets : Sockets W} {laws : SocketLaws W}.

(** The one failure after which the socket and the server's address list stay. *)
Definition buffer_leak (L : gset resource) (test : iperf_test) (L' : gset resource) : Prop :=
  t_i_errno test = IESETBUF2 /\
  exists fd p, Fd fd ∉ L /\ Info p ∉ L /\ L' = {[Fd fd]} ∪ ({[Info p]} ∪ L).

Definition connects (L : gset resource) (a : Z * iperf_test) (L' : gset resource) : Prop :=
  makes_socket L a.1 L' \/ (a.1 = -1 /\ buffer_leak L a.2 L').

Lemma tcp_connect_leaves h test L : leaves L (tcp_connect_socket h test) (connects L).
Proof.
  unfold tcp_connect_socket. cbv zeta. unfold free_local.
  destruct (t_bind_address test) as [l|]; cbn beta iota; repeat connect_step.
  all: try solve [left; made].
  all: right; split; [done|]; split; [done|].
  all: match goal with
       | s : Z, ai : addrinfo |- _ => exists s, (ai_ptr ai); split_and!;
         solve [set_solver | apply set_eq; intros ?; set_unfold; intuition (subst; congruence)]
       end.
Qed.
End TcpConnect.

(** ** Moving bytes allocates nothing *)

Section Moving.
Context {W : Type} {posix : Posix W} {sockets : Sockets W} {laws : SocketLaws W}.

Lemma Nwrite_loop_live fuel : forall fd buf count nleft w r w',
  Nwrite_loop fuel fd buf count nleft w = Some (r, w') -> live w' = live w.
Proof.
  induction fuel as [|fuel IH]; intros fd buf count nleft w r w'; cbn [Nwrite_loop]; [done|].
  destruct (0 <? nleft); [|by intros [= _ <-]].
  destruct (sys_write fd buf w) as [[k|e] w1] eqn:E;
    apply passive_step in E; [|eauto with live| |eauto with live].
  - destruct (k =? 0); [by intros [= _ <-]|]. intros H%IH. congruence.
  - repeat case_match; intros [= _ <-]; done.
Qed.

Lemma Nwrite_live fd buf w r w' : Nwrite fd buf w = Some (r, w') -> live w' = live w.
Proof. apply Nwrite_loop_live. Qed.

Lemma Nread_loop_live fuel : forall fd count nleft buf w r data w',
  Nread_loop fuel fd count nleft buf w = Some (r, data, w') -> live w' = live w.
Proof.
  induction fuel as [|fuel IH]; intros fd count nleft buf w r data w'; cbn [Nread_loop]; [done|].
  destruct (0 <? nleft); [|by intros [= _ _ <-]].
  destruct (sys_read fd nleft w) as [[d|e] w1] eqn:E;
    apply passive_step in E; [|eauto with live| |eauto with live].
  - case_match; [by intros [= _ _ <-]|]. intros H'%IH. congruence.
  - case_match; intros [= _ _ <-]; done.
Qed.

Lemma Nread_live fd count w r data w' :
  Nread fd count w = Some (r, data, w') -> live w' = live w.
Proof. apply Nread_loop_live. Qed.
End Moving.

Section Tcp.
Context {W : Type} {posix : Posix W} {plaws : PosixLaws W} {stream : StreamLaws W}
  {sockets : Sockets W} {laws : SocketLaws W}.

(** C33: what connecting a TCP stream leaves. [iperf_tcp_connect] returns. It
    answers a fresh descriptor, the only thing it leaves allocated, or -1,
    having closed and freed everything it had allocated, but for one error: when
    the kernel granted a smaller buffer than was asked for (IESETBUF2), the
    socket and the server's address list are both left behind. *)
Theorem tcp_connect_descriptors h test w :
  exists r test' w', iperf_tcp_connect h test w = Some (r, test', w') /\
    connects (live w) (r, test') (live w').
Proof using laws plaws.
  unfold iperf_tcp_connect.
  pose proof (tcp_connect_leaves h test (live w) w eq_refl) as H.
  destruct (tcp_connect_socket h test w) as [[s test1] w1]. cbn [fst snd] in H.
  destruct (Z.ltb_spec s 0); [by eexists _, _, _|].
  destruct (Nwrite_total s (t_cookie test1) w1) as (r & w2 & E). rewrite E.
  cbn [mbind option_bind]. apply Nwrite_live in E.
  destruct (Z.ltb_spec r 0).
  - eexists _, _, _. split; [done|]. left. right. split; [done|].
    rewrite close_live, E. destruct H as [[(_ & ? & ?)|[? _]]|[? _]]; cbn [fst snd] in *; [|lia|lia].
    set_solver.
  - eexists _, _, _. split; [done|]. unfold connects, buffer_leak. by rewrite E.
Qed.

(** The one write by which a connection is told ACCESS_DENIED. *)
Lemma deny_writes fd w :
  exists r, Nwrite fd [u8 ACCESS_DENIED] w = Some (r, snd (sys_write fd [u8 ACCESS_DENIED] w)).
Proof using plaws.
  unfold Nwrite, Nwrite_loop. cbn [length].
  change (0 <? Z.of_nat 1) with true. cbv iota.
  destruct (sys_write fd [u8 ACCESS_DENIED] w) as [[d|e] w'] eqn:E.
  - pose proof (write_bound _ _ _ _ _ E) as Hd. change (Z.of_nat (length [_])) with 1 in Hd.
    assert (d = 0 \/ d = 1) as [-> | ->] by lia; eexists; reflexivity.
  - cbn. repeat case_match; eexists; reflexivity.
Qed.

(** C29: who is let in. [iperf_tcp_accept] returns. When it answers a descriptor, it has
    read at most a cookie from the connection, and compares that, filled up with what the
    uninitialised buffer held when too little came, with the cookie of the test, both up to
    their first zero byte. A connection that compares equal stays open and nothing is written to
    it; any other is written ACCESS_DENIED once and closed. So a connection whose whole
    cookie was read is let in exactly when that is the cookie of the test. The only leak is the
    connection whose cookie could not be read. *)
Theorem tcp_accept_admits stack test w :
  Z.of_nat (length stack) = COOKIE_SIZE ->
  exists r test' w', iperf_tcp_accept stack test w = Some (r, test', w') /\
  match sys_accept (t_listener test) w with
  | (Err _, w1) => r = -1 /\ t_i_errno test' = IESTREAMCONNECT /\ live w' = live w
  | (Ok s, w1) =>
      (r = -1 /\ t_i_errno test' = IERECVCOOKIE /\ live w' = {[Fd s]} ∪ live w) \/
      (r = s /\ test' = test /\ exists got w2,
       inbox w1 s = got ++ inbox w2 s /\ Z.of_nat (length got) <= COOKIE_SIZE /\
       outbox w2 = outbox w1 /\
       let cookie := got ++ drop (length got) stack in
       (if bool_decide (c_string (t_cookie test) = c_string cookie)
        then w' = w2 /\ live w' = {[Fd s]} ∪ live w
        else w' = sys_close s (snd (sys_write s [u8 ACCESS_DENIED] w2)) /\ live w' = live w) /\
       (Z.of_nat (length got) = COOKIE_SIZE ->
        live w' = {[Fd s]} ∪ live w <-> c_string (t_cookie test) = c_string got))
  end.
Proof using laws plaws stream.
  intros Hstack.
  unfold iperf_tcp_accept. destruct (sys_accept (t_listener test) w) as [[s|e] w1] eqn:E.
  2: { apply (@accept_err W _ _ _) in E. by eexists _, _, _. }
  apply (@accept_ok W _ _ _) in E as (Hs & Hn & E).
  destruct (Nread_total s COOKIE_SIZE w1) as (r & got & w2 & HR). rewrite HR.
  cbn [mbind option_bind]. pose proof (Nread_live _ _ _ _ _ _ HR) as Hl.
  apply Nread_loop_spec in HR as (got' & Hg & Hlen & Hin & Hout & _); [|done..].
  cbn [app] in Hg. subst got'.
  destruct (Z.ltb_spec r 0).
  { eexists _, _, _. split; [done|]. left. rewrite Hl, E. done. }
  assert (Z.of_nat (length got) = COOKIE_SIZE -> got ++ drop (length got) stack = got) as Hwhole.
  { intros Hw. rewrite drop_ge by lia. apply app_nil_r. }
  unfold strcmp_eq. destruct (bool_decide _) eqn:Hcookie.
  { eexists _, _, _. split; [done|]. right. split; [done|]. split; [done|].
    exists got, w2. split; [done|]. split; [done|]. split; [done|]. cbv zeta. rewrite Hcookie, Hl, E. split; [done|].
    intros Hw%Hwhole. apply bool_decide_eq_true in Hcookie. rewrite Hw in Hcookie. done. }
  destruct (deny_writes s w2) as (r' & HW). rewrite HW.
  cbn [mbind option_bind]. apply Nwrite_live in HW.
  assert (live (sys_close s (snd (sys_write s [u8 ACCESS_DENIED] w2))) = live w) as Hlive.
  { rewrite close_live, HW, Hl, E. set_solver. }
  eexists _, _, _. split; [done|]. right. split; [done|]. split; [done|].
  exists got, w2. split; [done|]. split; [done|]. split; [done|]. cbv zeta. rewrite Hcookie, Hlive. split; [done|].
  intros Hw%Hwhole. apply bool_decide_eq_false in Hcookie. rewrite Hw in Hcookie.
  split; [|done]. intros E'. exfalso. apply Hn. rewrite E'. set_solver.
Qed.

End Tcp.

(** ** UDP *)

Section UdpConnect.
Context {W : Type} {posix : Posix W} {sockets : Sockets W} {laws : SocketLaws W}.

(** A failure that leaves the socket open. *)
Definition socket_leak (L L' : gset resource) : Prop :=
  exists s, Fd s ∉ L /\ L' = {[Fd s]} ∪ L.

(** What a failed [iperf_udp_connect] leaves: after a failed [netdial] what
    [netdial] leaves, after any other failure the socket. *)
Definition udp_connect_outcome (test : iperf_test) (L : gset resource) (a : Z * iperf_test)
    (L' : gset resource) : Prop :=
  (0 <= a.1 /\ Fd a.1 ∉ L /\ L' = {[Fd a.1]} ∪ L) \/
  (a.1 = -1 /\ t_i_errno a.2 = IESTREAMCONNECT /\
   (L' = L \/ dial_leaks (t_bind_address test) (t_bind_port test) L L')) \/
  (a.1 < 0 /\ socket_leak L L').

Lemma udp_connect_leaves h test L :
  leaves L (iperf_udp_connect h test) (udp_connect_outcome test L).
Proof.
  unfold iperf_udp_connect. eapply leaves_andthen; [apply netdial_leaves|].
  intros s L1 Hdial. destruct (Z.ltb_spec s 0) as [Hs|Hs].
  - apply leaves_failed. right. left. split; [done|]. split; [done|].
    destruct Hdial as [[(? & _)|[_ ?]]|[_ ?]]; [lia|auto..].
  - destruct Hdial as [[(_ & Hn & ->)|[? _]]|[? _]]; [|lia|lia].
    assert (forall a, a.1 < 0 -> udp_connect_outcome test L a ({[Fd s]} ∪ L)) as Hleak.
    { intros a Ha. right. right. split; [done|]. by exists s. }
    apply leaves_udp_buffers; [intros r test' Hr; by apply Hleak|]. intros test'.
    apply leaves_set_pacing. apply leaves_call; [eauto with live|]. intros _.
    apply leaves_passive;
      [unfold write_int; eauto with live|by apply leaves_failed, Hleak|]. intros _.
    apply leaves_passive; [eauto with live|by apply leaves_failed, Hleak|]. intros _.
    apply leaves_give. by left.
Qed.

(** Connecting a UDP stream leaks its socket on every late failure.
    [iperf_udp_connect] answers a fresh descriptor, the only thing it leaves, or
    a negative number; when the socket was made but its buffers, the datagram
    to the server or the reply failed, the socket is still open and nobody
    knows its number. *)
Theorem udp_connect_leaks h test w :
  let '(a, w') := iperf_udp_connect h test w in
  udp_connect_outcome test (live w) a (live w').
Proof.
  pose proof (udp_connect_leaves h test (live w) w eq_refl) as H.
  by destruct (iperf_udp_connect h test w).
Qed.
End UdpConnect.

(** The client's cookie, and a kernel on which it is the first thing that arrives. *)
Definition ex_cookie : list Z := replicate 36 97 ++ [0].

Definition ex_host (plan : list Z) (input : list Z) : Host.host :=
  Host.mk_host {[Fd 3]} plan AF_INET6 input [].

Lemma tcp_connect_descriptors_witness :
  exists r test' w',
    iperf_tcp_connect LittleEndian
      (zero_test <| t_cookie := ex_cookie |>
                 <| t_settings := zero_settings <| st_socket_bufsize := 2 ^ 30 |> |>)
      (ex_host [] []) = Some (r, test', w') /\
    r = -1 /\ t_i_errno test' = IESETBUF2 /\ live w' <> live (ex_host [] []).
Proof.
  destruct (tcp_connect_descriptors LittleEndian
      (zero_test <| t_cookie := ex_cookie |>
                 <| t_settings := zero_settings <| st_socket_bufsize := 2 ^ 30 |> |>)
      (ex_host [] [])) as (r & test' & w' & H & Hc).
  exists r, test', w'. split; [exact H|].
  assert (Hr : r = -1 /\ t_i_errno test' = IESETBUF2).
  { vm_compute in H. injection H as <- <- _. split; reflexivity. }
  destruct Hr as [Hr He]. split; [exact Hr|]. split; [exact He|].
  destruct Hc as [[(H0 & _)|[_ Hl]]|[_ (_ & fd & p & Hfd & _ & Hl)]].
  - exfalso. cbn in H0. lia.
  - vm_compute in H. injection H as _ _ <-. discriminate Hl.
  - rewrite Hl. intros E. apply Hfd. rewrite <- E. set_solver.
Defined.

Lemma tcp_accept_admits_witness :
  exists r test' w',
    iperf_tcp_accept (replicate 37 0) (zero_test <| t_cookie := ex_cookie |>)
      (ex_host [] ex_cookie) = Some (r, test', w') /\
    live w' = {[Fd r]} ∪ {[Fd 3]}.
Proof.
  destruct (tcp_accept_admits (replicate 37 0) (zero_test <| t_cookie := ex_cookie |>)
    (ex_host [] ex_cookie) eq_refl) as (r & test' & w' & H & Hc).
  exists r, test', w'. split; [exact H|].
  vm_compute in H. injection H as <- _ <-. reflexivity.
Defined.

(** The server never answers: the eighth call fails. *)
Lemma udp_connect_leaks_witness :
  let w := ex_host [0; 0; 0; 0; 0; 0; 0; 11] [] in
  let '((r, test'), w') := iperf_udp_connect LittleEndian zero_test w in
  udp_connect_outcome zero_test (live w) (r, test') (live w') /\
  r = -1 /\ t_i_errno test' = IESTREAMREAD /\ live w' <> live w.
Proof.
  pose proof (udp_connect_leaks LittleEndian zero_test
    (ex_host [0; 0; 0; 0; 0; 0; 0; 11] [])) as H. cbv zeta.
  destruct (iperf_udp_connect _ _ _) as [[r test'] w'] eqn:E.
  split; [exact H|]. vm_compute in E. injection E as <- <- <-.
  split; [reflexivity|]. split; [reflexivity|]. discriminate.
Defined.
