(* ===== verification/Sctp.v ===== *)
(** * iperf_sctp.c: streams over SCTP

    Listening, connecting, accepting, binding to several addresses, moving data. The
    file compiles to two programs: [have_sctp] says whether HAVE_SCTP_H is defined,
    [assoc_value] whether HAVE_STRUCT_SCTP_ASSOC_VALUE is. The calls of the SCTP
    interface, and [getaddrinfo] where the program walks the whole list it answers,
    are a class of their own. What [errno] is restored to is not modelled. *)

From S2P Require Import Prelude Bytes Posix Net CJson Test Udp Sockets Dial Connect ConnectProps.

#[local] Open Scope Z_scope.
#[local] Open Scope act_scope.

Inductive sctp_option :=
| SCTP_NODELAY (on : Z) | SCTP_MAXSEG (size : Z) | SCTP_INITMSG (num_ostreams : Z)
| SCTP_DISABLE_FRAGMENTS (on : Z).

Class Sctp (W : Type) := {
  (** [socket(domain, SOCK_STREAM, IPPROTO_SCTP)] *)
  sctp_socket : Z -> W -> sysres Z * W;
  sctp_setsockopt : Z -> sctp_option -> W -> sysres unit * W;
  (** [sctp_bindx] with SCTP_BINDX_ADD_ADDR *)
  sctp_bindx : Z -> list sockaddr -> W -> sysres unit * W;
  (** domain, passive, host, service; where the list is and its elements, at least one:
      a family and an address *)
  list_addrinfo : Z -> bool -> string -> option Z -> W -> sysres (Z * list (Z * sockaddr)) * W;
  (** the memory for the flat buffer of addresses; it is given back on every path *)
  try_malloc : W -> sysres unit * W }.

Class SctpLaws (W : Type) `{SocketLaws W} `{Sctp W} := {
  sctp_socket_ok domain (w : W) fd w' :
    sctp_socket domain w = (Ok fd, w') ->
    0 <= fd /\ Fd fd ∉ live w /\ live w' = {[Fd fd]} ∪ live w;
  sctp_socket_err domain (w : W) e w' :
    sctp_socket domain w = (Err e, w') -> live w' = live w;
  list_addrinfo_ok domain pass host service (w : W) p ais w' :
    list_addrinfo domain pass host service w = (Ok (p, ais), w') ->
    Info p ∉ live w /\ live w' = {[Info p]} ∪ live w /\ ais <> [];
  list_addrinfo_err domain pass host service (w : W) e w' :
    list_addrinfo domain pass host service w = (Err e, w') -> live w' = live w;
  passive_sctp_setsockopt fd o : passive live (sctp_setsockopt fd o : W -> _);
  passive_sctp_bindx fd l : passive live (sctp_bindx fd l : W -> _);
  passive_try_malloc : passive live (try_malloc : W -> _) }.

#[export] Hint Resolve passive_sctp_setsockopt passive_sctp_bindx passive_try_malloc : live.

Definition ENOPROTOOPT : Z := 92.

Section Sctp.
Context {W : Type} {posix : Posix W} {sockets : Sockets W} {sctp : Sctp W}.
Context (have_sctp assoc_value : bool).

(** Every function without SCTP. *)
Definition no_sctp (test : iperf_test) : Z * iperf_test := (-1, test <| t_i_errno := IENOSCTP |>).

(** ** Moving data *)

Definition iperf_sctp_recv (test : iperf_test) (sp : iperf_stream) (w : W)
    : option (Z * iperf_test * iperf_stream * W) :=
  if negb have_sctp then Some (no_sctp test, sp, w)
  else
    '(r, data, w) ← Nread (sp_socket sp) (st_blksize (t_settings test)) w;
    let sp := fill_buffer data sp in
    if r <? 0 then Some (r, test, sp, w)
    else if t_state test =? TEST_RUNNING then
      Some (r, test, sp <| sp_result ::= fun rs => rs
        <| rs_bytes_received ::= fun n => u64 (n + r) |>
        <| rs_bytes_received_this_interval ::= fun n => u64 (n + r) |> |>, w)
    else Some (r, test, sp, w).

(** A whole block; outside is a block that is longer than the buffer. *)
Definition iperf_sctp_send (test : iperf_test) (sp : iperf_stream) (w : W)
    : option (Z * iperf_test * iperf_stream * W) :=
  if negb have_sctp then Some (no_sctp test, sp, w)
  else
    let blksize := st_blksize (t_settings test) in
    if (blksize <? 0) || (Z.of_nat (length (sp_buffer sp)) <? blksize) then None
    else
      '(r, w) ← Nwrite (sp_socket sp) (take (Z.to_nat blksize) (sp_buffer sp)) w;
      if r <? 0 then Some (r, test, sp, w)
      else
        Some (r, test, sp <| sp_result ::= fun rs => rs
          <| rs_bytes_sent ::= fun n => u64 (n + r) |>
          <| rs_bytes_sent_this_interval ::= fun n => u64 (n + r) |> |>, w).

(** ** Accepting *)

(** [strncmp(a, b, n) == 0] *)
Definition strncmp_eq (a b : list Z) (n : Z) : bool :=
  bool_decide (c_string (take (Z.to_nat n) a) = c_string (take (Z.to_nat n) b)).

(** [stack] is what the uninitialised cookie buffer holds. *)
Definition iperf_sctp_accept (stack : list Z) (test : iperf_test) (w : W)
    : option (Z * iperf_test * W) :=
  if negb have_sctp then Some (no_sctp test, w)
  else
    match sys_accept (t_listener test) w with
    | (Err _, w) => Some (-1, test <| t_i_errno := IESTREAMCONNECT |>, w)
    | (Ok s, w) =>
        '(r, bytes, w) ← Nread s COOKIE_SIZE w;
        if r <? 0 then Some (-1, test <| t_i_errno := IERECVCOOKIE |>, sys_close s w)
        else
          let cookie := bytes ++ drop (length bytes) stack in
          if strncmp_eq (t_cookie test) cookie COOKIE_SIZE then Some (s, test, w)
          else
            '(r, w) ← Nwrite s [u8 ACCESS_DENIED] w;
            if r <? 0 then Some (-1, test <| t_i_errno := IESENDMESSAGE |>, sys_close s w)
            else Some (s, test, sys_close s w)
    end.

(** ** Several local addresses *)

(** An argument of --xbind and the list [getaddrinfo] made for it; between two calls
    of [iperf_sctp_bindx] there is none. *)
Definition xbind_entry : Type := string * option Z.

Definition free_entries (l : list xbind_entry) (w : W) : W :=
  fold_left (fun w e => match snd e with Some p => sys_freeaddrinfo p w | None => w end) l w.

(** The label [out]: the first entry goes back, every list is freed. *)
Definition bindx_out (retval : Z) (xbe0 : option xbind_entry) (l : list xbind_entry)
    (test : iperf_test) : act W (Z * iperf_test) :=
  let l := match xbe0 with Some e => e :: l | None => l end in
  run free_entries l;
  give (retval, test <| t_xbind_addrs := map fst l |>).

Definition bindx_fail (xbe0 : option xbind_entry) (l : list xbind_entry) (test : iperf_test)
    : act W (Z * iperf_test) :=
  bindx_out (-1) xbe0 l (test <| t_i_errno := IESETSCTPBINDX |>).

(** The addresses of a list that are of the domain asked for. *)
Definition of_domain (domain : Z) (ais : list (Z * sockaddr)) : list sockaddr :=
  map snd (List.filter (fun ai => (domain =? AF_UNSPEC) || (domain =? fst ai)) ais).

(** Pass 1: [before] has been resolved already, [xaddrs] are its addresses. *)
Fixpoint bindx_resolve (domain family : Z) (passive : bool) (servname : option Z)
    (xbe0 : option xbind_entry) (test : iperf_test) (before : list xbind_entry)
    (xaddrs : list sockaddr) (l : list string)
    (k : list xbind_entry -> list sockaddr -> act W (Z * iperf_test)) : act W (Z * iperf_test) :=
  match l with
  | [] => k before xaddrs
  | name :: l =>
      try ai := list_addrinfo family passive name servname
        otherwise bindx_fail xbe0 (before ++ (name, None) :: map (fun n => (n, None)) l) test;
      bindx_resolve domain family passive servname xbe0 test (before ++ [(name, Some (fst ai))])
        (xaddrs ++ of_domain domain (snd ai)) l k
  end.

(** Both passes and the call. *)
Definition bindx_rest (s domain family : Z) (passive : bool) (servname : option Z)
    (xbe0 : option xbind_entry) (l : list string) (test : iperf_test) : act W (Z * iperf_test) :=
  bindx_resolve domain family passive servname xbe0 test [] [] l (fun l xaddrs =>
  try ok := try_malloc otherwise bindx_fail xbe0 l test;
  try ok := sctp_bindx s xaddrs otherwise (run sys_close s; bindx_fail xbe0 l test);
  bindx_out 0 xbe0 l test).

Definition iperf_sctp_bindx (test : iperf_test) (s : Z) (is_server : bool)
    : act W (Z * iperf_test) :=
  if negb have_sctp then give (no_sctp test)
  else
    let domain := st_domain (t_settings test) in
    let family := if domain =? AF_UNSPEC then AF_INET6 else domain in
    match t_xbind_addrs test with
    | [] => give (0, test)
    | name :: l =>
        if is_server
        then bindx_rest s domain family true (Some (t_server_port test)) None (name :: l) test
        else
          let unresolved := map (fun n => (n, None)) l in
          try res := list_addrinfo family false name None
            otherwise bindx_fail (Some (name, None)) unresolved test;
          let xbe0 := Some (name, Some (fst res)) in
          match snd res with
          | [] => bindx_fail xbe0 unresolved test
          | (ai_family, addr) :: _ =>
              if negb (domain =? AF_UNSPEC) && negb (domain =? ai_family)
              then bindx_fail xbe0 unresolved test
              else
                try ok := sys_bind s addr otherwise bindx_fail xbe0 unresolved test;
                match l with
                | [] => bindx_out 0 xbe0 unresolved test
                | _ =>
                    if (sa_family addr =? AF_INET) || (sa_family addr =? AF_INET6)
                    then bindx_rest s domain family false (Some (sa_port addr)) xbe0 l test
                    else bindx_fail xbe0 unresolved test
                end
          end
    end.

(** ** Listening *)

(** [SO_RCVBUF] and [SO_SNDBUF], when a size was asked for. *)
Definition sctp_buffers (s : Z) (test : iperf_test) (fail : Z -> act W (Z * iperf_test))
    (k : act W (Z * iperf_test)) : act W (Z * iperf_test) :=
  let size := st_socket_bufsize (t_settings test) in
  option_or (negb (size =? 0)) s SO_RCVBUF size fail IESETBUF (
  option_or (negb (size =? 0)) s SO_SNDBUF size fail IESETBUF k).

Definition sctp_bind_dev (s : Z) (test : iperf_test) (fail k : act W (Z * iperf_test))
    : act W (Z * iperf_test) :=
  match t_bind_dev test with
  | Some dev => try ok := sys_setsockopt s (SO_BINDTODEVICE dev) 0 otherwise fail; k
  | None => k
  end.

Definition iperf_sctp_listen (test : iperf_test) : act W (Z * iperf_test) :=
  if negb have_sctp then give (no_sctp test)
  else
    let domain := st_domain (t_settings test) in
    let family := if (domain =? AF_UNSPEC) && bool_decide (t_bind_address test = None)
                  then AF_INET6 else domain in
    run sys_close (t_listener test);
    try res := sys_getaddrinfo family SOCK_STREAM true (t_bind_address test)
                 (Some (t_server_port test)) otherwise failed IESTREAMLISTEN test;
    try s := sctp_socket (ai_family res)
      otherwise (run sys_freeaddrinfo (ai_ptr res); failed IESTREAMLISTEN test);
    let fail (ie : Z) : act W (Z * iperf_test) :=
      run sys_close s; run sys_freeaddrinfo (ai_ptr res); failed ie test in
    let announce (test : iperf_test) : act W (Z * iperf_test) :=
      run sys_freeaddrinfo (ai_ptr res);
      try ok := sys_listen s INT_MAX otherwise failed IESTREAMLISTEN test;
      give (s, test <| t_listener := s |>) in
    sctp_buffers s test fail (
    sctp_bind_dev s test (fail IEBINDDEV) (
    option_or ((ai_family res =? AF_INET6) && ((domain =? AF_UNSPEC) || (domain =? AF_INET6)))
      s IPV6_V6ONLY (if domain =? AF_UNSPEC then 0 else 1) fail IEPROTOCOL (
    option_or true s SO_REUSEADDR 1 fail IEREUSEADDR (
    match t_xbind_addrs test with
    | [] => try ok := sys_bind s (ai_addr res) otherwise fail IESTREAMLISTEN; announce test
    | _ =>
        call r := iperf_sctp_bindx test s true;
        if negb (fst r =? 0)
        then run sys_close s; run sys_freeaddrinfo (ai_ptr res); give (-1, snd r)
        else announce (snd r)
    end)))).

(** ** Connecting *)

(** An SCTP option on the way; [lenient] when a kernel that does not know it is forgiven. *)
Definition sctp_option_or (b : bool) (s : Z) (o : sctp_option) (lenient : bool)
    (fail : Z -> act W (Z * iperf_test)) (ie : Z) (k : act W (Z * iperf_test)) :=
  if b then
    call r := sctp_setsockopt s o;
    match r with
    | Ok _ => k
    | Err e => if lenient && (e =? ENOPROTOOPT) then k else fail ie
    end
  else k.

(** [iperf_sctp_connect] from the socket to the connection; [k] is what follows. *)
Definition sctp_connect_socket (server_res : addrinfo) (local_res : option addrinfo) (s : Z)
    (test : iperf_test) (k : iperf_test -> act W (Z * iperf_test)) : act W (Z * iperf_test) :=
  let st := t_settings test in
  let fail_with (test : iperf_test) (ie : Z) : act W (Z * iperf_test) :=
    run sys_close s; run sys_freeaddrinfo (ai_ptr server_res); failed ie test in
  let fail := fail_with test in
  let fail_local (ie : Z) : act W (Z * iperf_test) :=
    run sys_close s; run free_local local_res; run sys_freeaddrinfo (ai_ptr server_res);
    failed ie test in
  let link (test : iperf_test) : act W (Z * iperf_test) :=
    call r := sys_connect s (ai_addr server_res);
    let refused := match r with Ok _ => false | Err e => negb (e =? EINPROGRESS) end in
    if refused then fail_with test IESTREAMCONNECT else k test in
  let options : act W (Z * iperf_test) :=
    sctp_option_or (negb (t_no_delay test =? 0)) s (SCTP_NODELAY 1) false fail IESETNODELAY (
    sctp_option_or ((512 <=? st_mss st) && (st_mss st <=? 131072)) s (SCTP_MAXSEG (st_mss st))
      (negb assoc_value) fail IESETMSS (
    sctp_option_or (0 <? st_num_ostreams st) s (SCTP_INITMSG (st_num_ostreams st)) false
      fail IESETSCTPNSTREAM (
    match t_xbind_addrs test with
    | [] => link test
    | _ =>
        call r := iperf_sctp_bindx test s false;
        if negb (fst r =? 0)
        then run sys_freeaddrinfo (ai_ptr server_res); run sys_close s; give (-1, snd r)
        else link (snd r)
    end))) in
  sctp_buffers s test fail (
  sctp_bind_dev s test (fail_local IEBINDDEV) (
  match local_res with
  | Some ai =>
      try ok := sys_bind s (with_port (t_bind_port test) (ai_addr ai))
        otherwise fail_local IESTREAMCONNECT;
      run sys_freeaddrinfo (ai_ptr ai); options
  | None =>
      if negb (t_bind_port test =? 0) then
        match any_address (ai_family server_res) (t_bind_port test) with
        | None => fail IEPROTOCOL
        | Some lcl => try ok := sys_bind s lcl otherwise fail IESTREAMCONNECT; options
        end
      else options
  end)).

(** The addresses and the socket; [k] gets what [sctp_connect_socket] needs. *)
Definition sctp_dial (test : iperf_test)
    (k : addrinfo -> option addrinfo -> Z -> act W (Z * iperf_test)) : act W (Z * iperf_test) :=
  let domain := st_domain (t_settings test) in
  let resolve_local (k : option addrinfo -> act W (Z * iperf_test)) :=
    match t_bind_address test with
    | Some l =>
        try ai := sys_getaddrinfo domain SOCK_STREAM false (Some l) None
          otherwise failed IESTREAMCONNECT test;
        k (Some ai)
    | None => k None
    end in
  resolve_local (fun local_res =>
  try server_res := sys_getaddrinfo domain SOCK_STREAM false (t_server_hostname test)
                      (Some (t_server_port test))
    otherwise (run free_local local_res; failed IESTREAMCONNECT test);
  try s := sctp_socket (ai_family server_res)
    otherwise (run free_local local_res; run sys_freeaddrinfo (ai_ptr server_res);
               failed IESTREAMCONNECT test);
  k server_res local_res s).

(** The end: the cookie is sent; [Nwrite] always answers, [Net]. *)
Definition sctp_greet (server_res : addrinfo) (s : Z) (test : iperf_test) : act W (Z * iperf_test) :=
  let fail (ie : Z) : act W (Z * iperf_test) :=
    run sys_close s; run sys_freeaddrinfo (ai_ptr server_res); failed ie test in
  call r := (fun w => match Nwrite s (t_cookie test) w with Some rw => rw | None => (-1, w) end);
  if r <? 0 then fail IESENDCOOKIE
  else
    sctp_option_or true s (SCTP_DISABLE_FRAGMENTS 0) true fail IESETSCTPDISABLEFRAG (
    run sys_freeaddrinfo (ai_ptr server_res);
    give (s, test)).

Definition iperf_sctp_connect (test : iperf_test) : act W (Z * iperf_test) :=
  if negb have_sctp then give (no_sctp test)
  else
    sctp_dial test (fun server_res local_res s =>
    sctp_connect_socket server_res local_res s test (fun test =>
    sctp_greet server_res s test)).

Definition iperf_sctp_init (test : iperf_test) : Z * iperf_test :=
  if have_sctp then (0, test) else no_sctp test.
End Sctp.

(** * What the functions do *)

#[local] Set Default Proof Using "Type".

Section Rules.
Context {W : Type} {posix : Posix W} {sockets : Sockets W} {laws : SocketLaws W}
  {sctp : Sctp W} {slaws : SctpLaws W}.
Context {R : Type}.
Implicit Types (L : gset resource) (Q : R -> gset resource -> Prop).

Lemma leaves_sctp_socket L domain h (f : Z -> act W R) Q :
  leaves L h Q ->
  (forall s, 0 <= s -> Fd s ∉ L -> leaves ({[Fd s]} ∪ L) (f s) Q) ->
  leaves L (try s := sctp_socket domain otherwise h; f s) Q.
Proof using slaws.
  intros Hh Hf w <-. unfold attempt.
  destruct (sctp_socket domain w) as [[s|e] w1] eqn:E.
  - apply (@sctp_socket_ok W _ _ _ _ _) in E as (Hs & Hn & E). by apply Hf.
  - apply (@sctp_socket_err W _ _ _ _ _) in E. by apply Hh.
Qed.

Lemma leaves_list_addrinfo L domain pass host service h (f : _ -> act W R) Q :
  leaves L h Q ->
  (forall p ais, Info p ∉ L -> ais <> [] -> leaves ({[Info p]} ∪ L) (f (p, ais)) Q) ->
  leaves L (try ai := list_addrinfo domain pass host service otherwise h; f ai) Q.
Proof using slaws.
  intros Hh Hf w <-. unfold attempt.
  destruct (list_addrinfo domain pass host service w) as [[[p ais]|e] w1] eqn:E.
  - apply (@list_addrinfo_ok W _ _ _ _ _) in E as (Hn & E & Ha). by apply Hf.
  - apply (@list_addrinfo_err W _ _ _ _ _) in E. by apply Hh.
Qed.
End Rules.

(** ** Binding to several addresses *)

(** The address lists of the entries. *)
Definition infos (l : list xbind_entry) : gset resource :=
  list_to_set (omap (fun e => Info <$> snd e) l).

Lemma infos_app l k : infos (l ++ k) = infos l ∪ infos k.
Proof. unfold infos. by rewrite omap_app, list_to_set_app_L. Qed.

Lemma infos_unresolved (l : list string) : infos (map (fun n => (n, None)) l) = ∅.
Proof. induction l as [|n l IH]; [done|]. exact IH. Qed.

Lemma infos_cons_some n p l : infos ((n, Some p) :: l) = {[Info p]} ∪ infos l.
Proof. done. Qed.

Lemma infos_cons_none n l : infos ((n, None) :: l) = infos l.
Proof. done. Qed.

Definition entries (xbe0 : option xbind_entry) (l : list xbind_entry) : list xbind_entry :=
  match xbe0 with Some e => e :: l | None => l end.

Section Bindx.
Context {W : Type} {posix : Posix W} {sockets : Sockets W} {laws : SocketLaws W}
  {sctp : Sctp W} {slaws : SctpLaws W}.
Implicit Types (L : gset resource) (test : iperf_test) (Q : Z * iperf_test -> gset resource -> Prop).

Lemma free_entries_live l : forall w : W, live (free_entries l w) = live w ∖ infos l.
Proof using laws slaws.
  unfold free_entries. induction l as [|[n [p|]] l IH]; intros w; cbn [fold_left snd].
  - unfold infos. cbn. set_solver.
  - rewrite IH, freeaddrinfo_live, infos_cons_some. set_solver.
  - by rewrite IH, infos_cons_none.
Qed.

(** At [out] every list is freed and the arguments are as they were. *)
Lemma leaves_bindx_out L L' retval xbe0 l test Q :
  L' ∖ infos (entries xbe0 l) = L ->
  Q (retval, test <| t_xbind_addrs := map fst (entries xbe0 l) |>) L ->
  leaves L' (bindx_out retval xbe0 l test) Q.
Proof using laws slaws.
  intros HL HQ w Hw. unfold bindx_out, do_, give. cbn [fst snd].
  fold (entries xbe0 l). by rewrite free_entries_live, Hw, HL.
Qed.

Definition bindx_ends (s : Z) (test : iperf_test) (L : gset resource) (a : Z * iperf_test)
    (L' : gset resource) : Prop :=
  t_xbind_addrs a.2 = t_xbind_addrs test /\
  ((a.1 = 0 /\ L' = L) \/
   (a.1 = -1 /\ t_i_errno a.2 = IESETSCTPBINDX /\ (L' = L \/ L' = L ∖ {[Fd s]}))).

Lemma bindx_resolve_leaves L s domain family passive servname xbe0 test l : forall before xaddrs k,
  let names := map fst (entries xbe0 before) ++ l in
  names = t_xbind_addrs test -> infos (entries xbe0 before) ## L ->
  (forall l' xaddrs', map fst (entries xbe0 l') = t_xbind_addrs test -> infos (entries xbe0 l') ## L ->
     leaves (infos (entries xbe0 l') ∪ L) (k l' xaddrs') (bindx_ends s test L)) ->
  leaves (infos (entries xbe0 before) ∪ L)
    (bindx_resolve domain family passive servname xbe0 test before xaddrs l k)
    (bindx_ends s test L).
Proof using laws slaws.
  induction l as [|name l IH]; intros before xaddrs k names Hnames Hdisj Hk; cbn [bindx_resolve].
  { apply Hk; [|done]. subst names. by rewrite app_nil_r in Hnames. }
  assert (forall x, entries xbe0 (before ++ x) = entries xbe0 before ++ x) as Happ by (by destruct xbe0).
  apply leaves_list_addrinfo.
  - apply (leaves_bindx_out L).
    + rewrite Happ, infos_app, infos_cons_none, infos_unresolved. set_solver.
    + split; [|right; split; [done|]; split; [done|by left]]. cbn [snd t_xbind_addrs set].
      rewrite Happ, map_app. cbn [map fst]. rewrite map_map. cbn [fst]. by rewrite map_id.
  - intros p ais Hp _.
    replace ({[Info p]} ∪ (infos (entries xbe0 before) ∪ L))
      with (infos (entries xbe0 (before ++ [(name, Some p)])) ∪ L).
    2: { rewrite Happ, infos_app, infos_cons_some. change (infos []) with (∅ : gset resource). set_solver. }
    apply IH; [|rewrite Happ, infos_app, infos_cons_some; set_solver|done].
    rewrite Happ, map_app, <- app_assoc. exact Hnames.
Qed.

Lemma bindx_rest_leaves L s domain family passive servname xbe0 test l :
  map fst (entries xbe0 []) ++ l = t_xbind_addrs test -> infos (entries xbe0 []) ## L ->
  leaves (infos (entries xbe0 []) ∪ L)
    (bindx_rest s domain family passive servname xbe0 l test) (bindx_ends s test L).
Proof using laws slaws.
  intros Hn Hd. unfold bindx_rest. apply bindx_resolve_leaves; [done..|]. intros l' xaddrs Hl' Hd'.
  apply leaves_passive; [eauto with live| |intros _].
  - apply (leaves_bindx_out L); [set_solver|]. split; [done|]. right. split; [done|]. split; [done|by left].
  - apply leaves_passive; [eauto with live| |intros _].
    + apply leaves_close, (leaves_bindx_out (L ∖ {[Fd s]})); [set_solver|].
      split; [done|]. right. split; [done|]. split; [done|by right].
    + apply (leaves_bindx_out L); [set_solver|]. split; [done|]. by left.
Qed.

Lemma bindx_leaves L test s is_server :
  leaves L (iperf_sctp_bindx true test s is_server) (bindx_ends s test L).
Proof using laws slaws.
  unfold iperf_sctp_bindx. cbn [negb].
  destruct (t_xbind_addrs test) as [|name l] eqn:El.
  { apply leaves_give. split; [by rewrite El|by left]. }
  assert (map fst (map (fun n : string => (n, @None Z)) l) = l) as Hmap by (rewrite map_map; apply map_id).
  destruct is_server.
  { pose proof (bindx_rest_leaves L s (st_domain (t_settings test))
      (if st_domain (t_settings test) =? AF_UNSPEC then AF_INET6 else st_domain (t_settings test))
      true (Some (t_server_port test)) None test (name :: l)) as H.
    cbn [entries map app] in H. change (infos []) with (∅ : gset resource) in H.
    rewrite (left_id_L ∅ (∪)) in H. apply H; [done|set_solver]. }
  apply leaves_list_addrinfo.
  { apply (leaves_bindx_out L).
    - cbn [entries]. rewrite infos_cons_none, infos_unresolved. set_solver.
    - cbn [entries map fst]. rewrite Hmap. split; [done|]. right. split; [done|]. split; [done|by left]. }
  intros p ais Hp Hais. cbn [fst snd].
  assert (forall retval t, leaves ({[Info p]} ∪ L)
    (bindx_out retval (Some (name, Some p)) (map (fun n => (n, None)) l) t)
    (fun a L' => a = (retval, t <| t_xbind_addrs := name :: l |>) /\ L' = L)) as Hout.
  { intros retval t. apply (leaves_bindx_out L); cbn [entries map fst].
    - rewrite infos_cons_some, infos_unresolved. set_solver.
    - by rewrite Hmap. }
  assert (leaves ({[Info p]} ∪ L)
    (bindx_fail (Some (name, Some p)) (map (fun n => (n, None)) l) test) (bindx_ends s test L)) as Hfail.
  { eapply leaves_weaken; [apply Hout|]. intros a L' [-> ->]. split; [done|]. right. split; [done|].
    split; [done|by left]. }
  destruct ais as [|[ai_family addr] ais]; [done|]. destruct (_ && _); [done|].
  apply leaves_passive; [eauto with live|done|intros _].
  destruct l as [|name2 l].
  { eapply leaves_weaken; [apply Hout|]. intros a L' [-> ->]. split; [done|]. by left. }
  destruct (_ || _); [|done].
  pose proof (bindx_rest_leaves L s (st_domain (t_settings test))
    (if st_domain (t_settings test) =? AF_UNSPEC then AF_INET6 else st_domain (t_settings test))
    false (Some (sa_port addr)) (Some (name, Some p)) test (name2 :: l)) as H.
  cbn [entries map app fst] in H. rewrite infos_cons_some in H.
  change (infos []) with (∅ : gset resource) in H. rewrite (right_id_L ∅ (∪)) in H.
  apply H; [done|set_solver].
Qed.
End Bindx.

(** ** Listening and connecting *)

Section Sockets.
Context {W : Type} {posix : Posix W} {sockets : Sockets W} {laws : SocketLaws W}
  {sctp : Sctp W} {slaws : SctpLaws W}.
Implicit Types (L : gset resource) (test : iperf_test) (Q : Z * iperf_test -> gset resource -> Prop).

Lemma leaves_sctp_option_or L b s o lenient fail ie k Q :
  leaves L (fail ie) Q -> leaves L k Q -> leaves L (sctp_option_or b s o lenient fail ie k) Q.
Proof using slaws.
  intros Hf Hk. unfold sctp_option_or. destruct b; [|done].
  apply leaves_call; [eauto with live|]. intros [|e]; [done|]. by destruct (_ && _).
Qed.

Lemma leaves_sctp_buffers L s test fail k Q :
  leaves L (fail IESETBUF) Q -> leaves L k Q -> leaves L (sctp_buffers s test fail k) Q.
Proof using slaws. intros. unfold sctp_buffers. by repeat apply leaves_option_or. Qed.

Lemma leaves_sctp_bind_dev L s test fail k Q :
  leaves L fail Q -> leaves L k Q -> leaves L (sctp_bind_dev s test fail k) Q.
Proof using slaws.
  intros. unfold sctp_bind_dev. destruct (t_bind_dev test); [|done].
  apply leaves_passive; [eauto with live|done|by intros _].
Qed.

(** What follows [iperf_sctp_bindx]: after a failure the socket may be closed already. *)
Lemma leaves_bindx L test s is_server (k : Z * iperf_test -> act W (Z * iperf_test)) Q :
  (forall test', leaves L (k (0, test')) Q) ->
  (forall L' test', L' = L \/ L' = L ∖ {[Fd s]} -> leaves L' (k (-1, test')) Q) ->
  leaves L (call r := iperf_sctp_bindx true test s is_server; k r) Q.
Proof using laws slaws.
  intros H0 H1. eapply leaves_andthen; [apply bindx_leaves|].
  intros [r test'] L' [_ [[Hr ->]|(Hr & _ & HL)]]; cbn [fst] in Hr; subst r; [apply H0|by apply H1].
Qed.

Lemma passive_greeting s (data : list Z) :
  passive live (fun w : W => match Nwrite s data w with Some rw => rw | None => (-1, w) end).
Proof using laws slaws.
  intros w. destruct (Nwrite s data w) as [[r w']|] eqn:E; [|done]. by apply Nwrite_live in E.
Qed.
End Sockets.

Ltac sctp_step :=
  first
    [ apply leaves_failed | apply leaves_sctp_buffers | apply leaves_sctp_bind_dev
    | apply leaves_option_or | apply leaves_sctp_option_or
    | apply leaves_sctp_socket; [|intros ???]
    | apply leaves_bindx; [intros ?; cbn [fst snd negb Z.eqb]|intros ?? [-> | ->]; cbn [fst snd negb Z.eqb]]
    | leaves_step ].

Section Theorems.
Context {W : Type} {posix : Posix W} {sockets : Sockets W} {laws : SocketLaws W}
  {sctp : Sctp W} {slaws : SctpLaws W}.

(** The listener of the control connection has been closed; a socket on which [listen]
    failed stays open. *)
Definition sctp_listens (L : gset resource) (a : Z * iperf_test) (L' : gset resource) : Prop :=
  makes_socket L a.1 L' \/
  (a.1 = -1 /\ t_i_errno a.2 = IESTREAMLISTEN /\ socket_leak L L').

Lemma sctp_listen_leaves test (L : gset resource) :
  leaves L (iperf_sctp_listen true test) (sctp_listens (L ∖ {[Fd (t_listener test)]})).
Proof using laws slaws.
  unfold iperf_sctp_listen. cbn [negb]. cbv zeta. apply leaves_close.
  generalize (L ∖ {[Fd (t_listener test)]}). clear L. intros L.
  destruct (t_xbind_addrs test) as [|name l]; repeat sctp_step.
  all: try solve [left; made].
  all: right; split; [done|]; split; [done|];
    match goal with s : Z |- _ => exists s end; split; [set_solver|];
    apply set_eq; intros ?; set_unfold; intuition (subst; congruence).
Qed.

(** What connecting leaves: the socket alone, nothing, or - when the buffer sizes were
    refused and a local address was given - the list made for that address. *)
Definition sctp_connects (test : iperf_test) (L : gset resource) (a : Z * iperf_test)
    (L' : gset resource) : Prop :=
  makes_socket L a.1 L' \/
  (a.1 = -1 /\ t_i_errno a.2 = IESETBUF /\ t_bind_address test <> None /\
   exists p, Info p ∉ L /\ L' = {[Info p]} ∪ L).

Lemma greet_leaves (L : gset resource) server_res s test Q :
  (forall test', Q (-1, test') (L ∖ {[Fd s]} ∖ {[Info (ai_ptr server_res)]})) ->
  Q (s, test) (L ∖ {[Info (ai_ptr server_res)]}) ->
  leaves L (sctp_greet server_res s test) Q.
Proof using laws slaws.
  intros Hf Hs. unfold sctp_greet. cbv zeta. apply leaves_call; [apply passive_greeting|]. intros r.
  repeat sctp_step; auto.
Qed.

Lemma sctp_connect_leaves test (L : gset resource) :
  leaves L (iperf_sctp_connect true false test) (sctp_connects test L) /\
  leaves L (iperf_sctp_connect true true test) (sctp_connects test L).
Proof using laws slaws.
  enough (forall assoc_value, leaves L (iperf_sctp_connect true assoc_value test) (sctp_connects test L))
    by auto.
  intros assoc_value. unfold iperf_sctp_connect, sctp_dial, sctp_connect_socket. cbn [negb]. cbv zeta.
  unfold free_local.
  destruct (t_bind_address test) as [l|] eqn:Hbind, (t_xbind_addrs test) as [|name names];
    cbn beta iota; repeat first [apply greet_leaves; [intros ?|] | sctp_step].
  all: try solve [left; made].
  all: right; split; [done|]; split; [done|]; split; [by rewrite Hbind|].
  all: match goal with
       | ai : addrinfo |- _ => exists (ai_ptr ai); split; [solve [set_solver]|];
           solve [apply set_eq; intros ?; set_unfold; intuition (subst; congruence)]
       end.
Qed.

(** What connecting an SCTP stream leaves: a fresh descriptor and nothing else, or -1 and
    nothing at all - but for the list made for the local address, which stays when the
    buffer sizes were refused. *)
Theorem sctp_connect_descriptors assoc_value test w :
  let '(a, w') := iperf_sctp_connect true assoc_value test w in
  sctp_connects test (live w) a (live w').
Proof using laws slaws.
  destruct (sctp_connect_leaves test (live w)) as [H0 H1].
  destruct assoc_value; [specialize (H1 w eq_refl)|specialize (H0 w eq_refl)];
    by destruct (iperf_sctp_connect _ _ _ _).
Qed.

(** What listening leaves: the old listener is closed; a fresh descriptor is the only new
    thing, or nothing is, unless [listen] itself failed: the socket then stays open. *)
Theorem sctp_listen_descriptors test w :
  let '(a, w') := iperf_sctp_listen true test w in
  sctp_listens (live w ∖ {[Fd (t_listener test)]}) a (live w').
Proof using laws slaws.
  pose proof (sctp_listen_leaves test (live w) w eq_refl) as H.
  by destruct (iperf_sctp_listen true test w).
Qed.

(** When the call fails, [iperf_sctp_bindx] has closed the socket that its caller then
    closes again; otherwise it leaves memory and descriptors as they were, and the
    arguments in their order. *)
Theorem sctp_bindx_ends test s is_server w :
  let '(a, w') := iperf_sctp_bindx true test s is_server w in bindx_ends s test (live w) a (live w').
Proof using laws slaws.
  pose proof (bindx_leaves (live w) test s is_server w eq_refl) as H.
  by destruct (iperf_sctp_bindx true test s is_server w).
Qed.
End Theorems.

Section Accept.
Context {W : Type} {posix : Posix W} {plaws : PosixLaws W} {stream : StreamLaws W}
  {sockets : Sockets W} {laws : SocketLaws W}.

(** Who is let in: [iperf_sctp_accept] answers, and leaves the descriptor it answers open
    exactly when the cookie that was sent is that of the test; a connection that is turned
    away is closed whatever happens, but its descriptor may be answered all the same. *)
Theorem sctp_accept_admits stack test w :
  exists r test' w', iperf_sctp_accept true stack test w = Some (r, test', w') /\
  match sys_accept (t_listener test) w with
  | (Err _, _) => r = -1 /\ t_i_errno test' = IESTREAMCONNECT /\ live w' = live w
  | (Ok s, w1) =>
      (r = -1 /\ live w' = live w) \/
      (r = s /\ test' = test /\ exists got rest, inbox w1 s = got ++ rest /\
       if strncmp_eq (t_cookie test) (got ++ drop (length got) stack) COOKIE_SIZE
       then live w' = {[Fd s]} ∪ live w /\ inbox w' s = rest
       else live w' = live w)
  end.
Proof using laws plaws stream.
  unfold iperf_sctp_accept. cbn [negb]. destruct (sys_accept (t_listener test) w) as [[s|e] w1] eqn:E.
  2: { apply (@accept_err W _ _ _) in E. by eexists _, _, _. }
  apply (@accept_ok W _ _ _) in E as (Hs & Hn & E).
  destruct (Nread_total s COOKIE_SIZE w1) as (r & got & w2 & HR). rewrite HR.
  cbn [mbind option_bind]. pose proof (Nread_live _ _ _ _ _ _ HR) as Hl.
  apply Nread_loop_spec in HR as (got' & Hg & _ & Hin & _ & _); [|done..].
  cbn [app] in Hg. subst got'.
  destruct (Z.ltb_spec r 0).
  { eexists _, _, _. split; [done|]. left. rewrite close_live, Hl, E. split; [done|]. set_solver. }
  destruct (strncmp_eq _ _ _) eqn:Hcookie.
  { eexists _, _, _. split; [done|]. right. split; [done|]. split; [done|].
    exists got, (inbox w2 s). split; [done|]. rewrite Hcookie, Hl, E. done. }
  destruct (Nwrite_total s [u8 ACCESS_DENIED] w2) as (r' & w3 & HW). rewrite HW.
  cbn [mbind option_bind]. apply Nwrite_live in HW.
  destruct (Z.ltb_spec r' 0).
  { eexists _, _, _. split; [done|]. left. rewrite close_live, HW, Hl, E. split; [done|]. set_solver. }
  eexists _, _, _. split; [done|]. right. split; [done|]. split; [done|].
  exists got, (inbox w2 s). split; [done|]. rewrite Hcookie, close_live, HW, Hl, E. set_solver.
Qed.
End Accept.

(** Without SCTP every function answers -1 and says so. *)
Lemma without_sctp {W} {posix : Posix W} {sockets : Sockets W} {sctp : Sctp W} assoc_value stack test s b sp (w : W) :
  iperf_sctp_listen false test w = (no_sctp test, w) /\
  iperf_sctp_connect false assoc_value test w = (no_sctp test, w) /\
  iperf_sctp_bindx false test s b w = (no_sctp test, w) /\
  iperf_sctp_accept false stack test w = Some (no_sctp test, w) /\
  iperf_sctp_recv false test sp w = Some (no_sctp test, sp, w) /\
  iperf_sctp_send false test sp w = Some (no_sctp test, sp, w).
Proof. done. Qed.

(** ** On the host of the examples *)

#[local] Instance host_sctp : Sctp Host.host := {
  sctp_socket _ := Host.planned (Host.allocate Fd id);
  sctp_setsockopt _ _ := Host.planned (Host.quiet tt);
  sctp_bindx _ _ := Host.planned (Host.quiet tt);
  list_addrinfo _ _ _ _ w :=
    Host.planned (Host.allocate Info (fun p => (p, [(Host.h_family w, Host.address w)]))) w;
  try_malloc := Host.planned (Host.quiet tt) }.

(** The buffer size is refused: the third of the calls that follow the resolver's. *)
Lemma sctp_connect_leaks :
  let test := zero_test <| t_bind_address := Some "::1"%string |>
                        <| t_settings := zero_settings <| st_socket_bufsize := 2 ^ 30 |> |> in
  let w := ex_host [0; 0; 0; 12] [] in
  let '((r, test'), w') := iperf_sctp_connect true true test w in
  r = -1 /\ t_i_errno test' = IESETBUF /\ live w' = {[Info 4]} ∪ live w.
Proof. vm_compute. repeat split; reflexivity. Qed.

(** With two addresses the second is looked up with the port the first had before it was
    bound, which is no port when the first was looked up without a service. *)
#[local] Instance log_sockets : Sockets (list (option Z)) := {
  sys_getaddrinfo _ _ _ _ _ w := (Err 1, w); sys_freeaddrinfo _ w := w;
  sys_socket _ _ w := (Err 1, w); sys_close _ w := w; sys_setsockopt _ _ _ w := (Ok tt, w);
  sys_getsockopt _ _ w := (Ok 0, w); sys_bind _ _ w := (Ok tt, w); sys_listen _ _ w := (Ok tt, w);
  sys_connect _ _ w := (Ok tt, w); sys_accept _ w := (Err 1, w); sys_recvfrom _ _ w := (Err 1, w);
  sys_getsockname _ w := (Ok (mk_sockaddr AF_INET [127; 0; 0; 1] 40000 0), w);
  sys_getpeername _ w := (Err 1, w); sys_getfl _ w := (0, w); sys_setfl _ _ w := (Ok tt, w);
  sys_poll _ _ w := (Ok 1, w) }.

#[local] Instance log_sctp : Sctp (list (option Z)) := {
  sctp_socket _ w := (Ok 5, w); sctp_setsockopt _ _ w := (Ok tt, w); sctp_bindx _ _ w := (Ok tt, w);
  list_addrinfo _ _ _ service w :=
    (Ok (7, [(AF_INET, mk_sockaddr AF_INET [127; 0; 0; 1] (default 0 service) 0)]), w ++ [service]);
  try_malloc w := (Ok tt, w) }.

Lemma bindx_port_lost :
  let test := zero_test <| t_xbind_addrs := ["a"; "b"]%string |>
                        <| t_settings := zero_settings <| st_domain := AF_INET |> |> in
  (iperf_sctp_bindx true test 5 false []).2 = [None; Some 0].
Proof. vm_compute. reflexivity. Qed.
