(* ===== verification/Util.v ===== *)
(** * iperf_util.c: random numbers, patterns, cookies, processor load *)

From S2P Require Import Prelude Double Posix IperfTime Sockets.

#[local] Open Scope Z_scope.
#[local] Open Scope act_scope.

(** ** Payloads and cookies *)

(** [fill_with_repeating_pattern]: the digits over and over. *)
Fixpoint repeating_pattern (n : nat) (counter : Z) : list Z :=
  match n with
  | O => []
  | S n => 48 + counter :: repeating_pattern n (if 9 <=? counter then 0 else counter + 1)
  end.

Definition fill_with_repeating_pattern (outsize : Z) : list Z :=
  repeating_pattern (Z.to_nat outsize) 0.

(** "abcdefghijklmnopqrstuvwxyz234567" *)
Definition rndchars : list Z := (Z.of_nat <$> seq 97 26) ++ (Z.of_nat <$> seq 50 6).

Section Util.
Context {W : Type} {sockets : Sockets W} {files : Files W}.

(** [None] when the program exits for want of randomness. *)
Definition readentropy (outsize : Z) (w : W) : option (list Z * W) :=
  if outsize =? 0 then Some ([], w)
  else match sys_urandom outsize w with
       | (Some data, w) => Some (data, w)
       | (None, _) => None
       end.

Definition cookie_char (b : Z) : Z := default 0 (rndchars !! Z.to_nat (b mod 32)).

Definition make_cookie (w : W) : option (list Z * W) :=
  '(out, w) ← readentropy 37 w;
  Some ((cookie_char <$> take 36 out) ++ [0], w).

Definition is_closed (fd : Z) (w : W) : bool := sys_badfd fd w.
End Util.

(** ** Time values *)

Record timeval := mk_timeval { tv_sec : Z; tv_usec : Z }.

(** The division is one of integers. *)
Definition timeval_to_double (tv : timeval) : double :=
  d_of_Z (tv_sec tv + Z.quot (tv_usec tv) 1000000).

Definition timeval_equals (tv0 tv1 : timeval) : Z :=
  if (tv_sec tv0 =? tv_sec tv1) && (tv_usec tv0 =? tv_usec tv1) then 1 else 0.

Definition seconds (tv : timeval) : double :=
  d_add (d_of_Z (tv_sec tv)) (d_div (d_of_Z (tv_usec tv)) (d_of_Z 1000000)).

Definition timeval_diff (tv0 tv1 : timeval) : double :=
  let d := d_sub (seconds tv0) (seconds tv1) in
  if d_lt d d_zero then d_opp d else d.

(** ** Processor load *)

(** [clock()] and [getrusage(RUSAGE_SELF)]: user and system time. *)
Class Usage (W : Type) := {
  sys_cputime : W -> Z * W;
  sys_getrusage : W -> (timeval * timeval) * W }.

(** The static variables of [cpu_util]. *)
Record cpu_static := mk_cpu {
  cpu_last : iperf_time; cpu_clast : Z; cpu_rlast : timeval * timeval }.

Section Cpu.
Context {W : Type} {clock : Clock W} {usage : Usage W}.

(** [iperf_time_now] of a local or static variable that holds [x]. *)
Definition cpu_now (x : iperf_time) (w : W) : iperf_time * W :=
  let '(c, w) := sys_clock w in ((iperf_time_now c x).2, w).

(** [cpu_util(NULL)]: the counters from which the load is measured. *)
Definition cpu_start (st : cpu_static) (w : W) : cpu_static * W :=
  let '(last, w) := cpu_now (cpu_last st) w in
  let '(c, w) := sys_cputime w in
  let '(r, w) := sys_getrusage w in
  (mk_cpu last c r, w).

Definition usecs_of (tv : timeval) : double :=
  d_add (d_mul (d_of_Z (tv_sec tv)) (d_of_Z 1000000)) (d_of_Z (tv_usec tv)).

(** The share of [part] microseconds in [whole], in percent. *)
Definition percent (part whole : double) : double := d_mul (d_div part whole) (d_of_Z 100).

(** [cpu_util(pcpu)]: total, user and system load since [cpu_util(NULL)]. *)
Definition cpu_util (now0 : iperf_time) (st : cpu_static) (w : W) : list double * W :=
  let '(now, w) := cpu_now now0 w in
  let '(ctemp, w) := sys_cputime w in
  let '(rtemp, w) := sys_getrusage w in
  let timediff := d_of_Z (iperf_time_in_usecs (iperf_time_diff now (cpu_last st)).2) in
  let total := d_div (d_mul (d_of_Z (ctemp - cpu_clast st)) (d_of_Z 1000000))
                     (d_of_Z 1000000) in
  let user := d_sub (usecs_of rtemp.1) (usecs_of (cpu_rlast st).1) in
  let system := d_sub (usecs_of rtemp.2) (usecs_of (cpu_rlast st).2) in
  ([percent total timediff; percent user timediff; percent system timediff], w).
End Cpu.
