(* ===== verification/Packet.v ===== *)
(** * proj1/utils: packets, the file and the lossy socket of ncp and rcv

    [ncp] copies a file to [rcv] over UDP.  Here are the packets of both
    (packet.h), the reading of the next packet's data from the file
    (file_helper.cpp), what both print, and the [sendto] that drops packets on
    purpose (sendto_dbg.cpp).  A byte is a [Z]; a [FILE] is a position in the
    content, or closed. *)

From S2P Require Import Prelude Double CJson CString Printf Posix Sockets Util.

#[local] Open Scope Z_scope.
#[local] Open Scope record_scope.

(** ** packet.h *)

Definition PKT_DT_SIZE : Z := 1355.
Definition MEGABYTES : Z := 1000000.
Definition MEGABITS : Z := 8.
Definition L_WSIZE : Z := 10.
Definition W_WSIZE : Z := 45.

Record net_pkt := mk_net_pkt {
  data : list Z;          (** [PKT_DT_SIZE] bytes *)
  d_fname : string;
  seq : Z;
  w_size : Z;
  dt_size : Z;
  pid : Z;
  is_end : bool }.

Record ack_pkt := mk_ack_pkt { cum_seq : Z; data_size : Z; is_nack : bool }.

#[export] Instance eta_net_pkt : Eta net_pkt := fun p =>
  mk_net_pkt (data p) (d_fname p) (seq p) (w_size p) (dt_size p) (pid p) (is_end p).
#[export] Instance eta_ack_pkt : Eta ack_pkt := fun p =>
  mk_ack_pkt (cum_seq p) (data_size p) (is_nack p).

(** The structures are packed. *)
Definition sizeof_net_pkt : Z := PKT_DT_SIZE + 20 + 8 + 8 + 4 + 4 + 1.

(** ** file_helper.cpp *)

(** [f] and [f_end] are two streams on the same file, [None] when they are closed. *)
Definition fetch_next (W_SIZE : Z) (content : list Z) (f f_end : option Z) (pkt : net_pkt)
    : option (net_pkt * option Z * option Z) :=
  pos ← f;
  last ← f_end;
  let pkt := pkt <| w_size := W_SIZE |> in
  let pkt := pkt <| dt_size := if last - pos <? PKT_DT_SIZE then last - pos else PKT_DT_SIZE |> in
  let read := firstn (Z.to_nat (dt_size pkt)) (skipn (Z.to_nat pos) content) in
  let pkt := pkt <| data ::= fun old => read ++ skipn (length read) old |> in
  let pos := pos + Z.of_nat (length read) in
  if last <=? pos then Some (pkt <| is_end := true |>, None, None)
  else Some (pkt <| is_end := false |>, Some pos, Some last).

(** [timersub] *)
Definition timersub (a b : timeval) : timeval :=
  let s := tv_sec a - tv_sec b in
  let u := tv_usec a - tv_usec b in
  if u <? 0 then mk_timeval (s - 1) (u + 1000000) else mk_timeval s u.

Definition megabytes (d : double) : double := d_div d (d_of_Z MEGABYTES).

(** In the last report the time is cut to whole seconds; a [long] that the time does not
    fit in would be undefined. *)
Definition print_statistics_finish (diff_time : timeval) (trans_data success_trans : double) (isncp : bool)
    : option string :=
  time ← d_trunc (seconds diff_time);
  let rate := d_div (d_mul (megabytes trans_data) (d_of_Z MEGABITS)) (d_of_Z time) in
  a ← printf_text ("The size of the file transferred %f megabytes" ++ nl ++
        "The amount of time required for the transfer is %ld seconds" ++ nl ++
        "The average transfer rate is %f in megabits/sec" ++ nl ++ nl)%string
        [ADouble success_trans; ALong time; ADouble rate];
  if isncp then
    b ← printf_text ("The total amount of data sent %f megabytes" ++ nl ++ nl)%string
          [ADouble (megabytes trans_data)];
    Some (a ++ b)%string
  else Some a.

Definition print_statistics (diff_time : timeval) (trans_data success_trans : double) : option string :=
  let rate := d_div (d_mul (megabytes trans_data) (d_of_Z MEGABITS)) (seconds diff_time) in
  printf_text ("The total amount of %f megabytes data successfully transferred so far." ++ nl ++
    "The average transfer rate of the last 10 megabytes sent/received %f megabits/sec." ++ nl ++ nl)%string
    [ADouble success_trans; ADouble rate].

(** ** sendto_dbg.cpp *)

(** The cutoff for a rate in percent; another rate ends the program. *)
Definition sendto_dbg_init (percent : Z) : option Z :=
  if (percent <? 0) || (100 <? percent) then None
  else d_trunc (d_mul (d_mul (d_of_Z percent) (d_div (d_of_Z 1) (d_of_Z 100))) (d_of_Z 255)).

(** Whether a packet is dropped, for what [rand] gave. *)
Definition sendto_dbg_drops (cutoff rand : Z) : bool :=
  let decision := Z.land rand 255 in
  (0 <? cutoff) && (decision <=? cutoff).

Lemma seq_of_all (P : Z -> bool) n :
  forallb P (map Z.of_nat (List.seq 0 n)) = true -> forall z, 0 <= z < Z.of_nat n -> P z = true.
Proof.
  intros H z Hz. rewrite forallb_forall in H. apply H, in_map_iff. exists (Z.to_nat z).
  split; [lia|]. apply in_seq. lia.
Qed.

Definition dropped_decisions (cutoff : Z) : nat :=
  length (List.filter (sendto_dbg_drops cutoff) (map Z.of_nat (List.seq 0 256))).

(** The share of the 256 values of [rand] that drop a packet: none at 0 percent, and
    from then on one more than the percentage of 255 says, so that at 100 percent
    nothing comes through. *)
Theorem loss_rate percent :
  (0 <= percent <= 100)%Z ->
  exists cutoff, sendto_dbg_init percent = Some cutoff /\
    Z.of_nat (dropped_decisions cutoff) = (if percent =? 0 then 0 else percent * 255 / 100 + 1).
Proof.
  intros Hp.
  assert (H : match sendto_dbg_init percent with
              | Some c => Z.of_nat (dropped_decisions c) =? (if percent =? 0 then 0 else percent * 255 / 100 + 1)
              | None => false end = true).
  { apply (seq_of_all (fun percent => match sendto_dbg_init percent with
      | Some c => Z.of_nat (dropped_decisions c) =? (if percent =? 0 then 0 else percent * 255 / 100 + 1)
      | None => false end) 101); [vm_compute; reflexivity|lia]. }
  destruct (sendto_dbg_init percent) as [c|]; [|done]. exists c. split; [done|]. by apply Z.eqb_eq.
Qed.
