(* ===== verification/Ncp.v ===== *)
(** * ncp.cpp: the sender

    One turn of the loop of [main] after [select]: an acknowledgement, or the timeout.
    The state are the window, the labels of its packets, the position in the file and
    the counters of the statistics; what the program hands to [sendto_dbg] and what it
    prints are logged.  [None] is undefined behaviour.  Opening the socket and the
    file, and the resolution of the name, come before. *)

From stdpp Require Import gmap.
From S2P Require Import Prelude Double CJson CString Printf Util Packet.

#[local] Open Scope Z_scope.
#[local] Open Scope record_scope.

(** [umap]: what a packet of the window is labelled, ['\0'] where it has none. *)
Inductive label := NoLabel | Unacked | Sent.

Record ncp := mk_ncp {
  n_window : list net_pkt;
  n_umap : gmap Z label;
  n_last_pkt : Z;
  n_pkt_cnt : Z;
  n_pd : option Z;
  n_pd_end : option Z;
  n_mallocs : nat;              (** calls of [malloc] so far *)
  n_blocked : bool;
  n_start_trans : bool;
  n_total : double;
  n_success : double;
  n_last_record_bytes : double;
  n_trans_start : timeval;
  n_last_record : timeval;
  n_sent : list net_pkt;        (** what went to [sendto_dbg] *)
  n_said : list string;         (** what was printed *)
  n_finished : bool }.          (** [return 0] *)

#[export] Instance eta_ncp : Eta ncp := fun s =>
  mk_ncp (n_window s) (n_umap s) (n_last_pkt s) (n_pkt_cnt s) (n_pd s) (n_pd_end s) (n_mallocs s)
    (n_blocked s) (n_start_trans s) (n_total s) (n_success s) (n_last_record_bytes s)
    (n_trans_start s) (n_last_record s) (n_sent s) (n_said s) (n_finished s).

(** [blocked] is not initialised: it is what the memory held. *)
Definition ncp_start (content : list Z) (blocked : bool) : ncp :=
  mk_ncp [] ∅ (-1) 1 (Some 0) (Some (Z.of_nat (length content))) 0 blocked false
    d_zero d_zero d_zero (mk_timeval 0 0) (mk_timeval 0 0) [] [] false.

Definition n_send (p : net_pkt) (s : ncp) : ncp := s <| n_sent ::= fun l => l ++ [p] |>.
Definition n_say (t : string) (s : ncp) : ncp := s <| n_said ::= fun l => l ++ [t] |>.

Section Ncp.
(** The options, the content of the file, what fresh memory holds, and what [ftell]
    answers for a stream that was closed, which C does not define. *)
Context (isLAN : bool) (dest : string) (Pid : Z) (content : list Z)
  (malloc : nat -> net_pkt) (closed_tell : Z).

Definition W_SIZE : Z := if isLAN then L_WSIZE else W_WSIZE.

Definition ftell (f : option Z) : Z := match f with Some pos => pos | None => closed_tell end.

Fixpoint fill (new_amt : nat) (s : ncp) : option ncp :=
  match new_amt with
  | O => Some s
  | S new_amt =>
      '(pkt, pd, pd_end) ← fetch_next W_SIZE content (n_pd s) (n_pd_end s) (malloc (n_mallocs s));
      let pkt := pkt <| seq := n_pkt_cnt s |> <| pid := Pid |> in
      if 20 <=? strlen dest then None
      else
        let pkt := pkt <| d_fname := dest |> in
        let s := s <| n_mallocs ::= S |> <| n_window ::= fun l => l ++ [pkt] |>
                   <| n_pd := pd |> <| n_pd_end := pd_end |> <| n_pkt_cnt ::= Z.succ |> in
        if ftell (n_pd s) =? -1 then Some s
        else fill new_amt (s <| n_umap ::= <[seq pkt := Unacked]> |>)
  end.

Definition fill_win (s : ncp) : option ncp :=
  let size := Z.of_nat (length (n_window s)) in
  if (size <? W_SIZE) && (n_last_pkt s =? -1) then fill (Z.to_nat (W_SIZE - size)) s
  else Some s.

(** The loop over the window at a timeout. *)
Definition send_packet (s : ncp) (p : net_pkt) : ncp :=
  let s := s <| n_total ::= fun t => d_add t (d_of_Z sizeof_net_pkt) |> in
  let s := match n_umap s !! seq p with
           | Some Unacked => n_send p s
           | _ => s <| n_umap ::= <[seq p := Unacked]> |>
           end in
  if is_end p then s <| n_last_pkt := seq p |> else s.

(** The packets that an acknowledgement takes out of the window. *)
Fixpoint dequeue (ack : ack_pkt) (window : list net_pkt) (s : ncp) : ncp :=
  match window with
  | p :: rest =>
      if seq p <=? cum_seq ack
      then dequeue ack rest (s <| n_window := rest |>
             <| n_success ::= fun t => d_add t (d_of_Z (data_size ack)) |>
             <| n_umap ::= delete (cum_seq ack) |>)
      else s
  | [] => s
  end.

Definition heard_block (ack : ack_pkt) (s : ncp) : ncp :=
  if cum_seq ack <? 0 then n_say "blocked by sender!" s <| n_blocked := true |>
  else if n_blocked s then n_say "unblocked by sender!" s <| n_blocked := false |>
  else s.

Definition on_ack (now : timeval) (ack : ack_pkt) (s : ncp) : option ncp :=
  let s := heard_block ack s in
  if negb (is_nack ack) then
    let s := dequeue ack (n_window s) s in
    if negb (n_last_pkt s =? -1) && (n_last_pkt s <=? cum_seq ack) then
      t ← print_statistics_finish (timersub now (n_trans_start s)) (n_total s)
            (megabytes (n_success s)) true;
      Some (n_say t s <| n_finished := true |>)
    else Some s
  else
    pkt_it ← List.find (fun p => seq p =? cum_seq ack) (n_window s);
    Some (n_send pkt_it s <| n_umap ::= <[cum_seq ack := Sent]> |>).

Definition on_timeout (now : timeval) (s : ncp) : option ncp :=
  let s := if n_start_trans s then s
           else s <| n_start_trans := true |> <| n_trans_start := now |>
                  <| n_last_record ::= fun r => mk_timeval (tv_sec now) (tv_usec r) |> in
  s ← fill_win s;
  Some (fold_left send_packet (n_window s) s).

Definition ten_megabytes : double := d_of_Z (10 * MEGABYTES).

Definition n_progress (now : timeval) (s : ncp) : option ncp :=
  let trans_data := d_sub (n_total s) (n_last_record_bytes s) in
  if d_le ten_megabytes trans_data then
    t ← print_statistics (timersub now (n_last_record s)) trans_data (megabytes (n_success s));
    Some (n_say t s <| n_last_record ::= fun r => mk_timeval (tv_sec now) (tv_usec r) |>
            <| n_last_record_bytes := n_total s |>)
  else Some s.

(** What [select] and [recvfrom] bring: the content of the buffer, or no packet. *)
Inductive heard := Ack (a : ack_pkt) | Quiet.

(** [now] and [later] are what [gettimeofday] tells when it is first and next asked. *)
Definition ncp_turn (now later : timeval) (h : heard) (s : ncp) : option ncp :=
  match h with
  | Ack a =>
      s ← on_ack now a s;
      if n_finished s then Some s else n_progress later s
  | Quiet => if n_blocked s then Some s else s ← on_timeout now s; n_progress later s
  end.
End Ncp.

(** ** The command line *)

(** [strtok] with a set of separators: the token and what follows the character after it. *)
Fixpoint skip_any (delims : list ascii) (s : string) : string :=
  match s with
  | String c s' => if decide (c ∈ delims) then skip_any delims s' else s
  | EmptyString => EmptyString
  end.

Fixpoint token (delims : list ascii) (s : string) : string * string :=
  match s with
  | String c s' =>
      if decide (c ∈ delims) then (EmptyString, s')
      else let '(t, rest) := token delims s' in (String c t, rest)
  | EmptyString => (EmptyString, EmptyString)
  end.

Definition strtok_any (delims : list ascii) (s : string) : option (string * string) :=
  match skip_any delims s with
  | EmptyString => None
  | s => Some (token delims s)
  end.

(** A program that reads its arguments prints the usage and exits, or runs, or does
    something undefined. *)
Inductive usage (A : Type) := Exits | Undefined | Runs (a : A).
Arguments Exits {A}. Arguments Undefined {A}. Arguments Runs {A}.

Record ncp_options := mk_ncp_options {
  o_cutoff : Z; o_LAN : bool; o_source : string; o_dest : string; o_server : string; o_port : Z }.

Definition first_is (c : ascii) (s : string) : bool :=
  match s with String c' _ => bool_decide (c' = c) | EmptyString => false end.

(** [argv] without the name of the program. *)
Definition ncp_Usage (argv : list string) : usage ncp_options :=
  match argv with
  | [loss; env; source; target] =>
      match sendto_dbg_init (atoi loss) with
      | None => Exits
      | Some cutoff =>
          match strtok_any ["@"; ":"]%char target with
          | None => Exits
          | Some (d_fname, rest) =>
              match strtok_any ["@"; ":"]%char rest with
              | None => Exits
              | Some (server, rest) =>
                  match strtok_any ["@"; ":"]%char rest with
                  | None => Undefined
                  | Some (port, _) =>
                      Runs (mk_ncp_options cutoff (first_is "L" env) source d_fname server (atoi port))
                  end
              end
          end
      end
  | _ => Exits
  end.

Example ncp_command :
  ncp_Usage ["5"; "LAN"; "a.txt"; "b.txt@10.0.1.101:5000"]%string
  = Runs (mk_ncp_options 12 true "a.txt" "b.txt" "10.0.1.101" 5000).
Proof. vm_compute. reflexivity. Qed.

(** A port that is missing is read through a null pointer. *)
Example ncp_without_port : ncp_Usage ["5"; "LAN"; "a.txt"; "b.txt@10.0.1.101"]%string = Undefined.
Proof. vm_compute. reflexivity. Qed.
