(* ===== verification/Rcv.v ===== *)
(** * rcv.cpp: the receiver

    One turn of the loop of [main] after [select]: a packet, or ten seconds without
    one.  The window holds pointers, and every one of them points to [mess_buf], the
    buffer the next packet is received in; the model keeps it so.  An [ack_pkt] on the
    stack is sent with the members it was not given as the memory held them.  The
    address of a sender is read back as [recvfrom] stored it: the program allocates
    only the size of a pointer for it, and an allocator rounds that up.  What
    [ofstream] writes goes into the files of the model; a file is opened by truncating
    it.  [None] is undefined behaviour. *)

From stdpp Require Import gmap strings.
From S2P Require Import Prelude Double CJson CString Printf Util Packet Ncp.

#[local] Open Scope Z_scope.
#[local] Open Scope record_scope.

(** An address is compared by its host and its port. *)
Abbreviation addr := (Z * Z)%type.

(** A pointer to a packet: there is one buffer. *)
Inductive pkt_ptr := mess_buf.

Record rcv := mk_rcv {
  r_mess_buf : net_pkt;
  r_window : list pkt_ptr;
  r_sender_q : list addr;
  r_cum_seq : Z;
  r_done : bool;
  r_rcv_start : bool;
  r_pd : option string;               (** the file that is open *)
  r_files : gmap string (list Z);
  r_total : double;
  r_success : double;
  r_last_record_bytes : double;
  r_last_recv_time : timeval;
  r_last_record_time : timeval;
  r_trans_start : timeval;
  r_sent : list (addr * ack_pkt);     (** what went to [sendto_dbg] *)
  r_said : list string }.

#[export] Instance eta_rcv : Eta rcv := fun s =>
  mk_rcv (r_mess_buf s) (r_window s) (r_sender_q s) (r_cum_seq s) (r_done s) (r_rcv_start s) (r_pd s)
    (r_files s) (r_total s) (r_success s) (r_last_record_bytes s) (r_last_recv_time s)
    (r_last_record_time s) (r_trans_start s) (r_sent s) (r_said s).

Definition Zero_time : timeval := mk_timeval 0 0.

Definition rcv_start (buffer : net_pkt) (files : gmap string (list Z)) : rcv :=
  mk_rcv buffer [] [] 0 false false None files d_zero d_zero d_zero Zero_time Zero_time Zero_time [] [].

Definition deref (s : rcv) (p : pkt_ptr) : net_pkt := match p with mess_buf => r_mess_buf s end.

Definition r_send (to : addr) (p : ack_pkt) (s : rcv) : rcv := s <| r_sent ::= fun l => l ++ [(to, p)] |>.
Definition r_say (t : string) (s : rcv) : rcv := s <| r_said ::= fun l => l ++ [t] |>.

(** [pd.write] of the data of a packet; on a stream that is not open it does nothing. *)
Definition write_data (pkt : net_pkt) (s : rcv) : option rcv :=
  if (dt_size pkt <? 0) || (PKT_DT_SIZE <? dt_size pkt) then None
  else
    match r_pd s with
    | Some f =>
        let bytes := firstn (Z.to_nat (dt_size pkt)) (data pkt) in
        Some (s <| r_files ::= fun fs => <[f := default [] (fs !! f) ++ bytes]> fs |>)
    | None => Some s
    end.

Section Rcv.
(** Whether a file of this name can be opened for writing. *)
Context (can_open : string -> bool).

Definition open_file (name : string) (s : rcv) : rcv :=
  if can_open name then s <| r_pd := Some name |> <| r_files ::= <[name := []]> |> else s.

Definition is_open (s : rcv) : bool := match r_pd s with Some _ => true | None => false end.

(** The packets that wait in the window and come next. *)
Fixpoint unbuffer (to : addr) (pkt : pkt_ptr) (p : ack_pkt) (window : list pkt_ptr) (s : rcv)
    : option (ack_pkt * rcv) :=
  match window with
  | front :: rest =>
      if seq (deref s front) =? r_cum_seq s + 1 then
        let p := p <| cum_seq := seq (deref s pkt) |> <| is_nack := false |> in
        let s := r_send to p s <| r_cum_seq := seq (deref s pkt) |> <| r_window := rest |>
                   <| r_success ::= fun t => d_add t (d_of_Z (dt_size (deref s pkt))) |> in
        s ← write_data (deref s pkt) s;
        unbuffer to pkt p rest s
      else Some (p, s)
  | [] => Some (p, s)
  end.

Definition on_old (to : addr) (p : ack_pkt) (s : rcv) : option rcv :=
  Some (r_send to (p <| cum_seq := r_cum_seq s |> <| is_nack := false |>) s).

Definition on_next (to : addr) (pkt : pkt_ptr) (p : ack_pkt) (s : rcv) : option rcv :=
  let d := deref s pkt in
  let p := mk_ack_pkt (seq d) (dt_size d) false in
  let s := s <| r_cum_seq := seq d |> in
  let s := if is_end d then s <| r_done := true |> else s in
  let s := r_send to p s in
  let s := s <| r_success ::= fun t => d_add t (d_of_Z (dt_size d)) |> in
  s ← write_data d s;
  '(_, s) ← unbuffer to pkt p (r_window s) s;
  Some s.

(** [std::sort] by sequence numbers. *)
Fixpoint insert_by (key : pkt_ptr -> Z) (x : pkt_ptr) (l : list pkt_ptr) : list pkt_ptr :=
  match l with
  | y :: rest => if key x <? key y then x :: l else y :: insert_by key x rest
  | [] => [x]
  end.

Definition sort_by (key : pkt_ptr -> Z) (l : list pkt_ptr) : list pkt_ptr := fold_right (insert_by key) [] l.

(** The numbers missing between [lo] and the packets of the window. *)
Fixpoint gaps (lo : Z) (window : list Z) : list Z :=
  match window with
  | hi :: rest => map (fun k => lo + 1 + Z.of_nat k) (List.seq 0 (Z.to_nat (hi - (lo + 1)))) ++ gaps hi rest
  | [] => []
  end.

(** [None] where the packet is in the window already, and the turn ends. *)
Definition on_future (to : addr) (pkt : pkt_ptr) (p : ack_pkt) (s : rcv) : option rcv :=
  let d := deref s pkt in
  if existsb (fun q => seq (deref s q) =? seq d) (r_window s) then None
  else
    let s := s <| r_window ::= fun w => sort_by (fun q => seq (deref s q)) (w ++ [pkt]) |> in
    Some (fold_left (fun s i => r_send to (mk_ack_pkt i (w_size d) true) s)
            (gaps (r_cum_seq s) (map (fun q => seq (deref s q)) (r_window s))) s).

Definition first_chars (pkt : net_pkt) : string :=
  fold_right String EmptyString (map chr (firstn 5 (data pkt))).

(** What is printed at the end of a turn that got so far; the last packet closes the file. *)
Definition after_packet (now : timeval) (s : rcv) : option rcv :=
  if negb (r_done s) then
    let trans_data := d_sub (r_total s) (r_last_record_bytes s) in
    if d_le ten_megabytes trans_data then
      t ← print_statistics (timersub now (r_last_record_time s)) trans_data (megabytes (r_success s));
      Some (r_say ("first 5 chars pkt: " ++ first_chars (r_mess_buf s) ++ nl)
              (r_say t s <| r_last_record_time ::= fun r => mk_timeval (tv_sec now) (tv_usec r) |>
                 <| r_last_record_bytes := r_total s |>))
    else Some s
  else if is_open s then
    t ← print_statistics_finish (timersub now (r_trans_start s)) (r_total s) (megabytes (r_success s)) false;
    Some (r_say t s <| r_last_record_time := Zero_time |> <| r_last_record_bytes := d_zero |>
            <| r_total := d_zero |> <| r_success := d_zero |> <| r_pd := None |>)
  else Some s.

(** Whether a sender is the current one; [Some true] takes the packet. *)
Definition queue_sender (from : addr) (s : rcv) : bool * rcv :=
  if negb (existsb (fun a => bool_decide (a = from)) (r_sender_q s))
  then (true, s <| r_sender_q ::= fun q => q ++ [from] |>)
  else (match r_sender_q s with first :: _ => bool_decide (first = from) | [] => true end, s).

(** A transfer begins with the first packet that comes. *)
Definition begin_transfer (now : timeval) (s : rcv) : option rcv :=
  if r_rcv_start s then Some s
  else if is_open s then None
  else
    let s := s <| r_last_record_time := now |> in
    let s := open_file (d_fname (r_mess_buf s)) s in
    Some (s <| r_trans_start ::= fun r => mk_timeval (tv_sec now) (tv_usec r) |> <| r_rcv_start := true |>).

(** What is done with the packet in [mess_buf]; the answers go to the first of the queue. *)
Definition handle_receive (now : timeval) (p : ack_pkt) (s : rcv) : option rcv :=
  from_addr ← head (r_sender_q s);
  let pkt := mess_buf in
  let d := deref s pkt in
  if seq d <=? r_cum_seq s then s ← on_old from_addr p s; after_packet now s
  else if seq d =? r_cum_seq s + 1 then s ← on_next from_addr pkt p s; after_packet now s
  else if Z.of_nat (length (r_window s)) <? w_size d then
    match on_future from_addr pkt p s with
    | None => Some s
    | Some s => after_packet now s
    end
  else after_packet now s.

(** A packet: [bytes] and [from] are the results of [recvfrom], [buffer] the content of
    [mess_buf] after it, [p] the [ack_pkt] on the stack before it is assigned to, [clock]
    the readings of the time. *)
Definition on_packet (clock : nat -> timeval) (bytes : Z) (from : addr) (buffer : net_pkt) (p : ack_pkt)
    (s : rcv) : option rcv :=
  let s := s <| r_mess_buf := buffer |> in
  if bytes =? 0 then Some s
  else
    let s := s <| r_last_recv_time := clock 0%nat |>
               <| r_total ::= fun t => d_add t (d_of_Z sizeof_net_pkt) |> in
    let '(current, s) := queue_sender from s in
    if negb current then Some (r_send from (p <| cum_seq := -1 |>) s)
    else
      match begin_transfer (clock 1%nat) s with
      | None => Some s
      | Some s => handle_receive (clock 2%nat) p s
      end.

(** [Cmp_time] *)
Definition Cmp_time (t1 t2 : timeval) : Z :=
  if tv_sec t2 <? tv_sec t1 then 1
  else if tv_sec t1 <? tv_sec t2 then -1
  else if tv_usec t2 <? tv_usec t1 then 1
  else if tv_usec t1 <? tv_usec t2 then -1
  else 0.

(** Nothing came for ten seconds: a transfer that is done makes room for the next. *)
Definition on_idle (now : timeval) (tmp_p : ack_pkt) (s : rcv) : option rcv :=
  let s := r_say ("timeout...nothing received for 5 seconds." ++ nl) s in
  s ← (if 0 <? Cmp_time (r_last_recv_time s) Zero_time then
         t ← printf_text ("last msg received %lf seconds ago." ++ nl ++ nl)
               [ADouble (seconds (timersub now (r_last_recv_time s)))];
         Some (r_say t s)
       else Some s);
  let s := if r_done s then
             s <| r_sender_q ::= tail |> <| r_done := false |> <| r_rcv_start := false |> <| r_cum_seq := 0 |>
           else s in
  match r_sender_q s with
  | first :: _ =>
      Some (r_say ("switching sender!" ++ nl)
              (r_send first (tmp_p <| cum_seq := r_cum_seq s |>) s))
  | [] => Some s
  end.
End Rcv.

(** ** The command line *)

Record rcv_options := mk_rcv_options { ro_cutoff : Z; ro_port : Z; ro_LAN : bool }.

(** [sscanf] with ["%d"]: the number at the beginning, if there is one. *)
Definition sscanf_d (s : string) : option Z :=
  let '(v, rest) := strtol 10 s in
  if bool_decide (rest = s) then None else Some (i32 v).

Definition rcv_Usage (argv : list string) : usage rcv_options :=
  match argv with
  | [loss; port; env] =>
      match sendto_dbg_init (atoi loss), sscanf_d port with
      | Some cutoff, Some port => Runs (mk_rcv_options cutoff port (first_is "L" env))
      | _, _ => Exits
      end
  | _ => Exits
  end.

Example rcv_command :
  rcv_Usage ["0"; "5000"; "WAN"]%string = Runs (mk_rcv_options 0 5000 false) /\
  rcv_Usage ["101"; "5000"; "WAN"]%string = Exits /\ rcv_Usage ["0"; "port"; "WAN"]%string = Exits.
Proof. vm_compute. auto. Qed.
