(* ===== verification/TransferProps.v ===== *)
(** * proj1: what arrives is what was sent

    The sender and the receiver of a file, and a network that loses, repeats, delays and
    reorders what they hand to it: every packet that was ever sent may arrive at any
    time.  The file of the receiver is at all times the beginning of the file of the
    sender, and all of it when the sender is done; and whatever has happened, as long as
    nothing undefined has, the transfer can still be completed.  The receiver takes the
    packets in order only: its window holds pointers to one buffer.  Then the cases in
    which the programs fail: a number that is asked for again after it was
    acknowledged, a sender that believes it is blocked, a second sender, and a packet
    that comes after the transfer was closed. *)

From stdpp Require Import gmap strings relations.
From S2P Require Import Prelude Double CJson CString Printf Util Packet Ncp Rcv.

#[local] Open Scope Z_scope.
#[local] Open Scope record_scope.

Record system := mk_system { sys_ncp : ncp; sys_rcv : rcv }.

Section Transfer.
Context (isLAN : bool) (dest : string) (Pid : Z) (content : list Z)
  (malloc : nat -> net_pkt) (closed_tell : Z) (can_open : string -> bool) (A : addr).

Notation W := (W_SIZE isLAN).
Notation turn := (ncp_turn isLAN dest Pid content malloc closed_tell).
Notation packet_in := (on_packet can_open).

(** One program takes a turn.  The receiver is idle only while the transfer lasts. *)
Inductive step : system -> system -> Prop :=
| step_timeout now later n n' r :
    n_finished n = false -> turn now later Quiet n = Some n' -> step (mk_system n r) (mk_system n' r)
| step_ack now later a n n' r :
    n_finished n = false -> (A, a) ∈ r_sent r -> turn now later (Ack a) n = Some n' ->
    step (mk_system n r) (mk_system n' r)
| step_packet clock p u n r r' :
    p ∈ n_sent n -> packet_in clock sizeof_net_pkt A p u r = Some r' ->
    step (mk_system n r) (mk_system n r')
| step_idle now u n r r' :
    r_done r = false -> on_idle now u r = Some r' -> step (mk_system n r) (mk_system n r').

Definition start (blocked : bool) (buffer : net_pkt) (files : gmap string (list Z)) : system :=
  mk_system (ncp_start content blocked) (rcv_start buffer files).

(** ** Packets of the file *)

Notation len := (Z.of_nat (length content)).

(** The part of the file that [k] packets carry. *)
Definition part (k : Z) : list Z := firstn (Z.to_nat (PKT_DT_SIZE * k)) content.

Record good (p : net_pkt) : Prop := {
  g_seq : 1 <= seq p;
  g_begin : seq p = 1 \/ PKT_DT_SIZE * (seq p - 1) < len;
  g_end : is_end p = (len <=? PKT_DT_SIZE * seq p);
  g_size : dt_size p = Z.min PKT_DT_SIZE (len - PKT_DT_SIZE * (seq p - 1));
  g_data : firstn (Z.to_nat (dt_size p)) (data p) =
           firstn (Z.to_nat (dt_size p)) (skipn (Z.to_nat (PKT_DT_SIZE * (seq p - 1))) content);
  g_name : d_fname p = dest }.

Lemma part_all k : len <= PKT_DT_SIZE * k -> part k = content.
Proof. intros H. apply firstn_all2. lia. Qed.

Lemma firstn_firstn_skipn {T} (l : list T) a b : firstn a l ++ firstn b (skipn a l) = firstn (a + b) l.
Proof.
  revert l. induction a as [|a IH]; intros [|x l]; cbn; try done.
  - by rewrite firstn_nil.
  - by rewrite IH.
Qed.

(** A packet carries the part of the file behind the packets before it. *)
Lemma good_appends p : good p -> part (seq p - 1) ++ firstn (Z.to_nat (dt_size p)) (data p) = part (seq p).
Proof.
  intros [H1 H2 _ Hs Hd _]. rewrite Hd, Hs. unfold part. rewrite firstn_firstn_skipn.
  unfold PKT_DT_SIZE in *. destruct (Z.le_gt_cases 1355 (len - 1355 * (seq p - 1))).
  - rewrite Z.min_l by lia. f_equal. lia.
  - rewrite Z.min_r by lia. rewrite !firstn_all2; [done|lia..].
Qed.

Lemma good_size p : good p -> 0 <= dt_size p <= PKT_DT_SIZE.
Proof. intros [H1 H2 _ Hs _ _]. rewrite Hs. unfold PKT_DT_SIZE in *. lia. Qed.

(** ** The sender *)

(** [b] is the first number that is not acknowledged. *)
Record n_core (b : Z) (s : ncp) : Prop := {
  nc_first : 1 <= b <= n_pkt_cnt s;
  nc_seqs : map seq (n_window s) = seqZ b (n_pkt_cnt s - b);
  nc_window : Forall good (n_window s);
  nc_sent : Forall (fun p => good p /\ seq p < n_pkt_cnt s) (n_sent s);
  nc_file :
    (n_pd s = Some (PKT_DT_SIZE * (n_pkt_cnt s - 1)) /\ n_pd_end s = Some len /\
     (n_pkt_cnt s = 1 \/ PKT_DT_SIZE * (n_pkt_cnt s - 1) < len)) \/
    (n_pd s = None /\ 2 <= n_pkt_cnt s /\ len <= PKT_DT_SIZE * (n_pkt_cnt s - 1) /\
     (n_pkt_cnt s = 2 \/ PKT_DT_SIZE * (n_pkt_cnt s - 2) < len)) }.

(** The number of the last packet is known once the file is read. *)
Definition n_last_known (s : ncp) : Prop :=
  match n_pd s with
  | Some _ => n_last_pkt s = -1
  | None => n_last_pkt s = n_pkt_cnt s - 1
  end.

Lemma fetch_good c pkt0 :
  1 <= c -> (c = 1 \/ PKT_DT_SIZE * (c - 1) < len) ->
  exists pkt pd pd_end,
    fetch_next W content (Some (PKT_DT_SIZE * (c - 1))) (Some len) pkt0 = Some (pkt, pd, pd_end) /\
    good (pkt <| seq := c |> <| pid := Pid |> <| d_fname := dest |>) /\
    ((pd = Some (PKT_DT_SIZE * c) /\ pd_end = Some len /\ PKT_DT_SIZE * c < len) \/
     (pd = None /\ len <= PKT_DT_SIZE * c)).
Proof.
  intros Hc Hb. unfold fetch_next. cbn [mbind option_bind]. cbn. unfold PKT_DT_SIZE in *.
  set (dt := if len - 1355 * (c - 1) <? 1355 then len - 1355 * (c - 1) else 1355).
  assert (Hdt : dt = Z.min 1355 (len - 1355 * (c - 1))) by (unfold dt; case_bool; lia).
  set (read := firstn (Z.to_nat dt) (skipn (Z.to_nat (1355 * (c - 1))) content)).
  assert (Hr : length read = Z.to_nat dt) by (unfold read; rewrite length_firstn, length_skipn; lia).
  assert (Hg : forall q, is_end q = (len <=? 1355 * c) -> dt_size q = dt -> data q = read ++ skipn (length read) (data pkt0) ->
            good (q <| seq := c |> <| pid := Pid |> <| d_fname := dest |>)).
  { intros q H1 H2 H3. split; cbn; unfold PKT_DT_SIZE; try done; [rewrite H2; exact Hdt|]. rewrite H2, H3, <- Hr, firstn_app, Nat.sub_diag.
    cbn. rewrite app_nil_r, firstn_all. by rewrite Hr. }
  destruct (Z.leb_spec len (1355 * (c - 1) + Z.of_nat (length read))) as [He|He]; do 3 eexists; (split; [done|]); cbn.
  - split; [|right; split; [done|lia]]. apply Hg; cbn; [|done..]. symmetry. apply Z.leb_le. lia.
  - split; [|left; split; [f_equal; lia|split; [done|lia]]]. apply Hg; cbn; [|done..]. symmetry. apply Z.leb_gt. lia.
Qed.

Definition label_kept (s s' : ncp) : Prop :=
  forall k, n_umap s !! k = Some Unacked -> n_umap s' !! k = Some Unacked.

(** What filling the window leaves as it is. *)
Record filled (s s' : ncp) : Prop := {
  f_window : exists l, n_window s' = n_window s ++ l;
  f_last : n_last_pkt s' = n_last_pkt s;
  f_sent : n_sent s' = n_sent s;
  f_blocked : n_blocked s' = n_blocked s;
  f_finished : n_finished s' = n_finished s;
  f_labels : label_kept s s' }.

Lemma filled_refl s : filled s s.
Proof. split; try done; [exists []; by rewrite app_nil_r|by intros k]. Qed.

Lemma filled_trans s1 s2 s3 : filled s1 s2 -> filled s2 s3 -> filled s1 s3.
Proof.
  intros [[l1 H1] H2 H3 H4 H5 H6] [[l2 G1] G2 G3 G4 G5 G6]. split; try congruence.
  - exists (l1 ++ l2). by rewrite G1, H1, app_assoc.
  - intros k Hk. apply G6, H6, Hk.
Qed.

(** One packet more in the window. *)
Definition put (pkt : net_pkt) (pd pd_end : option Z) (s : ncp) : ncp :=
  s <| n_mallocs ::= S |> <| n_window ::= fun l => l ++ [pkt] |>
    <| n_pd := pd |> <| n_pd_end := pd_end |> <| n_pkt_cnt ::= Z.succ |>.

Lemma put_core b s pkt pd pd_end :
  n_core b s -> good pkt -> seq pkt = n_pkt_cnt s ->
  (n_pkt_cnt s = 1 \/ PKT_DT_SIZE * (n_pkt_cnt s - 1) < len) ->
  ((pd = Some (PKT_DT_SIZE * n_pkt_cnt s) /\ pd_end = Some len /\ PKT_DT_SIZE * n_pkt_cnt s < len) \/
   (pd = None /\ len <= PKT_DT_SIZE * n_pkt_cnt s)) ->
  n_core b (put pkt pd pd_end s).
Proof.
  intros [Hb Hq Hw Hs Hf] Hg Hp Hbe Hd. split; cbn.
  - lia.
  - rewrite map_app, Hq. cbn. rewrite Hp.
    replace (Z.succ (n_pkt_cnt s) - b) with ((n_pkt_cnt s - b) + 1) by lia.
    rewrite seqZ_app by lia. f_equal. rewrite Zplus_minus. done.
  - apply Forall_app. by split; [|constructor].
  - eapply Forall_impl; [exact Hs|]. cbn. intros q [??]. split; [done|lia].
  - replace (Z.succ (n_pkt_cnt s) - 1) with (n_pkt_cnt s) by lia.
    replace (Z.succ (n_pkt_cnt s) - 2) with (n_pkt_cnt s - 1) by lia.
    destruct Hd as [(-> & -> & ?)|(-> & ?)]; [left|right]; split_and!; try done; lia.
Qed.

Lemma fill_core amt : forall b s s', n_core b s ->
  fill isLAN dest Pid content malloc closed_tell amt s = Some s' -> n_core b s' /\ filled s s'.
Proof.
  induction amt as [|amt IH]; intros b s s' Hc E; cbn in E.
  { injection E as <-. split; [done|apply filled_refl]. }
  destruct (nc_file _ _ Hc) as [(E1 & E2 & Hbe)|(E1 & _ & _)]; rewrite E1 in E; [|discriminate E].
  rewrite E2 in E.
  pose proof (nc_first _ _ Hc) as Hb.
  destruct (fetch_good (n_pkt_cnt s) (malloc (n_mallocs s)) ltac:(lia) Hbe) as (pkt & pd & pde & Ef & Hg & Hpd).
  rewrite Ef in E. cbn [mbind option_bind] in E.
  destruct (20 <=? strlen dest); [discriminate E|].
  set (p := pkt <| seq := n_pkt_cnt s |> <| pid := Pid |> <| d_fname := dest |>) in *.
  assert (Hc' : n_core b (put p pd pde s)) by by apply put_core.
  assert (Hf' : filled s (put p pd pde s)) by (split; try done; [by exists [p]|by intros k]).
  destruct (_ =? -1).
  - injection E as <-. by split.
  - apply (IH b) in E.
    + destruct E as [H1 H2]. split; [done|]. eapply filled_trans; [exact Hf'|]. destruct H2 as [G1 G2 G3 G4 G5 G6].
      split; try done. intros k Hk. apply G6. cbn. rewrite lookup_insert. case_decide; [done|]. done.
    + destruct Hc' as [G1 G2 G3 G4 G5]. by split.
Qed.

Lemma fill_win_core b s s' : n_core b s -> fill_win isLAN dest Pid content malloc closed_tell s = Some s' ->
  n_core b s' /\ filled s s'.
Proof.
  intros Hc E. unfold fill_win in E. destruct (_ && _); [by eapply fill_core|].
  injection E as <-. split; [done|apply filled_refl].
Qed.

(** An empty window is filled. *)
Lemma fill_win_grows b s s' : n_core b s -> n_window s = [] -> n_last_pkt s = -1 ->
  fill_win isLAN dest Pid content malloc closed_tell s = Some s' -> b < n_pkt_cnt s'.
Proof.
  intros Hc Hw Hl E. destruct (fill_win_core _ _ _ Hc E) as [Hc' _].
  enough (n_window s' <> []).
  { destruct (Z.lt_ge_cases b (n_pkt_cnt s')) as [?|Hge]; [done|].
    pose proof (nc_seqs _ _ Hc') as Hq. rewrite seqZ_nil in Hq by lia. by destruct (n_window s'). }
  unfold fill_win in E. rewrite Hw, Hl in E. cbn [length] in E.
  assert (Hn : exists k, (Z.of_nat 0 <? W) && (-1 =? -1) = true /\ Z.to_nat (W - Z.of_nat 0) = S k).
  { unfold W_SIZE. destruct isLAN; by eexists. }
  destruct Hn as (k & E1 & E2). rewrite E1, E2 in E. cbn [fill] in E.
  destruct (nc_file _ _ Hc) as [(F1 & F2 & Hbe)|(F1 & _ & _)]; rewrite F1 in E; [|discriminate E].
  rewrite F2 in E. pose proof (nc_first _ _ Hc) as Hb.
  destruct (fetch_good (n_pkt_cnt s) (malloc (n_mallocs s)) ltac:(lia) Hbe) as (pkt & pd & pde & Ef & Hg & Hpd).
  rewrite Ef in E. cbn [mbind option_bind] in E. destruct (20 <=? strlen dest); [discriminate E|].
  set (p := pkt <| seq := n_pkt_cnt s |> <| pid := Pid |> <| d_fname := dest |>) in *.
  assert (Hcp : n_core b (put p pd pde s)) by by apply put_core.
  change (s <| n_mallocs ::= S |> <| n_window ::= _ |> <| n_pd := pd |> <| n_pd_end := pde |> <| n_pkt_cnt ::= Z.succ |>)
    with (put p pd pde s) in E.
  destruct (_ =? -1); [injection E as <-; cbn; by destruct (n_window s)|].
  apply (fill_core k b) in E as [_ Hf]; [|destruct Hcp as [G1 G2 G3 G4 G5]; by split].
  destruct (f_window _ _ Hf) as [l ->]. cbn. by destruct (n_window s).
Qed.

(** What the loop over the window does: everything in it is labelled, and sent where it
    was labelled before. *)
Record swept (w : list net_pkt) (s s' : ncp) : Prop := {
  sw_same : n_window s' = n_window s /\ n_pkt_cnt s' = n_pkt_cnt s /\ n_pd s' = n_pd s /\ n_pd_end s' = n_pd_end s /\
    n_blocked s' = n_blocked s /\ n_finished s' = n_finished s;
  sw_sent : forall p, p ∈ n_sent s' -> p ∈ n_sent s \/ p ∈ w;
  sw_kept : forall p, p ∈ n_sent s -> p ∈ n_sent s';
  sw_last : n_last_pkt s' = fold_left (fun l p => if is_end p then seq p else l) w (n_last_pkt s);
  sw_labels : label_kept s s';
  sw_labelled : forall p, p ∈ w -> n_umap s' !! seq p = Some Unacked;
  sw_resent : forall p, p ∈ w -> n_umap s !! seq p = Some Unacked -> p ∈ n_sent s' }.

Lemma send_packet_swept s p : swept [p] s (send_packet s p).
Proof.
  unfold send_packet. set (s1 := s <| n_total ::= _ |>).
  assert (H1 : n_umap s1 = n_umap s) by done. rewrite H1.
  destruct (n_umap s !! seq p) as [[]|] eqn:E; destruct (is_end p) eqn:Ee; split; cbn; rewrite ?Ee; try done;
    try (intros q; rewrite ?elem_of_app, ?list_elem_of_singleton; tauto);
    try (intros k Hk; cbn; rewrite ?lookup_insert; by case_decide);
    try (intros q ->%list_elem_of_singleton; cbn; rewrite ?lookup_insert_eq; congruence);
    intros q ->%list_elem_of_singleton _; apply elem_of_app; right; by apply list_elem_of_singleton.
Qed.

Lemma swept_trans w1 w2 s1 s2 s3 : swept w1 s1 s2 -> swept w2 s2 s3 -> swept (w1 ++ w2) s1 s3.
Proof.
  intros [H1 H2 H3 H4 H5 H6 H7] [G1 G2 G3 G4 G5 G6 G7]. split.
  - destruct_and!. split_and!; congruence.
  - intros p Hp. apply G2 in Hp as [Hp|Hp]; [apply H2 in Hp as [?|?]|]; rewrite ?elem_of_app; auto.
  - auto.
  - by rewrite G4, H4, fold_left_app.
  - intros k Hk. apply G5, H5, Hk.
  - intros p [Hp|Hp]%elem_of_app; [apply G5; auto|auto].
  - intros p [Hp|Hp]%elem_of_app Hu; [apply G3; auto|apply G7; [done|]]. apply H5, Hu.
Qed.

Lemma send_window_swept w s : swept w s (fold_left send_packet w s).
Proof.
  revert s. induction w as [|p w IH]; intros s; cbn.
  - split; cbn; try done; [auto|by intros k|by intros p ?%not_elem_of_nil..].
  - apply (swept_trans [p] w _ (send_packet s p)); [apply send_packet_swept|apply IH].
Qed.

(** The numbers of the window. *)
Lemma window_range b s p : n_core b s -> p ∈ n_window s -> b <= seq p < n_pkt_cnt s.
Proof.
  intros [Hb Hq _ _ _] Hp. apply (list_elem_of_fmap_2 seq) in Hp.
  change (seq <$> n_window s) with (map seq (n_window s)) in Hp. rewrite Hq, elem_of_seqZ in Hp. lia.
Qed.

Lemma window_good b s p : n_core b s -> p ∈ n_window s -> good p.
Proof. intros [_ _ Hw _ _] Hp. rewrite Forall_forall in Hw. auto. Qed.

Lemma window_first b s : n_core b s -> b < n_pkt_cnt s -> exists p w, n_window s = p :: w /\ seq p = b.
Proof.
  intros Hc Hb. pose proof (nc_seqs _ _ Hc) as Hq. rewrite seqZ_cons in Hq by lia.
  destruct (n_window s) as [|p w]; [done|]. injection Hq as Hp _. eauto.
Qed.

Lemma window_last b s : n_core b s -> b < n_pkt_cnt s -> exists p w, n_window s = w ++ [p] /\ seq p = n_pkt_cnt s - 1.
Proof.
  intros Hc Hb. pose proof (nc_seqs _ _ Hc) as Hq.
  replace (n_pkt_cnt s - b) with ((n_pkt_cnt s - 1 - b) + 1) in Hq by lia.
  rewrite seqZ_app in Hq by lia. destruct (n_window s) as [|p w _] using rev_ind; cbn in Hq.
  { symmetry in Hq. by apply app_nil in Hq as [_ Hq]. }
  rewrite map_app in Hq. apply app_inj_tail in Hq as [_ Hq]. exists p, w. split; [done|]. cbn in Hq. lia.
Qed.

Lemma window_empty b s : n_core b s -> n_pkt_cnt s <= b -> n_window s = [].
Proof.
  intros Hc Hb. pose proof (nc_seqs _ _ Hc) as Hq. rewrite seqZ_nil in Hq by lia. by destruct (n_window s).
Qed.

Lemma core_unique b b' s : n_core b s -> n_core b' s -> b = b'.
Proof.
  intros Hc Hc'. pose proof (f_equal length (nc_seqs _ _ Hc)) as H1. rewrite (nc_seqs _ _ Hc'), !length_seqZ in H1.
  pose proof (nc_first _ _ Hc). pose proof (nc_first _ _ Hc'). lia.
Qed.

(** The last packet is the only one that is marked as the end. *)
Lemma window_end b s p : n_core b s -> p ∈ n_window s ->
  is_end p = match n_pd s with Some _ => false | None => seq p =? n_pkt_cnt s - 1 end.
Proof.
  intros Hc Hp. pose proof (window_good _ _ _ Hc Hp) as Hg. rewrite (g_end _ Hg).
  pose proof (window_range _ _ _ Hc Hp) as Hr. pose proof (nc_first _ _ Hc) as Hb.
  pose proof (g_begin _ Hg) as H1. unfold PKT_DT_SIZE in H1 |- *.
  destruct (nc_file _ _ Hc) as [(-> & _ & Hf)|(-> & ? & ? & ?)]; unfold PKT_DT_SIZE in *.
  - apply Z.leb_gt. lia.
  - destruct (Z.eqb_spec (seq p) (n_pkt_cnt s - 1)) as [->|]; [by apply Z.leb_le|apply Z.leb_gt; lia].
Qed.

Lemma fold_no_end w l : (forall p, p ∈ w -> is_end p = false) ->
  fold_left (fun l p => if is_end p then seq p else l) w l = l.
Proof.
  revert l. induction w as [|p w IH]; intros l H; cbn; [done|]. rewrite H by by left.
  apply IH. intros q Hq. apply H. by right.
Qed.

(** After the loop over the window the number of the last packet is known. *)
Lemma swept_last b s : n_core b s ->
  n_last_pkt (fold_left send_packet (n_window s) s) =
    match n_pd s with
    | Some _ => n_last_pkt s
    | None => if b <? n_pkt_cnt s then n_pkt_cnt s - 1 else n_last_pkt s
    end.
Proof.
  intros Hc. rewrite (sw_last _ _ _ (send_window_swept _ _)). destruct (n_pd s) eqn:Ep.
  - apply fold_no_end. intros p Hp. rewrite (window_end _ _ _ Hc Hp). by rewrite Ep.
  - destruct (Z.ltb_spec b (n_pkt_cnt s)) as [Hb|Hb].
    + destruct (window_last _ _ Hc Hb) as (p & w & Hw & Hp). rewrite Hw, fold_left_app. cbn.
      rewrite (window_end _ _ p Hc), Ep; [|rewrite Hw; apply elem_of_app; right; by left].
      by rewrite Hp, Z.eqb_refl.
    + by rewrite (window_empty _ _ Hc Hb).
Qed.

Lemma swept_core b s : n_core b s -> n_core b (fold_left send_packet (n_window s) s).
Proof.
  intros Hc. destruct (send_window_swept (n_window s) s) as [(E1 & E2 & E3 & E4 & _) H2 _ _ _ _ _].
  pose proof Hc as [Hb Hq Hw Hs Hf]. split; rewrite ?E1, ?E2, ?E3, ?E4; try done.
  rewrite Forall_forall in Hs |- *. intros p [Hp|Hp]%H2; [auto|].
  split; [by eapply window_good|]. by apply (window_range _ _ _ Hc).
Qed.

Definition n_inv (b : Z) (s : ncp) : Prop := n_core b s /\ n_last_known s.

Lemma filled_cnt b s s' : n_core b s -> n_core b s' -> filled s s' -> n_pkt_cnt s <= n_pkt_cnt s'.
Proof.
  intros Hc Hc' Hf. destruct (f_window _ _ Hf) as [l El]. apply (f_equal (fun w => length (map seq w))) in El.
  rewrite map_app, length_app, (nc_seqs _ _ Hc), (nc_seqs _ _ Hc'), !length_seqZ in El.
  pose proof (nc_first _ _ Hc). pose proof (nc_first _ _ Hc'). lia.
Qed.

(** What the protocol does not look at may differ. *)
Record same (s s' : ncp) : Prop := {
  e_window : n_window s' = n_window s;
  e_umap : n_umap s' = n_umap s;
  e_last : n_last_pkt s' = n_last_pkt s;
  e_cnt : n_pkt_cnt s' = n_pkt_cnt s;
  e_pd : n_pd s' = n_pd s;
  e_pd_end : n_pd_end s' = n_pd_end s;
  e_blocked : n_blocked s' = n_blocked s;
  e_sent : n_sent s' = n_sent s }.

Lemma same_core b s s' : same s s' -> n_core b s -> n_core b s'.
Proof. intros [E1 E2 E3 E4 E5 E6 E7 E8] [H1 H2 H3 H4 H5]. split; by rewrite ?E1, ?E4, ?E5, ?E6, ?E8. Qed.

Lemma same_known s s' : same s s' -> n_last_known s -> n_last_known s'.
Proof. intros [E1 E2 E3 E4 E5 E6 E7 E8] H. unfold n_last_known in *. by rewrite E3, E4, E5. Qed.

Lemma same_inv b s s' : same s s' -> n_inv b s -> n_inv b s'.
Proof. intros E [H1 H2]. split; [by eapply same_core|by eapply same_known]. Qed.

Lemma n_progress_same now s s' : n_progress now s = Some s' -> same s s' /\ n_finished s' = n_finished s.
Proof.
  unfold n_progress. destruct (d_le _ _); [|by intros [= <-]].
  destruct (print_statistics _ _ _); [|done]. by intros [= <-].
Qed.

(** A timeout: the window is filled and swept. *)
Lemma timeout_inv now b s s' :
  n_inv b s -> on_timeout isLAN dest Pid content malloc closed_tell now s = Some s' ->
  exists s1, n_core b s1 /\ filled s s1 /\ s' = fold_left send_packet (n_window s1) s1 /\ n_inv b s' /\
    n_pkt_cnt s <= n_pkt_cnt s' /\ ((n_pd s = None -> b < n_pkt_cnt s) -> b < n_pkt_cnt s').
Proof.
  intros [Hc Hl] E. unfold on_timeout in E.
  set (s0 := if n_start_trans s then s else _) in E.
  assert (E0 : same s s0 /\ n_finished s0 = n_finished s) by (unfold s0; by destruct (n_start_trans s)).
  destruct E0 as [E0 Ef]. pose proof (same_core _ _ _ E0 Hc) as Hc0.
  destruct (fill_win _ _ _ _ _ _ s0) as [s1|] eqn:E1; [|discriminate E]. injection E as <-.
  destruct (fill_win_core _ _ _ Hc0 E1) as [Hc1 Hf]. exists s1. split; [done|].
  assert (Hf' : filled s s1).
  { destruct E0 as [G1 G2 G3 G4 G5 G6 G7 G8], Hf as [[l F1] F2 F3 F4 F5 F6]. split; try congruence; [exists l; congruence|].
    intros k Hk. apply F6. by rewrite G2. }
  split; [done|]. split; [done|]. split.
  - split; [by apply swept_core|]. destruct (send_window_swept (n_window s1) s1) as [(_ & E2 & E3 & _) _ _ _ _ _ _].
    unfold n_last_known in *. rewrite E2, E3, (swept_last b) by done. rewrite (f_last _ _ Hf').
    destruct (n_pd s1) eqn:Ep1.
    + destruct (n_pd s) eqn:Ep; [done|exfalso].
      (* a closed file is not opened again *)
      pose proof (filled_cnt b _ _ Hc Hc1 Hf') as Hle.
      destruct (nc_file _ _ Hc) as [(? & _)|(_ & ? & ? & _)]; [congruence|].
      destruct (nc_file _ _ Hc1) as [(_ & _ & ?)|(? & _)]; [|congruence]. unfold PKT_DT_SIZE in *. lia.
    + destruct (Z.ltb_spec b (n_pkt_cnt s1)) as [Hb|Hb]; [done|].
      pose proof (filled_cnt b _ _ Hc Hc1 Hf') as Hle. pose proof (nc_first _ _ Hc) as Hb1.
      destruct (n_pd s) eqn:Ep; [|by rewrite Hl; lia].
      destruct (nc_file _ _ Hc) as [(_ & _ & ?)|(? & _)]; [|congruence].
      destruct (nc_file _ _ Hc1) as [(? & _ & _)|(_ & ? & ? & _)]; [congruence|]. unfold PKT_DT_SIZE in *. lia.
  - rewrite (proj1 (proj2 (sw_same _ _ _ (send_window_swept (n_window s1) s1)))).
    pose proof (filled_cnt b _ _ Hc Hc1 Hf') as Hle. split; [done|]. intros Halive.
    destruct (Z.lt_ge_cases b (n_pkt_cnt s)) as [?|Hge]; [lia|].
    apply (fill_win_grows b s0 s1); try done.
    + rewrite (e_window _ _ E0). by eapply window_empty.
    + rewrite (e_last _ _ E0). unfold n_last_known in Hl. destruct (n_pd s); [done|]. specialize (Halive eq_refl). lia.
Qed.

(** An acknowledgement of [c] takes out the packets up to [c]. *)
Lemma dequeue_core ack w : forall b s, n_core b s -> n_window s = w ->
  exists b', n_core b' (dequeue ack w s) /\ b <= b' /\ b' <= Z.max b (cum_seq ack + 1) /\
    (cum_seq ack < b' \/ n_window (dequeue ack w s) = []) /\
    n_last_pkt (dequeue ack w s) = n_last_pkt s /\ n_pkt_cnt (dequeue ack w s) = n_pkt_cnt s /\
    n_pd (dequeue ack w s) = n_pd s /\ n_blocked (dequeue ack w s) = n_blocked s /\
    n_sent (dequeue ack w s) = n_sent s /\ n_finished (dequeue ack w s) = n_finished s.
Proof.
  induction w as [|p w IH]; intros b s Hc Hw; cbn [dequeue].
  { exists b. split_and!; try done; [lia|by right]. }
  assert (Hb : b < n_pkt_cnt s).
  { destruct (Z.lt_ge_cases b (n_pkt_cnt s)); [done|]. by rewrite (window_empty _ _ Hc) in Hw. }
  destruct (window_first _ _ Hc Hb) as (p' & w' & Hw' & Hp). rewrite Hw in Hw'. injection Hw' as <- <-.
  destruct (Z.leb_spec (seq p) (cum_seq ack)) as [Hle|Hle].
  - set (s1 := s <| n_window := w |> <| n_success ::= _ |> <| n_umap ::= _ |>).
    assert (Hc1 : n_core (b + 1) s1).
    { pose proof Hc as [H1 H2 H3 H4 H5]. split; cbn; try done; [lia| |].
      - rewrite Hw, seqZ_cons in H2 by lia. injection H2 as _ H2. rewrite H2. f_equal; lia.
      - rewrite Hw in H3. by apply Forall_cons in H3 as [_ H3]. }
    destruct (IH (b + 1) s1 Hc1 eq_refl) as (b' & G1 & G2 & G3 & G4 & G5).
    exists b'. split_and!; try tauto; lia.
  - exists b. split_and!; try done; [lia|left; lia].
Qed.

Lemma heard_block_same a s : 0 <= cum_seq a ->
  let s' := heard_block a s in
  n_window s' = n_window s /\ n_umap s' = n_umap s /\ n_last_pkt s' = n_last_pkt s /\ n_pkt_cnt s' = n_pkt_cnt s /\
  n_pd s' = n_pd s /\ n_pd_end s' = n_pd_end s /\ n_blocked s' = false /\ n_sent s' = n_sent s /\
  n_finished s' = n_finished s.
Proof.
  intros Ha. unfold heard_block. destruct (Z.ltb_spec (cum_seq a) 0); [lia|].
  destruct (n_blocked s) eqn:E; cbn; by split_and!.
Qed.

(** Only an acknowledgement that is not a request takes packets out of the window, and
    only the one of the last packet ends the program. *)
Lemma ack_inv now later a b n n' :
  n_inv b n -> 0 <= cum_seq a -> n_finished n = false -> turn now later (Ack a) n = Some n' ->
  exists b', n_inv b' n' /\ b <= b' /\ b' <= (if is_nack a then b else Z.max b (cum_seq a + 1)) /\
    n_pkt_cnt n' = n_pkt_cnt n /\ n_blocked n' = false /\ n_pd n' = n_pd n /\
    (is_nack a = false -> cum_seq a < n_pkt_cnt n -> cum_seq a < b') /\
    (n_finished n' = true -> is_nack a = false /\ n_pd n' = None /\ n_pkt_cnt n' - 1 <= cum_seq a) /\
    (n_finished n' = false -> is_nack a = false -> n_pd n' = None -> cum_seq a < n_pkt_cnt n' - 1).
Proof.
  intros [Hc Hl] Ha Hf E. unfold ncp_turn in E.
  destruct (on_ack now a n) as [n1|] eqn:E1; [|discriminate E]. cbn [mbind option_bind] in E.
  enough (H : exists b', n_inv b' n1 /\ b <= b' /\ b' <= (if is_nack a then b else Z.max b (cum_seq a + 1)) /\
    n_pkt_cnt n1 = n_pkt_cnt n /\ n_blocked n1 = false /\ n_pd n1 = n_pd n /\
    (is_nack a = false -> cum_seq a < n_pkt_cnt n -> cum_seq a < b') /\
    (n_finished n1 = true -> is_nack a = false /\ n_pd n1 = None /\ n_pkt_cnt n1 - 1 <= cum_seq a) /\
    (n_finished n1 = false -> is_nack a = false -> n_pd n1 = None -> cum_seq a < n_pkt_cnt n1 - 1)).
  { destruct (n_finished n1) eqn:E2; [by injection E as <-; rewrite E2|].
    apply n_progress_same in E as [Es Ef]. destruct H as (b' & H1 & H2 & H3 & H4 & H5 & H6 & H7 & _ & H8).
    exists b'. destruct Es as [G1 G2 G3 G4 G5 G6 G7 G8]. split; [by eapply same_inv|].
    rewrite Ef, E2, G4, G5, G7. split_and!; try done. }
  clear E. unfold on_ack in E1. destruct (heard_block_same a n Ha) as (G1 & G2 & G3 & G4 & G5 & G6 & G7 & G8 & G9).
  set (n0 := heard_block a n) in *.
  assert (Hc0 : n_core b n0).
  { pose proof Hc as [H1 H2 H3 H4 H5]. split; by rewrite ?G1, ?G4, ?G5, ?G6, ?G8. }
  destruct (is_nack a) eqn:En; cbn [negb] in E1.
  - destruct (List.find _ _) as [p|] eqn:Ep; [|discriminate E1]. injection E1 as <-.
    apply find_some in Ep as [Hp _]. apply list_elem_of_In in Hp. exists b. split.
    + split; [|by unfold n_last_known in *; cbn; rewrite G3, G4, G5].
      pose proof Hc0 as [H1 H2 H3 H4 H5]. split; cbn; try done. apply Forall_app. split; [done|].
      constructor; [|done]. split; [by eapply window_good|]. by apply (window_range _ _ _ Hc0).
    + cbn. split_and!; try congruence; try lia.
  - destruct (dequeue_core a (n_window n0) b n0 Hc0 eq_refl) as (b' & K1 & K2 & K3 & K0 & K4 & K5 & K6 & K7 & K8 & K9).
    set (n2 := dequeue a (n_window n0) n0) in *.
    assert (Hl2 : n_last_known n2) by (unfold n_last_known in *; by rewrite K4, K5, K6, G3, G4, G5).
    assert (Kb : cum_seq a < n_pkt_cnt n -> cum_seq a < b').
    { intros Hlt. destruct K0 as [?|K0]; [done|]. destruct (Z.lt_ge_cases b' (n_pkt_cnt n2)) as [Hlt'|]; [|lia].
      destruct (window_first _ _ K1 Hlt') as (p & w & K0' & _). by rewrite K0 in K0'. }
    exists b'. destruct (negb (n_last_pkt n2 =? -1) && (n_last_pkt n2 <=? cum_seq a)) eqn:Ee.
    + destruct (print_statistics_finish _ _ _ _); [|discriminate E1]. injection E1 as <-.
      apply andb_true_iff in Ee as [Ee1 Ee2]. apply negb_true_iff, Z.eqb_neq in Ee1. apply Z.leb_le in Ee2.
      assert (Hpd : n_pd n2 = None /\ n_last_pkt n2 = n_pkt_cnt n2 - 1).
      { unfold n_last_known in Hl2. by destruct (n_pd n2). }
      destruct Hpd as [Hpd Hpl]. split; [split; [|done]|].
      * pose proof K1 as [H1 H2 H3 H4 H5]. by split.
      * cbn. split_and!; try congruence; try lia. intros _. split_and!; [done..|lia].
    + injection E1 as <-. split; [done|]. split_and!; try congruence; try lia.
      intros _ _ Hpd. unfold n_last_known in Hl2. rewrite Hpd in Hl2. apply andb_false_iff in Ee as [Ee|Ee].
      * apply negb_false_iff, Z.eqb_eq in Ee. pose proof (nc_file _ _ K1) as [(? & _)|(_ & ? & _)]; [congruence|lia].
      * apply Z.leb_gt in Ee. lia.
Qed.

(** ** The receiver *)

Definition answers (k : Z) (x : addr * ack_pkt) : Prop :=
  fst x = A /\ 0 <= cum_seq (snd x) /\ (is_nack (snd x) = false -> cum_seq (snd x) <= k).

(** A transfer that has begun: the file holds what the first packets carry, and is
    closed behind the last of them. *)
Record running (r : rcv) : Prop := {
  ru_queue : r_sender_q r = [A];
  ru_start : r_rcv_start r = true;
  ru_cum : 0 <= r_cum_seq r;
  ru_file : r_files r !! dest = Some (part (r_cum_seq r));
  ru_done : (r_done r = false /\ r_pd r = Some dest /\ (r_cum_seq r = 0 \/ PKT_DT_SIZE * r_cum_seq r < len)) \/
            (r_done r = true /\ r_pd r = None /\ 1 <= r_cum_seq r /\ len <= PKT_DT_SIZE * r_cum_seq r) }.

Record waiting (r : rcv) : Prop := {
  wa_queue : r_sender_q r = [];
  wa_start : r_rcv_start r = false;
  wa_cum : r_cum_seq r = 0;
  wa_done : r_done r = false;
  wa_pd : r_pd r = None }.

Definition r_inv (r : rcv) : Prop :=
  (waiting r \/ running r) /\ Forall (answers (r_cum_seq r)) (r_sent r).

(** What the last part of a turn may change: the statistics, and an open file is closed
    when the transfer is done. *)
Lemma after_packet_same now s s' : after_packet now s = Some s' ->
  r_sender_q s' = r_sender_q s /\ r_rcv_start s' = r_rcv_start s /\ r_cum_seq s' = r_cum_seq s /\
  r_files s' = r_files s /\ r_done s' = r_done s /\ r_window s' = r_window s /\ r_sent s' = r_sent s /\
  r_pd s' = if r_done s then None else r_pd s.
Proof.
  unfold after_packet. destruct (r_done s) eqn:Ed; cbn [negb].
  - unfold is_open. destruct (r_pd s) eqn:Ep; [|intros [= <-]; by rewrite Ep, Ed].
    destruct (print_statistics_finish _ _ _ _); [|done]. intros [= <-]. cbn. by rewrite Ed.
  - destruct (d_le _ _); [|intros [= <-]; by rewrite Ed].
    destruct (print_statistics _ _ _); [|done]. intros [= <-]. cbn. by rewrite Ed.
Qed.

Lemma gaps_nonneg w : forall lo, 0 <= lo -> Forall (Z.le 0) w -> Forall (Z.le 0) (gaps lo w).
Proof.
  induction w as [|hi w IH]; intros lo Hlo Hw; cbn; [constructor|].
  apply Forall_cons in Hw as [Hhi Hw]. apply Forall_app. split; [|auto].
  apply Forall_forall. intros x (k & <- & _)%list_elem_of_In%in_map_iff. lia.
Qed.

Lemma send_nacks to (f : Z -> ack_pkt) l s :
  fold_left (fun s i => r_send to (f i) s) l s = s <| r_sent ::= fun old => old ++ map (fun i => (to, f i)) l |>.
Proof.
  revert s. induction l as [|i l IH]; intros s; cbn; [destruct s; unfold set; cbn; by rewrite app_nil_r|].
  rewrite IH. unfold r_send, set. cbn. by rewrite <- app_assoc.
Qed.

Context (Hopen : can_open dest = true).

Lemma answers_mono k k' l : k <= k' -> Forall (answers k) l -> Forall (answers k') l.
Proof. intros Hk H. eapply Forall_impl; [exact H|]. intros x (? & ? & Ha). split_and!; try done. intros Hn. specialize (Ha Hn). lia. Qed.

#[local] Opaque handle_receive.

(** A packet of the sender finds the transfer begun. *)
Lemma packet_begins clock p u r :
  good p -> r_inv r ->
  exists s, running s /\ r_mess_buf s = p /\ r_sent s = r_sent r /\ r_cum_seq s = r_cum_seq r /\ r_window s = r_window r /\
    r_trans_start s = (if r_rcv_start r then r_trans_start r else mk_timeval (tv_sec (clock 1%nat)) (tv_usec (r_trans_start r))) /\
    packet_in clock sizeof_net_pkt A p u r = handle_receive (clock 2%nat) u s.
Proof.
  intros Hg [Hr _]. unfold on_packet. change (sizeof_net_pkt =? 0) with false. cbv iota beta zeta.
  set (s1 := r <| r_mess_buf := p |> <| r_last_recv_time := _ |> <| r_total ::= _ |>). destruct Hr as [Hw|Hr].
  - assert (Eq : queue_sender A s1 = (true, s1 <| r_sender_q := [A] |>)).
    { unfold queue_sender, s1, set. cbn. by rewrite (wa_queue _ Hw). }
    rewrite Eq. cbn [negb]. unfold begin_transfer. cbn.
    rewrite (wa_start _ Hw). unfold is_open. cbn. rewrite (wa_pd _ Hw).
    unfold open_file. rewrite (g_name _ Hg), Hopen. cbn.
    eexists. split; [|split; [|split; [|split; [|split; [|split; [|reflexivity]]]]]]; try done.
    split; cbn; try done.
    + rewrite (wa_cum _ Hw). lia.
    + rewrite (wa_cum _ Hw). apply lookup_insert_eq.
    + left. rewrite (wa_done _ Hw), (wa_cum _ Hw). auto.
  - assert (Eq : queue_sender A s1 = (true, s1)).
    { unfold queue_sender. cbn. rewrite (ru_queue _ Hr). cbn. by rewrite bool_decide_true. }
    rewrite Eq. cbn [negb]. unfold begin_transfer. cbn. rewrite (ru_start _ Hr).
    exists s1. split; [|split; [|split; [|split; [|split; [|split; [|reflexivity]]]]]]; try done.
    destruct Hr as [H1 H2 H3 H4 H5]. by split.
Qed.

#[local] Transparent handle_receive.

Lemma running_same s s' : running s ->
  r_sender_q s' = r_sender_q s /\ r_rcv_start s' = r_rcv_start s /\ r_cum_seq s' = r_cum_seq s /\
  r_files s' = r_files s /\ r_done s' = r_done s /\ r_pd s' = r_pd s -> running s'.
Proof. intros [H1 H2 H3 H4 H5] (E1 & E2 & E3 & E4 & E5 & E6). split; by rewrite ?E1, ?E2, ?E3, ?E4, ?E5, ?E6. Qed.

(** After the turn: the transfer has begun, and an open file was closed with the last packet. *)
Lemma after_packet_running now s s' :
  r_sender_q s = [A] -> r_rcv_start s = true -> 0 <= r_cum_seq s -> r_files s !! dest = Some (part (r_cum_seq s)) ->
  (r_done s = false /\ r_pd s = Some dest /\ (r_cum_seq s = 0 \/ PKT_DT_SIZE * r_cum_seq s < len)) \/
  (r_done s = true /\ 1 <= r_cum_seq s /\ len <= PKT_DT_SIZE * r_cum_seq s) ->
  after_packet now s = Some s' -> running s' /\ r_sent s' = r_sent s /\ r_cum_seq s' = r_cum_seq s.
Proof.
  intros H1 H2 H3 H4 H5 E. apply after_packet_same in E as (E1 & E2 & E3 & E4 & E5 & _ & E6 & E7).
  split; [|done]. split; rewrite ?E1, ?E2, ?E3, ?E4, ?E5, ?E7; try done.
  destruct H5 as [(-> & ? & ?)|(-> & ? & ?)]; [left|right]; auto.
Qed.

Lemma running_after now s s' : running s -> after_packet now s = Some s' ->
  running s' /\ r_sent s' = r_sent s /\ r_cum_seq s' = r_cum_seq s.
Proof.
  intros [H1 H2 H3 H4 H5]. apply after_packet_running; try done.
  destruct H5 as [?|(? & ? & ?)]; [by left|by right].
Qed.

(** The packet that is next: its data goes behind what the file holds. *)
Lemma on_next_spec u s s' : running s -> good (r_mess_buf s) -> seq (r_mess_buf s) = r_cum_seq s + 1 ->
  on_next A mess_buf u s = Some s' ->
  r_sender_q s' = [A] /\ r_rcv_start s' = true /\ r_cum_seq s' = r_cum_seq s + 1 /\
  r_files s' !! dest = Some (part (r_cum_seq s + 1)) /\
  ((r_done s' = false /\ r_pd s' = Some dest /\ PKT_DT_SIZE * r_cum_seq s' < len) \/
   (r_done s' = true /\ len <= PKT_DT_SIZE * r_cum_seq s')) /\
  r_sent s' = r_sent s ++ [(A, mk_ack_pkt (r_cum_seq s + 1) (dt_size (r_mess_buf s)) false)].
Proof.
  intros [R1 R2 R3 R4 R5] Hg Hs E. unfold on_next in E. cbn [deref] in E.
  pose proof (good_size _ Hg) as Hsize. pose proof (good_appends _ Hg) as Ha. rewrite Hs in Ha.
  replace (r_cum_seq s + 1 - 1) with (r_cum_seq s) in Ha by lia.
  assert (Hrun : r_done s = false /\ r_pd s = Some dest).
  { destruct R5 as [(? & ? & _)|(_ & _ & ? & ?)]; [done|]. destruct (g_begin _ Hg); unfold PKT_DT_SIZE in *; lia. }
  destruct Hrun as [Rd Rp].
  set (s1 := r_send A (mk_ack_pkt (seq (r_mess_buf s)) (dt_size (r_mess_buf s)) false)
    (if is_end (r_mess_buf s) then s <| r_cum_seq := _ |> <| r_done := true |> else s <| r_cum_seq := _ |>)
    <| r_success ::= _ |>) in E.
  assert (H1 : r_pd s1 = Some dest /\ r_files s1 = r_files s /\ r_sender_q s1 = [A] /\ r_rcv_start s1 = true /\
    r_cum_seq s1 = r_cum_seq s + 1 /\ r_done s1 = is_end (r_mess_buf s) /\ r_mess_buf s1 = r_mess_buf s /\
    r_sent s1 = r_sent s ++ [(A, mk_ack_pkt (r_cum_seq s + 1) (dt_size (r_mess_buf s)) false)]).
  { unfold s1. destruct (is_end (r_mess_buf s)); cbn; by rewrite ?Hs. }
  destruct H1 as (G1 & G2 & G3 & G4 & G5 & G6 & G7 & G8). clearbody s1.
  unfold write_data in E.
  replace ((dt_size (r_mess_buf s) <? 0) || (PKT_DT_SIZE <? dt_size (r_mess_buf s))) with false in E
    by (symmetry; apply orb_false_iff; split; apply Z.ltb_ge; lia).
  rewrite G1 in E. cbn [mbind option_bind] in E. set (s2 := s1 <| r_files ::= _ |>) in E.
  assert (H2 : exists p, unbuffer A mess_buf (mk_ack_pkt (seq (r_mess_buf s)) (dt_size (r_mess_buf s)) false)
                           (r_window s2) s2 = Some (p, s2)).
  { destruct (r_window s2) as [|[] w]; [by eexists|]. cbn [unbuffer deref]. cbn. rewrite G5, G7, Hs.
    replace (r_cum_seq s + 1 =? r_cum_seq s + 1 + 1) with false by (symmetry; apply Z.eqb_neq; lia). by eexists. }
  destruct H2 as [q H2]. rewrite H2 in E. injection E as <-. cbn.
  rewrite G5. split_and!; try done.
  - rewrite G2, lookup_insert_eq, R4. cbn. by rewrite Ha.
  - rewrite G6, (g_end _ Hg), Hs. destruct (Z.leb_spec len (PKT_DT_SIZE * (r_cum_seq s + 1))); [by right|by left].
Qed.

Lemma handle_inv now u s s' : running s -> good (r_mess_buf s) -> Forall (answers (r_cum_seq s)) (r_sent s) ->
  handle_receive now u s = Some s' ->
  running s' /\ Forall (answers (r_cum_seq s')) (r_sent s') /\
  r_cum_seq s <= r_cum_seq s' <= Z.max (r_cum_seq s) (seq (r_mess_buf s)) /\
  (seq (r_mess_buf s) <= r_cum_seq s -> exists a, (A, a) ∈ r_sent s' /\ cum_seq a = r_cum_seq s /\ is_nack a = false) /\
  (seq (r_mess_buf s) = r_cum_seq s + 1 -> r_cum_seq s' = r_cum_seq s + 1).
Proof.
  intros Hr Hg Ha E. pose proof (g_seq _ Hg) as H1. pose proof (ru_cum _ Hr) as H0. unfold handle_receive in E.
  rewrite (ru_queue _ Hr) in E. cbn [head mbind option_bind deref] in E.
  destruct (Z.leb_spec (seq (r_mess_buf s)) (r_cum_seq s)) as [Hle|Hgt].
  - cbn [on_old mbind option_bind] in E.
    apply (running_after now (r_send A (u <| cum_seq := r_cum_seq s |> <| is_nack := false |>) s)) in E as (R & E1 & E2).
    2: { eapply running_same; [exact Hr|]. done. }
    cbn in E1, E2. split; [done|]. rewrite E1, E2. split_and!; try lia.
    + apply Forall_app. split; [done|]. constructor; [|done]. split_and!; cbn; done.
    + intros _. exists (u <| cum_seq := r_cum_seq s |> <| is_nack := false |>). split; [|done].
      apply elem_of_app. right. by left.
  - destruct (Z.eqb_spec (seq (r_mess_buf s)) (r_cum_seq s + 1)) as [Heq|Hne].
    + destruct (on_next A mess_buf u s) as [s1|] eqn:E1; [|discriminate E]. cbn [mbind option_bind] in E.
      destruct (on_next_spec u s s1 Hr Hg Heq E1) as (G1 & G2 & G3 & G4 & G5 & G6).
      apply after_packet_running in E as (R & E2 & E3); try done; [|lia|by rewrite G3|].
      2: { destruct G5 as [(? & ? & ?)|(? & ?)]; [left|right]; split_and!; try done; [by right|lia]. }
      split; [done|]. rewrite E2, E3, G3, G6. split_and!; try lia.
      apply Forall_app. split; [eapply answers_mono; [|exact Ha]; lia|]. constructor; [|done].
      split_and!; cbn; try done; lia.
    + assert (Hsame : forall s1, running s1 -> Forall (answers (r_cum_seq s)) (r_sent s1) -> r_cum_seq s1 = r_cum_seq s ->
        (Some s1 = Some s' \/ after_packet now s1 = Some s') ->
        running s' /\ Forall (answers (r_cum_seq s')) (r_sent s') /\ r_cum_seq s' = r_cum_seq s).
      { intros s1 R1 A1 C1 [[= <-]|E1]; [by rewrite C1|].
        apply running_after in E1 as (R & E2 & E3); [|done]. split; [done|]. by rewrite E2, E3, C1. }
      assert (Hend : running s' /\ Forall (answers (r_cum_seq s')) (r_sent s') /\ r_cum_seq s' = r_cum_seq s).
      { destruct (_ <? _); [|by apply (Hsame s); auto]. unfold on_future in E. cbn [deref] in E.
        destruct (existsb _ _); [by apply (Hsame s); auto|]. rewrite (send_nacks A (fun i => mk_ack_pkt i _ true)) in E.
        match type of E with after_packet _ ?x = _ => apply (Hsame x) end; [| |done|by right].
        - eapply running_same; [exact Hr|]. done.
        - cbn. apply Forall_app. split; [done|]. apply Forall_forall.
          intros x (i & <- & Hi)%list_elem_of_In%in_map_iff. split_and!; cbn; try done.
          apply list_elem_of_In in Hi. revert i Hi. apply Forall_forall, gaps_nonneg; [done|].
          apply Forall_forall. intros y ([] & <- & _)%list_elem_of_In%in_map_iff. cbn. lia. }
      destruct Hend as (R & A1 & Ec). split; [done|]. split; [done|]. rewrite Ec. split_and!; lia.
Qed.

Lemma packet_inv clock p u r r' : good p -> r_inv r -> packet_in clock sizeof_net_pkt A p u r = Some r' ->
  r_inv r' /\ running r' /\ r_cum_seq r <= r_cum_seq r' <= Z.max (r_cum_seq r) (seq p) /\
  (seq p <= r_cum_seq r -> exists a, (A, a) ∈ r_sent r' /\ cum_seq a = r_cum_seq r /\ is_nack a = false) /\
  (seq p = r_cum_seq r + 1 -> r_cum_seq r' = r_cum_seq r + 1).
Proof.
  intros Hg Hr E. destruct (packet_begins clock p u r Hg Hr) as (s & R & Em & Es & Ec & _ & _ & E1). rewrite E1 in E. clear E1. rename E into E1.
  destruct Hr as [_ Ha]. rewrite <- Em in Hg. rewrite <- Ec, <- Es in Ha.
  destruct (handle_inv _ _ _ _ R Hg Ha E1) as (R' & A' & H1 & H2 & H3). rewrite Em in *. rewrite Ec in *.
  split; [split; [by right|done]|]. auto.
Qed.

Lemma idle_inv now u r r' : r_inv r -> r_done r = false -> on_idle now u r = Some r' ->
  r_inv r' /\ r_cum_seq r' = r_cum_seq r.
Proof.
  intros [Hr Ha] Hd E. unfold on_idle in E. set (r1 := r_say _ r) in E.
  destruct (if 0 <? _ then _ else _) as [r2|] eqn:E2; [|discriminate E]. cbn [mbind option_bind] in E.
  assert (H2 : r_sender_q r2 = r_sender_q r /\ r_rcv_start r2 = r_rcv_start r /\ r_cum_seq r2 = r_cum_seq r /\
    r_files r2 = r_files r /\ r_done r2 = r_done r /\ r_pd r2 = r_pd r /\ r_sent r2 = r_sent r).
  { destruct (0 <? _); [|by injection E2 as <-]. destruct (printf_text _ _); [|discriminate E2]. by injection E2 as <-. }
  clear E2. destruct H2 as (G1 & G2 & G3 & G4 & G5 & G6 & G7). rewrite G5, Hd in E.
  assert (Hr2 : waiting r2 \/ running r2).
  { destruct Hr as [[]|Hr]; [left|right]; [split; congruence|]. by eapply running_same. }
  destruct (r_sender_q r2) as [|a q] eqn:Eq; injection E as <-.
  - split; [|done]. split; [done|]. by rewrite G3, G7.
  - destruct Hr2 as [Hw|Hr2]; [by rewrite (wa_queue _ Hw) in Eq|]. rewrite (ru_queue _ Hr2) in Eq. injection Eq as <- <-.
    split; [|done]. split.
    + right. by eapply running_same.
    + cbn. rewrite G3, G7. apply Forall_app. split; [done|]. constructor; [|done].
      pose proof (ru_cum _ Hr2) as H0. rewrite G3 in H0. done.
Qed.

(** ** Both *)

Record sys_inv (b : Z) (s : system) : Prop := {
  si_ncp : n_inv b (sys_ncp s);
  si_rcv : r_inv (sys_rcv s);
  si_acked : b - 1 <= r_cum_seq (sys_rcv s) < n_pkt_cnt (sys_ncp s);
  si_finished : n_finished (sys_ncp s) = true ->
    n_pd (sys_ncp s) = None /\ n_pkt_cnt (sys_ncp s) - 1 <= r_cum_seq (sys_rcv s);
  si_alive : n_finished (sys_ncp s) = false -> n_pd (sys_ncp s) = None -> b < n_pkt_cnt (sys_ncp s) }.

Lemma start_inv blocked buffer files : sys_inv 1 (start blocked buffer files).
Proof.
  split; cbn; try done; [|].
  - split; [|done]. split; cbn; try done; [constructor..|]. left. split_and!; try done. by left.
  - split; [|constructor]. left. by split.
Qed.

Lemma sent_good b s p : sys_inv b s -> p ∈ n_sent (sys_ncp s) -> good p /\ seq p < n_pkt_cnt (sys_ncp s).
Proof. intros [[Hc _] _ _ _] Hp. pose proof (nc_sent _ _ Hc) as H. rewrite Forall_forall in H. auto. Qed.

Lemma step_inv b s s' : sys_inv b s -> step s s' -> exists b', sys_inv b' s' /\ b <= b'.
Proof.
  intros Hi Hstep. pose proof Hi as [Hn Hr Hb Hf Hal]. destruct Hstep as
    [now later n n' r Hnf E|now later a n n' r Hnf Ha E|clock p u n r r' Hp E|now u n r r' Hd E]; cbn in *.
  - unfold ncp_turn in E. destruct (n_blocked n) eqn:Eb; [injection E as <-; by exists b|].
    destruct (on_timeout _ _ _ _ _ _ _ _) as [n1|] eqn:E1; [|discriminate E]. cbn [mbind option_bind] in E.
    destruct (timeout_inv _ _ _ _ Hn E1) as (s1 & _ & Hf1 & E2 & Hi1 & Hcnt & Hb1).
    apply n_progress_same in E as [Es Ef]. exists b. split; [|lia]. split; cbn; try done.
    + by eapply same_inv.
    + rewrite (e_cnt _ _ Es). lia.
    + rewrite Ef, E2. destruct (send_window_swept (n_window s1) s1) as [(_ & _ & _ & _ & _ & ->) _ _ _ _ _ _].
      by rewrite (f_finished _ _ Hf1), Hnf.
    + intros _ _. rewrite (e_cnt _ _ Es). auto.
  - destruct Hr as [Hr Has]. rewrite Forall_forall in Has. destruct (Has _ Ha) as (_ & Ha0 & Hak). cbn in Ha0, Hak.
    destruct (ack_inv _ _ _ _ _ _ Hn Ha0 Hnf E) as (b' & H1 & H2 & H3 & H4 & H5 & H6 & H7 & H8 & H9).
    exists b'. split; [|done]. split; cbn; try done.
    + split; [done|]. by apply Forall_forall.
    + rewrite H4. destruct (is_nack a); [lia|]. specialize (Hak eq_refl). lia.
    + intros Hfin. destruct (H8 Hfin) as (En & Ep & Hc). split; [done|]. specialize (Hak En). lia.
    + intros Hfin Hpd. rewrite H6 in Hpd. specialize (Hal Hnf Hpd). rewrite <- H6 in Hpd.
      specialize (H9 Hfin). destruct (is_nack a); [lia|]. specialize (H9 eq_refl Hpd). lia.
  - destruct (sent_good _ _ _ Hi Hp) as [Hg Hlt]. cbn in Hlt.
    destruct (packet_inv _ _ _ _ _ Hg Hr E) as (H1 & _ & H2 & _). exists b. split; [|lia].
    split; cbn; try done; [lia|]. intros Hfin. destruct (Hf Hfin). split; [done|lia].
  - destruct (idle_inv _ _ _ _ Hr Hd E) as [H1 H2]. exists b. split; [|lia]. split; cbn; rewrite ?H2; done.
Qed.

Lemma reachable_inv s0 b s : sys_inv b s0 -> rtc step s0 s -> exists b', sys_inv b' s /\ b <= b'.
Proof.
  intros H0 H. revert b H0. induction H as [s|s1 s2 s3 H1 H2 IH]; intros b H0; [exists b; split; [done|lia]|].
  destruct (step_inv _ _ _ H0 H1) as (b2 & Hb2 & Hle). destruct (IH _ Hb2) as (b3 & Hb3 & Hle3).
  exists b3. split; [done|lia].
Qed.

(** The file of the receiver is the beginning of the file of the sender; it is the whole
    file, and closed, when the sender is done. *)
Lemma safe blocked buffer files s : rtc step (start blocked buffer files) s ->
  (r_rcv_start (sys_rcv s) = true -> r_files (sys_rcv s) !! dest = Some (part (r_cum_seq (sys_rcv s)))) /\
  (n_finished (sys_ncp s) = true -> r_files (sys_rcv s) !! dest = Some content /\ r_pd (sys_rcv s) = None).
Proof.
  intros H. destruct (reachable_inv _ _ _ (start_inv blocked buffer files) H) as (b & [Hn [Hr _] Hb Hf _] & _).
  split.
  - destruct Hr as [Hw|Hr]; [by rewrite (wa_start _ Hw)|]. intros _. apply (ru_file _ Hr).
  - intros Hfin. destruct (Hf Hfin) as [Hpd Hc]. destruct Hn as [Hn _].
    destruct (nc_file _ _ Hn) as [(? & _)|(_ & H2 & Hlen & _)]; [congruence|].
    destruct Hr as [Hw|Hr]; [rewrite (wa_cum _ Hw) in Hc; lia|].
    assert (Hall : len <= PKT_DT_SIZE * r_cum_seq (sys_rcv s)) by (unfold PKT_DT_SIZE in *; lia).
    rewrite (ru_file _ Hr), part_all by done. split; [done|].
    destruct (ru_done _ Hr) as [(_ & _ & ?)|(_ & ? & _)]; [unfold PKT_DT_SIZE in *; lia|done].
Qed.

(** ** The turns that are needed are defined *)

Lemma statistics_defined d x y : exists t, print_statistics d x y = Some t.
Proof. apply printf_fits; [by repeat constructor|by vm_compute]. Qed.

Lemma finish_defined t x y b : exists s, print_statistics_finish (timersub t t) x y b = Some s.
Proof.
  unfold print_statistics_finish, timersub. rewrite !Z.sub_diag.
  change (d_trunc (seconds (if 0 <? 0 then _ else mk_timeval 0 0))) with (Some 0). cbn [mbind option_bind].
  match goal with |- context [printf_text ?f ?a] => destruct (printf_fits f a) as [u ->] end;
    [by repeat constructor|by vm_compute|]. destruct b; [|eauto].
  match goal with |- context [printf_text ?f ?a] => destruct (printf_fits f a) as [v Ev] end;
    [by repeat constructor|by vm_compute|].
  eexists. cbn [mbind option_bind]. rewrite Ev. reflexivity.
Qed.

Lemma progress_defined now n : exists n', n_progress now n = Some n'.
Proof.
  unfold n_progress. destruct (d_le _ _); [|eauto]. cbv zeta.
  match goal with |- context [print_statistics ?d ?x ?y] => destruct (statistics_defined d x y) as [t ->] end. eauto.
Qed.

Lemma after_packet_defined s : exists s', after_packet (r_trans_start s) s = Some s'.
Proof.
  unfold after_packet. destruct (negb _).
  - destruct (d_le _ _); [|eauto]. cbv zeta.
    match goal with |- context [print_statistics ?d ?x ?y] => destruct (statistics_defined d x y) as [t ->] end. eauto.
  - destruct (is_open s); [|eauto]. destruct (finish_defined (r_trans_start s) (r_total s) (megabytes (r_success s)) false) as [t ->].
    eauto.
Qed.

Lemma handle_defined u s : running s -> good (r_mess_buf s) ->
  exists s', handle_receive (r_trans_start s) u s = Some s'.
Proof.
  intros Hr Hg. unfold handle_receive. rewrite (ru_queue _ Hr). cbn [head mbind option_bind deref].
  destruct (_ <=? _).
  { cbn [on_old mbind option_bind].
    apply (after_packet_defined (r_send A (u <| cum_seq := r_cum_seq s |> <| is_nack := false |>) s)). }
  destruct (_ =? _) eqn:Eq.
  - apply Z.eqb_eq in Eq.
    enough (H : exists s1, on_next A mess_buf u s = Some s1 /\ r_trans_start s1 = r_trans_start s).
    { destruct H as (s1 & -> & <-). cbn [mbind option_bind]. apply after_packet_defined. }
    unfold on_next. cbn [deref]. pose proof (good_size _ Hg) as Hsize. unfold write_data.
    replace ((dt_size (r_mess_buf s) <? 0) || (PKT_DT_SIZE <? dt_size (r_mess_buf s))) with false
      by (symmetry; apply orb_false_iff; split; apply Z.ltb_ge; lia).
    assert (Hun : forall p s1, seq (r_mess_buf s1) = r_cum_seq s1 ->
      exists q, unbuffer A mess_buf p (r_window s1) s1 = Some (q, s1)).
    { intros p s1 E. destruct (r_window s1) as [|[] w]; [by eexists|]. cbn [unbuffer deref]. rewrite E.
      replace (r_cum_seq s1 =? r_cum_seq s1 + 1) with false by (symmetry; apply Z.eqb_neq; lia). by eexists. }
    destruct (is_end (r_mess_buf s)); cbn [r_pd]; cbv zeta;
      match goal with |- context [match ?x with Some _ => _ | None => _ end] => destruct x end;
      cbn [mbind option_bind];
      match goal with |- context [unbuffer A mess_buf ?p (r_window ?x) ?x] => destruct (Hun p x) as [q ->]; [done|] end;
      by eexists.
  - destruct (_ <? _); [|apply after_packet_defined]. unfold on_future. cbn [deref]. destruct (existsb _ _); [eauto|].
    rewrite (send_nacks A (fun i => mk_ack_pkt i _ true)).
    match goal with |- context [after_packet _ ?x] => apply (after_packet_defined x) end.
Qed.

Lemma packet_defined p u r : good p -> r_inv r -> exists clock r', packet_in clock sizeof_net_pkt A p u r = Some r'.
Proof.
  intros Hg Hr. exists (fun _ => r_trans_start r). destruct (packet_begins (fun _ => r_trans_start r) p u r Hg Hr)
    as (s & R & Em & _ & _ & _ & Et & ->).
  assert (Ht : r_trans_start r = r_trans_start s) by (rewrite Et; by destruct (r_rcv_start r), (r_trans_start r)).
  rewrite Ht. apply handle_defined; [done|by rewrite Em].
Qed.

Context (Htell : closed_tell = -1) (Hname : strlen dest < 20).

Lemma fill_defined amt : forall b s, n_core b s -> n_pd s <> None ->
  exists s', fill isLAN dest Pid content malloc closed_tell amt s = Some s'.
Proof.
  induction amt as [|amt IH]; intros b s Hc Hpd; cbn [fill]; [eauto|].
  destruct (nc_file _ _ Hc) as [(F1 & F2 & Hbe)|(F1 & _ & _)]; [|done]. rewrite F1, F2.
  pose proof (nc_first _ _ Hc) as Hb.
  destruct (fetch_good (n_pkt_cnt s) (malloc (n_mallocs s)) ltac:(lia) Hbe) as (pkt & pd & pde & Ef & Hg & Hd).
  rewrite Ef. cbn [mbind option_bind]. replace (20 <=? strlen dest) with false by (symmetry; apply Z.leb_gt; lia).
  set (p := pkt <| seq := n_pkt_cnt s |> <| pid := Pid |> <| d_fname := dest |>).
  change (s <| n_mallocs ::= S |> <| n_window ::= _ |> <| n_pd := pd |> <| n_pd_end := pde |> <| n_pkt_cnt ::= Z.succ |>)
    with (put p pd pde s).
  assert (Hcp : n_core b (put p pd pde s)) by by apply put_core.
  change (n_pd (put p pd pde s)) with pd.
  destruct Hd as [(-> & -> & _)|(-> & _)]; cbn [ftell].
  - unfold PKT_DT_SIZE at 1. replace (1355 * n_pkt_cnt s =? -1) with false by (symmetry; apply Z.eqb_neq; lia).
    apply (IH b); [destruct Hcp as [G1 G2 G3 G4 G5]; by split|done].
  - rewrite Htell. cbn. eauto.
Qed.

Lemma timeout_defined now later b n : n_inv b n -> n_blocked n = false -> exists n', turn now later Quiet n = Some n'.
Proof.
  intros [Hc Hl] Hb. unfold ncp_turn. rewrite Hb. unfold on_timeout. set (s0 := if n_start_trans n then n else _).
  assert (E0 : same n s0) by (unfold s0; by destruct (n_start_trans n)).
  assert (H : exists s1, fill_win isLAN dest Pid content malloc closed_tell s0 = Some s1).
  { unfold fill_win. destruct (_ && _) eqn:E; [|eauto]. apply andb_true_iff in E as [_ E]. apply Z.eqb_eq in E.
    apply (fill_defined _ b); [by eapply same_core|]. intros Hpd. rewrite (e_pd _ _ E0) in Hpd.
    unfold n_last_known in Hl. rewrite Hpd in Hl. rewrite (e_last _ _ E0) in E.
    destruct (nc_file _ _ Hc) as [(? & _)|(_ & ? & _)]; [congruence|lia]. }
  destruct H as [s1 ->]. cbn [mbind option_bind]. apply progress_defined.
Qed.

(** A timeout that was defined. *)
Record timed_out (b : Z) (n n' : ncp) : Prop := {
  to_inv : n_inv b n';
  to_flags : n_blocked n' = false /\ n_finished n' = n_finished n;
  to_waits : b < n_pkt_cnt n';
  to_window : exists l, n_window n' = n_window n ++ l;
  to_labels : forall p, p ∈ n_window n' -> n_umap n' !! seq p = Some Unacked;
  to_sent : forall p, p ∈ n_window n' -> n_umap n !! seq p = Some Unacked -> p ∈ n_sent n' }.

Lemma timeout_turn now later b n n' : n_inv b n -> n_blocked n = false -> (n_pd n = None -> b < n_pkt_cnt n) ->
  turn now later Quiet n = Some n' -> timed_out b n n'.
Proof.
  intros Hi Hb Hal E. unfold ncp_turn in E. rewrite Hb in E.
  destruct (on_timeout _ _ _ _ _ _ _ _) as [n1|] eqn:E1; [|discriminate E]. cbn [mbind option_bind] in E.
  destruct (timeout_inv _ _ _ _ Hi E1) as (s1 & _ & [[l F1] F2 F3 F4 F5 F6] & E2 & Hi1 & _ & Hlt).
  apply n_progress_same in E as [Es Ef]. pose proof Es as [G1 G2 G3 G4 G5 G6 G7 G8].
  destruct (send_window_swept (n_window s1) s1) as [(S1 & _ & _ & _ & S5 & S6) _ _ _ _ SL SR].
  rewrite <- E2 in S1, S5, S6, SL, SR. split.
  - by eapply same_inv.
  - split; congruence.
  - rewrite G4. auto.
  - exists l. congruence.
  - intros p Hp. rewrite G2. apply SL. congruence.
  - intros p Hp Hu. rewrite G8. apply SR; [congruence|]. apply F6, Hu.
Qed.

(** Behind two timeouts the first packet that waits has been sent. *)
Lemma resends b n r : sys_inv b (mk_system n r) -> n_blocked n = false -> n_finished n = false ->
  exists n2 p, rtc step (mk_system n r) (mk_system n2 r) /\ sys_inv b (mk_system n2 r) /\ n_blocked n2 = false /\
    n_finished n2 = false /\ p ∈ n_sent n2 /\ seq p = b.
Proof.
  intros Hi Hb Hf. pose proof Hi as [Hn Hr Hc _ Hal]. cbn in *. set (now := mk_timeval 0 0).
  destruct (timeout_defined now now b n Hn Hb) as [n1 E1].
  destruct (timeout_turn _ _ _ _ _ Hn Hb (Hal Hf) E1) as [I1 [B1 F1] W1 _ L1 _].
  destruct (timeout_defined now now b n1 I1 B1) as [n2 E2].
  destruct (timeout_turn _ _ _ _ _ I1 B1 (fun _ => W1) E2) as [I2 [B2 F2] W2 [l X2] _ S2].
  destruct (window_first _ _ (proj1 I1) W1) as (p & w & Hw & Hp).
  assert (Hs : rtc step (mk_system n r) (mk_system n2 r)).
  { eapply rtc_l; [by eapply step_timeout|]. eapply rtc_l; [|reflexivity]. eapply step_timeout; [congruence|exact E2]. }
  exists n2, p. split; [done|]. split; [|split_and!; try congruence].
  - split; cbn; try done.
    + destruct (reachable_inv _ _ _ Hi Hs) as (b' & [_ _ H _ _] & Hle). cbn in H. lia.
    + rewrite F2, F1, Hf. done.
  - apply S2; [rewrite X2, Hw; by left|]. apply L1. rewrite Hw. by left.
Qed.

Lemma dequeue_clock a w s : n_trans_start (dequeue a w s) = n_trans_start s.
Proof. revert s. induction w as [|p w IH]; intros s; cbn; [done|]. destruct (_ <=? _); [|done]. by rewrite IH. Qed.

Lemma ack_defined a n : is_nack a = false -> exists now n', turn now now (Ack a) n = Some n'.
Proof.
  intros Ha. exists (n_trans_start n). unfold ncp_turn, on_ack. rewrite Ha. cbn [negb].
  set (n0 := heard_block a n). set (n1 := dequeue a (n_window n0) n0).
  assert (Et : n_trans_start n1 = n_trans_start n).
  { unfold n1. rewrite dequeue_clock. unfold n0, heard_block. destruct (_ <? _); [done|]. by destruct (n_blocked n). }
  destruct (_ && _).
  - rewrite <- Et. destruct (finish_defined (n_trans_start n1) (n_total n1) (megabytes (n_success n1)) true) as [t ->].
    cbn [mbind option_bind]. cbn. eauto.
  - cbn [mbind option_bind]. destruct (n_finished n1); [eauto|apply progress_defined].
Qed.

(** The packets of the file are at most so many. *)
Definition packets : Z := len / PKT_DT_SIZE + 1.

Lemma count_bound b s : n_core b s -> n_pkt_cnt s <= packets + 1.
Proof.
  intros Hc. unfold packets, PKT_DT_SIZE. pose proof (Z.div_mod len 1355 ltac:(lia)) as Hd.
  pose proof (Z.mod_pos_bound len 1355 ltac:(lia)) as Hm. pose proof (Z.div_pos len 1355 ltac:(lia) ltac:(lia)) as H0.
  destruct (nc_file _ _ Hc) as [(_ & _ & Hf)|(_ & _ & _ & Hf)]; unfold PKT_DT_SIZE in Hf; lia.
Qed.

(** One round: two timeouts, a packet, and its answer where that is old news. Either the
    receiver has a packet more, or the sender knows of one more, or is done. *)
Lemma round b n r : sys_inv b (mk_system n r) -> n_blocked n = false -> n_finished n = false ->
  exists b' n' r', rtc step (mk_system n r) (mk_system n' r') /\ sys_inv b' (mk_system n' r') /\ n_blocked n' = false /\
    b <= b' /\ r_cum_seq r <= r_cum_seq r' /\ b + r_cum_seq r < b' + r_cum_seq r'.
Proof.
  intros Hi Hb Hf. destruct (resends b n r Hi Hb Hf) as (n2 & p & Hs & Hi2 & B2 & F2 & Hp & Hpb).
  destruct (sent_good _ _ _ Hi2 Hp) as [Hg Hlt]. pose proof Hi2 as [Hn2 Hr2 Hc2 _ _]. cbn in Hn2, Hr2, Hc2, Hlt, Hp.
  destruct (packet_defined p (mk_ack_pkt 0 0 false) r Hg Hr2) as (clock & r1 & E).
  destruct (packet_inv _ _ _ _ _ Hg Hr2 E) as (Hr1 & _ & Hcum & Hold & Hnext).
  assert (Hs1 : rtc step (mk_system n r) (mk_system n2 r1)).
  { eapply rtc_r; [exact Hs|]. by eapply step_packet. }
  assert (Hi1 : sys_inv b (mk_system n2 r1)).
  { pose proof Hi2 as [_ _ _ Hfin Hal]. split; cbn in *; try done; [lia|]. intros Hx. rewrite F2 in Hx. discriminate Hx. }
  destruct (Z.eq_dec (r_cum_seq r) (b - 1)) as [Heq|Hne].
  { exists b, n2, r1. split_and!; try done; lia. }
  destruct Hold as (a & Ha & Hac & Han); [lia|].
  destruct (ack_defined a n2 Han) as (now & n3 & E3).
  assert (Ha0 : 0 <= cum_seq a) by (pose proof (nc_first _ _ (proj1 Hn2)); lia).
  destruct (ack_inv _ _ _ _ _ _ Hn2 Ha0 F2 E3)
    as (b3 & Hi3 & _ & _ & _ & B3 & _ & Hb3 & _ & _).
  assert (Hstep : step (mk_system n2 r1) (mk_system n3 r1)) by by eapply step_ack.
  destruct (step_inv _ _ _ Hi1 Hstep) as (b4 & Hi4 & Hle4).
  rewrite (core_unique _ _ _ (proj1 Hi3) (proj1 (si_ncp _ _ Hi4))) in Hb3.
  specialize (Hb3 Han ltac:(lia)).
  exists b4, n3, r1. split; [by eapply rtc_r|]. split; [done|]. split; [done|]. split_and!; lia.
Qed.

(** From wherever the programs are, the transfer can be completed. *)
Lemma completes b n r : sys_inv b (mk_system n r) -> n_blocked n = false -> n_finished n = false ->
  exists s, rtc step (mk_system n r) s /\ n_finished (sys_ncp s) = true.
Proof.
  remember (Z.to_nat (2 * packets + 2 - b - r_cum_seq r)) as m eqn:Em. revert b n r Em.
  induction m as [m IH] using lt_wf_ind. intros b n r Em Hi Hb Hf.
  destruct (round b n r Hi Hb Hf) as (b1 & n1 & r1 & Hs & Hi1 & B1 & H1 & H2 & H3).
  destruct (n_finished n1) eqn:F1; [by exists (mk_system n1 r1)|].
  pose proof Hi as [[Hc _] _ H4 _ _]. cbn in Hc, H4. pose proof (count_bound _ _ Hc). pose proof (nc_first _ _ Hc).
  destruct (IH (Z.to_nat (2 * packets + 2 - b1 - r_cum_seq r1)) ltac:(lia) b1 n1 r1 eq_refl Hi1 B1 F1) as (s & Hs' & Hfin).
  exists s. split; [by etransitivity|done].
Qed.

Lemma step_unblocked b s s' : sys_inv b s -> step s s' -> n_blocked (sys_ncp s) = false -> n_blocked (sys_ncp s') = false.
Proof.
  intros Hi Hstep Hb. pose proof Hi as [Hn Hr _ _ Hal]. destruct Hstep as
    [now later n n' r Hnf E|now later a n n' r Hnf Ha E|clock p u n r r' Hp E|now u n r r' Hd E]; cbn in *; try done.
  - by destruct (timeout_turn _ _ _ _ _ Hn Hb (Hal Hnf) E) as [_ [? _] _ _ _ _].
  - destruct Hr as [_ Has]. rewrite Forall_forall in Has. destruct (Has _ Ha) as (_ & Ha0 & _).
    by destruct (ack_inv _ _ _ _ _ _ Hn Ha0 Hnf E) as (b' & _ & _ & _ & _ & ? & _).
Qed.

Lemma reachable_unblocked b s0 s : sys_inv b s0 -> n_blocked (sys_ncp s0) = false -> rtc step s0 s ->
  n_blocked (sys_ncp s) = false.
Proof.
  intros Hi Hb H. revert b Hi Hb. induction H as [|s1 s2 s3 H1 H2 IH]; intros b Hi Hb; [done|].
  destruct (step_inv _ _ _ Hi H1) as (b2 & Hi2 & _). apply (IH b2); [done|]. exact (step_unblocked _ _ _ Hi H1 Hb).
Qed.
End Transfer.

(** ** The transfer *)


(** ** Runs *)

Section Run.
Context (isLAN : bool) (dest : string) (Pid : Z) (content : list Z)
  (malloc : nat -> net_pkt) (closed_tell : Z) (can_open : string -> bool) (A : addr).

(** The sender times out, or hears the [k]-th answer; the receiver hears the [k]-th packet. *)
Inductive event := Timeout | Answer (k : nat) | Packet (k : nat).

Definition no_time : timeval := mk_timeval 0 0.

Definition exec (s : system) (e : event) : option system :=
  let '(mk_system n r) := s in
  match e with
  | Timeout =>
      if n_finished n then None
      else n ← ncp_turn isLAN dest Pid content malloc closed_tell no_time no_time Quiet n; Some (mk_system n r)
  | Answer k =>
      if n_finished n then None
      else
        '(to, a) ← r_sent r !! k;
        if bool_decide (to = A) then
          n ← ncp_turn isLAN dest Pid content malloc closed_tell no_time no_time (Ack a) n; Some (mk_system n r)
        else None
  | Packet k =>
      p ← n_sent n !! k;
      r ← on_packet can_open (fun _ => no_time) sizeof_net_pkt A p (mk_ack_pkt 0 0 false) r;
      Some (mk_system n r)
  end.

Fixpoint run (l : list event) (s : system) : option system :=
  match l with
  | [] => Some s
  | e :: l => s ← exec s e; run l s
  end.

Lemma exec_step s e s' : exec s e = Some s' -> step isLAN dest Pid content malloc closed_tell can_open A s s'.
Proof.
  destruct s as [n r]. unfold exec. destruct e as [|k|k].
  - destruct (n_finished n) eqn:Ef; [done|].
    match goal with |- mbind _ ?m = _ -> _ => destruct m as [n'|] eqn:E; [|done] end.
    intros [= <-]. by eapply step_timeout.
  - destruct (n_finished n) eqn:Ef; [done|]. destruct (r_sent r !! k) as [[to a]|] eqn:Ek; [|done].
    unfold mbind, option_bind. case_bool_decide; [|done]. subst to.
    match goal with |- match ?m with _ => _ end = _ -> _ => destruct m as [n'|] eqn:E; [|done] end.
    intros [= <-]. eapply step_ack; [done| |exact E]. by eapply list_elem_of_lookup_2.
  - destruct (n_sent n !! k) as [p|] eqn:Ek; [|done]. unfold mbind, option_bind.
    match goal with |- match ?m with _ => _ end = _ -> _ => destruct m as [r'|] eqn:E; [|done] end.
    intros [= <-]. eapply step_packet; [|exact E]. by eapply list_elem_of_lookup_2.
Qed.

Lemma run_steps l s s' : run l s = Some s' -> rtc (step isLAN dest Pid content malloc closed_tell can_open A) s s'.
Proof.
  revert s. induction l as [|e l IH]; intros s; cbn; [by intros [= <-]|].
  destruct (exec s e) as [s1|] eqn:E; [|done]. intros H. eapply rtc_l; [by eapply exec_step|by apply IH].
Qed.
End Run.

(** A file of two packets. *)
Definition ex_content : list Z := repeat 7 1356.
Definition ex_blank : net_pkt := mk_net_pkt [] EmptyString 0 0 0 0 false.
Abbreviation ex_step := (step true "copy" 1 ex_content (fun _ => ex_blank) (-1) (fun _ => true) (1, 1)).
Abbreviation ex_run := (run true "copy" 1 ex_content (fun _ => ex_blank) (-1) (fun _ => true) (1, 1)).
Definition ex_start : system := start ex_content false ex_blank ∅.

(** The second packet comes first, and is sent again. *)
Definition ex_events : list event :=
  [Timeout; Timeout; Packet 2; Packet 0; Answer 1; Timeout; Packet 3; Answer 2].


(** ** Where the programs fail *)

(** A sender whose [blocked] happens to be set never sends anything: nobody unblocks it. *)
Lemma blocked_never_sends isLAN dest Pid content malloc closed_tell can_open A buffer files s :
  rtc (step isLAN dest Pid content malloc closed_tell can_open A) (start content true buffer files) s ->
  sys_ncp s = ncp_start content true /\ r_sent (sys_rcv s) = [].
Proof.
  intros H. enough (G : sys_ncp s = ncp_start content true /\ r_sent (sys_rcv s) = [] /\ r_sender_q (sys_rcv s) = [])
    by tauto.
  remember (start content true buffer files) as s0 eqn:E0.
  assert (H0 : sys_ncp s0 = ncp_start content true /\ r_sent (sys_rcv s0) = [] /\ r_sender_q (sys_rcv s0) = [])
    by by subst s0.
  clear E0. induction H as [s|s1 s2 s3 Hs Hr IH]; [done|]. apply IH. destruct H0 as (H1 & H2 & H3).
  destruct Hs as [now later n n' r Hf E|now later a n n' r Hf Ha E|clock p u n r r' Hp E|now u n r r' Hd E]; cbn in *; subst.
  - cbn in E. injection E as <-. done.
  - rewrite H2 in Ha. by apply not_elem_of_nil in Ha.
  - by apply not_elem_of_nil in Hp.
  - split; [done|]. unfold on_idle in E. revert E.
    match goal with |- mbind _ ?m = _ -> _ => destruct m as [s1|] eqn:E1; [|done] end. cbn [mbind option_bind].
    assert (G : r_sent s1 = [] /\ r_sender_q s1 = [] /\ r_done s1 = false).
    { revert E1. destruct (0 <? _); [|intros [= <-]; done]. cbn [mbind option_bind].
      destruct (printf_text _ _); [|done]. intros [= <-]. done. }
    destruct G as (G1 & G2 & ->). rewrite G2. by intros [= <-].
Qed.

(** A number that is asked for after its packet was acknowledged is looked for in a
    window it is no longer in: the first answer, a request, comes late. *)
Example late_request_undefined :
  (s ← ex_run [Timeout; Timeout; Packet 2; Packet 0; Answer 1] ex_start;
   '(_, a) ← r_sent (sys_rcv s) !! 0%nat;
   Some (cum_seq a, is_nack a, n_finished (sys_ncp s),
     ncp_turn true "copy" 1 ex_content (fun _ => ex_blank) (-1) no_time no_time (Ack a) (sys_ncp s)))
  = Some (1, true, false, None).
Proof. vm_compute. reflexivity. Qed.

(** Packets for the receiver, by the sender and the packet. *)
Definition ex_packet (k byte : Z) (last : bool) : net_pkt := mk_net_pkt (repeat byte 1355) "copy" k 10 1355 1 last.

Fixpoint ex_packets (l : list (addr * net_pkt)) (r : rcv) : option rcv :=
  match l with
  | [] => Some r
  | (from, p) :: l =>
      r ← on_packet (fun _ => true) (fun _ => no_time) sizeof_net_pkt from p (mk_ack_pkt 0 0 false) r; ex_packets l r
  end.

(** The first packet of another sender is taken for one of the current sender, and
    goes into its file. *)
Example second_sender_mixed :
  (r ← ex_packets [((1, 1), ex_packet 2 7 true); ((2, 2), ex_packet 1 8 false)] (rcv_start ex_blank ∅);
   Some (r_files r !! "copy"%string, r_sender_q r, r_cum_seq r))
  = Some (Some (repeat 8 1355), [(1, 1); (2, 2)], 1).
Proof. vm_compute. reflexivity. Qed.

(** Ten seconds behind the last packet the receiver is ready for the next file, and a
    packet of the old one that comes then truncates it. *)
Example late_packet_truncates :
  (r ← ex_packets [((1, 1), ex_packet 1 7 false); ((1, 1), ex_packet 2 8 true)] (rcv_start ex_blank ∅);
   r' ← on_idle no_time (mk_ack_pkt 0 0 false) r;
   r' ← ex_packets [((1, 1), ex_packet 2 8 true)] r';
   Some (r_files r !! "copy"%string, r_files r' !! "copy"%string))
  = Some (Some (repeat 7 1355 ++ repeat 8 1355), Some []).
Proof. vm_compute. reflexivity. Qed.
