(* ===== verification/Lifecycle.v ===== *)
(** * iperf_api.c: the life of a test and of its streams

    Making, resetting and freeing a test; making, initialising and freeing the
    streams; the timers that pace the senders. The timers of a test are the
    heap of [Timer]; a timer's client data is the index of a stream. *)

From S2P Require Import Prelude Double Bytes Posix IperfTime Timer CJson Test Api Stats Stream.
From S2P Require Import Params Sockets Dial Connect Util.

#[local] Open Scope Z_scope.
#[local] Open Scope act_scope.

(** The callbacks of the timers. *)
Inductive proc :=
| TestTimer | ClientStats | ClientReporter | ClientOmit
| ServerTimer | ServerStats | ServerReporter | ServerOmit | SendTimer.

Abbreviation timer_state := (tmr_state proc nat).

(** ** A new test *)

Definition MAX_INTERVAL : nat := 60.

(** The answers of the three [malloc]s; [junk] is what the third one's storage
    holds, of which [sizeof(sizeof(...))], 8 bytes, are cleared. The answer of
    a failure is its [i_errno]. *)
Definition iperf_new_test (m1 m2 m3 : bool) (junk : list Z) : iperf_test + Z :=
  if negb m1 then inr IENEWTEST
  else if negb m2 then inr IENEWTEST
  else if negb m3 then inr IENEWTEST
  else inl (zero_test <| t_bitrate_limit_intervals_traffic_bytes :=
                           0 :: take (MAX_INTERVAL - 1) junk |>).

Definition tcp_protocol : protocol := mk_protocol Ptcp "TCP".
Definition udp_protocol : protocol := mk_protocol Pudp "UDP".

Definition default_settings (st : iperf_settings) : iperf_settings :=
  st <| st_domain := AF_UNSPEC |> <| st_unit_format := "a"%char |>
     <| st_socket_bufsize := 0 |> <| st_blksize := DEFAULT_TCP_BLKSIZE |>
     <| st_rate := 0 |> <| st_bitrate_limit := 0 |>
     <| st_bitrate_limit_interval := d_of_Z 5 |>
     <| st_bitrate_limit_stats_per_interval := 0 |> <| st_fqrate := 0 |>
     <| st_pacing_timer := DEFAULT_PACING_TIMER |> <| st_burst := 0 |> <| st_mss := 0 |>
     <| st_bytes := 0 |> <| st_blocks := 0 |> <| st_connect_timeout := -1 |>
     <| st_rcv_timeout := mk_time (DEFAULT_NO_MSG_RCVD_TIMEOUT / 1000)
                                  (DEFAULT_NO_MSG_RCVD_TIMEOUT mod 1000 * 1000) |>.

Definition default_members (testp : iperf_test) : iperf_test :=
  testp
    <| t_omit := OMIT |> <| t_duration := DURATION |> <| t_diskfile_name := None |>
    <| t_affinity := -1 |> <| t_server_affinity := -1 |> <| t_xbind_addrs := [] |>
    <| t_title := None |> <| t_extra_data := None |> <| t_congestion := None |>
    <| t_congestion_used := None |> <| t_remote_congestion_used := None |>
    <| t_server_port := PORT |> <| t_ctrl_sck := -1 |> <| t_prot_listener := -1 |>
    <| t_other_side_has_retransmits := 0 |>
    <| t_stats_callback := true |> <| t_reporter_callback := true |>
    <| t_stats_interval := d_of_Z 1 |> <| t_reporter_interval := d_of_Z 1 |>
    <| t_num_streams := 1 |> <| t_settings ::= default_settings |>
    <| t_cookie := replicate 37 0 |> <| t_multisend := 10 |>
    <| t_streams := [] |> <| t_protocols := [] |>.

(** The answers of the two [protocol_new]; the build has no SCTP. *)
Definition iperf_defaults (m1 m2 : bool) (testp : iperf_test) : option (Z * iperf_test) :=
  let testp := default_members testp in
  if negb m1 then Some (-1, testp)
  else
    let testp := testp <| t_protocols := [tcp_protocol] |> in
    if negb m2 then Some (-1, testp)
    else
      let testp := testp <| t_protocols := [tcp_protocol; udp_protocol] |> in
      '(_, testp) ← set_protocol testp Ptcp;
      Some (0, testp <| t_server_output_list := [] |>).

(** ** Streams *)

(** The identifier of the next stream, and the stream at the end of the list. *)
Definition next_id (streams : list iperf_stream) : Z :=
  match streams with [] => 1 | _ => 2 + Z.of_nat (length streams) end.

Definition iperf_add_stream (test : iperf_test) (sp : iperf_stream) : iperf_test :=
  test <| t_streams ::= fun l => l ++ [sp <| sp_id := next_id l |>] |>.

Section Streams.
Context {W : Type} {posix : Posix W} {clock : Clock W} {sockets : Sockets W}
  {files : Files W}.

Definition iperf_init_stream (s : Z) (test : iperf_test) : act W (Z * iperf_test) :=
  let opt := st_tos (t_settings test) in
  let dont_fragment : act W (Z * iperf_test) :=
    if bool_decide (iperf_get_test_protocol_id test = Some Pudp) then
      call dom := getsockdomain s;
      check (dom =? AF_INET) && nonzero (iperf_get_dont_fragment test)
        then sys_setsockopt s IP_MTU_DISCOVER IP_PMTUDISC_DO
        otherwise failed IESETDONTFRAGMENT test;
      give (0, test)
    else give (0, test) in
  try local_addr := sys_getsockname s otherwise failed IEINITSTREAM test;
  try remote_addr := sys_getpeername s otherwise failed IEINITSTREAM test;
  if nonzero opt then
    call dom := getsockdomain s;
    if dom =? AF_INET6 then
      try ok := sys_setsockopt s IPV6_TCLASS opt otherwise failed IESETCOS test;
      dont_fragment
    else
      try ok := sys_setsockopt s IP_TOS opt otherwise failed IESETTOS test;
      dont_fragment
  else dont_fragment.

(** The name of the temporary file: [snprintf] keeps 1023 characters. *)
Definition template (getenv : string -> option string) (test : iperf_test) : string :=
  let tempdir :=
    match getenv "TMPDIR", getenv "TEMP", getenv "TMP" with
    | Some d, _, _ => d
    | None, Some d, _ => d
    | None, None, Some d => d
    | None, None, None => "/tmp"
    end%string in
  String.substring 0 1023
    (match t_tmp_template test with
     | Some t => t
     | None => tempdir ++ "/iperf3.XXXXXX"
     end)%string.

(** The temporary file with its mapping, and the file of [-F], or -1. *)
Definition stream_files (name : string) (sender : Z) (test : iperf_test)
    : act W (option (Z * list Z * Z) * iperf_test) :=
  let fail (ie : Z) : act W (option (Z * list Z * Z) * iperf_test) :=
    give (None, test <| t_i_errno := ie |>) in
  let blksize := st_blksize (t_settings test) in
  try f := sys_mkstemp name otherwise fail IECREATESTREAM;
  try ok := sys_unlink f.2 otherwise fail IECREATESTREAM;
  try ok := sys_ftruncate f.1 blksize otherwise fail IECREATESTREAM;
  try buffer := sys_mmap f.1 blksize otherwise fail IECREATESTREAM;
  match t_diskfile_name test with
  | Some file =>
      try fd := sys_open file (nonzero sender) otherwise fail IEFILE;
      give (Some (f.1, buffer, fd), test)
  | None => give (Some (f.1, buffer, -1), test)
  end.

(** [protocol->send] and [protocol->recv] *)
Definition protocol_io (p : protocol) : io_fn :=
  if pr_id p =? Ptcp then TcpIo else if pr_id p =? Pudp then UdpIo else SctpIo.

(** The index of the new stream, [None] for the null pointer; the program exits
    when there is no randomness to fill the buffer with. *)
Definition iperf_new_stream (m1 m2 : bool) (getenv : string -> option string)
    (test : iperf_test) (s sender : Z) (w : W) : option (option nat * iperf_test * W) :=
  if negb m1 || negb m2 then Some (None, test <| t_i_errno := IECREATESTREAM |>, w)
  else
    p ← t_protocol test;
    let '(files, test, w) := stream_files (template getenv test) sender test w in
    match files with
    | None => Some (None, test, w)
    | Some (buffer_fd, buffer, diskfile_fd) =>
        let io := protocol_io p in
        let disk := bool_decide (is_Some (t_diskfile_name test)) in
        let sp := zero_stream
          <| sp_sender := sender |> <| sp_buffer_fd := buffer_fd |>
          <| sp_pending_size := 0 |> <| sp_socket := s |>
          <| sp_diskfile_fd := diskfile_fd |>
          <| sp_snd := if disk then DiskIo else io |>
          <| sp_rcv := if disk then DiskIo else io |>
          <| sp_snd2 := if disk then io else NoIo |>
          <| sp_rcv2 := if disk then io else NoIo |> in
        '(buffer, w) ←
          if nonzero (t_repeating_payload test)
          then Some (fill_with_repeating_pattern (st_blksize (t_settings test)), w)
          else readentropy (st_blksize (t_settings test)) w;
        let sp := sp <| sp_buffer := buffer |> in
        let '(r, test, w) := iperf_init_stream s test w in
        if r <? 0 then Some (None, test, sys_close buffer_fd w)
        else Some (Some (length (t_streams test)), iperf_add_stream test sp, w)
    end.

(** The buffers and results are garbage; the files and the timer are not. *)
Definition iperf_free_stream (sp : iperf_stream) (tm : timer_state) (w : W)
    : option (timer_state * W) :=
  let w := sys_close (sp_buffer_fd sp) w in
  let w := if 0 <=? sp_diskfile_fd sp then sys_close (sp_diskfile_fd sp) w else w in
  match sp_send_timer sp with
  | Some t => tm ← tmr_cancel t tm; Some (tm, w)
  | None => Some (tm, w)
  end.

Fixpoint free_streams (sps : list iperf_stream) (tm : timer_state) (w : W)
    : option (timer_state * W) :=
  match sps with
  | [] => Some (tm, w)
  | sp :: sps => '(tm, w) ← iperf_free_stream sp tm w; free_streams sps tm w
  end.

(** ** Starting a test *)

(** The protocols of this build have nothing to initialise; [now0] is what the
    local variable holds. *)
Definition iperf_init_test (now0 : iperf_time) (test : iperf_test) (w : W)
    : Z * iperf_test * W :=
  let '(c, w) := sys_clock w in
  let '(r, now) := iperf_time_now c now0 in
  if r <? 0 then (-1, test <| t_i_errno := IEINITTEST |>, w)
  else
    let start (sp : iperf_stream) :=
      sp <| sp_result ::= fun rp => rp <| rs_start_time := now |>
                                       <| rs_start_time_fixed := now |> |> in
    (0, test <| t_streams ::= fmap start |>, w).

(** [malloc] answers where in the heap a new timer goes. *)
Context (malloc : timer_state -> ptr).

(** From stream [i] on, [k] streams left. *)
Fixpoint send_timers (k i : nat) (now0 : iperf_time) (test : iperf_test) (tm : timer_state)
    (w : W) : option (Z * iperf_test * timer_state * W) :=
  match k with
  | O => Some (0, test, tm, w)
  | S k =>
      sp ← t_streams test !! i;
      let sp := sp <| sp_green_light := 1 |> in
      let test := put_stream i sp test in
      if nonzero (st_rate (t_settings test)) && nonzero (sp_sender sp) then
        let '(now, w) := time_now now0 w in
        '(t, tm) ← tmr_create (malloc tm) now SendTimer i
                     (st_pacing_timer (t_settings test)) 1 tm;
        let test := put_stream i (sp <| sp_send_timer := t |>) test in
        match t with
        | None => Some (-1, test <| t_i_errno := IEINITTEST |>, tm, w)
        | Some _ => send_timers k (S i) now0 test tm w
        end
      else send_timers k (S i) now0 test tm w
  end.

Definition iperf_create_send_timers (now0 : iperf_time) (test : iperf_test)
    (tm : timer_state) (w : W) : option (Z * iperf_test * timer_state * W) :=
  let '(c, w) := sys_clock w in
  if (iperf_time_now c now0).1 <? 0
  then Some (-1, test <| t_i_errno := IEINITTEST |>, tm, w)
  else send_timers (length (t_streams test)) 0 now0 test tm w.

(** ** Between two tests of a server *)

(** [if (t != NULL) { tmr_cancel(t); t = NULL; }] *)
Definition cancel_timer (t : ptr) (tm : timer_state) : option timer_state :=
  match t with Some t => tmr_cancel t tm | None => Some tm end.

Definition reset_settings (st : iperf_settings) : iperf_settings :=
  st <| st_socket_bufsize := 0 |> <| st_blksize := DEFAULT_TCP_BLKSIZE |> <| st_rate := 0 |>
     <| st_burst := 0 |> <| st_mss := 0 |> <| st_tos := 0 |> <| st_dont_fragment := 0 |>
     <| st_authtoken := None |> <| st_client_username := None |>
     <| st_client_password := None |> <| st_client_rsa_pubkey := None |>.

Definition reset_members (test : iperf_test) : option iperf_test :=
  let test := test
    <| t_omit_timer := None |> <| t_timer := None |> <| t_stats_timer := None |>
    <| t_reporter_timer := None |> <| t_done := 0 |> <| t_streams := [] |>
    <| t_remote_congestion_used := None |> <| t_role := "s"%char |> <| t_mode := RECEIVER |>
    <| t_sender_has_retransmits := 0 |> in
  '(_, test) ← set_protocol test Ptcp;
  Some (test
    <| t_omit := OMIT |> <| t_duration := DURATION |> <| t_server_affinity := -1 |>
    <| t_state := 0 |> <| t_ctrl_sck := -1 |> <| t_prot_listener := -1 |>
    <| t_bytes_sent := 0 |> <| t_blocks_sent := 0 |>
    <| t_bytes_received := 0 |> <| t_blocks_received := 0 |>
    <| t_other_side_has_retransmits := 0 |>
    <| t_bitrate_limit_stats_count := 0 |> <| t_bitrate_limit_last_interval_index := 0 |>
    <| t_bitrate_limit_exceeded := 0 |>
    <| t_bitrate_limit_intervals_traffic_bytes := replicate MAX_INTERVAL 0 |>
    <| t_reverse := 0 |> <| t_bidirectional := 0 |> <| t_no_delay := 0 |>
    <| t_read_set := ∅ |> <| t_write_set := ∅ |>
    <| t_num_streams := 1 |> <| t_settings ::= reset_settings |>
    <| t_cookie := replicate 37 0 |> <| t_multisend := 10 |> <| t_udp_counters_64bit := 0 |>
    <| t_title := None |> <| t_extra_data := None |> <| t_server_output_list := [] |>).

Definition iperf_reset_test (test : iperf_test) (tm : timer_state) (w : W)
    : option (iperf_test * timer_state * W) :=
  '(tm, w) ← free_streams (t_streams test) tm w;
  tm ← cancel_timer (t_omit_timer test) tm;
  tm ← cancel_timer (t_timer test) tm;
  tm ← cancel_timer (t_stats_timer test) tm;
  tm ← cancel_timer (t_reporter_timer test) tm;
  test ← reset_members test;
  Some (test, tm, w).
End Streams.
