(* ===== verification/LifecycleProps.v ===== *)
(** * Streams and sessions: what stays behind *)

From S2P Require Import Prelude Double Bytes Posix IperfTime Timer CJson Test Api Stats Stream.
From S2P Require Import Params ParamsProps Sockets Dial Connect ConnectProps Util Lifecycle.

#[local] Open Scope Z_scope.
#[local] Open Scope act_scope.
#[local] Set Default Proof Using "Type*".

(** ** Descriptors of a stream *)

Section NewStream.
Context {W : Type} {posix : Posix W} {clock : Clock W} {sockets : Sockets W}
  {laws : SocketLaws W} {files : Files W} {flaws : FileSysLaws W}.
Implicit Types (L : gset resource).

Lemma leaves_mkstemp {R} L name (h : act W R) (f : Z * string -> act W R) Q :
  leaves L h Q ->
  (forall a, 0 <= a.1 -> Fd a.1 ∉ L -> leaves ({[Fd a.1]} ∪ L) (f a) Q) ->
  leaves L (try a := sys_mkstemp name otherwise h; f a) Q.
Proof.
  intros Hh Hf w <-. unfold attempt.
  destruct (sys_mkstemp name w) as [[[fd n]|e] w1] eqn:E.
  - apply mkstemp_ok in E as (Hs & Hn & E). by apply Hf.
  - apply mkstemp_err in E. by apply Hh.
Qed.

Lemma leaves_open {R} L name rd (h : act W R) (f : Z -> act W R) Q :
  leaves L h Q ->
  (forall fd, 0 <= fd -> Fd fd ∉ L -> leaves ({[Fd fd]} ∪ L) (f fd) Q) ->
  leaves L (try fd := sys_open name rd otherwise h; f fd) Q.
Proof.
  intros Hh Hf w <-. unfold attempt.
  destruct (sys_open name rd w) as [[fd|e] w1] eqn:E.
  - apply open_ok in E as (Hs & Hn & E). by apply Hf.
  - apply open_err in E. by apply Hh.
Qed.

Lemma passive_getsockdomain s : passive live (getsockdomain s : act W Z).
Proof. unfold getsockdomain. passive_act. Qed.

#[local] Hint Resolve passive_getsockdomain : live.

(** The descriptors a stream owns, besides its socket. *)
Definition owned (sp : iperf_stream) : gset resource :=
  {[Fd (sp_buffer_fd sp)]} ∪ (if 0 <=? sp_diskfile_fd sp then {[Fd (sp_diskfile_fd sp)]} else ∅).

(** The files of a stream: what is open when they are made, and when not. *)
Definition files_outcome L (test : iperf_test) (a : option (Z * list Z * Z) * iperf_test)
    (L' : gset resource) : Prop :=
  match a.1 with
  | Some (bfd, _, dfd) =>
      a.2 = test /\ 0 <= bfd /\ Fd bfd ∉ L /\
      match t_diskfile_name test with
      | Some _ => 0 <= dfd /\ Fd dfd ∉ L /\ dfd <> bfd /\ L' = {[Fd dfd]} ∪ ({[Fd bfd]} ∪ L)
      | None => dfd = -1 /\ L' = {[Fd bfd]} ∪ L
      end
  | None =>
      L' = L \/
      (socket_leak L L' /\ (t_i_errno a.2 = IECREATESTREAM \/ is_Some (t_diskfile_name test)))
  end.

Lemma files_leaves name sender test L :
  leaves L (stream_files name sender test) (files_outcome L test).
Proof.
  unfold stream_files. cbv zeta. apply leaves_mkstemp.
  { apply leaves_give. by left. }
  intros a Ha Hn.
  assert (forall ie, ie = IECREATESTREAM \/ is_Some (t_diskfile_name test) ->
    files_outcome L test (None, test <| t_i_errno := ie |>) ({[Fd a.1]} ∪ L)) as Hleak.
  { intros ie Hie. right. split; [by exists a.1|done]. }
  do 3 (apply leaves_passive;
    [eauto with live|apply leaves_give; apply Hleak; by left|intros ?]).
  destruct (t_diskfile_name test) as [file|] eqn:Hd.
  - apply leaves_open; [apply leaves_give; apply Hleak; by right|].
    intros fd Hfd Hfn. apply leaves_give. unfold files_outcome. cbn [fst snd]. rewrite Hd.
    split_and!; [done|done|done|done|set_solver|set_solver|done].
  - apply leaves_give. unfold files_outcome. cbn [fst snd]. by rewrite Hd.
Qed.

Lemma readentropy_live n w data w' : readentropy n w = Some (data, w') -> live w' = live w.
Proof.
  unfold readentropy. destruct (n =? 0); [by intros [= _ <-]|].
  destruct (sys_urandom n w) as [[d|] w1] eqn:E; [|done]. intros [= _ <-].
  apply passive_step in E; [done|eauto with live].
Qed.

Lemma add_stream_last test sp :
  exists sp', t_streams (iperf_add_stream test sp) = t_streams test ++ [sp'] /\
    owned sp' = owned sp.
Proof. by eexists. Qed.

Lemma free_stream_live sp tm w tm' w' :
  iperf_free_stream sp tm w = Some (tm', w') -> live w' = live w ∖ owned sp.
Proof.
  unfold iperf_free_stream, owned. intros H.
  assert (w' = let w := sys_close (sp_buffer_fd sp) w in
               if 0 <=? sp_diskfile_fd sp then sys_close (sp_diskfile_fd sp) w else w) as ->.
  { destruct (sp_send_timer sp); [destruct (tmr_cancel _ tm); [|done]|]; cbn in H;
      by injection H as _ <-. }
  cbv zeta. destruct (0 <=? sp_diskfile_fd sp); rewrite ?close_live; set_solver.
Qed.

(** What [iperf_new_stream] leaves open. *)
Definition new_stream_outcome (L : gset resource) (test : iperf_test) (r : option nat)
    (test' : iperf_test) (L' : gset resource) : Prop :=
  match r with
  | Some i =>
      exists sp, t_streams test' = t_streams test ++ [sp] /\ i = length (t_streams test) /\
        owned sp ## L /\ L' = owned sp ∪ L
  | None =>
      L' = L \/
      (socket_leak L L' /\
       (t_i_errno test' = IECREATESTREAM \/ is_Some (t_diskfile_name test)))
  end.

Lemma init_stream_leaves s test L :
  leaves L (iperf_init_stream s test : act W _) (fun a L' => L' = L /\
    (a.2 = test \/ a.1 = -1 /\ exists ie, a.2 = test <| t_i_errno := ie |>)).
Proof.
  unfold iperf_init_stream. cbv zeta.
  repeat connect_step.
  all: split; [done|]; first [by left | right; split; [done|by eexists]].
Qed.

Lemma new_stream_spec m1 m2 getenv test s sender w r test' w' :
  iperf_new_stream m1 m2 getenv test s sender w = Some (r, test', w') ->
  new_stream_outcome (live w) test r test' (live w').
Proof.
  unfold iperf_new_stream. destruct (_ || _); [by intros [= <- <- <-]; left|].
  destruct (t_protocol test) as [p|]; [|done]. cbn [mbind option_bind].
  pose proof (files_leaves (template getenv test) sender test (live w) w eq_refl) as Hf.
  destruct (stream_files _ _ _ w) as [[fs test1] w1]. cbn [fst snd] in Hf.
  destruct fs as [[[bfd buf] dfd]|]; [|by intros [= <- <- <-]].
  destruct Hf as (Ht & Hb & Hbn & Hd). cbn [snd] in Ht. subst test1.
  match goal with |- context [(if ?c then ?x else ?y) ≫= _] =>
    destruct (if c then x else y) as [[buffer w2]|] eqn:E end; [|done].
  assert (live w2 = live w1) as Hl.
  { destruct (nonzero _); [by injection E as _ <-|by apply readentropy_live in E]. }
  cbn [mbind option_bind].
  pose proof (init_stream_leaves s test (live w2) w2 eq_refl) as Hi.
  destruct (iperf_init_stream s test w2) as [[r1 test2] w3]. cbn [fst snd] in Hi.
  destruct Hi as [Hl3 Htest]. rewrite Hl in Hl3. clear E.
  destruct (Z.ltb_spec r1 0) as [Hr|Hr]; intros [= <- <- <-]; unfold new_stream_outcome.
  - rewrite close_live, Hl3. destruct (t_diskfile_name test) as [file|].
    + destruct Hd as (Hd & Hdn & Hne & ->). right. split; [|right; by eexists].
      exists dfd. split; [done|]. set_solver.
    + destruct Hd as [_ ->]. left. set_solver.
  - assert (t_streams test2 = t_streams test) as Hs
      by (destruct Htest as [->|[? _]]; [done|lia]).
    eexists. split; [cbn [iperf_add_stream]; unfold iperf_add_stream; rsimpl; by rewrite Hs|].
    split; [by rewrite Hs|]. unfold owned. rsimpl. rewrite Hl3.
    destruct (t_diskfile_name test) as [file|].
    + destruct Hd as (Hd & Hdn & Hne & ->). destruct (Z.leb_spec 0 dfd); [|lia].
      split; set_solver.
    + destruct Hd as [-> ->]. cbn. split; set_solver.
Qed.

(** C34: what making a stream leaves open. When [iperf_new_stream] succeeds, the
    stream is the last one of the test and exactly the descriptors it owns have
    been opened, which [iperf_free_stream] closes again. When it fails, one
    descriptor may stay open: the temporary file when it could not be removed,
    sized, mapped or the file of [-F] not opened, and the file of [-F] itself
    when the socket's options could not be set. Without [-F], every error but
    IECREATESTREAM leaves nothing. *)
Theorem new_stream_descriptors m1 m2 getenv test s sender w r test' w' :
  iperf_new_stream m1 m2 getenv test s sender w = Some (r, test', w') ->
  new_stream_outcome (live w) test r test' (live w') /\
  (forall i sp tm tm' w'', r = Some i -> t_streams test' !! i = Some sp ->
     iperf_free_stream sp tm w' = Some (tm', w'') -> live w'' = live w).
Proof.
  intros H. apply new_stream_spec in H as Hout. split; [done|].
  intros i sp tm tm' w'' -> Hi Hfree. destruct Hout as (sp' & E & -> & Hdis & El).
  rewrite E, lookup_app_r, Nat.sub_diag in Hi by done. injection Hi as ->.
  apply free_stream_live in Hfree. rewrite Hfree, El. set_solver.
Qed.
End NewStream.

(** A stream of a test with [-F]: its socket's address cannot be had, and the
    file stays open. *)
Lemma new_stream_descriptors_witness :
  exists test' w',
    iperf_new_stream true true (fun _ => None)
      (zero_test <| t_protocol := Some tcp_protocol |> <| t_diskfile_name := Some "f"%string |>)
      4 1 (ex_host [0; 0; 0; 0; 0; 107] []) = Some (None, test', w') /\
    t_i_errno test' = IEINITSTREAM /\ live w' = {[Fd 5]} ∪ {[Fd 3]} /\
    new_stream_outcome {[Fd 3]}
      (zero_test <| t_protocol := Some tcp_protocol |> <| t_diskfile_name := Some "f"%string |>)
      None test' (live w').
Proof.
  destruct (iperf_new_stream true true (fun _ => None)
      (zero_test <| t_protocol := Some tcp_protocol |> <| t_diskfile_name := Some "f"%string |>)
      4 1 (ex_host [0; 0; 0; 0; 0; 107] [])) as [[[r test'] w']|] eqn:E;
    [|vm_compute in E; discriminate].
  destruct (new_stream_descriptors _ _ _ _ _ _ _ _ _ _ E) as [Hout _].
  vm_compute in E. injection E as <- <- <-. eexists _, _.
  split; [reflexivity|]. split; [reflexivity|]. split; [reflexivity|]. exact Hout.
Defined.

(** ** What one session leaves to the next *)

(** A server whose parameters, all those the exchange with a client can set, are at
    their defaults; but for the width of the UDP counters, which is an option of
    the server as well. *)
Definition defaults (s : iperf_test) : Prop :=
  let st := t_settings s in
  server_fresh (s <| t_udp_counters_64bit := 0 |>) /\
  t_protocol s = Some tcp_protocol /\ t_omit s = OMIT /\ t_duration s = DURATION /\
  t_num_streams s = 1 /\ st_blksize st = DEFAULT_TCP_BLKSIZE /\
  st_pacing_timer st = DEFAULT_PACING_TIMER.

(** Nothing of a test is there: it is not done and in no state, has no streams, no
    timers, no connection and no credentials, and has counted nothing. *)
Definition cleared (s : iperf_test) : Prop :=
  let st := t_settings s in
  t_done s = 0 /\ t_state s = 0 /\ t_streams s = [] /\
  (t_omit_timer s = None /\ t_timer s = None /\ t_stats_timer s = None /\
   t_reporter_timer s = None) /\
  (t_ctrl_sck s = -1 /\ t_prot_listener s = -1 /\ t_read_set s = ∅ /\ t_write_set s = ∅ /\
   t_cookie s = replicate 37 0) /\
  (t_bytes_sent s = 0 /\ t_blocks_sent s = 0 /\ t_bytes_received s = 0 /\
   t_blocks_received s = 0 /\ t_other_side_has_retransmits s = 0) /\
  (t_bitrate_limit_stats_count s = 0 /\ t_bitrate_limit_last_interval_index s = 0 /\
   t_bitrate_limit_exceeded s = 0 /\
   Forall (eq 0) (t_bitrate_limit_intervals_traffic_bytes s)) /\
  t_multisend s = 10 /\ t_udp_counters_64bit s = 0 /\ t_remote_congestion_used s = None /\
  t_server_output_list s = [] /\
  st_client_username st = None /\ st_client_password st = None /\ st_client_rsa_pubkey st = None.

(** What belongs to the server. *)
Definition server_own (s : iperf_test) :=
  let st := t_settings s in
  (t_listener s, t_server_port s, t_bind_address s, t_bind_dev s, t_protocols s,
   (t_server_authorized_users s, t_server_rsa_private_key s, t_server_skew_threshold s),
   (t_one_off s, t_daemon s, t_verbose s, t_json_output s, t_diskfile_name s, t_affinity s),
   (t_stats_interval s, t_reporter_interval s),
   (st_domain st, st_unit_format st, st_bitrate_limit st, st_bitrate_limit_interval st,
    st_idle_timeout st, st_rcv_timeout st)).

(** The settings of the last client that [iperf_reset_test] does not touch. *)
Definition leftovers (test : iperf_test) :=
  let st := t_settings test in
  (st_bytes st, st_blocks st, st_fqrate st, st_flowlabel st, st_pacing_timer st,
   t_congestion test, t_congestion_used test,
   t_get_server_output test, t_repeating_payload test).

(** A server that has run no test has the defaults. *)
Definition no_leftovers :=
  (0, 0, 0, 0, DEFAULT_PACING_TIMER, @None string, @None string, 0, 0).

Lemma set_tcp_receiver test r test' :
  t_protocols test = [tcp_protocol; udp_protocol] ->
  t_mode test = RECEIVER -> t_sender_has_retransmits test = 0 ->
  set_protocol test Ptcp = Some (r, test') ->
  test' = test <| t_protocol := Some tcp_protocol |>.
Proof.
  intros Hp Hm Hr. unfold set_protocol, get_protocol, check_sender_has_retransmits. rewrite Hp.
  change (head (filter _ _)) with (Some tcp_protocol).
  rsimpl. rewrite Hm. cbn. intros [= _ <-]. destruct test; cbn in *. by subst.
Qed.

Lemma reset_members_spec test test' :
  t_protocols test = [tcp_protocol; udp_protocol] -> reset_members test = Some test' ->
  leftovers test' = leftovers test /\ cleared test' /\ server_own test' = server_own test /\
  (defaults test' <-> leftovers test' = no_leftovers).
Proof.
  intros Hp. unfold reset_members. cbv zeta.
  match goal with |- context [set_protocol ?t Ptcp] => set (t0 := t) end.
  destruct (set_protocol t0 Ptcp) as [[r t1]|] eqn:E; [|done].
  apply set_tcp_receiver in E as ->; [|by subst t0|reflexivity..]. intros [= <-].
  subst t0. split; [done|]. split.
  { unfold cleared. cbn -[replicate]. split_and!; try done. by repeat constructor. }
  split; [done|].
  unfold defaults, server_fresh, leftovers, no_leftovers. cbn. split.
  - intros H. decompose [and] H. clear H. by repeat f_equal.
  - intros H. injection H as ? ? ? ? ? ? ? ? ?. by split_and!.
Qed.

Lemma reset_test_members {W} {sockets : Sockets W} test tm (w : W) test' tm' w' :
  iperf_reset_test test tm w = Some (test', tm', w') -> reset_members test = Some test'.
Proof.
  unfold iperf_reset_test. generalize (reset_members test) as r. intros r H.
  apply bind_Some in H as ([tm1 w1] & _ & H).
  do 4 apply bind_Some in H as (? & _ & H).
  apply bind_Some in H as (test1 & -> & H). congruence.
Qed.


(** A server that has served a client with a pacing timer of its own. *)
Definition ex_served : iperf_test :=
  zero_test <| t_protocols := [tcp_protocol; udp_protocol] |> <| t_state := IPERF_DONE |>
    <| t_done := 1 |> <| t_settings ::= (fun st => st <| st_pacing_timer := 500 |>) |>.

