(* ===== verification/Args.v ===== *)
(** * iperf_api.c: the command line

    [iperf_parse_arguments]: the options one by one as [getopt_long] hands them over,
    and the checks that follow. [getopt_long] of the GNU C library is modelled too,
    with its permutation of arguments and its abbreviations of long names. Warnings,
    the version and the usage text are not. *)

From Stdlib Require Import Floats.SpecFloat.
From S2P Require Import Prelude Double CJson IperfTime Test Api Params Sockets CString Units Dscp.
From S2P Require Import Auth.

#[local] Open Scope Z_scope.

(** ** Options *)

Definition OPT_SCTP : Z := 1.
Definition OPT_LOGFILE : Z := 2.
Definition OPT_GET_SERVER_OUTPUT : Z := 3.
Definition OPT_UDP_COUNTERS_64BIT : Z := 4.
Definition OPT_CLIENT_PORT : Z := 5.
Definition OPT_NUMSTREAMS : Z := 6.
Definition OPT_FORCEFLUSH : Z := 7.
Definition OPT_NO_FQ_SOCKET_PACING : Z := 9.
Definition OPT_FQ_RATE : Z := 10.
Definition OPT_DSCP : Z := 11.
Definition OPT_CLIENT_USERNAME : Z := 12.
Definition OPT_CLIENT_RSA_PUBLIC_KEY : Z := 13.
Definition OPT_SERVER_RSA_PRIVATE_KEY : Z := 14.
Definition OPT_SERVER_AUTHORIZED_USERS : Z := 15.
Definition OPT_PACING_TIMER : Z := 16.
Definition OPT_CONNECT_TIMEOUT : Z := 17.
Definition OPT_REPEATING_PAYLOAD : Z := 18.
Definition OPT_EXTRA_DATA : Z := 19.
Definition OPT_BIDIRECTIONAL : Z := 20.
Definition OPT_SERVER_BITRATE_LIMIT : Z := 21.
Definition OPT_TIMESTAMPS : Z := 22.
Definition OPT_SERVER_SKEW_THRESHOLD : Z := 23.
Definition OPT_BIND_DEV : Z := 24.
Definition OPT_IDLE_TIMEOUT : Z := 25.
Definition OPT_DONT_FRAGMENT : Z := 26.
Definition OPT_RCV_TIMEOUT : Z := 27.

Definition SEC_TO_mS : Z := 1000.
Definition mS_TO_US : Z := 1000.
Definition MIN_INTERVAL : double := d_of_decimal false 1 (-1).
Definition MAX_INTERVAL_SECS : double := d_of_Z 60.
Definition TIMESTAMP_FORMAT : string := "%c ".

Inductive has_arg := no_argument | required_argument | optional_argument.

#[export] Instance has_arg_eq_dec : EqDecision has_arg.
Proof. solve_decision. Defined.

#[local] Open Scope char_scope.
#[local] Open Scope Z_scope.

Definition longopts : list (string * has_arg * Z) :=
  [("port", required_argument, code "p"); ("format", required_argument, code "f");
   ("interval", required_argument, code "i"); ("daemon", no_argument, code "D");
   ("one-off", no_argument, code "1"); ("verbose", no_argument, code "V");
   ("json", no_argument, code "J"); ("version", no_argument, code "v");
   ("server", no_argument, code "s"); ("client", required_argument, code "c");
   ("udp", no_argument, code "u"); ("bitrate", required_argument, code "b");
   ("bandwidth", required_argument, code "b");
   ("server-bitrate-limit", required_argument, OPT_SERVER_BITRATE_LIMIT);
   ("time", required_argument, code "t"); ("bytes", required_argument, code "n");
   ("blockcount", required_argument, code "k"); ("length", required_argument, code "l");
   ("parallel", required_argument, code "P"); ("reverse", no_argument, code "R");
   ("bidir", no_argument, OPT_BIDIRECTIONAL); ("window", required_argument, code "w");
   ("bind", required_argument, code "B"); ("bind-dev", required_argument, OPT_BIND_DEV);
   ("cport", required_argument, OPT_CLIENT_PORT); ("set-mss", required_argument, code "M");
   ("no-delay", no_argument, code "N"); ("version4", no_argument, code "4");
   ("version6", no_argument, code "6"); ("tos", required_argument, code "S");
   ("dscp", required_argument, OPT_DSCP); ("extra-data", required_argument, OPT_EXTRA_DATA);
   ("flowlabel", required_argument, code "L"); ("zerocopy", no_argument, code "Z");
   ("omit", required_argument, code "O"); ("file", required_argument, code "F");
   ("repeating-payload", no_argument, OPT_REPEATING_PAYLOAD);
   ("timestamps", optional_argument, OPT_TIMESTAMPS);
   ("affinity", required_argument, code "A"); ("title", required_argument, code "T");
   ("congestion", required_argument, code "C");
   ("linux-congestion", required_argument, code "C");
   ("pidfile", required_argument, code "I"); ("logfile", required_argument, OPT_LOGFILE);
   ("forceflush", no_argument, OPT_FORCEFLUSH);
   ("get-server-output", no_argument, OPT_GET_SERVER_OUTPUT);
   ("udp-counters-64bit", no_argument, OPT_UDP_COUNTERS_64BIT);
   ("no-fq-socket-pacing", no_argument, OPT_NO_FQ_SOCKET_PACING);
   ("dont-fragment", no_argument, OPT_DONT_FRAGMENT);
   ("username", required_argument, OPT_CLIENT_USERNAME);
   ("rsa-public-key-path", required_argument, OPT_CLIENT_RSA_PUBLIC_KEY);
   ("rsa-private-key-path", required_argument, OPT_SERVER_RSA_PRIVATE_KEY);
   ("authorized-users-path", required_argument, OPT_SERVER_AUTHORIZED_USERS);
   ("time-skew-threshold", required_argument, OPT_SERVER_SKEW_THRESHOLD);
   ("fq-rate", required_argument, OPT_FQ_RATE);
   ("pacing-timer", required_argument, OPT_PACING_TIMER);
   ("connect-timeout", required_argument, OPT_CONNECT_TIMEOUT);
   ("idle-timeout", required_argument, OPT_IDLE_TIMEOUT);
   ("rcv-timeout", required_argument, OPT_RCV_TIMEOUT); ("debug", no_argument, code "d");
   ("help", no_argument, code "h")]%string.

Definition optstring : string := "p:f:i:D1VJvsc:ub:t:n:k:l:P:Rw:B:M:N46S:L:ZO:F:A:T:C:dI:hX:".

(** ** getopt_long *)

(** What a call returns: the value, and [optarg]; "?" for what it rejects. *)
Definition opt : Type := Z * option string.
Definition rejected : opt := (code "?", None).

(** Whether a character is an option of [optstring], and takes an argument. *)
Fixpoint short_option (opts : string) (c : ascii) : option bool :=
  match opts with
  | EmptyString => None
  | String a opts' =>
      if decide (a = c /\ c <> ":") then
        Some (match opts' with String b _ => bool_decide (b = ":") | EmptyString => false end)
      else short_option opts' c
  end.

Definition is_prefix (p s : string) : bool :=
  match after_text p s with Some _ => true | None => false end.

(** The long option a name stands for: an exact match, else the abbreviation of one
    option, or of several that mean the same. *)
Definition find_long (name : string) : option (has_arg * Z) :=
  match list_find (fun e => fst (fst e) = name) longopts with
  | Some (_, (_, h, v)) => Some (h, v)
  | None =>
      match List.filter (fun e => is_prefix name (fst (fst e))) longopts with
      | (_, h, v) :: rest =>
          if forallb (fun e => bool_decide (snd (fst e) = h /\ snd e = v)) rest
          then Some (h, v) else None
      | [] => None
      end
  end.

(** "--name" or "--name=value" *)
Definition long_option (body : string) (rest : list string) : opt * list string :=
  let '(name, value) :=
    match strchr body "=" with Some (n, v) => (n, Some v) | None => (body, None) end in
  match find_long name with
  | None => (rejected, rest)
  | Some (h, v) =>
      match h, value, rest with
      | no_argument, Some _, _ => (rejected, rest)
      | required_argument, None, arg :: rest => ((v, Some arg), rest)
      | required_argument, None, [] => (rejected, [])
      | _, _, _ => ((v, value), rest)
      end
  end.

(** The options of "-abc", one after the other; an argument is the rest of the word
    or the next one. *)
Fixpoint short_options (body : string) (rest : list string) : list opt * list string :=
  match body with
  | EmptyString => ([], rest)
  | String c body' =>
      match short_option optstring c with
      | None => let '(os, rest) := short_options body' rest in (rejected :: os, rest)
      | Some false => let '(os, rest) := short_options body' rest in ((code c, None) :: os, rest)
      | Some true =>
          match body', rest with
          | String _ _, _ => ([(code c, Some body')], rest)
          | EmptyString, arg :: rest => ([(code c, Some arg)], rest)
          | EmptyString, [] => ([rejected], [])
          end
      end
  end.

(** The calls for a whole command line; every word is looked at once, so the number
    of words is fuel enough. Words that are not options are skipped. *)
Fixpoint getopt_long (fuel : nat) (argv : list string) : list opt :=
  match fuel, argv with
  | S fuel, word :: rest =>
      match after_text "--" word with
      | Some EmptyString => []
      | Some body => let '(o, rest) := long_option body rest in o :: getopt_long fuel rest
      | None =>
          match after_text "-" word with
          | None | Some EmptyString => getopt_long fuel rest
          | Some body => let '(os, rest) := short_options body rest in os ++ getopt_long fuel rest
          end
      end
  | _, _ => []
  end.

(** ** One option

    An answer is [None] where the program is undefined: a conversion that does not
    fit, a number that is not there. *)

Record args := mk_args {
  a_blksize : Z; a_server_flag : bool; a_client_flag : bool; a_rate_flag : bool;
  a_duration_flag : bool; a_rcv_timeout_flag : bool; a_client_username : option string;
  a_client_rsa_public_key : option string; a_server_rsa_private_key : option string }.

#[export] Instance eta_args : Eta args := fun r => mk_args
  (a_blksize r) (a_server_flag r) (a_client_flag r) (a_rate_flag r) (a_duration_flag r)
  (a_rcv_timeout_flag r) (a_client_username r) (a_client_rsa_public_key r)
  (a_server_rsa_private_key r).

Definition no_args : args := mk_args 0 false false false false false None None None.

Inductive parse_step :=
| Next (test : iperf_test) (l : args)
| Stop (test : iperf_test)
| Leave (status : Z).

(** [i_errno = ie; return -1;] *)
Definition bad (test : iperf_test) (ie : Z) : option parse_step :=
  Some (Stop (test <| t_i_errno := ie |>)).

Definition client_opt (l : args) : args := l <| a_client_flag := true |>.
Definition server_opt (l : args) : args := l <| a_server_flag := true |>.

Definition known_unit (c : ascii) : bool :=
  bool_decide (c ∈ ["k"; "K"; "m"; "M"; "g"; "G"; "t"; "T"]).

Definition interval_ok (x : double) : bool :=
  negb ((d_lt x MIN_INTERVAL || d_lt MAX_INTERVAL_SECS x) && negb (d_eq x d_zero)).

(** Each part of the switch handles its options and passes the others on. *)
Definition parse_general (flag : Z) (optarg : option string) (test : iperf_test) (l : args)
    (other : option parse_step) : option parse_step :=
  if flag =? code "p" then
    arg ← optarg;
    let portno := atoi arg in
    if (portno <? 1) || (65535 <? portno) then bad test IEBADPORT
    else Some (Next (test <| t_server_port := portno |>) l)
  else if flag =? code "f" then
    match optarg with
    | None => bad test IEBADFORMAT
    | Some arg =>
        let c := match arg with String c _ => c | EmptyString => Ascii.zero end in
        let test := test <| t_settings ::= fun st => st <| st_unit_format := c |> |> in
        if known_unit c then Some (Next test l) else bad test IEBADFORMAT
    end
  else if flag =? code "i" then
    arg ← optarg;
    let x := atof arg in
    let test := test <| t_reporter_interval := x |> <| t_stats_interval := x |> in
    if interval_ok x then Some (Next test l) else bad test IEINTERVAL
  else if flag =? code "D" then Some (Next (test <| t_daemon := 1 |>) (server_opt l))
  else if flag =? code "1" then Some (Next (test <| t_one_off := 1 |>) (server_opt l))
  else if flag =? code "V" then Some (Next (test <| t_verbose := 1 |>) l)
  else if flag =? code "J" then Some (Next (test <| t_json_output := 1 |>) l)
  else if flag =? code "v" then Some (Leave 0)
  else if flag =? code "s" then
    if decide (t_role test = "c") then bad test IESERVCLIENT
    else test ← iperf_set_test_role test "s"; Some (Next test l)
  else if flag =? code "c" then
    if decide (t_role test = "s") then bad test IESERVCLIENT
    else
      test ← iperf_set_test_role test "c";
      arg ← optarg;
      Some (Next (iperf_set_test_server_hostname test arg) l)
  else if flag =? code "u" then
    '(_, test) ← set_protocol test Pudp;
    Some (Next test (client_opt l))
  else other.

(** "<rate>[/<burst>]" *)
Definition parse_rate (arg : string) (test : iperf_test) (l : args) : option parse_step :=
  let '(arg, burst) :=
    match strchr arg "/" with Some (r, b) => (r, Some b) | None => (arg, None) end in
  let test :=
    match burst with
    | Some b => test <| t_settings ::= fun st => st <| st_burst := atoi b |> |>
    | None => test
    end in
  if match burst with
     | Some b => (atoi b <=? 0) || (MAX_BURST <? atoi b)
     | None => false
     end
  then bad test IEBURST
  else
    r ← unit_atof_rate arg;
    rate ← d_to_u64 r;
    Some (Next (test <| t_settings ::= fun st => st <| st_rate := rate |> |>)
               (client_opt (l <| a_rate_flag := true |>))).

Definition parse_bitrate_limit (arg : string) (test : iperf_test) (l : args) : option parse_step :=
  let '(arg, interval) :=
    match strchr arg "/" with Some (r, b) => (r, Some (atof b)) | None => (arg, None) end in
  let test :=
    match interval with
    | Some x => test <| t_settings ::= fun st => st <| st_bitrate_limit_interval := x |> |>
    | None => test
    end in
  if match interval with Some x => negb (interval_ok x) | None => false end
  then bad test IETOTALINTERVAL
  else
    r ← unit_atof_rate arg;
    limit ← d_to_u64 r;
    Some (Next (test <| t_settings ::= fun st => st <| st_bitrate_limit := limit |> |>)
               (server_opt l)).

Definition parse_traffic (flag : Z) (optarg : option string) (test : iperf_test) (l : args)
    (other : option parse_step) : option parse_step :=
  if flag =? OPT_SCTP then bad test IEUNIMP
  else if flag =? OPT_NUMSTREAMS then
    arg ← optarg;
    n ← unit_atoi arg;
    (* the case falls through into the next one *)
    parse_rate arg (test <| t_settings ::= fun st => st <| st_num_ostreams := i32 n |> |>)
      (client_opt l)
  else if flag =? code "b" then arg ← optarg; parse_rate arg test l
  else if flag =? OPT_SERVER_BITRATE_LIMIT then arg ← optarg; parse_bitrate_limit arg test l
  else if flag =? code "t" then
    arg ← optarg;
    let test := test <| t_duration := atoi arg |> in
    if MAX_TIME <? t_duration test then bad test IEDURATION
    else Some (Next test (client_opt (l <| a_duration_flag := true |>)))
  else if flag =? code "n" then
    arg ← optarg; n ← unit_atoi arg;
    Some (Next (test <| t_settings ::= fun st => st <| st_bytes := n |> |>) (client_opt l))
  else if flag =? code "k" then
    arg ← optarg; n ← unit_atoi arg;
    Some (Next (test <| t_settings ::= fun st => st <| st_blocks := n |> |>) (client_opt l))
  else if flag =? code "l" then
    arg ← optarg; n ← unit_atoi arg;
    Some (Next test (client_opt (l <| a_blksize := i32 n |>)))
  else if flag =? code "P" then
    arg ← optarg;
    let test := test <| t_num_streams := atoi arg |> in
    if MAX_STREAMS <? t_num_streams test then bad test IENUMSTREAMS
    else Some (Next test (client_opt l))
  else if flag =? code "R" then
    if nonzero (t_bidirectional test) then bad test IEREVERSEBIDIR
    else test ← iperf_set_test_reverse test 1; Some (Next test (client_opt l))
  else if flag =? OPT_BIDIRECTIONAL then
    if nonzero (t_reverse test) then bad test IEREVERSEBIDIR
    else test ← iperf_set_test_bidirectional test 1; Some (Next test (client_opt l))
  else other.

Definition parse_socket (flag : Z) (optarg : option string) (test : iperf_test) (l : args)
    (other : option parse_step) : option parse_step :=
  if flag =? code "w" then
    arg ← optarg;
    farg ← unit_atof arg;
    if d_lt (d_of_Z MAX_TCP_BUFFER) farg then bad test IEBUFSIZE
    else
      n ← d_to_int farg;
      Some (Next (test <| t_settings ::= fun st => st <| st_socket_bufsize := n |> |>)
                 (client_opt l))
  else if flag =? code "B" then
    arg ← optarg; Some (Next (test <| t_bind_address := Some arg |>) l)
  else if flag =? OPT_BIND_DEV then
    arg ← optarg; Some (Next (test <| t_bind_dev := Some arg |>) l)
  else if flag =? OPT_CLIENT_PORT then
    arg ← optarg;
    let portno := atoi arg in
    if (portno <? 1) || (65535 <? portno) then bad test IEBADPORT
    else Some (Next (test <| t_bind_port := portno |>) l)
  else if flag =? code "M" then
    arg ← optarg;
    let test := test <| t_settings ::= fun st => st <| st_mss := atoi arg |> |> in
    if MAX_MSS <? st_mss (t_settings test) then bad test IEMSS
    else Some (Next test (client_opt l))
  else if flag =? code "N" then Some (Next (test <| t_no_delay := 1 |>) (client_opt l))
  else if flag =? code "4" then
    Some (Next (test <| t_settings ::= fun st => st <| st_domain := AF_INET |> |>) l)
  else if flag =? code "6" then
    Some (Next (test <| t_settings ::= fun st => st <| st_domain := AF_INET6 |> |>) l)
  else if flag =? code "S" then
    arg ← optarg;
    let '(v, endptr) := strtol 0 arg in
    let test := test <| t_settings ::= fun st => st <| st_tos := i32 v |> |> in
    if strcmp_0 endptr arg || (st_tos (t_settings test) <? 0) || (255 <? st_tos (t_settings test))
    then bad test IEBADTOS
    else Some (Next test (client_opt l))
  else if flag =? OPT_DSCP then
    let test := test <| t_settings ::= fun st => st <| st_tos := parse_qos optarg |> |> in
    if st_tos (t_settings test) <? 0 then bad test IEBADTOS
    else Some (Next test (client_opt l))
  else if flag =? OPT_EXTRA_DATA then
    arg ← optarg; Some (Next (test <| t_extra_data := Some arg |>) (client_opt l))
  else if flag =? code "L" then
    arg ← optarg;
    let '(v, endptr) := strtol 0 arg in
    let test := test <| t_settings ::= fun st => st <| st_flowlabel := i32 v |> |> in
    if strcmp_0 endptr arg || (st_flowlabel (t_settings test) <? 1)
       || (0xfffff <? st_flowlabel (t_settings test))
    then bad test IESETFLOW
    else Some (Next test (client_opt l))
  else if flag =? code "X" then
    arg ← optarg; Some (Next (test <| t_xbind_addrs ::= fun a => a ++ [arg] |>) l)
  else other.

Definition parse_affinity (arg : string) (test : iperf_test) (l : args) : option parse_step :=
  let '(v, endptr) := strtol 0 arg in
  let test := test <| t_affinity := i32 v |> in
  if strcmp_0 endptr arg || (t_affinity test <? 0) || (1024 <? t_affinity test)
  then bad test IEAFFINITY
  else
    match strchr arg "," with
    | Some (_, after) =>
        let test := test <| t_server_affinity := atoi after |> in
        if (t_server_affinity test <? 0) || (1024 <? t_server_affinity test)
        then bad test IEAFFINITY else Some (Next test (client_opt l))
    | None => Some (Next test l)
    end.

Definition parse_run (flag : Z) (optarg : option string) (test : iperf_test) (l : args)
    (other : option parse_step) : option parse_step :=
  if flag =? code "Z" then
    if negb has_sendfile then bad test IENOSENDFILE
    else Some (Next (test <| t_zerocopy := 1 |>) (client_opt l))
  else if flag =? OPT_REPEATING_PAYLOAD then
    Some (Next (test <| t_repeating_payload := 1 |>) (client_opt l))
  else if flag =? OPT_TIMESTAMPS then
    let test := iperf_set_test_timestamps test 1 in
    Some (Next (iperf_set_test_timestamp_format test (default TIMESTAMP_FORMAT optarg)) l)
  else if flag =? code "O" then
    arg ← optarg;
    let test := test <| t_omit := atoi arg |> in
    if (t_omit test <? 0) || (60 <? t_omit test) then bad test IEOMIT
    else Some (Next test (client_opt l))
  else if flag =? code "F" then Some (Next (test <| t_diskfile_name := optarg |>) l)
  else if flag =? OPT_IDLE_TIMEOUT then
    arg ← optarg;
    let test := test <| t_settings ::= fun st => st <| st_idle_timeout := atoi arg |> |> in
    if (st_idle_timeout (t_settings test) <? 1) || (MAX_TIME <? st_idle_timeout (t_settings test))
    then bad test IEIDLETIMEOUT
    else Some (Next test (server_opt l))
  else if flag =? OPT_RCV_TIMEOUT then
    arg ← optarg;
    let rcv_timeout_in := atoi arg in
    if (rcv_timeout_in <? MIN_NO_MSG_RCVD_TIMEOUT) || (MAX_TIME * SEC_TO_mS <? rcv_timeout_in)
    then bad test IERCVTIMEOUT
    else
      Some (Next (test <| t_settings ::= fun st => st <| st_rcv_timeout :=
                    mk_time (rcv_timeout_in / SEC_TO_mS)
                            (rcv_timeout_in mod SEC_TO_mS * mS_TO_US) |> |>)
                 (l <| a_rcv_timeout_flag := true |>))
  else if flag =? code "A" then arg ← optarg; parse_affinity arg test l
  else other.

Definition parse_rest (flag : Z) (optarg : option string) (test : iperf_test) (l : args)
    : option parse_step :=
  if flag =? code "T" then
    arg ← optarg; Some (Next (test <| t_title := Some arg |>) (client_opt l))
  else if flag =? code "C" then
    arg ← optarg; Some (Next (test <| t_congestion := Some arg |>) (client_opt l))
  else if flag =? code "d" then Some (Next (test <| t_debug := 1 |>) l)
  else if flag =? code "I" then
    arg ← optarg; Some (Next (test <| t_pidfile := Some arg |>) l)
  else if flag =? OPT_LOGFILE then
    arg ← optarg; Some (Next (test <| t_logfile := Some arg |>) l)
  else if flag =? OPT_FORCEFLUSH then Some (Next (test <| t_forceflush := 1 |>) l)
  else if flag =? OPT_GET_SERVER_OUTPUT then
    Some (Next (test <| t_get_server_output := 1 |>) (client_opt l))
  else if flag =? OPT_UDP_COUNTERS_64BIT then
    Some (Next (test <| t_udp_counters_64bit := 1 |>) l)
  else if flag =? OPT_NO_FQ_SOCKET_PACING then
    Some (Next (test <| t_settings ::= fun st => st <| st_fqrate := 0 |> |>) (client_opt l))
  else if flag =? OPT_FQ_RATE then
    arg ← optarg; r ← unit_atof_rate arg; rate ← d_to_u64 r;
    Some (Next (test <| t_settings ::= fun st => st <| st_fqrate := rate |> |>) (client_opt l))
  else if flag =? OPT_DONT_FRAGMENT then
    Some (Next (test <| t_settings ::= fun st => st <| st_dont_fragment := 1 |> |>)
               (client_opt l))
  else if flag =? OPT_CLIENT_USERNAME then
    arg ← optarg; Some (Next test (l <| a_client_username := Some arg |>))
  else if flag =? OPT_CLIENT_RSA_PUBLIC_KEY then
    arg ← optarg; Some (Next test (l <| a_client_rsa_public_key := Some arg |>))
  else if flag =? OPT_SERVER_RSA_PRIVATE_KEY then
    arg ← optarg; Some (Next test (l <| a_server_rsa_private_key := Some arg |>))
  else if flag =? OPT_SERVER_AUTHORIZED_USERS then
    arg ← optarg; Some (Next (test <| t_server_authorized_users := Some arg |>) l)
  else if flag =? OPT_SERVER_SKEW_THRESHOLD then
    arg ← optarg;
    let test := test <| t_server_skew_threshold := atoi arg |> in
    if t_server_skew_threshold test <=? 0 then bad test IESKEWTHRESHOLD else Some (Next test l)
  else if flag =? OPT_PACING_TIMER then
    arg ← optarg; n ← unit_atoi arg;
    Some (Next (test <| t_settings ::= fun st => st <| st_pacing_timer := i32 n |> |>)
               (client_opt l))
  else if flag =? OPT_CONNECT_TIMEOUT then
    arg ← optarg; n ← unit_atoi arg;
    Some (Next (test <| t_settings ::= fun st => st <| st_connect_timeout := i32 n |> |>)
               (client_opt l))
  else if flag =? code "h" then Some (Leave 0)
  else Some (Leave 1).

Definition parse_option (flag : Z) (optarg : option string) (test : iperf_test) (l : args)
    : option parse_step :=
  parse_general flag optarg test l
    (parse_traffic flag optarg test l
       (parse_socket flag optarg test l
          (parse_run flag optarg test l (parse_rest flag optarg test l)))).

Fixpoint parse_options (opts : list opt) (test : iperf_test) (l : args) : option parse_step :=
  match opts with
  | [] => Some (Next test l)
  | (flag, optarg) :: opts =>
      r ← parse_option flag optarg test l;
      match r with
      | Next test l => parse_options opts test l
      | r => Some r
      end
  end.

(** ** After the options *)

Section Checks.
Context {W : Type} {crypto : Crypto W}.

(** What the program finds outside: an environment variable, the answer of the
    password prompt, the files of keys. *)
Context (getenv : string -> option string) (getpass : option (Z * option string)) (w : W).

(** Answers: go on with this test, or an error. *)
Definition check_roles (test : iperf_test) (l : args) : option (iperf_test + iperf_test) :=
  let err ie := Some (inr (test <| t_i_errno := ie |>)) in
  if bool_decide (t_role test = "c") && a_server_flag l then err IESERVERONLY
  else if bool_decide (t_role test = "s") && a_client_flag l then err IECLIENTONLY
  else Some (inl test).

(** The credentials of a client: from the environment or the prompt, and its key. *)
Definition client_credentials (username key : string) (test : iperf_test)
    : option (iperf_test + iperf_test) :=
  let err ie := Some (inr (test <| t_i_errno := ie |>)) in
  password ← match getenv "IPERF3_PASSWORD" with
             | Some p => Some (Some p)
             | None => '(n, line) ← getpass; Some (if n <? 0 then None else line)
             end;
  match password with
  | None => err IESETCLIENTAUTH
  | Some password =>
      if test_load_pubkey_from_file (Some key) w <? 0 then err IESETCLIENTAUTH
      else
        Some (inl (test <| t_settings ::= fun st =>
          st <| st_client_username := Some username |> <| st_client_password := Some password |>
             <| st_client_rsa_pubkey := load_pubkey_from_file (Some key) w |> |>))
  end.

Definition is_set {A} (o : option A) : bool := match o with Some _ => true | None => false end.

Definition check_client_auth (test : iperf_test) (l : args) : option (iperf_test + iperf_test) :=
  let err ie := Some (inr (test <| t_i_errno := ie |>)) in
  let server := bool_decide (t_role test = "s") in
  let client := bool_decide (t_role test = "c") in
  let username := a_client_username l in
  let key := a_client_rsa_public_key l in
  if server && (is_set username || is_set key) then err IECLIENTONLY
  else if client && (is_set username || is_set key) && negb (is_set username && is_set key)
  then err IESETCLIENTAUTH
  else
    match client, username, key with
    | true, Some username, Some key => client_credentials username key test
    | _, _, _ => Some (inl test)
    end.

Definition check_server_auth (test : iperf_test) (l : args) : option (iperf_test + iperf_test) :=
  let err ie := Some (inr (test <| t_i_errno := ie |>)) in
  let server := bool_decide (t_role test = "s") in
  let client := bool_decide (t_role test = "c") in
  let key := a_server_rsa_private_key l in
  let users := t_server_authorized_users test in
  if client && (is_set key || is_set users) then err IESERVERONLY
  else if client && nonzero (t_server_skew_threshold test) then err IESERVERONLY
  else if client && a_rcv_timeout_flag l && bool_decide (t_mode test = SENDER)
  then err IERVRSONLYRCVTIMEOUT
  else if server && (is_set key || is_set users) && negb (is_set key && is_set users)
  then err IESETSERVERAUTH
  else
    match server, key with
    | true, Some key =>
        let test := test <| t_server_rsa_private_key := load_privkey_from_file (Some key) w |> in
        match t_server_rsa_private_key test with
        | None => Some (inr (test <| t_i_errno := IESETSERVERAUTH |>))
        | Some _ =>
            Some (inl (if t_server_skew_threshold test =? 0
                       then test <| t_server_skew_threshold := 10 |> else test))
        end
    | _, _ => Some (inl test)
    end.

Definition check_blksize (test : iperf_test) (l : args) : option (iperf_test + iperf_test) :=
  let err ie := Some (inr (test <| t_i_errno := ie |>)) in
  prot ← t_protocol test;
  let udp := pr_id prot =? Pudp in
  let blksize :=
    if a_blksize l =? 0 then
      if udp then 0 else if pr_id prot =? Psctp then DEFAULT_SCTP_BLKSIZE else DEFAULT_TCP_BLKSIZE
    else a_blksize l in
  if (negb udp && (blksize <=? 0)) || (MAX_BLOCKSIZE <? blksize) then err IEBLOCKSIZE
  else if udp && ((0 <? blksize) &&
                  ((blksize <? MIN_UDP_BLOCKSIZE) || (MAX_UDP_BLOCKSIZE <? blksize)))
  then err IEUDPBLOCKSIZE
  else
    let test := test <| t_settings ::= fun st => st <| st_blksize := blksize |> |> in
    Some (inl (if a_rate_flag l then test
               else test <| t_settings ::= fun st =>
                      st <| st_rate := if udp then UDP_RATE else 0 |> |>)).

Definition check_end (test : iperf_test) (l : args) : option (iperf_test + iperf_test) :=
  let bytes := nonzero (st_bytes (t_settings test)) in
  let blocks := nonzero (st_blocks (t_settings test)) in
  let test := if (bytes || blocks) && negb (a_duration_flag l)
              then test <| t_duration := 0 |> else test in
  if (a_duration_flag l && bytes) || (a_duration_flag l && blocks) || (bytes && blocks)
  then Some (inr (test <| t_i_errno := IEENDCONDITIONS |>))
  else if negb (bool_decide (t_role test = "c")) && negb (bool_decide (t_role test = "s"))
  then Some (inr (test <| t_i_errno := IENOROLE |>))
  else Some (inl test).

(** [(int) round(x)]: to the nearest integer, halves away from zero. *)
Definition round_to_int (x : double) : option Z :=
  n ← match x with
      | S754_zero _ => Some 0
      | S754_finite s m e =>
          let a := if 0 <=? e then Z.pos m * 2 ^ e
                   else (2 * Z.pos m + 2 ^ (- e)) / (2 * 2 ^ (- e)) in
          Some (if s then - a else a)
      | _ => None
      end;
  if (- 2 ^ 31 <=? n) && (n <? 2 ^ 31) then Some n else None.

Definition limit_intervals (test : iperf_test) : option iperf_test :=
  let interval := st_bitrate_limit_interval (t_settings test) in
  if d_eq interval d_zero then Some test
  else
    n ← (if d_le interval (t_stats_interval test) then Some 1
         else round_to_int (d_div interval (t_stats_interval test)));
    Some (test <| t_settings ::= fun st =>
            st <| st_bitrate_limit_stats_per_interval := n |> |>).

(** One check after the other. *)
Definition and_then (r : option (iperf_test + iperf_test))
    (k : iperf_test -> option (iperf_test + iperf_test)) : option (iperf_test + iperf_test) :=
  r ← r; match r with inl test => k test | inr test => Some (inr test) end.

Definition check_arguments (test : iperf_test) (l : args) : option (iperf_test + iperf_test) :=
  and_then (check_roles test l) (fun test =>
  and_then (check_client_auth test l) (fun test =>
  and_then (check_server_auth test l) (fun test =>
  and_then (check_blksize test l) (fun test =>
  and_then (check_end test l) (fun test =>
  test ← limit_intervals test; Some (inl test)))))).

Inductive parsed :=
| Returns (rc : Z) (test : iperf_test)
| Exited (status : Z).

Definition iperf_parse_arguments (argv : list string) (test : iperf_test) : option parsed :=
  r ← parse_options (getopt_long (length argv) argv) test no_args;
  match r with
  | Leave status => Some (Exited status)
  | Stop test => Some (Returns (-1) test)
  | Next test l =>
      r ← check_arguments test l;
      Some (match r with inl test => Returns 0 test | inr test => Returns (-1) test end)
  end.
End Checks.
