(* ===== verification/ErrorText.v ===== *)
(** * iperf_error.c: the texts of errors

    [iperf_strerror] and its buffer of 256 bytes. [strerror] and [gai_strerror] of the C
    library are parameters. *)

From S2P Require Import Prelude Double CJson CString CStringProps Printf Test Args.

#[local] Open Scope string_scope.
#[local] Open Scope Z_scope.

(** What a case of the switch sets. *)
Record error_case := mk_error_case {
  e_format : string;
  e_args : list argument;
  e_perr : bool;
  e_herr : bool }.

Definition says (f : string) (l : list argument) : error_case := mk_error_case f l false false.
Definition with_errno (f : string) (l : list argument) : error_case := mk_error_case f l true false.
Definition with_errno_or_gerror (f : string) (l : list argument) : error_case :=
  mk_error_case f l true true.

(** Options and the start of a test. *)
Definition option_cases : list (Z * error_case) :=
  [(IENONE, says "no error" []);
   (IESERVCLIENT, says "cannot be both server and client" []);
   (IENOROLE, says "must either be a client (-c) or server (-s)" []);
   (IESERVERONLY, says "some option you are trying to set is server only" []);
   (IECLIENTONLY, says "some option you are trying to set is client only" []);
   (IEDURATION, says "test duration too long (maximum = %d seconds)" [AInt MAX_TIME]);
   (IENUMSTREAMS, says "number of parallel streams too large (maximum = %d)" [AInt MAX_STREAMS]);
   (IEBLOCKSIZE, says "block size too large (maximum = %d bytes)" [AInt MAX_BLOCKSIZE]);
   (IEBUFSIZE, says "socket buffer size too large (maximum = %d bytes)" [AInt MAX_TCP_BUFFER]);
   (IEINTERVAL, says "invalid report interval (min = %g, max = %g seconds)" [ADouble MIN_INTERVAL; ADouble MAX_INTERVAL_SECS]);
   (IEBIND, says "--bind must be specified to use --cport" []);
   (IEUDPBLOCKSIZE, says "block size invalid (minimum = %d bytes, maximum = %d bytes)" [AInt MIN_UDP_BLOCKSIZE; AInt MAX_UDP_BLOCKSIZE]);
   (IEBADTOS, says "bad TOS value (must be between 0 and 255 inclusive)" []);
   (IESETCLIENTAUTH, says "you must specify a username, password, and path to a valid RSA public key" []);
   (IESETSERVERAUTH, says "you must specify a path to a valid RSA private key and a user credential file" []);
   (IEBADFORMAT, says "bad format specifier (valid formats are in the set [kmgtKMGT])" []);
   (IEBADPORT, says "port number must be between 1 and 65535 inclusive" []);
   (IEMSS, says "TCP MSS too large (maximum = %d bytes)" [AInt MAX_MSS]);
   (IENOSENDFILE, says "this OS does not support sendfile" []);
   (IEOMIT, says "bogus value for --omit" []);
   (IEUNIMP, says "an option you are trying to set is not implemented yet" []);
   (IEFILE, with_errno "unable to open -F file" []);
   (IEBURST, says "invalid burst count (maximum = %d)" [AInt MAX_BURST]);
   (IEENDCONDITIONS, says "only one test end condition (-t, -n, -k) may be specified" []);
   (IELOGFILE, with_errno "unable to open log file" []);
   (IENOSCTP, says "no SCTP support available" [])].

(** Making a test and the control connection. *)
Definition control_cases : list (Z * error_case) :=
  [(IENEWTEST, with_errno "unable to create a new test" []);
   (IEINITTEST, with_errno "test initialization failed" []);
   (IEAUTHTEST, says "test authorization failed" []);
   (IELISTEN, with_errno_or_gerror "unable to start listener for connections" []);
   (IECONNECT, with_errno_or_gerror "unable to connect to server" []);
   (IEACCEPT, with_errno_or_gerror "unable to accept connection from client" []);
   (IESENDCOOKIE, with_errno "unable to send cookie to server" []);
   (IERECVCOOKIE, with_errno "unable to receive cookie at server" []);
   (IECTRLWRITE, with_errno "unable to write to the control socket" []);
   (IECTRLREAD, with_errno "unable to read from the control socket" []);
   (IECTRLCLOSE, says "control socket has closed unexpectedly" []);
   (IEMESSAGE, says "received an unknown control message" []);
   (IESENDMESSAGE, with_errno "unable to send control message" []);
   (IERECVMESSAGE, with_errno "unable to receive control message" []);
   (IESENDPARAMS, with_errno "unable to send parameters to server" []);
   (IERECVPARAMS, with_errno "unable to receive parameters from client" []);
   (IEPACKAGERESULTS, with_errno "unable to package results" []);
   (IESENDRESULTS, with_errno "unable to send results" []);
   (IERECVRESULTS, with_errno "unable to receive results" []);
   (IESELECT, with_errno "select failed" []);
   (IECLIENTTERM, says "the client has terminated" []);
   (IESERVERTERM, says "the server has terminated" []);
   (IEACCESSDENIED, says "the server is busy running a test. try again later" [])].

(** Sockets, streams and timers. *)
Definition socket_cases : list (Z * error_case) :=
  [(IESETNODELAY, with_errno "unable to set TCP/SCTP NODELAY" []);
   (IESETMSS, with_errno "unable to set TCP/SCTP MSS" []);
   (IESETBUF, with_errno "unable to set socket buffer size" []);
   (IESETTOS, with_errno "unable to set IP TOS" []);
   (IESETCOS, with_errno "unable to set IPv6 traffic class" []);
   (IESETFLOW, says "unable to set IPv6 flow label" []);
   (IEREUSEADDR, with_errno "unable to reuse address on socket" []);
   (IENONBLOCKING, with_errno "unable to set socket to non-blocking" []);
   (IESETWINDOWSIZE, with_errno "unable to set socket window size" []);
   (IEPROTOCOL, says "protocol does not exist" []);
   (IEAFFINITY, with_errno "unable to set CPU affinity" []);
   (IERCVTIMEOUT, with_errno "receive timeout value is incorrect or not in range" []);
   (IERVRSONLYRCVTIMEOUT, with_errno "client receive timeout is valid only in receiving mode" []);
   (IEDAEMON, with_errno "unable to become a daemon" []);
   (IECREATESTREAM, with_errno_or_gerror "unable to create a new stream" []);
   (IEINITSTREAM, with_errno_or_gerror "unable to initialize stream" []);
   (IESTREAMLISTEN, with_errno_or_gerror "unable to start stream listener" []);
   (IESTREAMCONNECT, with_errno_or_gerror "unable to connect stream" []);
   (IESTREAMACCEPT, with_errno "unable to accept stream connection" []);
   (IESTREAMWRITE, with_errno "unable to write to stream socket" []);
   (IESTREAMREAD, with_errno "unable to read from stream socket" []);
   (IESTREAMCLOSE, says "stream socket has closed unexpectedly" []);
   (IESTREAMID, says "stream has an invalid id" []);
   (IENEWTIMER, with_errno "unable to create new timer" []);
   (IEUPDATETIMER, with_errno "unable to update timer" []);
   (IESETCONGESTION, says "unable to set TCP_CONGESTION: Supplied congestion control algorithm not supported on this host" []);
   (IEPIDFILE, with_errno "unable to write PID file" []);
   (IEV6ONLY, with_errno "Unable to set/reset IPV6_V6ONLY" []);
   (IESETSCTPDISABLEFRAG, with_errno "unable to set SCTP_DISABLE_FRAGMENTS" []);
   (IESETSCTPNSTREAM, with_errno ("unable to set SCTP_INIT num of SCTP streams" ++ nl) []);
   (IESETPACING, with_errno "unable to set socket pacing" []);
   (IESETBUF2, says "socket buffer size not set correctly" []);
   (IEREVERSEBIDIR, says "cannot be both reverse and bidirectional" []);
   (IETOTALRATE, says "total required bandwidth is larger than server limit" []);
   (IESKEWTHRESHOLD, says "skew threshold must be a positive number" []);
   (IEIDLETIMEOUT, says "idle timeout parameter is not positive or larget then allowed limit" []);
   (IENOMSG, says "idle timeout for receiving data" []);
   (IESETDONTFRAGMENT, says "unable to set IP Do-Not-Fragment flag" [])].

Definition error_cases : list (Z * error_case) := option_cases ++ control_cases ++ socket_cases.

Definition find_case (int_errno : Z) : error_case :=
  match find (fun c => fst c =? int_errno) error_cases with
  | Some c => snd c
  | None => with_errno "int_errno=%d" [AInt int_errno]
  end.

Section Strerror.
Context (strerror gai_strerror : Z -> string).

Definition ERRSTR_LEN : Z := 256.

(** [strncat(errstr, s, len - strlen(errstr) - 1)] *)
Definition append (errstr s : string) : string :=
  strncat errstr s (ERRSTR_LEN - strlen errstr - 1).

(** The text, and what is left in [gerror]; [None] when a format does not fit its
    arguments. *)
Definition iperf_strerror (int_errno errno gerror : Z) : option (string * Z) :=
  let c := find_case int_errno in
  '(errstr, _) ← snprintf ERRSTR_LEN (e_format c) (e_args c);
  let errstr := if e_herr c || e_perr c then append errstr ": " else errstr in
  Some (if negb (errno =? 0) && e_perr c then (append errstr (strerror errno), gerror)
        else if e_herr c && negb (gerror =? 0) then (append errstr (gai_strerror gerror), 0)
        else (errstr, gerror)).
End Strerror.

(** ** The texts fit *)

(** The message of a number. *)
Definition message (int_errno : Z) : option string :=
  printf_text (e_format (find_case int_errno)) (e_args (find_case int_errno)).

Lemma cases_print c :
  c ∈ error_cases ->
  exists m, printf_text (e_format (snd c)) (e_args (snd c)) = Some m /\ strlen m <= 120.
Proof.
  assert (forallb (fun c => match printf_text (e_format (snd c)) (e_args (snd c)) with
                            | Some m => strlen m <=? 120 | None => false end) error_cases = true) as H
    by (vm_compute; done).
  intros Hc%list_elem_of_In. rewrite forallb_forall in H. specialize (H c Hc).
  destruct (printf_text _ _) as [m|]; [|done]. exists m. split; [done|lia].
Qed.

Lemma message_short int_errno : exists m, message int_errno = Some m /\ strlen m <= 120.
Proof.
  unfold message, find_case. destruct (find _ _) as [c|] eqn:E.
  - apply find_some in E as [Hc _]. apply cases_print. by apply list_elem_of_In.
  - exists ("int_errno=" ++ (print_int (i32 int_errno) ++ ""))%string. split; [reflexivity|].
    rewrite !strlen_app. unfold strlen at 2 3. pose proof (sint_range 32 int_errno ltac:(lia)) as Hr.
    unfold is_sint in Hr. pose proof (print_int_length (i32 int_errno) ltac:(lia)).
    change (strlen "int_errno=") with 10. cbn [String.length]. lia.
Qed.

Lemma append_fits errstr s :
  strlen errstr < ERRSTR_LEN -> strlen (append errstr s) < ERRSTR_LEN.
Proof.
  unfold append, strncat. intros H. rewrite strlen_app. unfold strlen at 2.
  rewrite length_str_take. lia.
Qed.

(** Every number has a text of at most 255 characters, however long the texts of the
    C library are: the message of the number, a colon where the error of a system call or
    of the resolver goes with it, and as much of the text of that error as there is room
    for. *)
Theorem strerror_fits strerror gai_strerror int_errno errno gerror :
  exists m text gerror',
    message int_errno = Some m /\
    iperf_strerror strerror gai_strerror int_errno errno gerror = Some (text, gerror') /\
    strlen text < ERRSTR_LEN /\
    let c := find_case int_errno in
    let head := (m ++ if e_herr c || e_perr c then ": " else "")%string in
    text = if negb (errno =? 0) && e_perr c then append head (strerror errno)
           else if e_herr c && negb (gerror =? 0) then append head (gai_strerror gerror)
           else head.
Proof.
  destruct (message_short int_errno) as (m & Hm & Hl).
  assert (iperf_strerror strerror gai_strerror int_errno errno gerror =
    let c := find_case int_errno in
    let head := (m ++ if e_herr c || e_perr c then ": " else "")%string in
    Some (if negb (errno =? 0) && e_perr c then (append head (strerror errno), gerror)
          else if e_herr c && negb (gerror =? 0) then (append head (gai_strerror gerror), 0)
          else (head, gerror))) as ->.
  { unfold iperf_strerror, snprintf. change (printf_text _ _) with (message int_errno). rewrite Hm.
    cbn [mbind option_bind]. rewrite str_take_all by (unfold strlen, ERRSTR_LEN in *; lia).
    destruct (e_herr _ || e_perr _); [|by rewrite string_app_nil].
    assert (append m ": " = m ++ ": ")%string as ->; [|done].
    unfold append, strncat, ERRSTR_LEN. f_equal. apply str_take_all.
    change (2 <= Z.to_nat (256 - strlen m - 1))%nat. lia. }
  cbv zeta. set (head := (m ++ _)%string).
  assert (strlen head < ERRSTR_LEN) as Hh.
  { unfold head, ERRSTR_LEN. rewrite strlen_app. destruct (_ || _); [change (strlen ": ") with 2|change (strlen "") with 0]; lia. }
  destruct (negb _ && _); [|destruct (_ && _)];
    eexists m, _, _; (split; [done|]); (split; [reflexivity|]); (split; [|done]);
    (exact Hh || by apply append_fits).
Qed.

(** Two numbers of iperf_api.h that are reported have no message. *)
Example no_message :
  message IETOTALINTERVAL = Some "int_errno=28"%string /\
  message IEBINDDEV = Some "int_errno=143"%string.
Proof. by vm_compute. Qed.
