(* ===== verification/ArgsProps.v ===== *)
(** * The command line: what an accepted one guarantees *)

From Stdlib Require Import Floats.SpecFloat.
From S2P Require Import Prelude Double IperfTime CJson CString CStringProps JsonText NumberProps.
From S2P Require Import Units Dscp Auth AuthProps Test Api.
From S2P Require Import Params ParamsProps Sockets Lifecycle LifecycleProps Args.

#[local] Open Scope char_scope.
#[local] Open Scope Z_scope.

(** ** The invariant of the loop over the options *)

(** An interval: none, between a tenth of a second and a minute, or not a number,
    which no comparison of the program refuses. *)
Definition interval_in_limits (x : double) : Prop :=
  x = S754_nan \/ d_eq x d_zero = true \/ (d_le MIN_INTERVAL x = true /\ d_le x MAX_INTERVAL_SECS = true).

(** A waiting time, in microseconds, of whole milliseconds. *)
Definition waits_in_limits (t : iperf_time) : Prop :=
  MIN_NO_MSG_RCVD_TIMEOUT * mS_TO_US <= to_us t <= MAX_TIME * 1000000 /\ time_norm t.

(** The numbers the options have set are within the limits the usage text gives. *)
Record in_limits (t : iperf_test) : Prop := {
  lim_port : 1 <= t_server_port t <= 65535;
  lim_bind_port : 0 <= t_bind_port t <= 65535;
  lim_duration : - 2 ^ 31 <= t_duration t <= MAX_TIME;
  lim_streams : - 2 ^ 31 <= t_num_streams t <= MAX_STREAMS;
  lim_omit : 0 <= t_omit t <= 60;
  lim_affinity : -1 <= t_affinity t <= 1024;
  lim_server_affinity : -1 <= t_server_affinity t <= 1024;
  lim_mss : - 2 ^ 31 <= st_mss (t_settings t) <= MAX_MSS;
  lim_tos : 0 <= st_tos (t_settings t) <= 255;
  lim_flowlabel : 0 <= st_flowlabel (t_settings t) <= 0xfffff;
  lim_burst : 0 <= st_burst (t_settings t) <= MAX_BURST;
  lim_bufsize : - 2 ^ 31 <= st_socket_bufsize (t_settings t) <= MAX_TCP_BUFFER;
  lim_idle : 0 <= st_idle_timeout (t_settings t) <= MAX_TIME;
  lim_pacing : is_sint 32 (st_pacing_timer (t_settings t));
  lim_connect : is_sint 32 (st_connect_timeout (t_settings t));
  lim_skew : 0 <= t_server_skew_threshold t < 2 ^ 31;
  lim_stats : interval_in_limits (t_stats_interval t);
  lim_reporter : t_reporter_interval t = t_stats_interval t;
  lim_limit_interval : interval_in_limits (st_bitrate_limit_interval (t_settings t));
  lim_rcv : waits_in_limits (st_rcv_timeout (t_settings t));
  lim_ostreams : is_sint 32 (st_num_ostreams (t_settings t));
  lim_per_interval : is_sint 32 (st_bitrate_limit_stats_per_interval (t_settings t));
  lim_dont_fragment : 0 <= st_dont_fragment (t_settings t) <= 1;
  lim_bytes : is_uint 64 (st_bytes (t_settings t));
  lim_blocks : is_uint 64 (st_blocks (t_settings t));
  lim_rate : is_uint 64 (st_rate (t_settings t));
  lim_fqrate : is_uint 64 (st_fqrate (t_settings t));
  lim_limit : is_uint 64 (st_bitrate_limit (t_settings t)) }.

(** The direction of a test that has its role. *)
Definition role_mode (role : ascii) (reverse bidirectional : Z) : iperf_mode :=
  if nonzero bidirectional then BIDIRECTIONAL
  else if decide (role = "c") then if nonzero reverse then RECEIVER else SENDER
  else if nonzero reverse then SENDER else RECEIVER.

Record direction_ok (t : iperf_test) : Prop := {
  dir_role : t_role t = "c" \/ t_role t = "s" \/ t_role t = Ascii.zero;
  dir_one : t_reverse t = 0 \/ t_bidirectional t = 0;
  dir_mode : t_role t <> Ascii.zero ->
    t_mode t = role_mode (t_role t) (t_reverse t) (t_bidirectional t);
  dir_retransmits : t_role t <> Ascii.zero -> t_mode t = RECEIVER -> t_sender_has_retransmits t = 0;
  dir_protocol : exists p, t_protocol t = Some p /\ (pr_id p = Ptcp \/ pr_id p = Pudp);
  dir_protocols : t_protocols t = [tcp_protocol; udp_protocol] }.

(** What only a client may set still has its default. *)
Record client_defaults (t : iperf_test) : Prop := {
  def_protocol : t_protocol t = Some tcp_protocol;
  def_omit : t_omit t = OMIT;
  def_duration : t_duration t = DURATION;
  def_streams : t_num_streams t = 1;
  def_pacing : st_pacing_timer (t_settings t) = DEFAULT_PACING_TIMER;
  def_reverse : t_reverse t = 0;
  def_bidirectional : t_bidirectional t = 0;
  def_affinity : t_server_affinity t = -1;
  def_no_delay : t_no_delay t = 0;
  def_title : t_title t = None;
  def_extra : t_extra_data t = None;
  def_congestion : t_congestion t = None;
  def_output : t_get_server_output t = 0;
  def_payload : t_repeating_payload t = 0;
  def_bytes : st_bytes (t_settings t) = 0;
  def_blocks : st_blocks (t_settings t) = 0;
  def_mss : st_mss (t_settings t) = 0;
  def_bufsize : st_socket_bufsize (t_settings t) = 0;
  def_fqrate : st_fqrate (t_settings t) = 0;
  def_burst : st_burst (t_settings t) = 0;
  def_tos : st_tos (t_settings t) = 0;
  def_flowlabel : st_flowlabel (t_settings t) = 0;
  def_fragment : st_dont_fragment (t_settings t) = 0 }.

(** What no option touches. *)
Definition untouched (t : iperf_test) : Prop :=
  t_congestion_used t = None /\ st_authtoken (t_settings t) = None.

Record args_inv (t : iperf_test) (l : args) : Prop := {
  inv_limits : in_limits t;
  inv_direction : direction_ok t;
  inv_client : a_client_flag l = false ->
    client_defaults t /\ a_rate_flag l = false /\ a_blksize l = 0;
  inv_untouched : untouched t;
  inv_blksize : is_sint 32 (a_blksize l) }.

Definition step_ok (r : parse_step) : Prop :=
  match r with Next t l => args_inv t l | _ => True end.

(** ** Single options keep it *)

Lemma d_le_of_not_lt x y : x <> S754_nan -> y <> S754_nan -> d_lt x y = false -> d_le y x = true.
Proof.
  unfold d_lt, d_le, SFltb, SFleb. destruct x as [|[]| |[] m e], y as [|[]| |[] n f]; try done; intros _ _;
    cbn [SFcompare]; rewrite (Z.compare_antisym e f);
    (destruct (Z.compare_spec e f) as [->| |]; cbn [CompOpp]; [|done|done]);
    change (Pos.compare_cont Eq m n) with (m ?= n)%positive;
    change (Pos.compare_cont Eq n m) with (n ?= m)%positive;
    rewrite (Pos.compare_antisym m n); by destruct (m ?= n)%positive.
Qed.

Lemma interval_ok_spec x : interval_ok x = true -> interval_in_limits x.
Proof.
  unfold interval_ok, interval_in_limits. rewrite negb_true_iff, andb_false_iff, orb_false_iff, negb_false_iff.
  intros [[H1 H2]|H]; [|by right; left].
  destruct x; [by right; left|right; right|by left|right; right].
  all: split; apply d_le_of_not_lt; try done; by vm_compute.
Qed.

Lemma waiting_time n :
  MIN_NO_MSG_RCVD_TIMEOUT <= n <= MAX_TIME * SEC_TO_mS ->
  waits_in_limits (mk_time (n / SEC_TO_mS) (n mod SEC_TO_mS * mS_TO_US)).
Proof.
  unfold waits_in_limits, to_us, time_norm, is_uint, MIN_NO_MSG_RCVD_TIMEOUT, MAX_TIME, SEC_TO_mS, mS_TO_US.
  cbn [secs usecs]. intros Hn. pose proof (Z.div_mod n 1000 ltac:(lia)).
  pose proof (Z.mod_pos_bound n 1000 ltac:(lia)). lia.
Qed.

Lemma unit_atof_narrow s d : unit_atof s = Some d -> narrow d.
Proof.
  unfold unit_atof, sscanf_lf_c. intros ([n c] & H & E)%bind_Some.
  apply bind_Some in H as ([[n' rest] p] & Hs%scan_float_narrow & H).
  destruct p; [done|]. injection H as -> _. injection E as <-.
  repeat case_decide; apply d_mul_narrow || done.
Qed.


(** An update of the test that changes neither what the limits speak of nor the
    direction, by an option that needs no flag or sets the client's. *)
Lemma bad_ok t ie r : bad t ie = Some r -> step_ok r.
Proof. by intros [= <-]. Qed.

Ltac option_cases :=
  repeat first
    [ match goal with
      | H : bad _ _ = Some _ |- _ => by apply bad_ok in H
      | H : Some (Leave _) = Some _ |- _ => by injection H as <-
      | H : Some (Next _ _) = Some _ |- _ => injection H as <-
      | H : (_ ≫= _) = Some _ |- _ => apply bind_Some in H as (? & ? & H)
      | H : match ?x with _ => _ end = Some _ |- _ => destruct x eqn:?
      end ].

(** The conditions the code tested, as inequalities. *)
Ltac tested :=
  repeat match goal with
    | H : (_ =? _) = _ |- _ => clear H
    | H : (_ || _) = false |- _ => apply orb_false_iff in H as [? H]
    | H : negb (interval_ok _) = false |- _ => apply negb_false_iff in H
    | H : (_ <? _) = false |- _ => apply Z.ltb_ge in H; rsimpl in H
    | H : (_ <=? _) = false |- _ => apply Z.leb_gt in H; rsimpl in H
    end.

Lemma int_range x : - 2 ^ 31 <= i32 x < 2 ^ 31.
Proof. apply (sint_range 32). lia. Qed.

Lemma atoi_range s : - 2 ^ 31 <= atoi s < 2 ^ 31.
Proof. apply int_range. Qed.

Ltac ranges :=
  repeat match goal with
    | |- context [atoi ?s] =>
        lazymatch goal with
        | H : - 2 ^ 31 <= atoi s < 2 ^ 31 |- _ => fail
        | _ => pose proof (atoi_range s)
        end
    end;
  repeat match goal with
    | |- context [i32 ?s] =>
        lazymatch goal with
        | H : - 2 ^ 31 <= i32 s < 2 ^ 31 |- _ => fail
        | _ => pose proof (int_range s)
        end
    end.

Ltac solve_limits :=
  match goal with
  | H : in_limits _ |- in_limits _ =>
      destruct H; constructor; rsimpl;
      first
        [ assumption
        | reflexivity
        | apply interval_ok_spec; assumption
        | apply waiting_time; lia
        | unfold is_sint, is_uint in *; change (32 - 1) with 31 in *; ranges; lia ]
  end.

Ltac solve_direction :=
  match goal with
  | H : direction_ok _ |- direction_ok _ => destruct H; constructor; rsimpl; assumption
  end.

Ltac solve_defaults :=
  let F := fresh in
  intros F;
  first
    [ discriminate F
    | match goal with
      | H : a_client_flag _ = false -> _ |- _ => destruct (H F) as ([] & ? & ?)
      end; split; [constructor; rsimpl; assumption|split; assumption] ].

(** An option that leaves the direction alone. *)
Ltac plain_option :=
  tested;
  constructor; [solve_limits|solve_direction|solve_defaults|assumption|try assumption].

Lemma parse_run_ok flag optarg t l other r :
  args_inv t l -> (forall r, other = Some r -> step_ok r) ->
  parse_run flag optarg t l other = Some r -> step_ok r.
Proof.
  intros [Hl Hd Hc Hu Hb] Hother H.
  unfold parse_run, parse_affinity, iperf_set_test_timestamps, iperf_set_test_timestamp_format in H.
  option_cases; try (by apply Hother).
  all: plain_option.
Qed.

Lemma d_to_u64_range x n : d_to_u64 x = Some n -> is_uint 64 n.
Proof.
  unfold d_to_u64. intros (z & _ & H)%bind_Some.
  destruct ((0 <=? z) && (z <? 2 ^ 64)) eqn:E; [|done]. injection H as <-.
  apply andb_true_iff in E as [?%Z.leb_le ?%Z.ltb_lt]. done.
Qed.

Lemma d_to_int_range x n : d_to_int x = Some n -> - 2 ^ 31 <= n < 2 ^ 31.
Proof.
  unfold d_to_int. intros (z & _ & H)%bind_Some.
  destruct ((- 2 ^ 31 <=? z) && (z <? 2 ^ 31)) eqn:E; [|done]. injection H as <-.
  apply andb_true_iff in E as [?%Z.leb_le ?%Z.ltb_lt]. done.
Qed.

(** The size the program checks as a double is in range as an integer. *)
Lemma bufsize_range s x n :
  unit_atof s = Some x -> d_lt (d_of_Z MAX_TCP_BUFFER) x = false -> d_to_int x = Some n ->
  - 2 ^ 31 <= n <= MAX_TCP_BUFFER.
Proof.
  intros Ha%unit_atof_narrow Hlt Hn. split; [apply d_to_int_range in Hn; lia|].
  unfold d_to_int in Hn. apply bind_Some in Hn as (z & Hz & H). destruct (_ && _) in H; [|done].
  injection H as <-. apply (d_trunc_bound x); [exact Ha|by split|exact Hlt|exact Hz].
Qed.

Lemma unit_atoi_range s n : unit_atoi s = Some n -> is_uint 64 n.
Proof. unfold unit_atoi. intros ([? ?] & _ & H)%bind_Some. by eapply d_to_u64_range. Qed.

Lemma parse_qos_range s : parse_qos s <= 255.
Proof.
  unfold parse_qos. destruct s as [s|]; [|done].
  destruct (list_find _ ipqos) as [[i [name v]]|] eqn:E.
  - apply list_find_Some in E as (E & _). apply list_elem_of_lookup_2 in E.
    revert E. apply Forall_forall with (P := fun e => snd e <= 255). by repeat constructor.
  - destruct (strtol 0 s) as [v ep]. destruct (_ || _) eqn:Ht; [done|]. tested. lia.
Qed.

Lemma parse_rest_ok flag optarg t l r :
  args_inv t l -> parse_rest flag optarg t l = Some r -> step_ok r.
Proof.
  intros [Hl Hd Hc Hu Hb] H. unfold parse_rest in H.
  option_cases.
  all: repeat match goal with
         | H : d_to_u64 _ = Some _ |- _ => apply d_to_u64_range in H
         | H : unit_atoi _ = Some _ |- _ => apply unit_atoi_range in H
         end.
  all: plain_option.
Qed.

Lemma parse_socket_ok flag optarg t l other r :
  args_inv t l -> (forall r, other = Some r -> step_ok r) ->
  parse_socket flag optarg t l other = Some r -> step_ok r.
Proof.
  intros [Hl Hd Hc Hu Hb] Hother H. unfold parse_socket in H.
  option_cases; try (by apply Hother).
  all: try match goal with
         | Ha : unit_atof _ = Some ?x, Hl : d_lt _ ?x = false, H : d_to_int ?x = Some _ |- _ =>
             pose proof (bufsize_range _ _ _ Ha Hl H)
         end.
  all: pose proof (parse_qos_range optarg).
  all: plain_option.
Qed.

(** ** The options that set the direction *)

Lemma check_retransmits_spec t t' :
  check_sender_has_retransmits t = Some t' ->
  exists x, t' = t <| t_sender_has_retransmits := x |> /\ (t_mode t = RECEIVER -> x = 0).
Proof.
  unfold check_sender_has_retransmits. case_decide; [intros [= <-]; eauto|].
  intros (p & _ & [= <-])%bind_Some. eexists. split; [done|]. by intros ?.
Qed.

Lemma same_mode t : t <| t_mode := t_mode t |> = t.
Proof. by destruct t. Qed.

Lemma set_role_spec t role t' :
  role = "c" \/ role = "s" -> (t_reverse t = 0 \/ t_bidirectional t = 0) ->
  iperf_set_test_role t role = Some t' ->
  exists x, t' = t <| t_role := role |> <| t_mode := role_mode role (t_reverse t) (t_bidirectional t) |>
                   <| t_sender_has_retransmits := x |> /\
    (role_mode role (t_reverse t) (t_bidirectional t) = RECEIVER -> x = 0).
Proof.
  unfold iperf_set_test_role, role_mode, nonzero. intros Hr H0 (x & -> & Hx)%check_retransmits_spec.
  exists x. revert Hx. rsimpl.
  destruct (Z.eqb_spec (t_reverse t) 0), (Z.eqb_spec (t_bidirectional t) 0);
    cbn [negb]; try (exfalso; lia); destruct Hr as [-> | ->]; cbn; done.
Qed.

Lemma set_reverse_spec t t' :
  t_bidirectional t = 0 ->
  iperf_set_test_reverse t 1 = Some t' ->
  t_role t = "c" \/ t_role t = "s" \/ t_role t = Ascii.zero ->
  exists m x, t' = t <| t_reverse := 1 |> <| t_mode := m |> <| t_sender_has_retransmits := x |> /\
    (t_role t <> Ascii.zero -> m = role_mode (t_role t) 1 (t_bidirectional t)) /\
    (m = RECEIVER -> x = 0).
Proof.
  unfold iperf_set_test_reverse, role_mode, nonzero. intros Hb (x & -> & Hx)%check_retransmits_spec Hr.
  revert Hx. rsimpl. rewrite Hb. cbn [Z.eqb negb]. intros Hx.
  destruct Hr as [E|[E|E]]; rewrite E in *; cbn in *; [by eexists _, x..|].
  exists (t_mode t), x. split; [|done].
  by rewrite <- (same_mode (t <| t_reverse := 1 |>)).
Qed.

Lemma parse_rate_ok arg t l r : args_inv t l -> parse_rate arg t l = Some r -> step_ok r.
Proof.
  intros [Hl Hd Hc Hu Hb] H. unfold parse_rate in H.
  destruct (strchr arg "/") as [[before after]|].
  all: option_cases.
  all: repeat match goal with H : d_to_u64 _ = Some _ |- _ => apply d_to_u64_range in H end.
  all: plain_option.
Qed.

Lemma parse_bitrate_limit_ok arg t l r :
  args_inv t l -> parse_bitrate_limit arg t l = Some r -> step_ok r.
Proof.
  intros [Hl Hd Hc Hu Hb] H. unfold parse_bitrate_limit in H.
  destruct (strchr arg "/") as [[before after]|].
  all: option_cases.
  all: repeat match goal with H : d_to_u64 _ = Some _ |- _ => apply d_to_u64_range in H end.
  all: plain_option.
Qed.

Lemma nonzero_false z : nonzero z = false <-> z = 0.
Proof. unfold nonzero. by rewrite negb_false_iff, Z.eqb_eq. Qed.

Lemma num_ostreams_ok t l n :
  args_inv t l ->
  args_inv (t <| t_settings ::= fun st => st <| st_num_ostreams := i32 n |> |>) (client_opt l).
Proof. intros [Hl Hd Hc Hu Hb]. plain_option. Qed.

(** The two options that turn the direction. *)
Lemma reverse_ok t t' l :
  args_inv t l -> t_bidirectional t = 0 -> iperf_set_test_reverse t 1 = Some t' ->
  args_inv t' (client_opt l).
Proof.
  intros [Hl Hd Hc Hu Hb] H0 H.
  apply set_reverse_spec in H as (m & x & -> & Hm & Hx); [|done|by destruct Hd].
  constructor; [solve_limits| |solve_defaults|assumption..].
  destruct Hd. constructor; rsimpl; try assumption; tauto.
Qed.

Lemma bidirectional_ok t t' l :
  args_inv t l -> t_reverse t = 0 -> iperf_set_test_bidirectional t 1 = Some t' ->
  args_inv t' (client_opt l).
Proof.
  intros [Hl Hd Hc Hu Hb] H0 H. injection H as <-.
  constructor; [solve_limits| |solve_defaults|assumption..].
  destruct Hd. constructor; rsimpl; try assumption; [tauto|done..].
Qed.

Lemma parse_traffic_ok flag optarg t l other r :
  args_inv t l -> (forall r, other = Some r -> step_ok r) ->
  parse_traffic flag optarg t l other = Some r -> step_ok r.
Proof.
  intros Hi Hother H. unfold parse_traffic in H.
  option_cases; try (by apply Hother).
  all: try (eapply parse_rate_ok; [|eassumption]; first [assumption|by apply num_ostreams_ok]).
  all: try (eapply parse_bitrate_limit_ok; eassumption).
  all: try (eapply reverse_ok; [eassumption|by apply nonzero_false|eassumption]).
  all: try (eapply bidirectional_ok; [eassumption|by apply nonzero_false|eassumption]).
  all: destruct Hi as [Hl Hd Hc Hu Hb].
  all: try match goal with H : unit_atoi _ = Some _ |- _ => apply unit_atoi_range in H end.
  all: plain_option.
  all: apply int_range.
Qed.

Lemma role_ok t t' l role :
  args_inv t l -> role = "c" \/ role = "s" -> iperf_set_test_role t role = Some t' ->
  args_inv t' l.
Proof.
  intros [Hl Hd Hc Hu Hb] Hr H.
  apply set_role_spec in H as (x & -> & Hx); [|done|by destruct Hd].
  constructor; [solve_limits| |solve_defaults|assumption..].
  destruct Hd. constructor; rsimpl; try assumption; [tauto|done..].
Qed.

Lemma hostname_ok t l arg : args_inv t l -> args_inv (iperf_set_test_server_hostname t arg) l.
Proof. intros [Hl Hd Hc Hu Hb]. unfold iperf_set_test_server_hostname. plain_option. Qed.

Lemma udp_ok t t' rc l :
  args_inv t l -> set_protocol t Pudp = Some (rc, t') -> args_inv t' (client_opt l).
Proof.
  intros [Hl Hd Hc Hu Hb] H. unfold set_protocol, get_protocol in H.
  rewrite (dir_protocols _ Hd) in H.
  change (head (filter _ _)) with (Some udp_protocol) in H.
  apply bind_Some in H as (t1 & (x & -> & Hx)%check_retransmits_spec & [= _ <-]).
  constructor; [solve_limits| |solve_defaults|assumption..].
  destruct Hd. constructor; rsimpl; try assumption; [tauto|].
  eexists. split; [done|by right].
Qed.

Lemma parse_general_ok flag optarg t l other r :
  args_inv t l -> (forall r, other = Some r -> step_ok r) ->
  parse_general flag optarg t l other = Some r -> step_ok r.
Proof.
  intros Hi Hother H. unfold parse_general in H.
  option_cases; try (by apply Hother).
  all: try (eapply role_ok; [eassumption| |eassumption]; auto).
  all: cbn [step_ok].
  all: try (apply hostname_ok; eapply role_ok; [eassumption| |eassumption]; auto).
  all: try (eapply udp_ok; eassumption).
  all: destruct Hi as [Hl Hd Hc Hu Hb]; plain_option.
Qed.

Lemma parse_options_ok opts t l r :
  args_inv t l -> parse_options opts t l = Some r -> step_ok r.
Proof.
  revert t l. induction opts as [|[flag optarg] opts IH]; intros t l Hi H; cbn in H.
  - by injection H as <-.
  - apply bind_Some in H as (s & Hs & H).
    assert (step_ok s) as Hok.
    { eapply parse_general_ok; [done| |exact Hs]. intros s1 H1.
      eapply parse_traffic_ok; [done| |exact H1]. intros s2 H2.
      eapply parse_socket_ok; [done| |exact H2]. intros s3 H3.
      eapply parse_run_ok; [done| |exact H3]. intros s4 H4.
      by eapply parse_rest_ok. }
    destruct s; [by eapply IH|by injection H as <-..].
Qed.

(** ** The checks after the options *)

Section Checks.
Context {W : Type} {crypto : Crypto W}.
Context (getenv : string -> option string) (getpass : option (Z * option string)) (w : W).

Lemma and_then_inl r k t :
  and_then r k = Some (inl t) -> exists t0, r = Some (inl t0) /\ k t0 = Some (inl t).
Proof. unfold and_then. intros ([t0|t0] & -> & H)%bind_Some; [eauto|done]. Qed.

Ltac check_cases :=
  repeat match goal with
    | H : Some (inr _) = Some (inl _) |- _ => discriminate H
    | H : Some (inl _) = Some (inl _) |- _ => injection H as <-
    | H : (_ ≫= _) = Some _ |- _ => apply bind_Some in H as (? & ? & H)
    | H : match ?x with _ => _ end = Some _ |- _ => destruct x eqn:?
    end.

Lemma check_client_auth_ok t l t' :
  args_inv t l -> check_client_auth getenv getpass w t l = Some (inl t') -> args_inv t' l.
Proof.
  intros [Hl Hd Hc Hu Hb] H. unfold check_client_auth, client_credentials in H.
  check_cases; plain_option.
Qed.

Lemma check_server_auth_ok t l t' :
  args_inv t l -> check_server_auth w t l = Some (inl t') -> args_inv t' l.
Proof.
  intros [Hl Hd Hc Hu Hb] H. unfold check_server_auth in H.
  check_cases; try destruct (t_server_skew_threshold _ =? 0); plain_option.
Qed.

(** The size of a block an accepted command line leaves; 0 and less stand for the
    segment size of the connection. *)
Definition blksize_ok (t : iperf_test) : Prop :=
  match t_protocol t with
  | Some p =>
      if pr_id p =? Pudp
      then st_blksize (t_settings t) <= 0 \/
           MIN_UDP_BLOCKSIZE <= st_blksize (t_settings t) <= MAX_UDP_BLOCKSIZE
      else 1 <= st_blksize (t_settings t) <= MAX_BLOCKSIZE
  | None => False
  end.

(** The rate of a test that was not given one. *)
Definition default_rate (t : iperf_test) : Z :=
  match t_protocol t with Some p => if pr_id p =? Pudp then UDP_RATE else 0 | None => 0 end.

(** The size of a block when none is asked for. *)
Definition default_blksize (t : iperf_test) : Z :=
  match t_protocol t with
  | Some p => if pr_id p =? Pudp then 0
              else if pr_id p =? Psctp then DEFAULT_SCTP_BLKSIZE else DEFAULT_TCP_BLKSIZE
  | None => 0
  end.

Lemma check_blksize_ok t l t' :
  args_inv t l -> check_blksize t l = Some (inl t') ->
  args_inv t' l /\ blksize_ok t' /\
  (a_rate_flag l = false -> st_rate (t_settings t') = default_rate t') /\
  (a_blksize l = 0 -> st_blksize (t_settings t') = default_blksize t').
Proof.
  intros Hi H. unfold check_blksize in H.
  apply bind_Some in H as (p & Hp & H).
  set (blksize := if a_blksize l =? 0 then _ else _) in H.
  destruct ((negb (pr_id p =? Pudp) && (blksize <=? 0)) || (MAX_BLOCKSIZE <? blksize)) eqn:E1; [done|].
  destruct ((pr_id p =? Pudp) && _) eqn:E2; [done|]. injection H as <-.
  assert (blksize_ok (t <| t_settings ::= fun st => st <| st_blksize := blksize |> |>)) as Hblk.
  { unfold blksize_ok. rsimpl. rewrite Hp.
    apply orb_false_iff in E1 as [E1 E3%Z.ltb_ge]. destruct (pr_id p =? Pudp); cbn in E1, E2.
    - apply andb_false_iff in E2 as [E2%Z.ltb_ge|[E2%Z.ltb_ge E4%Z.ltb_ge]%orb_false_iff]; [by left|right; lia].
    - apply Z.leb_gt in E1. lia. }
  assert (a_blksize l = 0 -> blksize = default_blksize t) as Hsize.
  { unfold default_blksize. rewrite Hp. unfold blksize. by intros ->. }
  clearbody blksize. assert (is_uint 64 (if pr_id p =? Pudp then UDP_RATE else 0)).
  { by destruct (pr_id p =? Pudp). }
  destruct (a_rate_flag l) eqn:Er.
  - split; [|split_and!; [exact Hblk|done|exact Hsize]].
    destruct Hi as [Hl Hd Hc Hu Hb]. clear Hblk Hsize. plain_option.
  - split; [|split_and!; [exact Hblk| |exact Hsize]].
    + clear Hsize. destruct Hi as [Hl Hd Hc Hu Hb]. clear Hblk E1 E2. revert H. generalize (if pr_id p =? Pudp then UDP_RATE else 0).
      intros rate Hrate. plain_option.
    + intros _. unfold default_rate. rsimpl. by rewrite Hp.
Qed.

(** At most one of the three conditions ends the test. *)
Definition one_end (t : iperf_test) : Prop :=
  (st_bytes (t_settings t) = 0 \/ st_blocks (t_settings t) = 0) /\
  (st_bytes (t_settings t) <> 0 \/ st_blocks (t_settings t) <> 0 -> t_duration t = 0).

Lemma check_end_ok t l t' :
  args_inv t l -> check_end t l = Some (inl t') ->
  args_inv t' l /\ one_end t' /\ (t_role t' = "c" \/ t_role t' = "s") /\
  t_settings t' = t_settings t /\ t_protocol t' = t_protocol t.
Proof.
  intros [Hl Hd Hc Hu Hb] H. unfold check_end in H.
  destruct ((a_duration_flag l && _) || _ || _) eqn:E1; [done|].
  destruct (negb _ && negb _) eqn:E2; [done|]. injection H as <-.
  rewrite !orb_false_iff, !andb_false_iff, !nonzero_false in E1. destruct E1 as [[H1 H2] H3].
  rewrite andb_false_iff, !negb_false_iff in E2.
  assert (t_role t = "c" \/ t_role t = "s") as Hrole.
  { destruct ((nonzero _ || nonzero _) && negb _), E2 as [E2|E2]; apply bool_decide_eq_true in E2; auto. }
  clear E2.
  destruct ((nonzero _ || nonzero _) && negb _) eqn:E.
  - split; [|split; [|done]; split; [rsimpl; tauto|done]].
    constructor; [solve_limits|solve_direction| |assumption|assumption].
    intros F. destruct (Hc F) as ([] & _). exfalso.
    apply andb_true_iff in E as [E _]. by rewrite def_bytes0, def_blocks0 in E.
  - split; [by constructor|]. split; [|done]. split; [tauto|].
    rewrite andb_false_iff, orb_false_iff, !nonzero_false, negb_false_iff in E.
    intros Hne. exfalso. destruct E as [?|E]; [lia|]. rewrite E in *.
    destruct H1, H2; [done..|]. lia.
Qed.

Lemma limit_intervals_ok t t' :
  limit_intervals t = Some t' ->
  t' = t \/
  exists n, is_sint 32 n /\ t' = t <| t_settings ::= fun st => st <| st_bitrate_limit_stats_per_interval := n |> |>.
Proof.
  unfold limit_intervals. destruct (d_eq _ _); [intros [= <-]; by left|].
  intros (n & Hn & [= <-])%bind_Some. right. exists n. split; [|done].
  destruct (d_le _ _); [by injection Hn as <-|]. unfold round_to_int in Hn.
  apply bind_Some in Hn as (z & _ & Hn).
  destruct ((- 2 ^ 31 <=? z) && (z <? 2 ^ 31)) eqn:E; [|done]. injection Hn as <-.
  by apply andb_true_iff in E as [?%Z.leb_le ?%Z.ltb_lt].
Qed.
End Checks.

(** ** Accepted command lines *)

Section Accepted.
Context {W : Type} {crypto : Crypto W}.
Context (getenv : string -> option string) (getpass : option (Z * option string)) (w : W).

(** The test [main] parses the command line into. *)
Definition fresh_test (t : iperf_test) : Prop :=
  exists junk t0, iperf_new_test true true true junk = inl t0 /\
    iperf_defaults true true t0 = Some (0, t).

Lemma set_tcp_spec t rc t' :
  t_protocols t = [tcp_protocol; udp_protocol] -> set_protocol t Ptcp = Some (rc, t') ->
  exists x, t' = t <| t_protocol := Some tcp_protocol |> <| t_sender_has_retransmits := x |>.
Proof.
  intros Hp H. unfold set_protocol, get_protocol in H. rewrite Hp in H.
  change (head (filter _ _)) with (Some tcp_protocol) in H.
  apply bind_Some in H as (t1 & (x & -> & _)%check_retransmits_spec & [= _ <-]). by exists x.
Qed.

(** What the parsing relies on in a new test. *)
Lemma default_members_start n junk :
  let t := default_members (zero_test <| t_bitrate_limit_intervals_traffic_bytes := n :: junk |>) in
  in_limits t /\ untouched t /\ t_role t = Ascii.zero /\
  client_defaults (t <| t_protocol := Some tcp_protocol |>).
Proof.
  intros t. split; [|split; [done|split; [done|by constructor]]].
  constructor; cbn; unfold is_uint, is_sint, MAX_TIME, MAX_STREAMS, MAX_MSS, MAX_BURST;
    try lia; try (by apply interval_ok_spec; vm_compute); split; done.
Qed.

Lemma defaults_inv t0 t :
  in_limits (default_members t0) -> untouched (default_members t0) ->
  t_role (default_members t0) = Ascii.zero ->
  client_defaults (default_members t0 <| t_protocol := Some tcp_protocol |>) ->
  iperf_defaults true true t0 = Some (0, t) -> args_inv t no_args.
Proof.
  unfold iperf_defaults. generalize (default_members t0). intros d Hl Hu Hr Hd H. cbn [negb] in H.
  apply bind_Some in H as ([rc t'] & Ht & [= <-]).
  apply set_tcp_spec in Ht as (x & ->); [|done].
  constructor.
  - destruct Hl. constructor; assumption.
  - destruct Hd. constructor; rsimpl; rewrite ?Hr; [tauto|by left|done|done| |done].
    eexists. split; [done|by left].
  - intros _. split; [|done]. destruct Hd. constructor; assumption.
  - assumption.
  - done.
Qed.

Lemma fresh_inv t : fresh_test t -> args_inv t no_args.
Proof.
  intros (junk & t0 & [= <-] & H).
  destruct (default_members_start 0 (take 59 junk)) as (Hl & Hu & Hr & Hd).
  by eapply defaults_inv.
Qed.

(** What the checks leave of a test they accept. *)
Record accepted (t : iperf_test) (l : args) : Prop := {
  acc_inv : args_inv t l;
  acc_blksize : blksize_ok t;
  acc_end : one_end t;
  acc_role : t_role t = "c" \/ t_role t = "s";
  acc_server : t_role t = "s" -> a_client_flag l = false;
  acc_rate : a_rate_flag l = false -> st_rate (t_settings t) = default_rate t;
  acc_size : a_blksize l = 0 -> st_blksize (t_settings t) = default_blksize t }.

Lemma check_roles_ok t l t' :
  check_roles t l = Some (inl t') ->
  t' = t /\ (t_role t = "s" -> a_client_flag l = false).
Proof.
  unfold check_roles. destruct (_ && a_server_flag l); [done|].
  destruct (bool_decide (t_role t = "s") && a_client_flag l) eqn:E; [done|].
  intros [= <-]. split; [done|]. intros Hs. apply andb_false_iff in E as [E|E]; [|done].
  by apply bool_decide_eq_false in E.
Qed.

Lemma check_client_auth_role t l t' :
  check_client_auth getenv getpass w t l = Some (inl t') -> t_role t' = t_role t.
Proof.
  unfold check_client_auth, client_credentials. intros H.
  repeat match goal with
    | H : Some (inr _) = Some (inl _) |- _ => discriminate H
    | H : Some (inl _) = Some (inl _) |- _ => injection H as <-
    | H : (_ ≫= _) = Some _ |- _ => apply bind_Some in H as (? & ? & H)
    | H : match ?x with _ => _ end = Some _ |- _ => destruct x eqn:?
    end; done.
Qed.

Lemma check_server_auth_role t l t' :
  check_server_auth w t l = Some (inl t') -> t_role t' = t_role t.
Proof.
  unfold check_server_auth. intros H.
  repeat match goal with
    | H : Some (inr _) = Some (inl _) |- _ => discriminate H
    | H : Some (inl _) = Some (inl _) |- _ => injection H as <-
    | H : match ?x with _ => _ end = Some _ |- _ => destruct x eqn:?
    end; try destruct (t_server_skew_threshold _ =? 0); done.
Qed.

Lemma check_blksize_role t l t' : check_blksize t l = Some (inl t') -> t_role t' = t_role t.
Proof.
  unfold check_blksize. intros (p & _ & H)%bind_Some.
  destruct (_ || _) in H; [done|]. destruct ((pr_id p =? Pudp) && _) in H; [done|].
  injection H as <-. by destruct (a_rate_flag l).
Qed.

Lemma check_end_role t l t' : check_end t l = Some (inl t') -> t_role t' = t_role t.
Proof.
  unfold check_end. intros H. destruct (_ || _ || _) in H; [done|].
  destruct (negb _ && negb _) in H; [done|]. injection H as <-.
  by destruct ((nonzero _ || nonzero _) && negb _).
Qed.

Lemma accepted_intervals t l n :
  accepted t l -> is_sint 32 n ->
  accepted (t <| t_settings ::= fun st => st <| st_bitrate_limit_stats_per_interval := n |> |>) l.
Proof.
  intros [[Hl Hd Hc Hu Hb] Hblk He Hr Hs Hrate Hsize] Hn. constructor; [plain_option|assumption..].
Qed.

Lemma check_arguments_accepted t l t' :
  args_inv t l -> check_arguments getenv getpass w t l = Some (inl t') -> accepted t' l.
Proof.
  intros Hi H. unfold check_arguments in H.
  apply and_then_inl in H as (t1 & H1 & H). apply check_roles_ok in H1 as [-> Hs].
  apply and_then_inl in H as (t2 & H2 & H).
  pose proof (check_client_auth_ok _ _ _ _ _ _ Hi H2) as Hi2. apply check_client_auth_role in H2.
  apply and_then_inl in H as (t3 & H3 & H).
  pose proof (check_server_auth_ok _ _ _ _ Hi2 H3) as Hi3. apply check_server_auth_role in H3.
  apply and_then_inl in H as (t4 & H4 & H).
  destruct (check_blksize_ok _ _ _ Hi3 H4) as (Hi4 & Hblk & Hrate & Hsize). apply check_blksize_role in H4.
  apply and_then_inl in H as (t5 & H5 & H).
  destruct (check_end_ok _ _ _ Hi4 H5) as (Hi5 & He & Hr & Hst & Hp). apply check_end_role in H5.
  assert (accepted t5 l) as Hacc.
  { constructor; [done| |done|done| | |].
    - unfold blksize_ok in *. by rewrite Hst, Hp.
    - intros Hrole. apply Hs. congruence.
    - intros Hf. unfold default_rate. rewrite Hst, Hp. by apply Hrate.
    - intros Hf. unfold default_blksize. rewrite Hst, Hp. by apply Hsize. }
  apply bind_Some in H as (t6 & H6 & [= <-]).
  apply limit_intervals_ok in H6 as [->|(n & Hn & ->)]; [done|]. by apply accepted_intervals.
Qed.

Lemma parse_accepted argv t t' :
  fresh_test t -> iperf_parse_arguments getenv getpass w argv t = Some (Returns 0 t') ->
  exists l, accepted t' l.
Proof.
  intros Hf H. unfold iperf_parse_arguments in H. apply bind_Some in H as (r & Hr & H).
  apply parse_options_ok in Hr; [|by apply fresh_inv].
  destruct r as [t1 l|t1|status]; [|done..].
  apply bind_Some in H as ([t2|t2] & H2 & H); [|done]. injection H as <-.
  exists l. by eapply check_arguments_accepted.
Qed.

(** C8: whatever command line [iperf_parse_arguments] accepts, every number an option sets fits
    its C type and the limits the program checks: ports, times, timeouts, the intervals of
    statistics, reports and bitrate limits, the skew, streams, burst, sizes, TOS and flow label
    (negative numbers of seconds, streams and segment bytes are let through, and so is "nan" as
    an interval); the role is one of the two and the direction follows from it, the block size
    suits the protocol, and of a time, a number of bytes and a number of blocks at most one
    ends the test. *)
Theorem accepted_limits argv t t' :
  fresh_test t -> iperf_parse_arguments getenv getpass w argv t = Some (Returns 0 t') ->
  in_limits t' /\ blksize_ok t' /\ one_end t' /\
  (t_role t' = "c" \/ t_role t' = "s") /\ (t_reverse t' = 0 \/ t_bidirectional t' = 0) /\
  t_mode t' = role_mode (t_role t') (t_reverse t') (t_bidirectional t').
Proof.
  intros Hf H. destruct (parse_accepted argv t t' Hf H) as (l & [[Hl Hd _ _ _] Hb He Hr _ _ _]).
  destruct Hd as [_ H1 Hm _ _ _]. split_and!; try done. apply Hm.
  by destruct Hr as [-> | ->].
Qed.

(** C35: a server whose command line is accepted waits with every parameter the exchange
    with a client can set at its default, as that exchange needs it, but for the width of
    the UDP counters, which is an option of the server as well: not given, it is at its
    default too. *)
Theorem accepted_server_fresh argv t s :
  fresh_test t -> iperf_parse_arguments getenv getpass w argv t = Some (Returns 0 s) ->
  t_role s = "s" -> defaults s /\ (t_udp_counters_64bit s = 0 -> server_fresh s).
Proof.
  intros Hf H Hrole.
  destruct (parse_accepted argv t s Hf H) as (l & [[_ Hd Hc [Hu1 Hu2] _] _ _ _ Hs Hrate Hsize]).
  destruct (Hc (Hs Hrole)) as ([] & Hr & Hl). destruct Hd as [_ _ Hm Hx _ _].
  specialize (Hrate Hr). unfold default_rate in Hrate. rewrite def_protocol0 in Hrate.
  specialize (Hsize Hl). unfold default_blksize in Hsize. rewrite def_protocol0 in Hsize.
  assert (t_role s <> Ascii.zero) as Hz by by rewrite Hrole.
  specialize (Hm Hz). rewrite Hrole, def_reverse0, def_bidirectional0 in Hm. specialize (Hx Hz Hm).
  unfold defaults, server_fresh. rsimpl. split; [by split_and!|]. intros Hcounters. by split_and!.
Qed.
End Accepted.

(** ** Command lines *)

Import HostCrypto.

Definition new_test : iperf_test :=
  match iperf_new_test true true true [] with
  | inl t => match iperf_defaults true true t with Some (_, t) => t | None => t end
  | inr _ => zero_test
  end.

Lemma new_test_fresh : fresh_test new_test.
Proof.
  exists [], (zero_test <| t_bitrate_limit_intervals_traffic_bytes := [0] |>).
  split; vm_compute; reflexivity.
Qed.

Abbreviation parse argv :=
  (iperf_parse_arguments (W:=unit) (fun _ => None) None tt argv new_test).

Definition parsed_test (argv : list string) : iperf_test :=
  match parse argv with Some (Returns _ t) => t | _ => zero_test end.

Definition client_line : list string :=
  ["-c"; "host"; "-uP4"; "--bitrate=10M/5"; "--rev"; "-n"; "1G"; "-l1400"]%string.
Definition server_line : list string := ["-s"; "-i"; "5"; "--port"; "5002"]%string.

Lemma client_line_accepted : parse client_line = Some (Returns 0 (parsed_test client_line)).
Proof. vm_compute. reflexivity. Qed.

Lemma server_line_accepted : parse server_line = Some (Returns 0 (parsed_test server_line)).
Proof. vm_compute. reflexivity. Qed.

Lemma client_line_numbers :
  t_num_streams (parsed_test client_line) = 4 /\
  st_bytes (t_settings (parsed_test client_line)) = 1073741824 /\
  st_rate (t_settings (parsed_test client_line)) = 10000000 /\
  st_burst (t_settings (parsed_test client_line)) = 5.
Proof. vm_compute. done. Qed.

Lemma accepted_limits_witness :
  in_limits (parsed_test client_line) /\ one_end (parsed_test client_line).
Proof.
  destruct (accepted_limits (W:=unit) (fun _ => None) None tt client_line new_test
              (parsed_test client_line) new_test_fresh client_line_accepted) as (Hl & _ & He & _).
  exact (conj Hl He).
Defined.

Lemma server_line_role :
  t_role (parsed_test server_line) = "s"%char /\ t_udp_counters_64bit (parsed_test server_line) = 0.
Proof. vm_compute. done. Qed.

Lemma accepted_server_fresh_witness :
  defaults (parsed_test server_line) /\ server_fresh (parsed_test server_line).
Proof.
  destruct (accepted_server_fresh (W:=unit) (fun _ => None) None tt server_line new_test
              (parsed_test server_line) new_test_fresh server_line_accepted
              (proj1 server_line_role)) as [Hd Hf].
  exact (conj Hd (Hf (proj2 server_line_role))).
Defined.

(** An interval of zero, which turns periodic reports off, divides the averaging period of
    the rate limit by zero; the quotient does not fit an [int]. *)
Lemma interval_zero_undefined : parse ["-s"; "-i"; "0"]%string = None.
Proof. vm_compute. reflexivity. Qed.

(** Numbers below zero are accepted as the number of streams and as the duration. *)
Lemma negative_accepted :
  let t := parsed_test ["-c"; "host"; "-P"; "-3"; "-t"; "-4"]%string in
  parse ["-c"; "host"; "-P"; "-3"; "-t"; "-4"]%string = Some (Returns 0 t) /\
  t_num_streams t = -3 /\ t_duration t = -4.
Proof. vm_compute. done. Qed.
