(* ===== verification/Prog.v ===== *)
(** * Programs: the state of a session and the functions that change it

    The state of the process while a test runs, and a small state monad for the
    functions that change it: a program may crash or leave the model ([None]:
    a null pointer, a freed block, the exit of [iperf_errexit]). What the code
    takes from its environment besides system calls is gathered in [Machine],
    what it prints to in [Terminal]. *)

From S2P Require Import Prelude Double Bytes Posix IperfTime Timer Net CJson Test Util Lifecycle.

#[local] Open Scope Z_scope.

(** ** The environment *)

Class Machine (W : Type) := {
  mc_endian : endianness;
  (** where [malloc] puts a timer, and whether the n-th other allocation of a
      function succeeds *)
  mc_timer : timer_state -> ptr;
  mc_alloc : nat -> W -> bool;
  (** [errno] *)
  mc_errno : W -> Z;
  mc_set_errno : Z -> W -> W;
  (** what uninitialised locals hold *)
  mc_stack : W -> list Z;
  mc_time : W -> iperf_time;
  mc_interval : W -> iperf_interval_results;
  mc_getenv : string -> option string }.

Class Kernel (W : Type) := {
  (** [select] for reading and writing, with a timeout: how many descriptors are
      ready, and which; the sets are left alone when it fails. The second
      component is what it leaves in the timeout. *)
  sys_select : gset Z -> gset Z -> option (Z * Z) -> W ->
    sysres (Z * gset Z * gset Z) * option (Z * Z) * W;
  (** the processors a process may run on; [None] is all of them *)
  sys_setaffinity : option Z -> W -> sysres unit * W;
  (** [getsockopt(TCP_CONGESTION)] *)
  sys_getcongestion : Z -> W -> sysres string * W }.

(** ** Programs *)

Record session (W : Type) := mk_session {
  ss_test : iperf_test; ss_timers : timer_state; ss_cpu : cpu_static; ss_world : W }.
Arguments mk_session {W}.
Arguments ss_test {W}.
Arguments ss_timers {W}.
Arguments ss_cpu {W}.
Arguments ss_world {W}.

Definition prog (W A : Type) : Type := session W -> option (A * session W).

#[export] Instance prog_ret {W} : MRet (prog W) := fun A a s => Some (a, s).
#[export] Instance prog_bind {W} : MBind (prog W) := fun A B k m s =>
  match m s with Some (a, s) => k a s | None => None end.

Declare Scope prog_scope.
Delimit Scope prog_scope with prog.
(** [if (m < 0) return -1;] *)
Notation "'must' m ';' k" := (mbind (fun r : Z => if r <? 0 then mret (-1) else k) m)
  (at level 200, m at level 100, k at level 200,
   format "'[v' 'must'  m ';' '/' k ']'") : prog_scope.
(** [if (b) { if (m < 0) return -1; }] *)
Notation "'must' m 'if' b ';' k" :=
  (mbind (fun r : Z => if r <? 0 then mret (-1) else k) (if b then m else mret 0))
  (at level 200, m at level 100, b at level 100, k at level 200,
   format "'[v' 'must'  m  'if'  b ';' '/' k ']'") : prog_scope.
#[local] Open Scope prog_scope.

Section Lifts.
Context {W : Type}.
Implicit Types (s : session W).

Definition crash {A} : prog W A := fun _ => None.
Definition gets {A} (f : iperf_test -> A) : prog W A := fun s => Some (f (ss_test s), s).
Definition update (f : iperf_test -> iperf_test) : prog W unit := fun s =>
  Some (tt, mk_session (f (ss_test s)) (ss_timers s) (ss_cpu s) (ss_world s)).
Definition set_timers (tm : timer_state) : prog W unit := fun s =>
  Some (tt, mk_session (ss_test s) tm (ss_cpu s) (ss_world s)).
Definition get_timers : prog W timer_state := fun s => Some (ss_timers s, s).

(** A function that cannot fail, and one that can, on the world. *)
Definition sys {A} (f : W -> A * W) : prog W A := fun s =>
  let '(a, w) := f (ss_world s) in
  Some (a, mk_session (ss_test s) (ss_timers s) (ss_cpu s) w).
Definition io {A} (f : W -> option (A * W)) : prog W A := fun s =>
  match f (ss_world s) with
  | Some (a, w) => Some (a, mk_session (ss_test s) (ss_timers s) (ss_cpu s) w)
  | None => None
  end.

(** A function of the test and the world. *)
Definition on_test {A} (f : iperf_test -> W -> option (A * iperf_test * W)) : prog W A :=
  fun s =>
    match f (ss_test s) (ss_world s) with
    | Some (a, test, w) => Some (a, mk_session test (ss_timers s) (ss_cpu s) w)
    | None => None
    end.
Definition on_test' {A} (f : iperf_test -> W -> A * iperf_test * W) : prog W A :=
  on_test (fun test w => Some (f test w)).

(** [i_errno = ie; return -1;] *)
Definition fails (ie : Z) : prog W Z := update (fun t => t <| t_i_errno := ie |>);; mret (-1).
End Lifts.

(** * Rules of the logic

    [wp m Q s]: from [s] the program [m] ends, without a crash, in an answer and
    a session that satisfy [Q]. The rules follow the monad; [wp_step] applies
    them. *)


Section Wp.
Context {W : Type}.
Implicit Types (s : session W).

Definition wp {A} (m : prog W A) (Q : A -> session W -> Prop) s : Prop :=
  match m s with Some (a, s') => Q a s' | None => False end.

Lemma wp_intro {A} (m : prog W A) s a s' (Q : A -> session W -> Prop) :
  m s = Some (a, s') -> Q a s' -> wp m Q s.
Proof. unfold wp. by intros ->. Qed.

Lemma wp_elim {A} (m : prog W A) Q s : wp m Q s -> exists a s', m s = Some (a, s') /\ Q a s'.
Proof. unfold wp. destruct (m s) as [[a s']|]; [eauto|done]. Qed.

Lemma wp_ret {A} (a : A) (Q : A -> session W -> Prop) s : Q a s -> wp (mret a) Q s.
Proof. done. Qed.

Lemma wp_bind {A B} (m : prog W A) (k : A -> prog W B) Q s :
  wp m (fun a s' => wp (k a) Q s') s -> wp (m ≫= k) Q s.
Proof. unfold wp, mbind, prog_bind. destruct (m s) as [[a s']|]; done. Qed.

Lemma wp_mono {A} (m : prog W A) (P Q : A -> session W -> Prop) s :
  wp m P s -> (forall a s', P a s' -> Q a s') -> wp m Q s.
Proof. unfold wp. destruct (m s) as [[a s']|]; auto. Qed.

Lemma wp_gets {A} (f : iperf_test -> A) Q s : Q (f (ss_test s)) s -> wp (gets f) Q s.
Proof. done. Qed.

Lemma wp_update f Q s :
  Q tt (mk_session (f (ss_test s)) (ss_timers s) (ss_cpu s) (ss_world s)) -> wp (update f) Q s.
Proof. done. Qed.

Lemma wp_get_timers Q s : Q (ss_timers s) s -> wp get_timers Q s.
Proof. done. Qed.

Lemma wp_set_timers tm Q s :
  Q tt (mk_session (ss_test s) tm (ss_cpu s) (ss_world s)) -> wp (set_timers tm) Q s.
Proof. done. Qed.

Lemma wp_sys {A} (f : W -> A * W) Q s :
  (forall a w, f (ss_world s) = (a, w) ->
     Q a (mk_session (ss_test s) (ss_timers s) (ss_cpu s) w)) ->
  wp (sys f) Q s.
Proof. intros H. unfold wp, sys. destruct (f (ss_world s)) eqn:E. auto. Qed.

Lemma wp_io {A} (f : W -> option (A * W)) Q s :
  (exists a w, f (ss_world s) = Some (a, w)) ->
  (forall a w, f (ss_world s) = Some (a, w) ->
     Q a (mk_session (ss_test s) (ss_timers s) (ss_cpu s) w)) ->
  wp (io f) Q s.
Proof. intros (a & w & E) H. unfold wp, io. rewrite E. auto. Qed.

Lemma wp_fails ie Q s :
  Q (-1) (mk_session ((ss_test s) <| t_i_errno := ie |>) (ss_timers s) (ss_cpu s) (ss_world s)) ->
  wp (fails ie) Q s.
Proof. done. Qed.

Lemma wp_must (m k : prog W Z) Q s :
  wp m (fun r s' => if r <? 0 then Q (-1) s' else wp k Q s') s -> wp (must m; k) Q s.
Proof.
  intros H. apply wp_bind. eapply wp_mono; [done|]. intros r s'. cbn. by destruct (r <? 0).
Qed.

Lemma wp_must_if (b : bool) (m k : prog W Z) Q s :
  wp (if b then m else mret 0) (fun r s' => if r <? 0 then Q (-1) s' else wp k Q s') s ->
  wp (must m if b; k) Q s.
Proof. apply wp_must. Qed.

(** A frame: the test, the timers and the processor times are left alone. *)
Definition world_only s s' : Prop :=
  ss_test s' = ss_test s /\ ss_timers s' = ss_timers s /\ ss_cpu s' = ss_cpu s.
End Wp.

(** One step of a program. *)
Ltac wp_step :=
  lazymatch goal with
  | |- wp (mbind _ _) _ _ => apply wp_bind
  | |- wp (mret _) _ _ => apply wp_ret
  | |- wp (gets _) _ _ => apply wp_gets
  | |- wp (update _) _ _ => apply wp_update
  | |- wp get_timers _ _ => apply wp_get_timers
  | |- wp (set_timers _) _ _ => apply wp_set_timers
  | |- wp (fails _) _ _ => apply wp_fails
  | |- wp (sys _) _ _ => apply wp_sys; intros ? ? ?
  end.
Ltac wp_steps := repeat (wp_step; cbn [id ss_test ss_timers ss_cpu ss_world]).
