(* ===== verification/Output.v ===== *)
(** * What the program prints

    The output file and [stderr], the lines of [iperf_printf] and their copies for the
    client, errors ([iperf_err]), and the tree that is printed with --json. [malloc] does
    not fail here. [errno] is that of [Machine]. *)

From S2P Require Import Prelude Double Bytes Posix IperfTime Timer Net CJson CString Printf.
From S2P Require Import JsonText Texts Test JsonTree Api Sockets Util Lifecycle ErrorText Prog.

#[local] Open Scope string_scope.
#[local] Open Scope Z_scope.
#[local] Open Scope prog_scope.

Class Terminal (W : Type) := {
  (** [fprintf] of a text to [outfile]: its length, or a negative number *)
  out_write : string -> W -> Z * W;
  out_flush : W -> Z * W;
  err_write : string -> W -> W;
  (** [printf], which goes to [stdout] wherever [outfile] goes *)
  std_write : string -> W -> W;
  (** the texts of system and resolver errors, and [gerror] *)
  out_strerror : Z -> string;
  out_gai_strerror : Z -> string;
  out_gerror : W -> Z;
  out_set_gerror : Z -> W -> W;
  (** [fopen] of the log file, and whether [outfile] is [stdout] *)
  out_open : string -> W -> bool * W;
  out_is_stdout : W -> bool;
  out_close : W -> W;
  (** [time], [localtime] and [strftime] into 100 bytes *)
  out_timestamp : string -> W -> string * W;
  (** the time, in the format of RFC 1123 and in seconds *)
  out_date : W -> string * Z * W;
  (** [uname]: the system, the node, the release, the version, the machine *)
  out_uname : W -> string * string * string * string * string;
  (** [fstat], of which the size is used *)
  out_fstat : Z -> W -> option Z * W;
  (** the address and the port of a peer, and of both ends of a stream *)
  out_peer : Z -> W -> string * Z;
  out_ends : iperf_stream -> W -> string * Z * string * Z }.

(** ** Lines *)

Definition LINEBUFFER : Z := 1024.

Section Output.
Context {W : Type} {terminal : Terminal W}.

(** The text of a format; what C leaves undefined ends the program. *)
Definition formatted (format : string) (args : list argument) : prog W string :=
  match printf_text format args with Some t => mret t | None => crash end.

Definition out (text : string) : prog W Z := sys (out_write text).

(** The prefix --timestamps asks for. *)
Definition timestamp (strftime_format : iperf_test -> option string)
    : prog W (option string) :=
  timestamps ← gets t_timestamps;
  if timestamps =? 0 then mret None
  else
    f ← gets strftime_format;
    match f with
    | Some f => ct ← sys (out_timestamp f); mret (Some ct)
    | None => crash
    end.

(** [r0 = fprintf(...); if (r0 < 0) return r0; r += r0;], when there is a text. *)
Definition client_out (r : Z) (text : option string) (k : Z -> prog W Z) : prog W Z :=
  match text with
  | Some text => r0 ← out text; if r0 <? 0 then mret r0 else k (r + r0)
  | None => k r
  end.

(** What [linebuffer] holds, and the value of [r]. *)
Definition server_line (ct : option string) (text : string) : string * Z :=
  let ct := default "" ct in
  let r := strlen ct in
  if r <? LINEBUFFER
  then ((ct ++ str_take (Z.to_nat (LINEBUFFER - r - 1)) text)%string, r + strlen text)
  else (str_take (Z.to_nat (LINEBUFFER - 1)) ct, r).

Definition iperf_printf (format : string) (args : list argument) : prog W Z :=
  ct ← timestamp iperf_get_test_timestamp_format;
  role ← gets t_role;
  if decide (role = "c"%char) then
    title ← gets t_title;
    client_out 0 ct (fun r =>
    client_out r (option_map (fun title => title ++ ":  ")%string title) (fun r =>
    text ← formatted format args;
    client_out r (Some text) mret))
  else if decide (role = "s"%char) then
    text ← formatted format args;
    let '(linebuffer, r) := server_line ct text in
    out linebuffer;;
    get ← gets iperf_get_test_get_server_output;
    (if nonzero get
     then update (fun t => t <| t_server_output_list ::= fun l => (l ++ [linebuffer])%list |>)
     else mret tt);;
    mret r
  else mret 0.

Definition iflush : prog W Z := sys out_flush.

Definition iperf_open_logfile : prog W Z :=
  f ← gets t_logfile;
  match f with
  | None => crash
  | Some f =>
      opened ← sys (out_open f);
      if (opened : bool) then mret 0 else fails IELOGFILE
  end.

Definition usage : prog W unit := sys (fun w => (tt, err_write usage_shortstr w)).

Definition usage_long (write : string -> W -> W) : prog W unit :=
  text ← formatted usage_longstr
           [AInt DEFAULT_NO_MSG_RCVD_TIMEOUT; AInt (UDP_RATE ÷ (1024 * 1024));
            AInt DEFAULT_PACING_TIMER; AInt DURATION; AInt (DEFAULT_TCP_BLKSIZE ÷ 1024);
            AInt DEFAULT_UDP_BLKSIZE];
  sys (fun w => (tt, write text w)).

Definition warning (str : string) : prog W unit :=
  sys (fun w => (tt, err_write ("warning: " ++ str ++ nl)%string w)).

(** ** The JSON tree *)

Definition json_add (p : list json_step) (name : string) (item : cJSON) : prog W unit :=
  update (add_json p name item).
Definition json_append (p : list json_step) (item : cJSON) : prog W unit :=
  update (append_json p item).

Definition iperf_json_start : prog W Z :=
  update (fun t => t <| t_json_top := Some (JObject []) |>);;
  json_add [] "start" (JObject []);;
  json_add json_start "connected" (JArray []);;
  json_add [] "intervals" (JArray []);;
  json_add [] "end" (JObject []);;
  mret 0.

(** [cJSON_Print] of a null pointer is a null pointer. *)
Definition iperf_json_finish : prog W Z :=
  title ← gets t_title;
  extra_data ← gets t_extra_data;
  server_json ← gets t_json_server_output;
  server_text ← gets t_server_output_text;
  let add name item := match item with Some item => json_add [] name item | None => mret tt end in
  add "title" (JString <$> title);;
  add "extra_data" (JString <$> extra_data);;
  add "server_output_json" server_json;;
  add "server_output_text" (JString <$> server_text);;
  top ← gets t_json_top;
  match top with
  | None => mret (-1)
  | Some top =>
      match cJSON_Print (fun _ => true) top with
      | None => crash
      | Some None => mret (-1)
      | Some (Some str) =>
          update (fun t => t <| t_json_output_string := Some str |>);;
          out (str ++ nl)%string;;
          iflush;;
          update (fun t => t <| t_json_top := None |> <| t_json_server_output := None |>);;
          mret 0
      end
  end.

(** ** Errors *)

Definition ERROR_LEN : Z := 1000.

(** What [iperf_err] and [iperf_errexit] do with [str]. *)
Definition error_line (ct : option string) (str : string) : prog W unit :=
  stdout ← sys (fun w => (out_is_stdout w, w));
  let line := ("iperf3: " ++ str ++ nl)%string in
  let to (write : string -> prog W unit) :=
    match ct with Some ct => write ct | None => mret tt end;; write line in
  if (stdout : bool) then to (fun t => sys (fun w => (tt, err_write t w)))
  else to (fun t => out t;; mret tt).

Definition error_text (format : string) (args : list argument) : prog W string :=
  text ← formatted format args; mret (str_take (Z.to_nat (ERROR_LEN - 1)) text).

Definition json_active : prog W bool :=
  json_output ← gets t_json_output;
  top ← gets t_json_top;
  mret (nonzero json_output && bool_decide (is_Some top)).

Definition iperf_err (format : string) (args : list argument) : prog W unit :=
  ct ← timestamp t_timestamp_format;
  str ← error_text format args;
  json ← json_active;
  if (json : bool) then json_add [] "error" (JString str) else error_line ct str.

(** [iperf_strerror(i_errno)] *)
Definition error_message {machine : Machine W} : prog W string :=
  ie ← gets t_i_errno;
  e ← sys (fun w => (mc_errno w, w));
  g ← sys (fun w => (out_gerror w, w));
  match iperf_strerror out_strerror out_gai_strerror ie e g with
  | Some (text, g) => sys (fun w => (text, out_set_gerror g w))
  | None => crash
  end.

Definition iperf_delete_pidfile {files : Files W} : prog W Z :=
  pidfile ← gets t_pidfile;
  match pidfile with
  | None => mret 0
  | Some name =>
      r ← sys (sys_unlink name);
      mret (match r with Ok _ => 0 | Err _ => -1 end)
  end.

(** [iperf_errexit] up to its [exit]. *)
Definition iperf_errexit {files : Files W} (format : string) (args : list argument)
    : prog W unit :=
  ct ← timestamp (fun _ => Some "%c "%string);
  str ← error_text format args;
  json ← json_active;
  (if (json : bool) then json_add [] "error" (JString str);; iperf_json_finish;; mret tt
   else error_line ct str);;
  iperf_delete_pidfile;;
  mret tt.

(** ** Building JSON objects *)

(** The buffer [name] up to the characters written so far, the rest of it unknown. *)
Definition NAME_LEN : nat := 100.

(** The item a conversion creates; [None] for an argument of another type, [Some None]
    for the null pointer. *)
Definition json_item (f : ascii) (a : argument) : option (option cJSON) :=
  match a with
  | AInt z => if decide (f = "b"%char) then Some (Some (JBool (nonzero (i32 z)) 0)) else None
  | ALong z =>
      if decide (f = "d"%char) then Some (Some (cJSON_CreateNumber (d_of_Z (i64 z)))) else None
  | ADouble d => if decide (f = "f"%char) then Some (Some (cJSON_CreateNumber d)) else None
  | AStr s => if decide (f = "s"%char) then Some (JString <$> s) else None
  end.

(** [np] is the position in [name]; [None] is an access outside the buffer, a name
    without an end or an argument of the wrong type, [Some None] the null pointer. *)
Fixpoint json_fields (format name : string) (np : nat) (args : list argument)
    (o : list (string * cJSON)) : option (option (list (string * cJSON))) :=
  match format with
  | EmptyString => Some (Some o)
  | String c format =>
      let store c k :=
        if (np <? NAME_LEN)%nat then k (overwrite np (String c EmptyString) name) else None in
      if decide (c = " "%char) then json_fields format name np args o
      else if decide (c = ":"%char) then
        store Ascii.zero (fun name => json_fields format name np args o)
      else if decide (c = "%"%char) then
        match format with
        | EmptyString => Some None
        | String f format =>
            if decide (f = "b" \/ f = "d" \/ f = "f" \/ f = "s")%char then
              match args with
              | [] => None
              | a :: args =>
                  j ← json_item f a;
                  match j with
                  | None => Some None
                  | Some j =>
                      _ ← find_nul name;
                      json_fields format name 0 args (o ++ [(until_nul name, j)])%list
                  end
              end
            else Some None
        end
      else store c (fun name => json_fields format name (S np) args o)
  end.

Definition iperf_json_printf (format : string) (args : list argument) : option (option cJSON) :=
  option_map (option_map JObject) (json_fields format EmptyString 0 args []).

(** ** The system and the features *)

Definition get_system_info : prog W string :=
  '(sysname, nodename, release, version, machine) ← sys (fun w => (out_uname w, w));
  text ← formatted "%s %s %s %s %s"
           [AStr (Some sysname); AStr (Some nodename); AStr (Some release);
            AStr (Some version); AStr (Some machine)];
  mret (str_take 1023 text).
End Output.

(** The features of the build, each appended when there is room. *)
Definition FEATURES_LEN : Z := 1024.

Definition add_feature (features : string) (numfeatures : Z) (feature : string) : string :=
  let cat s t := strncat s t (FEATURES_LEN - strlen s - 1) in
  cat (if 0 <? numfeatures then cat features ", " else features) feature.

Fixpoint add_features (features : string) (numfeatures : Z) (l : list string) : string :=
  match l with
  | [] => if numfeatures =? 0 then add_feature features 0 "None" else features
  | feature :: l => add_features (add_feature features numfeatures feature) (numfeatures + 1) l
  end.

Definition get_optional_features : string :=
  add_features "Optional features available: " 0
    ["CPU affinity setting"; "IPv6 flow label"; "TCP congestion algorithm setting";
     "sendfile / zerocopy"; "socket pacing"; "authentication"; "bind to device";
     "support IPv4 don't fragment"].

(** The text of an IPv4 address mapped into IPv6. *)
Definition mapped_v4_to_regular_v4 (str : string) : string :=
  if strcmp_0 (str_take 7 str) "::ffff:" then str_drop 7 str else str.
