(* ===== verification/OutputProps.v ===== *)
(** * What is printed: lines and JSON objects *)

From S2P Require Import Prelude Double Bytes Posix IperfTime Timer Net CJson CString CStringProps.
From S2P Require Import Printf JsonText Texts JsonParse NumberProps JsonTextProps JsonParseProps.
From S2P Require Import Test JsonTree Api Util Lifecycle Prog Output.

#[local] Open Scope string_scope.
#[local] Open Scope Z_scope.

(** ** iperf_json_printf *)

Definition json_letter (k : kind) : ascii :=
  match k with KInt => "b" | KLong => "d" | KDouble => "f" | KStr => "s" end.

(** What an argument becomes. *)
Definition json_value (a : argument) : cJSON :=
  match a with
  | AInt z => JBool (nonzero (i32 z)) 0
  | ALong z => cJSON_CreateNumber (d_of_Z (i64 z))
  | ADouble d => cJSON_CreateNumber d
  | AStr s => JString (default "" s)
  end.

(** A format without the blanks that are skipped. *)
Fixpoint squeeze (format : string) : string :=
  match format with
  | EmptyString => EmptyString
  | String c format =>
      if decide (c = " "%char) then squeeze format
      else if decide (c = "%"%char) then
        match format with
        | EmptyString => String c EmptyString
        | String f format => String c (String f (squeeze format))
        end
      else String c (squeeze format)
  end.

Fixpoint json_format (fields : list (string * kind)) : string :=
  match fields with
  | [] => EmptyString
  | (name, k) :: fields =>
      name ++ String ":" (String "%" (String (json_letter k) (json_format fields)))
  end.

(** The name of a field fits the buffer and has no character with a meaning. *)
Definition name_char (c : ascii) : bool :=
  negb (bool_decide (c ∈ [" "; ":"; "%"; Ascii.zero]%char)).
Definition plain_name (name : string) : bool :=
  chars name_char name && (String.length name <? NAME_LEN)%nat.

Lemma fields_blank format name np args o :
  json_fields (String " " format) name np args o = json_fields format name np args o.
Proof. reflexivity. Qed.

Lemma fields_colon format name np args o :
  (np < NAME_LEN)%nat ->
  json_fields (String ":" format) name np args o =
    json_fields format (overwrite np (String Ascii.zero EmptyString) name) np args o.
Proof. intros H. cbn [json_fields]. by rewrite (proj2 (Nat.ltb_lt _ _) H). Qed.

Lemma fields_percent f format name np args o :
  json_fields (String "%" (String f format)) name np args o =
    if decide (f = "b" \/ f = "d" \/ f = "f" \/ f = "s")%char then
      match args with
      | [] => None
      | a :: args =>
          j ← json_item f a;
          match j with
          | None => Some None
          | Some j =>
              _ ← find_nul name;
              json_fields format name 0 args (o ++ [(until_nul name, j)])%list
          end
      end
    else Some None.
Proof. reflexivity. Qed.

Lemma fields_char c format name np args o :
  c <> " "%char -> c <> "%"%char ->
  json_fields (String c format) name np args o =
    if (np <? NAME_LEN)%nat then
      if decide (c = ":"%char) then
        json_fields format (overwrite np (String Ascii.zero EmptyString) name) np args o
      else json_fields format (overwrite np (String c EmptyString) name) (S np) args o
    else None.
Proof.
  intros H1 H2. cbn [json_fields]. rewrite (decide_False _ _ H1), (decide_False _ _ H2).
  destruct (decide (c = ":"%char)); by destruct (np <? NAME_LEN)%nat.
Qed.

Lemma json_fields_squeeze format name np args o :
  json_fields format name np args o = json_fields (squeeze format) name np args o.
Proof.
  assert (forall n format name np args o, (String.length format <= n)%nat ->
    json_fields format name np args o = json_fields (squeeze format) name np args o) as H; [|by eapply H].
  clear. induction n as [|n IH]; intros format name np args o Hn; destruct format as [|c format];
    cbn [String.length] in Hn; [done|lia|done|]. cbn [squeeze].
  destruct (decide (c = " "%char)) as [->|Hc]; [rewrite fields_blank; apply IH; lia|].
  destruct (decide (c = "%"%char)) as [->|Hp].
  - destruct format as [|f format]; [done|]. cbn [String.length] in Hn. rewrite !fields_percent.
    destruct (decide _); [|done]. destruct args as [|a args]; [done|].
    destruct (json_item f a) as [[j|]|]; [|done..]. cbn [mbind option_bind].
    destruct (find_nul name); [|done]. cbn [mbind option_bind]. apply IH. lia.
  - rewrite !fields_char by done. destruct (np <? NAME_LEN)%nat; [|done].
    destruct (decide (c = ":"%char)); apply IH; lia.
Qed.

Lemma overwrite_at pre t rest :
  overwrite (String.length pre) t (pre ++ rest) =
    (pre ++ (t ++ str_drop (String.length t) rest))%string.
Proof.
  unfold overwrite. by rewrite str_take_app, str_drop_add, str_drop_app.
Qed.

Lemma name_char_plain c :
  name_char c = true -> c <> " "%char /\ c <> ":"%char /\ c <> "%"%char /\ c <> Ascii.zero.
Proof.
  unfold name_char. rewrite negb_true_iff, bool_decide_eq_false. intros H.
  repeat split; intros ->; apply H; set_solver.
Qed.

Lemma fields_name n format pre rest args o :
  chars name_char n = true -> (String.length pre + String.length n < NAME_LEN)%nat ->
  exists rest', json_fields (n ++ format) (pre ++ rest) (String.length pre) args o =
    json_fields format ((pre ++ n) ++ rest') (String.length (pre ++ n)) args o.
Proof.
  revert pre rest. induction n as [|c n IH]; intros pre rest Hn Hl; cbn [String.length] in Hl.
  - exists rest. by rewrite string_app_nil.
  - cbn [chars] in Hn. apply andb_true_iff in Hn as [Hc Hn].
    destruct (name_char_plain c Hc) as (H1 & H2 & H3 & _).
    destruct (IH (pre ++ String c "")%string (str_drop 1 rest)) as [rest' IH']; [done|..].
    { rewrite length_app_string. cbn. lia. }
    exists rest'. rewrite string_app_cons, fields_char, decide_False by done.
    rewrite (proj2 (Nat.ltb_lt _ _)) by lia. rewrite overwrite_at.
    assert (pre ++ String c n = (pre ++ String c "") ++ n)%string as -> by by rewrite string_app_assoc.
    rewrite <- IH', string_app_assoc, length_app_string. cbn [String.length].
    by rewrite Nat.add_1_r.
Qed.

Lemma has_kind_item a k :
  has_kind a k -> json_item (json_letter k) a = Some (Some (json_value a)).
Proof. destruct a as [| | |[]], k; try done; intros _; reflexivity. Qed.

Lemma letter_known k :
  let f := json_letter k in (f = "b" \/ f = "d" \/ f = "f" \/ f = "s")%char.
Proof. destruct k; cbn; tauto. Qed.

Lemma find_nul_end s t : no_nul s -> find_nul (s ++ String Ascii.zero t) = Some (strlen s).
Proof.
  induction s as [|c s IH]; [done|]. intros [Hc Hs]%no_nul_cons.
  rewrite string_app_cons, strlen_cons. cbn [find_nul]. rewrite (decide_False _ _ Hc), IH by done. done.
Qed.

Lemma until_nul_end s t : no_nul s -> until_nul (s ++ String Ascii.zero t) = s.
Proof. intros Hs. rewrite until_nul_app by done. cbn. by rewrite string_app_nil. Qed.

Lemma name_no_nul n : chars name_char n = true -> no_nul n.
Proof.
  apply chars_mono. intros c Hc. apply negb_true_iff, bool_decide_eq_false.
  by destruct (name_char_plain c Hc) as (_ & _ & _ & ?).
Qed.

Definition json_members (fields : list (string * kind)) (args : list argument)
    : list (string * cJSON) := zip_with (fun f a => (f.1, json_value a)) fields args.

Lemma fields_format fields args name o :
  forallb (fun f => plain_name f.1) fields = true -> Forall2 has_kind args (fields.*2) ->
  json_fields (json_format fields) name 0 args o = Some (Some (o ++ json_members fields args)%list).
Proof.
  revert args name o. induction fields as [|[n k] fields IH]; intros args name o Hn Ha.
  { inversion Ha; subst. cbn. by rewrite app_nil_r. }
  cbn in Ha. apply Forall2_cons_inv_r in Ha as (a & args' & Hk & Ha & ->).
  cbn [forallb] in Hn. apply andb_true_iff in Hn as [[Hp Hl]%andb_true_iff Hn]. cbn [fst] in Hp, Hl.
  apply Nat.ltb_lt in Hl. cbn [json_format].
  destruct (fields_name n (String ":" (String "%" (String (json_letter k) (json_format fields))))
              "" name (a :: args') o) as [rest E]; [done|cbn; lia|].
  change ("" ++ ?t)%string with t in E. change (String.length "") with 0%nat in E. rewrite E. clear E.
  rewrite fields_colon, overwrite_at by done. rewrite fields_percent, decide_True by apply letter_known.
  rewrite (has_kind_item a k Hk). cbn [mbind option_bind].
  change (String Ascii.zero "" ++ ?t)%string with (String Ascii.zero t).
  rewrite find_nul_end by (by apply name_no_nul). cbn [mbind option_bind].
  rewrite until_nul_end by (by apply name_no_nul). rewrite IH by done.
  unfold json_members. cbn [zip_with fst]. by rewrite <- app_assoc.
Qed.

(** C39: [iperf_json_printf] builds the object its format describes: one member for each
    field, in the order of the format and with the name in front of the colon, holding
    the argument of its place as a boolean, a number or a string. Blanks do not count, and
    nothing is written outside the buffer of a name when the names are shorter. *)
Theorem json_printf_spec format fields args :
  squeeze format = json_format fields -> forallb (fun f => plain_name f.1) fields = true ->
  Forall2 has_kind args (fields.*2) ->
  iperf_json_printf format args = Some (Some (JObject (json_members fields args))).
Proof.
  intros Hf Hn Ha. unfold iperf_json_printf. rewrite json_fields_squeeze, Hf.
  by rewrite fields_format.
Qed.

Lemma json_printf_spec_witness :
  iperf_json_printf "foo: %b  bar: %d  bletch: %f  eep: %s"
    [AInt 1; ALong 2; ADouble (d_of_Z 3); AStr (Some "four")] =
  Some (Some (JObject [("foo", JBool true 0); ("bar", cJSON_CreateNumber (d_of_Z 2));
                       ("bletch", cJSON_CreateNumber (d_of_Z 3)); ("eep", JString "four")])).
Proof.
  apply (json_printf_spec _ [("foo", KInt); ("bar", KLong); ("bletch", KDouble); ("eep", KStr)]).
  - reflexivity.
  - reflexivity.
  - repeat constructor.
Defined.

(** ** Lines *)

#[local] Open Scope prog_scope.

(** What has been written to [outfile]. *)
Class TerminalLaws (W : Type) {terminal : Terminal W} := {
  out_log : W -> string;
  out_write_log text w : out_log (out_write text w).2 = (out_log w ++ text)%string;
  out_flush_log w : out_log (out_flush w).2 = out_log w;
  out_timestamp_log f w : out_log (out_timestamp f w).2 = out_log w;
  out_timestamp_length f w : strlen (out_timestamp f w).1 < 100 }.

Definition concat_lines (l : list string) : string := foldr String.append EmptyString l.

Lemma concat_lines_app l l' : concat_lines (l ++ l') = (concat_lines l ++ concat_lines l')%string.
Proof.
  induction l as [|x l IH]; [done|]. cbn [app concat_lines foldr].
  change (foldr String.append "" (l ++ l')) with (concat_lines (l ++ l')). rewrite IH.
  by rewrite string_app_assoc.
Qed.

(** The members of a test that a report writes. *)
Definition forget_times (sp : iperf_stream) : iperf_stream :=
  sp <| sp_result ::= fun r => r <| rs_sender_time := d_zero |> <| rs_receiver_time := d_zero |> |>.
Definition unreported (t : iperf_test) : iperf_test :=
  t <| t_json_top := None |> <| t_server_output_list := [] |> <| t_server_output_text := None |>
    <| t_json_server_output := None |> <| t_streams := [] |>.

Definition queues (t : iperf_test) : Prop := t_role t = "s"%char /\ t_get_server_output t <> 0.

Section Lines.
Context {W : Type} {terminal : Terminal W} {laws : TerminalLaws W}.
Implicit Types s : session W.

(** Between [s] and [s'] there were only reports: lines that a server keeps for its client
    are those it wrote. *)
Record reported s s' : Prop := {
  rp_test : unreported (ss_test s') = unreported (ss_test s);
  rp_streams : map forget_times (t_streams (ss_test s')) = map forget_times (t_streams (ss_test s));
  rp_timers : ss_timers s' = ss_timers s;
  rp_cpu : ss_cpu s' = ss_cpu s;
  rp_output : t_json_server_output (ss_test s') = t_json_server_output (ss_test s) \/
    t_json_server_output (ss_test s') = None;
  rp_lines : exists new,
    t_server_output_list (ss_test s') = (t_server_output_list (ss_test s) ++ new)%list /\
    (queues (ss_test s) ->
     out_log (ss_world s') = (out_log (ss_world s) ++ concat_lines new)%string) }.

Lemma rp_get {A} (f : iperf_test -> A) s s' :
  (forall t, f (unreported t) = f t) -> reported s s' -> f (ss_test s') = f (ss_test s).
Proof. intros Hf H. by rewrite <- Hf, (rp_test _ _ H), Hf. Qed.

Lemma queues_reported s s' : reported s s' -> queues (ss_test s) -> queues (ss_test s').
Proof.
  intros H [H1 H2]. split.
  - by rewrite (rp_get t_role _ _ (fun _ => eq_refl) H).
  - by rewrite (rp_get t_get_server_output _ _ (fun _ => eq_refl) H).
Qed.

#[export] Instance reported_refl : Reflexive reported.
Proof.
  intros s. split; [done..|by left|]. exists []. rewrite app_nil_r. split; [done|].
  by rewrite string_app_nil.
Qed.

#[export] Instance reported_trans : Transitive reported.
Proof.
  intros s1 s2 s3 H12 H23. pose proof (rp_lines _ _ H12) as (l & Hl & Hw).
  pose proof (rp_lines _ _ H23) as (l' & Hl' & Hw'). split.
  - by rewrite (rp_test _ _ H23), (rp_test _ _ H12).
  - by rewrite (rp_streams _ _ H23), (rp_streams _ _ H12).
  - by rewrite (rp_timers _ _ H23), (rp_timers _ _ H12).
  - by rewrite (rp_cpu _ _ H23), (rp_cpu _ _ H12).
  - destruct (rp_output _ _ H23) as [-> | ->]; [apply (rp_output _ _ H12)|by right].
  - exists (l ++ l')%list. split; [by rewrite Hl', Hl, app_assoc|]. intros Hq.
    rewrite Hw' by (by eapply queues_reported). rewrite Hw by done.
    by rewrite concat_lines_app, string_app_assoc.
Qed.

(** An update of what is forgotten. *)
Lemma reported_update f s :
  unreported (f (ss_test s)) = unreported (ss_test s) ->
  map forget_times (t_streams (f (ss_test s))) = map forget_times (t_streams (ss_test s)) ->
  t_server_output_list (f (ss_test s)) = t_server_output_list (ss_test s) ->
  t_json_server_output (f (ss_test s)) = t_json_server_output (ss_test s) \/
    t_json_server_output (f (ss_test s)) = None ->
  reported s (mk_session (f (ss_test s)) (ss_timers s) (ss_cpu s) (ss_world s)).
Proof.
  intros H1 H2 H3 H4. split; cbn; [done..|]. exists []. rewrite app_nil_r.
  split; [done|]. by rewrite string_app_nil.
Qed.

(** Calls that write nothing. *)
Lemma reported_world s w :
  (queues (ss_test s) -> out_log w = out_log (ss_world s)) ->
  reported s (mk_session (ss_test s) (ss_timers s) (ss_cpu s) w).
Proof.
  intros H. split; cbn; [done..|by left|]. exists []. rewrite app_nil_r. split; [done|].
  intros Hq. by rewrite string_app_nil, H.
Qed.

(** What a line needs. *)
Definition stamped (t : iperf_test) : Prop := t_timestamps t = 0 \/ is_Some (t_timestamp_format t).

Lemma stamped_reported s s' : reported s s' -> stamped (ss_test s) -> stamped (ss_test s').
Proof.
  intros H. unfold stamped. by rewrite (rp_get t_timestamps _ _ (fun _ => eq_refl) H),
    (rp_get t_timestamp_format _ _ (fun _ => eq_refl) H).
Qed.

(** The prefix of a line. *)
Definition stamp (s : session W) : string :=
  if t_timestamps (ss_test s) =? 0 then EmptyString
  else match t_timestamp_format (ss_test s) with
       | Some f => (out_timestamp f (ss_world s)).1
       | None => EmptyString
       end.

Lemma wp_timestamp s :
  stamped (ss_test s) ->
  wp (timestamp iperf_get_test_timestamp_format)
    (fun ct s' => ss_test s' = ss_test s /\ ss_timers s' = ss_timers s /\ ss_cpu s' = ss_cpu s /\
       out_log (ss_world s') = out_log (ss_world s) /\ strlen (default "" ct) < 100 /\
       default "" ct = stamp s) s.
Proof.
  intros Hs. unfold timestamp, stamp. wp_steps.
  destruct (Z.eqb_spec (t_timestamps (ss_test s)) 0) as [E|E]; [by wp_steps|].
  wp_steps. unfold iperf_get_test_timestamp_format. destruct Hs as [Hs|[f ->]]; [done|]. wp_steps.
  pose proof (out_timestamp_log f (ss_world s)) as Hl.
  pose proof (out_timestamp_length f (ss_world s)) as Hn.
  by destruct (out_timestamp f _); simplify_eq.
Qed.

Lemma formatted_text format args Q s text :
  printf_text format args = Some text -> Q text s -> wp (formatted format args) Q s.
Proof. unfold formatted. by intros ->. Qed.

Lemma client_out_reported s0 r text k Q s :
  ~ queues (ss_test s0) -> reported s0 s ->
  (forall r s', reported s0 s' -> ss_test s' = ss_test s -> wp (k r) Q s') ->
  (forall r s', reported s0 s' -> Q r s') ->
  wp (client_out r text k) Q s.
Proof.
  intros Hq Hs Hk HQ. unfold client_out. destruct text as [text|]; [|by apply Hk].
  apply wp_bind, wp_sys. intros r0 w _.
  assert (reported s0 (mk_session (ss_test s) (ss_timers s) (ss_cpu s) w)) as Hs'.
  { etrans; [exact Hs|]. apply reported_world. intros H. destruct Hq. destruct H as [H1 H2]. split.
    - by rewrite <- (rp_get t_role _ _ (fun _ => eq_refl) Hs).
    - by rewrite <- (rp_get t_get_server_output _ _ (fun _ => eq_refl) Hs). }
  destruct (r0 <? 0); [apply wp_ret; by apply HQ|by apply Hk].
Qed.

(** The buffer of a server's line holds as much of the line as fits. *)
Lemma server_line_take ct text :
  strlen (default "" ct) < 100 ->
  server_line ct text =
    (str_take 1023 (default "" ct ++ text), strlen (default "" ct) + strlen text).
Proof.
  intros H. unfold server_line, LINEBUFFER. destruct (Z.ltb_spec (strlen (default "" ct)) 1024); [|lia].
  f_equal. unfold strlen in *. rewrite str_take_app_ge by lia. do 2 f_equal. lia.
Qed.

Lemma wp_server_printf format args text s :
  t_role (ss_test s) = "s"%char -> stamped (ss_test s) -> printf_text format args = Some text ->
  wp (iperf_printf format args)
    (fun r s' => r = strlen (stamp s ++ text) /\
       let linebuffer := str_take 1023 (stamp s ++ text) in
       ss_test s' = (if nonzero (t_get_server_output (ss_test s))
                     then (ss_test s) <| t_server_output_list ::= fun l => (l ++ [linebuffer])%list |>
                     else ss_test s) /\
       ss_timers s' = ss_timers s /\ ss_cpu s' = ss_cpu s /\
       out_log (ss_world s') = (out_log (ss_world s) ++ linebuffer)%string) s.
Proof.
  intros Hr Hs Ht. unfold iperf_printf. apply wp_bind. eapply wp_mono; [by apply wp_timestamp|].
  intros ct s1 (E1 & E2 & E3 & Hl & Hct & Hst). wp_steps. rewrite E1, Hr, decide_False, decide_True by done.
  apply wp_bind. eapply formatted_text; [exact Ht|]. rewrite server_line_take by done.
  apply wp_bind, wp_sys. intros r0 w E. pose proof (out_write_log (str_take 1023 (default "" ct ++ text)) (ss_world s1)) as Hw.
  rewrite E in Hw. cbn [snd] in Hw. wp_steps. unfold iperf_get_test_get_server_output. rewrite E1.
  rewrite Hst in *.
  destruct (nonzero _); wp_steps; cbn zeta; rewrite ?strlen_app, ?Hw, ?Hl, ?E1; repeat split; done.
Qed.

Lemma wp_iperf_printf format args s :
  stamped (ss_test s) -> is_Some (printf_text format args) ->
  wp (iperf_printf format args) (fun _ s' => reported s s') s.
Proof.
  intros Hs [text Ht]. destruct (decide (t_role (ss_test s) = "s"%char)) as [Hr|Hr].
  - eapply wp_mono; [by eapply wp_server_printf|]. cbn. intros r s' (_ & E1 & E2 & E3 & Hw).
    split; [| |done..| |].
    + rewrite E1. by destruct (nonzero _).
    + rewrite E1. by destruct (nonzero _).
    + left. rewrite E1. by destruct (nonzero _).
    + rewrite E1. unfold queues, nonzero. destruct (Z.eqb_spec (t_get_server_output (ss_test s)) 0) as [E|E]; cbn.
      * exists []. rewrite app_nil_r. split; [done|]. by intros [_ Hn].
      * eexists [_]. split; [done|]. intros _. cbn. by rewrite string_app_nil, Hw.
  - unfold iperf_printf. apply wp_bind. eapply wp_mono; [by apply wp_timestamp|].
    intros ct s1 (E1 & E2 & E3 & Hl & _ & _).
    assert (reported s s1) as H1.
    { destruct s1 as [t1 tm1 c1 w1]. cbn in *. subst. apply reported_world. done. }
    assert (~ queues (ss_test s)) as Hq by by intros [].
    wp_steps. rewrite E1. case_decide; [|rewrite decide_False by done; by wp_steps].
    wp_steps. apply (client_out_reported s); [done|done| |done]. intros r s2 H2 _.
    apply (client_out_reported s); [done|done| |done]. intros r2 s3 H3 _.
    apply wp_bind. eapply formatted_text; [exact Ht|].
    apply (client_out_reported s); [done|done| |done]. intros r3 s4 H4 _. by apply wp_ret.
Qed.
End Lines.

(** C38: a server's line is written and kept for its client in the same words. It is the
    timestamp and the text of the format, cut off behind 1023 characters; the answer is
    its whole length, and nothing but the list of lines is changed. *)
Theorem server_line_kept {W} {terminal : Terminal W} {laws : TerminalLaws W}
    format args text (s : session W) :
  queues (ss_test s) -> stamped (ss_test s) -> printf_text format args = Some text ->
  let linebuffer := str_take 1023 (stamp s ++ text) in
  strlen linebuffer < LINEBUFFER /\
  exists s', iperf_printf format args s = Some (strlen (stamp s ++ text), s') /\
    out_log (ss_world s') = (out_log (ss_world s) ++ linebuffer)%string /\
    ss_test s' = (ss_test s) <| t_server_output_list ::= fun l => (l ++ [linebuffer])%list |> /\
    ss_timers s' = ss_timers s /\ ss_cpu s' = ss_cpu s.
Proof.
  intros [Hr Hg] Hs Ht. cbn zeta. split. { unfold strlen, LINEBUFFER. rewrite length_str_take. lia. }
  destruct (wp_elim _ _ _ (wp_server_printf format args text s Hr Hs Ht))
    as (r & s' & E & -> & E1 & E2 & E3 & Hw).
  exists s'. split; [done|]. split; [done|]. split; [|done]. rewrite E1. unfold nonzero.
  by destruct (Z.eqb_spec (t_get_server_output (ss_test s)) 0).
Qed.

(** A terminal that records what is written. *)
Module Recorder.
#[global] Instance recorder : Terminal string := {
  out_write text w := (strlen text, (w ++ text)%string);
  out_flush w := (0, w);
  err_write _ w := w;
  std_write _ w := w;
  out_close w := w;
  out_strerror _ := "error";
  out_gai_strerror _ := "error";
  out_gerror _ := 0;
  out_set_gerror _ w := w;
  out_open _ w := (true, w);
  out_is_stdout _ := true;
  out_timestamp _ w := ("12:00 ", w);
  out_date w := ("Thu, 01 Jan 1970 00:00:00 GMT", 0, w);
  out_uname _ := ("Linux", "host", "6", "1", "x86_64");
  out_fstat _ w := (None, w);
  out_peer _ _ := ("::ffff:10.0.0.1", 5201);
  out_ends _ _ := ("10.0.0.2", 5201, "10.0.0.1", 40000) }.
#[global] Instance recorder_laws : TerminalLaws string.
Proof. by refine {| out_log := id |}. Defined.
End Recorder.

Definition ex_session (t : iperf_test) : session string :=
  mk_session t (mk_tmr ∅ None None) (mk_cpu time_zero 0 (mk_timeval 0 0, mk_timeval 0 0)) "".

Definition ex_serving : iperf_test :=
  zero_test <| t_role := "s"%char |> <| t_get_server_output := 1 |> <| t_timestamps := 1 |>
    <| t_timestamp_format := Some "%H:%M " |>.

Import Recorder.

Lemma server_line_kept_witness :
  exists s', iperf_printf report_bw_separator [] (ex_session ex_serving) = Some (56, s') /\
    t_server_output_list (ss_test s') = ["12:00 " ++ report_bw_separator]%string.
Proof.
  destruct (server_line_kept report_bw_separator [] report_bw_separator (ex_session ex_serving))
    as (_ & s' & E & _ & Et & _); [by split|right; by eexists|reflexivity|].
  exists s'. split; [exact E|]. rewrite Et. reflexivity.
Defined.
