(* ===== verification/Report.v ===== *)
(** * iperf_api.c: the reports

    The rows of an interval, one for each stream and one for their sum, and the summary
    at the end of a test; as lines of text or as members of the JSON tree. The messages
    of --debug, which go to [stdout] directly, are left out. *)

From S2P Require Import Prelude Double Bytes Posix IperfTime Timer Net CJson CString Printf.
From S2P Require Import JsonText Texts Units Test JsonTree Api Util Lifecycle Prog Output.

#[local] Open Scope string_scope.
#[local] Open Scope Z_scope.
#[local] Open Scope prog_scope.

Definition UNIT_LEN : Z := 32.

(** [iperf_time_diff] and [iperf_time_in_secs] *)
Definition seconds_between (a b : iperf_time) : double :=
  iperf_time_in_secs (iperf_time_diff a b).2.

(** Whether the protocol is a stream protocol. *)
Definition by_bytes (prot : Z) : bool := (prot =? Ptcp) || (prot =? Psctp).

Definition percent_of (lost packets : Z) : double :=
  if 0 <? packets then d_div (d_mul (d_of_Z 100) (d_of_Z lost)) (d_of_Z packets) else d_zero.

(** A rate is zero when there was no time. *)
Definition rate_of (bytes : Z) (seconds : double) : double :=
  if d_lt d_zero seconds then d_div (d_of_Z bytes) seconds else d_zero.

Definition times_8 (d : double) : double := d_mul d (d_of_Z 8).
Definition times_1000 (d : double) : double := d_mul d (d_of_Z 1000).
Definition units (d : double) (f : ascii) : string := unit_snprintf UNIT_LEN d f.

(** [mbuf]: the role of the streams, in bidirectional mode. *)
Definition role_label (test : iperf_test) (sender : Z) : string :=
  match t_mode test with
  | BIDIRECTIONAL =>
      "[" ++ (if nonzero sender then "TX" else "RX") ++ "-" ++
      (if decide (t_role test = "c"%char) then "C" else "S") ++ "]"
  | _ => ""
  end.
Definition zbuf (test : iperf_test) : string :=
  match t_mode test with BIDIRECTIONAL => "          " | _ => "" end.

Definition omitted_label (omitted : Z) : string :=
  if nonzero omitted then report_omitted else "".

(** The values of [stream_must_be_sender]: the squares of the modes from [lower_mode] to
    [upper_mode]. *)
Definition passes (test : iperf_test) : list Z :=
  match t_mode test with
  | BIDIRECTIONAL => if decide (t_role test = "c"%char) then [1; 0] else [0; 1]
  | SENDER => [1]
  | RECEIVER => [0]
  end.

Definition json_interval : list json_step := [Member "intervals"; Last].
Definition json_interval_streams : list json_step := [Member "intervals"; Last; Member "streams"].
Definition json_summary_streams : list json_step := [Member "end"; Member "streams"].
Definition json_summary_stream : list json_step := [Member "end"; Member "streams"; Last].

Section Report.
Context {W : Type} {terminal : Terminal W}.

(** An object of [iperf_json_printf] added somewhere; a null pointer is not added. *)
Definition add_printf (add : cJSON -> prog W unit) (format : string) (args : list argument)
    : prog W unit :=
  match iperf_json_printf format args with
  | None => crash
  | Some None => mret tt
  | Some (Some j) => add j
  end.

Definition line (format : string) (args : list argument) : prog W unit :=
  iperf_printf format args;; mret tt.
Definition text_line (text : string) : prog W unit := line "%s" [AStr (Some text)].

(** [test->protocol->id] *)
Definition protocol_id : prog W Z :=
  p ← gets t_protocol; match p with Some p => mret (pr_id p) | None => crash end.

(** ** The row of a stream *)

Definition interval_header (i : nat) (prot : Z) (sp : iperf_stream)
    (irp : iperf_interval_results) : prog W unit :=
  test ← gets id;
  if (0 <? i)%nat then mret tt
  else if iperf_time_compare (rs_start_time (sp_result sp)) (ir_interval_start_time irp) =? 0 then
    let bidir := nonzero (t_bidirectional test) in
    if by_bytes prot then
      if t_sender_has_retransmits test =? 1 then
        text_line (if bidir then report_bw_retrans_cwnd_header_bidir
                   else report_bw_retrans_cwnd_header)
      else text_line (if bidir then report_bw_header_bidir else report_bw_header)
    else
      text_line
        match t_mode test with
        | SENDER => report_bw_udp_sender_header
        | RECEIVER => report_bw_udp_header
        | BIDIRECTIONAL => report_bw_udp_header_bidir
        end
  else if 1 <? t_num_streams test then text_line report_bw_separator
  else mret tt.

Definition add_row (format : string) (args : list argument) : prog W unit :=
  add_printf (json_append json_interval_streams) format args.

(** [i] is the place of [sp] among the streams. *)
Definition print_interval_results (i : nat) (sp : iperf_stream) : prog W unit :=
  test ← gets id;
  match last (rs_interval_results (sp_result sp)) with
  | None => iperf_err "print_interval_results error: interval_results is NULL" []
  | Some irp =>
      prot ← protocol_id;
      let json := nonzero (t_json_output test) in
      (if json then mret tt else interval_header i prot sp irp);;
      let bytes := ir_bytes_transferred irp in
      let ubuf := units (d_of_Z bytes) "A" in
      let bandwidth := rate_of bytes (ir_interval_duration irp) in
      let nbuf := units bandwidth (st_unit_format (t_settings test)) in
      let st := seconds_between (rs_start_time (sp_result sp)) (ir_interval_start_time irp) in
      let et := seconds_between (rs_start_time (sp_result sp)) (ir_interval_end_time irp) in
      let head_json := [ALong (sp_socket sp); ADouble st; ADouble et;
                        ADouble (ir_interval_duration irp); ALong bytes;
                        ADouble (times_8 bandwidth)] in
      let tail_json := [AInt (ir_omitted irp); AInt (sp_sender sp)] in
      let head := [AInt (sp_socket sp); AStr (Some (role_label test (sp_sender sp)));
                   ADouble st; ADouble et; AStr (Some ubuf); AStr (Some nbuf)] in
      let tail := [AStr (Some (omitted_label (ir_omitted irp)))] in
      (if by_bytes prot then
         if (t_sender_has_retransmits test =? 1) && nonzero (sp_sender sp) then
           if json then
             add_row "socket: %d  start: %f  end: %f  seconds: %f  bytes: %d  bits_per_second: %f  retransmits: %d  snd_cwnd:  %d  snd_wnd:  %d  rtt:  %d  rttvar: %d  pmtu: %d  omitted: %b sender: %b"
               (head_json ++
                [ALong (ir_interval_retrans irp); ALong (ir_snd_cwnd irp); ALong (ir_snd_wnd irp);
                 ALong (ir_rtt irp); ALong (ir_rttvar irp); ALong (ir_pmtu irp)] ++ tail_json)
           else
             let cbuf := units (d_of_Z (ir_snd_cwnd irp)) "A" in
             line report_bw_retrans_cwnd_format
               (head ++ [AInt (ir_interval_retrans irp); AStr (Some cbuf)] ++ tail)
         else if json then
           add_row "socket: %d  start: %f  end: %f  seconds: %f  bytes: %d  bits_per_second: %f  omitted: %b sender: %b"
             (head_json ++ tail_json)
         else line report_bw_format (head ++ tail)
       else if nonzero (sp_sender sp) then
         if json then
           add_row "socket: %d  start: %f  end: %f  seconds: %f  bytes: %d  bits_per_second: %f  packets: %d  omitted: %b sender: %b"
             (head_json ++ [ALong (ir_interval_packet_count irp)] ++ tail_json)
         else
           line report_bw_udp_sender_format
             (head ++ [AStr (Some (zbuf test)); AInt (ir_interval_packet_count irp)] ++ tail)
       else
         let lost_percent := percent_of (ir_interval_cnt_error irp) (ir_interval_packet_count irp) in
         let jitter_ms := times_1000 (ir_jitter irp) in
         if json then
           add_row "socket: %d  start: %f  end: %f  seconds: %f  bytes: %d  bits_per_second: %f  jitter_ms: %f  lost_packets: %d  packets: %d  lost_percent: %f  omitted: %b sender: %b"
             (head_json ++
              [ADouble jitter_ms; ALong (ir_interval_cnt_error irp);
               ALong (ir_interval_packet_count irp); ADouble lost_percent] ++ tail_json)
         else
           line report_bw_udp_format
             (head ++ [ADouble jitter_ms; AInt (ir_interval_cnt_error irp);
                       AInt (ir_interval_packet_count irp); ADouble lost_percent] ++ tail))%list;;
      if bool_decide (is_Some (t_logfile test)) || nonzero (t_forceflush test)
      then iflush;; mret tt else mret tt
  end.

(** ** An interval *)

(** Whether the last interval of a stream is worth reporting. *)
Definition interval_counts (test : iperf_test) (sp : iperf_stream) : bool :=
  match last (rs_interval_results (sp_result sp)) with
  | None => false
  | Some irp =>
      let interval_len :=
        seconds_between (ir_interval_start_time irp) (ir_interval_end_time irp) in
      d_le (d_mul (t_stats_interval test) (d_of_decimal false 1 (-1))) interval_len
      || (0 <? ir_bytes_transferred irp)
  end.

(** The sums over the streams of one direction. *)
Record interval_sums := mk_interval_sums {
  is_bytes : Z; is_retransmits : Z; is_packets : Z; is_lost : Z; is_jitter : double }.

Definition no_sums : interval_sums := mk_interval_sums 0 0 0 0 d_zero.

Definition sum_interval (prot sender_has_retransmits : Z) (s : interval_sums)
    (irp : iperf_interval_results) : interval_sums :=
  let bytes := u64 (is_bytes s + ir_bytes_transferred irp) in
  if prot =? Ptcp then
    mk_interval_sums bytes
      (if sender_has_retransmits =? 1 then i32 (is_retransmits s + ir_interval_retrans irp)
       else is_retransmits s)
      (is_packets s) (is_lost s) (is_jitter s)
  else
    mk_interval_sums bytes (is_retransmits s)
      (i32 (is_packets s + ir_interval_packet_count irp))
      (i32 (is_lost s + ir_interval_cnt_error irp))
      (d_add (is_jitter s) (ir_jitter irp)).

(** The loop over the streams from the [i]-th on; [None] when it returns from the report. *)
Fixpoint interval_rows (must_be_sender : Z) (i : nat) (sps : list iperf_stream)
    (s : interval_sums) : prog W (option interval_sums) :=
  match sps with
  | [] => mret (Some s)
  | sp :: sps =>
      if sp_sender sp =? must_be_sender then
        print_interval_results i sp;;
        match last (rs_interval_results (sp_result sp)) with
        | None =>
            iperf_err "iperf_print_intermediate error: interval_results is NULL" [];;
            mret None
        | Some irp =>
            prot ← protocol_id;
            has ← gets t_sender_has_retransmits;
            interval_rows must_be_sender (S i) sps (sum_interval prot has s irp)
        end
      else interval_rows must_be_sender (S i) sps s
  end.

Definition add_sum (format : string) (args : list argument) : prog W unit :=
  add_printf (json_add json_interval "sum") format args.

(** The row of the sum; the times are those of the first stream. *)
Definition interval_sum (must_be_sender : Z) (s : interval_sums) (sp : iperf_stream)
    : prog W unit :=
  test ← gets id;
  match last (rs_interval_results (sp_result sp)) with
  | None => crash
  | Some irp =>
      prot ← protocol_id;
      let json := nonzero (t_json_output test) in
      let ubuf := units (d_of_Z (is_bytes s)) "A" in
      let bandwidth := d_div (d_of_Z (is_bytes s)) (ir_interval_duration irp) in
      let nbuf := units bandwidth (st_unit_format (t_settings test)) in
      let st := seconds_between (rs_start_time (sp_result sp)) (ir_interval_start_time irp) in
      let et := seconds_between (rs_start_time (sp_result sp)) (ir_interval_end_time irp) in
      let head_json := [ADouble st; ADouble et; ADouble (ir_interval_duration irp);
                        ALong (is_bytes s); ADouble (times_8 bandwidth)] in
      let tail_json omitted := [AInt omitted; AInt must_be_sender] in
      let head := [AStr (Some (role_label test must_be_sender)); ADouble st; ADouble et;
                   AStr (Some ubuf); AStr (Some nbuf)] in
      let tail omitted := [AStr (Some (omitted_label omitted))] in
      (if by_bytes prot then
         if (t_sender_has_retransmits test =? 1) && nonzero must_be_sender then
           if json then
             add_sum "start: %f  end: %f  seconds: %f  bytes: %d  bits_per_second: %f  retransmits: %d  omitted: %b sender: %b"
               (head_json ++ [ALong (is_retransmits s)] ++ tail_json (ir_omitted irp))
           else
             line report_sum_bw_retrans_format
               (head ++ [AInt (is_retransmits s)] ++ tail (ir_omitted irp))
         else if json then
           add_sum "start: %f  end: %f  seconds: %f  bytes: %d  bits_per_second: %f  omitted: %b sender: %b"
             (head_json ++ tail_json (t_omitting test))
         else line report_sum_bw_format (head ++ tail (t_omitting test))
       else if nonzero must_be_sender then
         if json then
           add_sum "start: %f  end: %f  seconds: %f  bytes: %d  bits_per_second: %f  packets: %d  omitted: %b sender: %b"
             (head_json ++ [ALong (is_packets s)] ++ tail_json (t_omitting test))
         else
           line report_sum_bw_udp_sender_format
             (head ++ [AStr (Some (zbuf test)); AInt (is_packets s)] ++ tail (t_omitting test))
       else
         let avg_jitter := d_div (is_jitter s) (d_of_Z (t_num_streams test)) in
         let lost_percent := percent_of (is_lost s) (is_packets s) in
         if json then
           add_sum "start: %f  end: %f  seconds: %f  bytes: %d  bits_per_second: %f  jitter_ms: %f  lost_packets: %d  packets: %d  lost_percent: %f  omitted: %b sender: %b"
             (head_json ++
              [ADouble (times_1000 avg_jitter); ALong (is_lost s); ALong (is_packets s);
               ADouble lost_percent] ++ tail_json (t_omitting test))
         else
           line report_sum_bw_udp_format
             (head ++ [ADouble (times_1000 avg_jitter); AInt (is_lost s); AInt (is_packets s);
                       ADouble lost_percent] ++ tail (t_omitting test)))%list
  end.

(** The loop over the directions. *)
Fixpoint interval_passes (l : list Z) : prog W unit :=
  match l with
  | [] => mret tt
  | must_be_sender :: l =>
      sps ← gets t_streams;
      s ← interval_rows must_be_sender 0 sps no_sums;
      match s with
      | None => mret tt
      | Some s =>
          test ← gets id;
          (if (1 <? t_num_streams test) || nonzero (t_json_output test) then
             match sps with
             | [] => mret tt
             | sp :: _ => interval_sum must_be_sender s sp
             end
           else mret tt);;
          interval_passes l
      end
  end.

Definition iperf_print_intermediate : prog W unit :=
  test ← gets id;
  if negb (existsb (interval_counts test) (t_streams test)) then mret tt
  else
    (if nonzero (t_json_output test) then
       json_append json_intervals (JObject []);;
       json_add json_interval "streams" (JArray [])
     else mret tt);;
    interval_passes (passes test).

(** ** The summary *)

(** The sums of the summary; the counters of [lost] and [jitter] are the receiver's. *)
Record summary := mk_summary {
  su_sent : Z; su_received : Z; su_retransmits : Z; su_packets : Z;
  su_sender_packets : Z; su_receiver_packets : Z; su_lost : Z; su_jitter : double }.

Definition no_summary : summary := mk_summary 0 0 0 0 0 0 0 d_zero.

(** [sender_packet_count] and [receiver_packet_count] *)
Definition both_counts (sp : iperf_stream) : Z * Z :=
  if nonzero (sp_sender sp) then (sp_packet_count sp, sp_peer_packet_count sp)
  else (sp_peer_packet_count sp, sp_packet_count sp).

Definition sent_bytes (sp : iperf_stream) : Z :=
  u64 (rs_bytes_sent (sp_result sp) - rs_bytes_sent_omit (sp_result sp)).

(** The sender's count of packets, or the receiver's where there is none. *)
Definition known_packets (sp : iperf_stream) : Z :=
  let '(sender, receiver) := both_counts sp in if nonzero sender then sender else receiver.

Definition stream_lost (sp : iperf_stream) : Z := i32 (sp_cnt_error sp - sp_omitted_cnt_error sp).
Definition stream_outoforder (sp : iperf_stream) : Z :=
  i32 (sp_outoforder_packets sp - sp_omitted_outoforder_packets sp).
Definition without_omitted (sp : iperf_stream) (packets : Z) : Z :=
  i32 (packets - sp_omitted_packet_count sp).

Definition sum_stream (prot sender_has_retransmits : Z) (s : summary) (sp : iperf_stream)
    : summary :=
  let s := mk_summary (u64 (su_sent s + sent_bytes sp))
             (u64 (su_received s + rs_bytes_received (sp_result sp))) (su_retransmits s)
             (su_packets s) (su_sender_packets s) (su_receiver_packets s) (su_lost s)
             (su_jitter s) in
  if by_bytes prot then
    if nonzero sender_has_retransmits then
      mk_summary (su_sent s) (su_received s)
        (i32 (su_retransmits s + rs_stream_retrans (sp_result sp)))
        (su_packets s) (su_sender_packets s) (su_receiver_packets s) (su_lost s) (su_jitter s)
    else s
  else
    let '(sender, receiver) := both_counts sp in
    mk_summary (su_sent s) (su_received s) (su_retransmits s)
      (i32 (su_packets s + without_omitted sp (known_packets sp)))
      (i32 (su_sender_packets s + without_omitted sp sender))
      (i32 (su_receiver_packets s + without_omitted sp receiver))
      (i32 (su_lost s + stream_lost sp))
      (d_add (su_jitter s) (sp_jitter sp)).

(** The start, the ends and the times of both sides, the rate and its texts. *)
Record times := mk_times { tm_sender : double; tm_receiver : double; tm_end : double }.

Definition add_member (name : string) (format : string) (args : list argument) : prog W unit :=
  add_printf (json_add json_summary_stream name) format args.

(** On a server, what only the client knows is not available. *)
Definition unless_remote (remote : bool) (not_available : string) (arg : argument)
    (row : prog W unit) : prog W unit :=
  if remote then
    verbose ← gets t_verbose;
    if nonzero verbose then line not_available [arg] else mret tt
  else row.

Definition on_server (test : iperf_test) : bool := bool_decide (t_role test = "s"%char).

(** The row of the sending side. *)
Definition sender_row (must_be_sender : Z) (tm : times) (sp : iperf_stream) : prog W unit :=
  test ← gets id;
  prot ← protocol_id;
  let json := nonzero (t_json_output test) in
  let bytes_sent := sent_bytes sp in
  let ubuf := units (d_of_Z bytes_sent) "A" in
  let bandwidth := rate_of bytes_sent (tm_sender tm) in
  let nbuf := units bandwidth (st_unit_format (t_settings test)) in
  let mbuf := role_label test must_be_sender in
  let remote := on_server test && negb (nonzero (sp_sender sp)) in
  let head_json := [ALong (sp_socket sp); ADouble d_zero; ADouble (tm_sender tm);
                    ADouble (tm_sender tm); ALong bytes_sent; ADouble (times_8 bandwidth)] in
  let head := [AInt (sp_socket sp); AStr (Some mbuf); ADouble d_zero; ADouble (tm_sender tm);
               AStr (Some ubuf); AStr (Some nbuf)] in
  let not_available :=
    unless_remote remote report_sender_not_available_format (AInt (sp_socket sp)) in
  (if by_bytes prot then
     if nonzero (t_sender_has_retransmits test) then
       if json then
         let r := sp_result sp in
         add_member "sender" "socket: %d  start: %f  end: %f  seconds: %f  bytes: %d  bits_per_second: %f  retransmits: %d  max_snd_cwnd:  %d  max_snd_wnd:  %d  max_rtt:  %d  min_rtt:  %d  mean_rtt:  %d sender: %b"
           (head_json ++
            [ALong (rs_stream_retrans r); ALong (rs_stream_max_snd_cwnd r);
             ALong (rs_stream_max_snd_wnd r); ALong (rs_stream_max_rtt r);
             ALong (rs_stream_min_rtt r);
             ALong (if rs_stream_count_rtt r =? 0 then 0
                    else rs_stream_sum_rtt r ÷ rs_stream_count_rtt r); AInt must_be_sender])
       else
         not_available
           (line report_bw_retrans_format
              (head ++ [AInt (rs_stream_retrans (sp_result sp)); AStr (Some report_sender)]))
     else if json then
       add_member "sender" "socket: %d  start: %f  end: %f  seconds: %f  bytes: %d  bits_per_second: %f sender: %b"
         (head_json ++ [AInt must_be_sender])
     else not_available (line report_bw_format (head ++ [AStr (Some report_sender)]))
   else
     let sender_packets := without_omitted sp (both_counts sp).1 in
     if json then
       add_member "udp" "socket: %d  start: %f  end: %f  seconds: %f  bytes: %d  bits_per_second: %f  jitter_ms: %f  lost_packets: %d  packets: %d  lost_percent: %f  out_of_order: %d sender: %b"
         (head_json ++
          [ADouble (times_1000 (sp_jitter sp)); ALong (stream_lost sp);
           ALong (without_omitted sp (known_packets sp));
           ADouble (percent_of (stream_lost sp) sender_packets);
           ALong (stream_outoforder sp); AInt must_be_sender])
     else
       not_available
         (line report_bw_udp_format
            (head ++ [ADouble d_zero; AInt 0; AInt sender_packets; ADouble d_zero;
                      AStr (Some report_sender)]));;
       if 0 <? stream_outoforder sp then
         line report_sum_outoforder
           [AStr (Some mbuf); ADouble d_zero; ADouble (tm_sender tm); AInt (stream_outoforder sp)]
       else mret tt)%list.

(** What was sent of a file, if [fstat] knows its size. *)
Definition file_row (must_be_sender : Z) (sp : iperf_stream) : prog W unit :=
  if sp_diskfile_fd sp <? 0 then mret tt
  else
    size ← sys (out_fstat (sp_diskfile_fd sp));
    match size with
    | None => mret tt
    | Some st_size =>
        test ← gets id;
        let bytes_sent := sent_bytes sp in
        let bytes_received := rs_bytes_received (sp_result sp) in
        let percent bytes :=
          if 0 <? st_size
          then d_to_int (d_mul (d_div (d_of_Z bytes) (d_of_Z st_size)) (d_of_Z 100)) else Some 100 in
        match percent bytes_sent, percent bytes_received with
        | Some percent_sent, Some percent_received =>
            let sbuf := units (d_of_Z st_size) "A" in
            if nonzero (t_json_output test) then
              add_member "diskfile" "sent: %d  received: %d  size: %d  percent_sent: %d  percent_received: %d  filename: %s"
                [ALong bytes_sent; ALong bytes_received; ALong st_size; ALong percent_sent;
                 ALong percent_received; AStr (t_diskfile_name test)]
            else
              let row bytes percent :=
                line report_diskfile [AStr (Some (units (d_of_Z bytes) "A")); AStr (Some sbuf);
                                      AInt percent; AStr (t_diskfile_name test)] in
              if nonzero must_be_sender then row bytes_sent percent_sent
              else row bytes_received percent_received
        | _, _ => crash
        end
    end.

(** The row of the receiving side. *)
Definition receiver_row (must_be_sender : Z) (tm : times) (sp : iperf_stream) : prog W unit :=
  test ← gets id;
  prot ← protocol_id;
  let json := nonzero (t_json_output test) in
  let bytes_received := rs_bytes_received (sp_result sp) in
  let ubuf := units (d_of_Z bytes_received) "A" in
  let bandwidth := rate_of bytes_received (tm_receiver tm) in
  let nbuf := units bandwidth (st_unit_format (t_settings test)) in
  let head := [AInt (sp_socket sp); AStr (Some (role_label test must_be_sender));
               ADouble d_zero; ADouble (tm_receiver tm); AStr (Some ubuf); AStr (Some nbuf)] in
  let not_available :=
    unless_remote (on_server test && nonzero (sp_sender sp))
      report_receiver_not_available_format (AInt (sp_socket sp)) in
  (if by_bytes prot then
     if json then
       add_member "receiver" "socket: %d  start: %f  end: %f  seconds: %f  bytes: %d  bits_per_second: %f sender: %b"
         [ALong (sp_socket sp); ADouble d_zero; ADouble (tm_receiver tm); ADouble (tm_end tm);
          ALong bytes_received; ADouble (times_8 bandwidth); AInt must_be_sender]
     else not_available (line report_bw_format (head ++ [AStr (Some report_receiver)]))
   else if json then mret tt
   else
     let receiver_packets := without_omitted sp (both_counts sp).2 in
     not_available
       (line report_bw_udp_format
          (head ++ [ADouble (times_1000 (sp_jitter sp)); AInt (stream_lost sp);
                    AInt receiver_packets; ADouble (percent_of (stream_lost sp) receiver_packets);
                    AStr (Some report_receiver)])))%list.

(** The loop over the streams of one direction. *)
Fixpoint summary_rows (must_be_sender : Z) (tm : times) (sps : list iperf_stream) (s : summary)
    : prog W summary :=
  match sps with
  | [] => mret s
  | sp :: sps =>
      if sp_sender sp =? must_be_sender then
        json ← gets t_json_output;
        (if nonzero json then json_append json_summary_streams (JObject []) else mret tt);;
        prot ← protocol_id;
        has ← gets t_sender_has_retransmits;
        sender_row must_be_sender tm sp;;
        file_row must_be_sender sp;;
        receiver_row must_be_sender tm sp;;
        summary_rows must_be_sender tm sps (sum_stream prot has s sp)
      else summary_rows must_be_sender tm sps s
  end.

Definition add_end (name : string) (format : string) (args : list argument) : prog W unit :=
  add_printf (json_add json_end name) format args.

(** The rows of the sums. *)
Definition summary_sums (must_be_sender : Z) (tm : times) (s : summary) : prog W unit :=
  test ← gets id;
  prot ← protocol_id;
  let json := nonzero (t_json_output test) in
  let server := on_server test in
  let format := st_unit_format (t_settings test) in
  let mbuf := AStr (Some (role_label test must_be_sender)) in
  let sent_rate := rate_of (su_sent s) (tm_sender tm) in
  let sent := [mbuf; ADouble d_zero; ADouble (tm_sender tm);
               AStr (Some (units (d_of_Z (su_sent s)) "A")); AStr (Some (units sent_rate format))] in
  let received rate :=
    [mbuf; ADouble d_zero; ADouble (tm_receiver tm);
     AStr (Some (units (d_of_Z (su_received s)) "A")); AStr (Some (units rate format))] in
  let json_of time bytes rate :=
    [ADouble d_zero; ADouble time; ADouble time; ALong bytes; ADouble (times_8 rate)] in
  (if by_bytes prot then
     let not_available :=
       unless_remote (server && negb (nonzero must_be_sender))
         report_sender_not_available_summary_format (AStr (Some "SUM")) in
     (if nonzero (t_sender_has_retransmits test) then
        if json then
          add_end "sum_sent" "start: %f  end: %f  seconds: %f  bytes: %d  bits_per_second: %f  retransmits: %d sender: %b"
            (json_of (tm_sender tm) (su_sent s) sent_rate ++
             [ALong (su_retransmits s); AInt must_be_sender])
        else
          not_available
            (line report_sum_bw_retrans_format
               (sent ++ [AInt (su_retransmits s); AStr (Some report_sender)]))
      else if json then
        add_end "sum_sent" "start: %f  end: %f  seconds: %f  bytes: %d  bits_per_second: %f sender: %b"
          (json_of (tm_sender tm) (su_sent s) sent_rate ++ [AInt must_be_sender])
      else not_available (line report_sum_bw_format (sent ++ [AStr (Some report_sender)])));;
     let received_rate := rate_of (su_received s) (tm_receiver tm) in
     if json then
       add_end "sum_received" "start: %f  end: %f  seconds: %f  bytes: %d  bits_per_second: %f sender: %b"
         (json_of (tm_receiver tm) (su_received s) received_rate ++ [AInt must_be_sender])
     else
       unless_remote (server && nonzero must_be_sender)
         report_receiver_not_available_summary_format (AStr (Some "SUM"))
         (line report_sum_bw_format (received received_rate ++ [AStr (Some report_receiver)]))
   else
     let avg_jitter := d_div (su_jitter s) (d_of_Z (t_num_streams test)) in
     let lost_percent := percent_of (su_lost s) (su_packets s) in
     if json then
       add_end "sum" "start: %f  end: %f  seconds: %f  bytes: %d  bits_per_second: %f  jitter_ms: %f  lost_packets: %d  packets: %d  lost_percent: %f sender: %b"
         (json_of (tm_receiver tm) (su_sent s) sent_rate ++
          [ADouble (times_1000 avg_jitter); ALong (su_lost s); ALong (su_packets s);
           ADouble lost_percent; AInt must_be_sender])
     else
       (if server && negb (nonzero must_be_sender) then mret tt
        else
          line report_sum_bw_udp_format
            (sent ++ [ADouble d_zero; AInt 0; AInt (su_sender_packets s); ADouble d_zero;
                      AStr (Some "sender")]));;
       if server && nonzero must_be_sender then mret tt
       else
         let rate := if d_lt d_zero (tm_end tm)
                     then d_div (d_of_Z (su_received s)) (tm_receiver tm) else d_zero in
         line report_sum_bw_udp_format
           (received rate ++
            [ADouble (times_1000 avg_jitter); AInt (su_lost s); AInt (su_receiver_packets s);
             ADouble lost_percent; AStr (Some "receiver")]))%list.

(** [snd_congestion] and [rcv_congestion] *)
Definition both_congestions (test : iperf_test) (must_be_sender : Z)
    : option string * option string :=
  if nonzero must_be_sender then (t_congestion_used test, t_remote_congestion_used test)
  else (t_remote_congestion_used test, t_congestion_used test).

Definition when_some {A} (x : option A) (k : A -> prog W unit) : prog W unit :=
  match x with Some x => k x | None => mret tt end.

Definition json_add_string (name s : string) : prog W unit := json_add json_end name (JString s).

(** The load of the processors and the congestion control, for the whole test. *)
Definition json_host (must_be_sender : Z) : prog W unit :=
  test ← gets id;
  let load l i := ADouble (default d_zero (l !! i)) in
  add_end "cpu_utilization_percent" "host_total: %f  host_user: %f  host_system: %f  remote_total: %f  remote_user: %f  remote_system: %f"
    [load (t_cpu_util test) 0%nat; load (t_cpu_util test) 1%nat; load (t_cpu_util test) 2%nat;
     load (t_remote_cpu_util test) 0%nat; load (t_remote_cpu_util test) 1%nat;
     load (t_remote_cpu_util test) 2%nat];;
  prot ← protocol_id;
  if prot =? Ptcp then
    let '(snd_congestion, rcv_congestion) := both_congestions test must_be_sender in
    when_some snd_congestion (json_add_string "sender_tcp_congestion");;
    when_some rcv_congestion (json_add_string "receiver_tcp_congestion")
  else mret tt.

Definition cpu_line (local remote : string) : prog W unit :=
  test ← gets id;
  let load l i := ADouble (default d_zero (l !! i)) in
  line report_cpu
    [AStr (Some report_local); AStr (Some local);
     load (t_cpu_util test) 0%nat; load (t_cpu_util test) 1%nat; load (t_cpu_util test) 2%nat;
     AStr (Some report_remote); AStr (Some remote);
     load (t_remote_cpu_util test) 0%nat; load (t_remote_cpu_util test) 1%nat;
     load (t_remote_cpu_util test) 2%nat].

Definition verbose_host (must_be_sender : Z) : prog W unit :=
  test ← gets id;
  (if nonzero must_be_sender then
     cpu_line report_sender report_receiver;;
     if nonzero (t_bidirectional test) then cpu_line report_receiver report_sender else mret tt
   else mret tt);;
  prot ← protocol_id;
  if prot =? Ptcp then
    let '(snd_congestion, rcv_congestion) := both_congestions test must_be_sender in
    when_some snd_congestion (fun c => line ("snd_tcp_congestion %s" ++ nl) [AStr (Some c)]);;
    when_some rcv_congestion (fun c => line ("rcv_tcp_congestion %s" ++ nl) [AStr (Some c)])
  else mret tt.

(** What the server printed, once. *)
Definition server_output_lines : prog W unit :=
  test ← gets id;
  if bool_decide (t_role test = "c"%char) && nonzero (iperf_get_test_get_server_output test)
     && negb (nonzero (t_json_output test)) then
    when_some (t_json_server_output test) (fun j =>
      match cJSON_Print (fun _ => true) j with
      | Some (Some str) =>
          line (nl ++ "Server JSON output:" ++ nl ++ "%s" ++ nl) [AStr (Some str)];;
          update (fun t => t <| t_json_server_output := None |>)
      | _ => crash
      end);;
    when_some (t_server_output_text test) (fun text =>
      line (nl ++ "Server output:" ++ nl ++ "%s" ++ nl) [AStr (Some text)];;
      update (fun t => t <| t_server_output_text := None |>))
  else mret tt.

Definition summary_headers : prog W unit :=
  test ← gets id;
  prot ← protocol_id;
  let bidir := nonzero (t_bidirectional test) in
  text_line report_bw_separator;;
  (if nonzero (t_verbose test) then text_line report_summary else mret tt);;
  text_line
    (if by_bytes prot then
       if nonzero (t_sender_has_retransmits test) || nonzero (t_other_side_has_retransmits test)
       then if bidir then report_bw_retrans_header_bidir else report_bw_retrans_header
       else if bidir then report_bw_header_bidir else report_bw_header
     else if bidir then report_bw_udp_header_bidir else report_bw_udp_header).

(** The times of the first stream, which keeps what it did not have; [None] without
    streams. *)
Definition end_times (r : iperf_stream_result) (sender : Z) : iperf_stream_result * times :=
  let end_time := seconds_between (rs_start_time r) (rs_end_time r) in
  let r :=
    if nonzero sender then
      let r := r <| rs_sender_time := end_time |> in
      if d_eq (rs_receiver_time r) d_zero then r <| rs_receiver_time := rs_sender_time r |> else r
    else
      let r := r <| rs_receiver_time := end_time |> in
      if d_eq (rs_sender_time r) d_zero then r <| rs_sender_time := rs_receiver_time r |> else r in
  (r, mk_times (rs_sender_time r) (rs_receiver_time r) end_time).

Definition take_times : prog W times :=
  sps ← gets t_streams;
  match sps with
  | [] => mret (mk_times d_zero d_zero d_zero)
  | sp :: sps =>
      let '(r, tm) := end_times (sp_result sp) (sp_sender sp) in
      update (fun t => t <| t_streams := (sp <| sp_result := r |>) :: sps |>);;
      mret tm
  end.

(** [has] is the value of [sender_has_retransmits] when the report began. *)
Definition summary_pass (has must_be_sender : Z) (is_last : bool) : prog W unit :=
  mode ← gets t_mode;
  (match mode with
   | BIDIRECTIONAL =>
       update (fun t => t <| t_sender_has_retransmits :=
         if nonzero must_be_sender then has else t_other_side_has_retransmits t |>)
   | _ => mret tt
   end);;
  tm ← take_times;
  sps ← gets t_streams;
  s ← summary_rows must_be_sender tm sps no_summary;
  test ← gets id;
  let json := nonzero (t_json_output test) in
  (if (1 <? t_num_streams test) || json then summary_sums must_be_sender tm s else mret tt);;
  if json && is_last then json_host must_be_sender
  else
    (if nonzero (t_verbose test) then verbose_host must_be_sender else mret tt);;
    server_output_lines.

Fixpoint summary_passes (has : Z) (l : list Z) : prog W unit :=
  match l with
  | [] => mret tt
  | must_be_sender :: l =>
      summary_pass has must_be_sender (match l with [] => true | _ => false end);;
      summary_passes has l
  end.

Definition iperf_print_results : prog W unit :=
  test ← gets id;
  let has := t_sender_has_retransmits test in
  (if nonzero (t_json_output test) then json_add json_end "streams" (JArray [])
   else summary_headers);;
  summary_passes has (passes test);;
  match t_mode test with
  | BIDIRECTIONAL => update (fun t => t <| t_sender_has_retransmits := has |>)
  | _ => mret tt
  end.

Definition iperf_reporter_callback : prog W unit :=
  state ← gets t_state;
  if (state =? TEST_RUNNING) || (state =? STREAM_RUNNING) then iperf_print_intermediate
  else if (state =? TEST_END) || (state =? DISPLAY_RESULTS) then
    iperf_print_intermediate;; iperf_print_results
  else mret tt.
End Report.
