(* ===== verification/ReportProps.v ===== *)
(** * iperf_api.c: what a report does *)

From S2P Require Import Prelude Double Bytes Posix IperfTime Timer Net CJson CString CStringProps.
From S2P Require Import Printf JsonText Texts JsonParse NumberProps JsonTextProps Units.
From S2P Require Import JsonParseProps Test JsonTree Api Util Lifecycle Prog Output OutputProps.
From S2P Require Import Report.

#[local] Open Scope string_scope.
#[local] Open Scope Z_scope.
#[local] Open Scope prog_scope.

(** ** Formats and arguments that fit *)

#[export] Instance kind_eq_dec : EqDecision kind.
Proof. solve_decision. Defined.

Definition letter_kind (c : ascii) : kind :=
  if decide (c = "b"%char) then KInt else if decide (c = "d"%char) then KLong
  else if decide (c = "f"%char) then KDouble else KStr.

(** The fields of a format without blanks; [acc] is the beginning of a name. *)
Fixpoint json_decode (acc format : string) : list (string * kind) :=
  match format with
  | EmptyString => []
  | String c rest =>
      match rest with
      | String p (String f rest') =>
          if decide (c = ":" /\ p = "%")%char then (acc, letter_kind f) :: json_decode "" rest'
          else json_decode (acc ++ String c "") rest
      | _ => json_decode (acc ++ String c "") rest
      end
  end.

Definition there (a : argument) : bool := match a with AStr None => false | _ => true end.

Definition printable (format : string) (args : list argument) : bool :=
  forallb there args && fits None format (map arg_kind args).

Definition json_printable (format : string) (args : list argument) : bool :=
  let fields := json_decode "" (squeeze format) in
  forallb there args && bool_decide (squeeze format = json_format fields) &&
  forallb (fun f => plain_name f.1) fields && bool_decide (map arg_kind args = fields.*2).

Lemma there_kind args : forallb there args = true -> Forall2 has_kind args (map arg_kind args).
Proof.
  induction args as [|a args IH]; [constructor|]. cbn. intros [Ha Hs]%andb_true_iff.
  constructor; [by destruct a as [| | |[]]|by apply IH].
Qed.

Lemma printable_text format args : printable format args = true -> is_Some (printf_text format args).
Proof.
  intros [Ht Hf]%andb_true_iff. destruct (fits_vformat format None _ args (there_kind args Ht) Hf) as [t H].
  by exists t.
Qed.

Lemma json_printable_object format args :
  json_printable format args = true ->
  iperf_json_printf format args =
    Some (Some (JObject (json_members (json_decode "" (squeeze format)) args))).
Proof.
  unfold json_printable. intros [[[Ht Hf%bool_decide_eq_true]%andb_true_iff Hn]%andb_true_iff
                                   Hk%bool_decide_eq_true]%andb_true_iff.
  unfold iperf_json_printf. rewrite json_fields_squeeze. rewrite Hf at 1.
  rewrite fields_format; [done|done|]. rewrite <- Hk. by apply there_kind.
Qed.

(** ** Programs that only report *)

Section Quiet.
Context {W : Type} {terminal : Terminal W} {laws : TerminalLaws W}.
Implicit Types s : session W.

(** What a report needs: a protocol, an interval of every stream, no file to look at, and
    an output of the server that can be printed. *)
Definition settled (sp : iperf_stream) : Prop :=
  rs_interval_results (sp_result sp) <> [] /\ sp_diskfile_fd sp < 0.

Record reportable (t : iperf_test) : Prop := {
  rb_protocol : is_Some (t_protocol t);
  rb_stamped : stamped t;
  rb_streams : Forall settled (t_streams t);
  rb_output : forall j, t_json_server_output t = Some j ->
    numbers valid_double j /\ strlen (render true 0 j) < 2 ^ 63 }.

Lemma Forall_map_forget l : Forall settled (map forget_times l) <-> Forall settled l.
Proof. apply (Forall_map forget_times settled). Qed.

Lemma reportable_reported s s' : reported s s' -> reportable (ss_test s) -> reportable (ss_test s').
Proof.
  intros H [H1 H2 H3 H4]. split.
  - by rewrite (rp_get t_protocol _ _ (fun _ => eq_refl) H).
  - by eapply stamped_reported.
  - rewrite <- (Forall_map_forget (t_streams (ss_test s'))), (rp_streams _ _ H).
    by apply Forall_map_forget.
  - intros j. destruct (rp_output _ _ H) as [-> | ->]; [apply H4|done].
Qed.

Definition quiet {A} (m : prog W A) : Prop :=
  forall s, reportable (ss_test s) -> wp m (fun _ s' => reported s s') s.

Lemma quiet_ret {A} (a : A) : quiet (mret a).
Proof. intros s _. by apply wp_ret. Qed.

Lemma quiet_bind {A B} (m : prog W A) (k : A -> prog W B) :
  quiet m -> (forall a, quiet (k a)) -> quiet (m ≫= k).
Proof.
  intros Hm Hk s Hs. apply wp_bind. eapply wp_mono; [by apply Hm|]. intros a s1 H. cbn in H.
  eapply wp_mono; [apply Hk; exact (reportable_reported s s1 H Hs)|]. intros b s'' H'. cbn. by etrans.
Qed.

Lemma quiet_gets {A B} (f : iperf_test -> A) (k : A -> prog W B) :
  (forall t, reportable t -> quiet (k (f t))) -> quiet (gets f ≫= k).
Proof. intros H s Hs. apply wp_bind, wp_gets. by apply H. Qed.

Lemma quiet_update f :
  (forall t, unreported (f t) = unreported t /\
             map forget_times (t_streams (f t)) = map forget_times (t_streams t) /\
             t_server_output_list (f t) = t_server_output_list t /\
             (t_json_server_output (f t) = t_json_server_output t \/ t_json_server_output (f t) = None)) ->
  quiet (update f).
Proof. intros H s _. apply wp_update. destruct (H (ss_test s)) as (? & ? & ? & ?). by apply reported_update. Qed.

Lemma quiet_sys {A} (f : W -> A * W) :
  (forall w, out_log (f w).2 = out_log w) -> quiet (sys f).
Proof.
  intros H s _. apply wp_sys. intros a w E. apply reported_world. intros _.
  specialize (H (ss_world s)). by rewrite E in H.
Qed.

Lemma quiet_line format args : printable format args = true -> quiet (line format args).
Proof.
  intros H. apply quiet_bind; [|intros; apply quiet_ret]. intros s Hs.
  apply wp_iperf_printf; [apply Hs|by apply printable_text].
Qed.

Lemma quiet_text_line text : quiet (text_line text).
Proof. by apply quiet_line. Qed.

Lemma quiet_add_printf add format args :
  (forall j, quiet (add j)) -> json_printable format args = true -> quiet (add_printf add format args).
Proof. intros Ha H. unfold add_printf. by rewrite (json_printable_object _ _ H). Qed.

Lemma quiet_json_add p name item : quiet (json_add p name item).
Proof. apply quiet_update. intros t. split; [done|]. split; [done|]. split; [done|by left]. Qed.
Lemma quiet_json_append p item : quiet (json_append p item).
Proof. apply quiet_update. intros t. split; [done|]. split; [done|]. split; [done|by left]. Qed.

Lemma quiet_protocol_id : quiet protocol_id.
Proof.
  apply quiet_gets. intros t Ht. destruct (rb_protocol _ Ht) as [p ->]. apply quiet_ret.
Qed.

Lemma quiet_iflush : quiet iflush.
Proof. apply quiet_sys, out_flush_log. Qed.

Lemma quiet_when_some {A} (x : option A) k :
  (forall a, x = Some a -> quiet (k a)) -> quiet (when_some x k).
Proof. intros H. destruct x; [by apply H|apply quiet_ret]. Qed.
End Quiet.

#[export] Hint Resolve quiet_ret quiet_text_line quiet_json_add quiet_json_append
  quiet_protocol_id quiet_iflush : quiet.

(** Programs are taken apart; a test that was read may be any that is [reportable]. *)
Ltac quiet_step :=
  lazymatch goal with
  | |- quiet (mbind _ (gets _)) => apply quiet_gets; intros ? ?
  | |- quiet (mbind _ _) => apply quiet_bind; [|intros ?]
  | |- quiet (line _ _) => apply quiet_line; lazy; reflexivity
  | |- quiet (add_printf _ _ _) => apply quiet_add_printf; [intros ?|lazy; reflexivity]
  | |- quiet (when_some _ _) => apply quiet_when_some; intros ? ?
  | |- quiet (if ?b then _ else _) => destruct b
  | |- quiet (match ?x with _ => _ end) => destruct x
  | |- quiet (let _ := _ in _) => cbv zeta
  | |- _ => solve [auto with quiet]
  end.
Ltac quiet_steps := cbv zeta; repeat quiet_step.

Section Reports.
Context {W : Type} {terminal : Terminal W} {laws : TerminalLaws W}.
Implicit Types s : session W.

Lemma quiet_interval_header i prot sp irp : quiet (interval_header i prot sp irp).
Proof. unfold interval_header. quiet_steps. Qed.
#[local] Hint Resolve quiet_interval_header : quiet.

Lemma last_settled sp : settled sp -> is_Some (last (rs_interval_results (sp_result sp))).
Proof. intros [H _]. by apply last_is_Some. Qed.

Lemma quiet_print_interval_results i sp : settled sp -> quiet (print_interval_results i sp).
Proof.
  intros Hsp. unfold print_interval_results, add_row. quiet_step.
  destruct (last_settled sp Hsp) as [irp ->]. quiet_steps.
Qed.
#[local] Hint Resolve quiet_print_interval_results : quiet.

Lemma quiet_interval_rows dir i sps sm :
  Forall settled sps -> quiet (interval_rows dir i sps sm).
Proof.
  intros Hs. revert i sm. induction Hs as [|sp sps Hsp Hs IH]; intros i sm; cbn [interval_rows]; [quiet_steps|].
  destruct (_ =? _); [|apply IH]. destruct (last_settled sp Hsp) as [irp ->]. quiet_steps.
Qed.

Lemma quiet_interval_sum dir sm sp : settled sp -> quiet (interval_sum dir sm sp).
Proof.
  intros Hsp. unfold interval_sum, add_sum. quiet_step. destruct (last_settled sp Hsp) as [irp ->].
  quiet_steps.
Qed.

Lemma quiet_interval_passes l : quiet (interval_passes l).
Proof.
  induction l as [|dir l IH]; cbn [interval_passes]; [quiet_steps|].
  apply quiet_gets. intros t Ht. pose proof (rb_streams _ Ht) as Hs. cbn in Hs.
  apply quiet_bind; [by apply quiet_interval_rows|]. intros [sm|]; [|quiet_steps].
  quiet_step. apply quiet_bind; [|intros _; exact IH].
  destruct (_ || _); [|quiet_steps]. destruct Hs as [|sp sps Hsp Hs]; [quiet_steps|].
  by apply quiet_interval_sum.
Qed.
#[local] Hint Resolve quiet_interval_passes : quiet.

Lemma quiet_intermediate : quiet iperf_print_intermediate.
Proof. unfold iperf_print_intermediate. quiet_steps. Qed.
#[local] Hint Resolve quiet_intermediate : quiet.

Lemma quiet_unless_remote remote format arg row :
  printable format [arg] = true -> quiet row -> quiet (unless_remote remote format arg row).
Proof.
  intros H Hr. unfold unless_remote. destruct remote; [|done]. quiet_step.
  destruct (nonzero _); [by apply quiet_line|quiet_steps].
Qed.

Lemma quiet_sender_row dir tm sp : quiet (sender_row dir tm sp).
Proof.
  unfold sender_row, add_member. quiet_steps;
    try (apply quiet_unless_remote; [lazy; reflexivity|]); quiet_steps.
Qed.

Lemma quiet_receiver_row dir tm sp : quiet (receiver_row dir tm sp).
Proof.
  unfold receiver_row, add_member. quiet_steps;
    try (apply quiet_unless_remote; [lazy; reflexivity|]); quiet_steps.
Qed.

Lemma quiet_file_row dir sp : settled sp -> quiet (file_row dir sp).
Proof.
  intros [_ H]. unfold file_row. rewrite (proj2 (Z.ltb_lt _ _) H). apply quiet_ret.
Qed.
#[local] Hint Resolve quiet_sender_row quiet_receiver_row quiet_file_row : quiet.

Lemma quiet_summary_rows dir tm sps su :
  Forall settled sps -> quiet (summary_rows dir tm sps su).
Proof.
  intros Hs. revert su. induction Hs as [|sp sps Hsp Hs IH]; intros su; cbn [summary_rows]; [quiet_steps|].
  destruct (_ =? _); [|apply IH]. quiet_steps.
Qed.

Lemma quiet_summary_sums dir tm su : quiet (summary_sums dir tm su).
Proof.
  unfold summary_sums, add_end. quiet_steps;
    try (apply quiet_unless_remote; [lazy; reflexivity|]); quiet_steps.
Qed.

Lemma quiet_json_host dir : quiet (json_host dir).
Proof. unfold json_host, add_end, json_add_string. quiet_steps. Qed.

Lemma quiet_cpu_line x y : quiet (cpu_line x y).
Proof. unfold cpu_line. quiet_steps. Qed.
#[local] Hint Resolve quiet_cpu_line quiet_summary_sums quiet_json_host : quiet.

Lemma quiet_verbose_host dir : quiet (verbose_host dir).
Proof. unfold verbose_host. quiet_steps. Qed.

Lemma quiet_summary_headers : quiet summary_headers.
Proof. unfold summary_headers. quiet_steps. Qed.

Lemma quiet_server_output_lines : quiet server_output_lines.
Proof.
  unfold server_output_lines. apply quiet_gets. intros t Ht. cbn [id].
  destruct (_ && _); [|quiet_steps]. apply quiet_bind; [|intros _].
  - apply quiet_when_some. intros j Hj. destruct (rb_output _ Ht j Hj) as [Hn Hl].
    unfold cJSON_Print. destruct (print_refines_text (fun _ => true) j true Hn Hl) as [-> |[_ [k Hk]]]; [|done].
    quiet_steps. apply quiet_update. intros t'. split; [done|]. split; [done|]. split; [done|by right].
  - quiet_steps. apply quiet_update. intros t'. split; [done|]. split; [done|]. split; [done|by left].
Qed.

Lemma forget_end_times sp :
  forget_times (sp <| sp_result := (end_times (sp_result sp) (sp_sender sp)).1 |>) = forget_times sp.
Proof.
  unfold end_times. destruct (nonzero _), (d_eq _ _); done.
Qed.

Lemma quiet_take_times : quiet take_times.
Proof.
  intros s Hs. unfold take_times. wp_steps. destruct (t_streams (ss_test s)) as [|sp sps] eqn:E.
  { by wp_steps. }
  pose proof (forget_end_times sp) as Hf. destruct (end_times _ _) as [r tm] eqn:Er. wp_steps.
  apply (reported_update (fun t => t <| t_streams := (sp <| sp_result := r |>) :: sps |>)); [done| |done|by left].
  rewrite E. cbn [t_streams map]. cbn [fst] in Hf. cbn. by rewrite Hf.
Qed.
#[local] Hint Resolve quiet_server_output_lines quiet_take_times quiet_verbose_host
  quiet_summary_headers : quiet.

(** A pass after [sender_has_retransmits] was set. *)
Definition pass_body (dir : Z) (is_last : bool) : prog W unit :=
  tm ← take_times;
  sps ← gets t_streams;
  su ← summary_rows dir tm sps no_summary;
  test ← gets id;
  let json := nonzero (t_json_output test) in
  (if (1 <? t_num_streams test) || json then summary_sums dir tm su else mret tt);;
  if json && is_last then json_host dir
  else
    (if nonzero (t_verbose test) then verbose_host dir else mret tt);;
    server_output_lines.

Lemma quiet_pass_body dir is_last : quiet (pass_body dir is_last).
Proof.
  unfold pass_body. apply quiet_bind; [apply quiet_take_times|intros tm]. apply quiet_gets. intros t Ht.
  apply quiet_bind; [apply quiet_summary_rows, Ht|intros su]. quiet_steps.
Qed.

(** The member that a pass changes and [iperf_print_results] puts back. *)
Definition with_has (x : Z) s : session W :=
  mk_session ((ss_test s) <| t_sender_has_retransmits := x |>) (ss_timers s) (ss_cpu s) (ss_world s).

Lemma unreported_has x t :
  unreported (t <| t_sender_has_retransmits := x |>) = unreported t <| t_sender_has_retransmits := x |>.
Proof. destruct t. vm_compute. reflexivity. Qed.

Lemma reported_with_has x s s' : reported s s' -> reported (with_has x s) (with_has x s').
Proof.
  intros [H1 H2 H3 H4 H5 H6]. split; [|done..].
  refine (eq_trans (unreported_has x (ss_test s')) _).
  refine (eq_trans _ (eq_sym (unreported_has x (ss_test s)))).
  exact (f_equal (fun t => t <| t_sender_has_retransmits := x |>) H1).
Qed.

Lemma reportable_with_has x s : reportable (ss_test s) -> reportable (ss_test (with_has x s)).
Proof. by intros [H1 H2 H3 H4]; split. Qed.

(** Everything but that member is only reported. *)
Definition reported_but_has s s' : Prop :=
  exists x, (t_mode (ss_test s) = BIDIRECTIONAL \/ x = t_sender_has_retransmits (ss_test s)) /\
    reported (with_has x s) s'.

Lemma wp_summary_pass has dir is_last s s1 :
  reportable (ss_test s) -> reported_but_has s s1 ->
  wp (summary_pass has dir is_last) (fun _ s' => reported_but_has s s') s1.
Proof.
  intros Hs (x & Hm & Hx). unfold summary_pass. fold (pass_body dir is_last).
  apply wp_bind, wp_gets, wp_bind.
  assert (forall y s2, t_mode (ss_test s) = BIDIRECTIONAL \/ y = t_sender_has_retransmits (ss_test s) ->
            reported (with_has y s) s2 ->
            wp (pass_body dir is_last) (fun _ s' => reported_but_has s s') s2) as Hbody.
  { intros y s2 Hy H2. eapply wp_mono; [apply quiet_pass_body|].
    - eapply reportable_reported; [exact H2|]. by apply reportable_with_has.
    - intros [] s' H'. exists y. split; [done|]. exact (reported_trans _ _ _ H2 H'). }
  pose proof (rp_get t_mode _ _ (fun _ => eq_refl) Hx) as Hmode. cbn in Hmode.
  destruct (t_mode (ss_test s1)) eqn:E; [by wp_steps; eapply Hbody..|].
  apply wp_update. eapply Hbody; [by left|]. apply (reported_with_has _ _ _ Hx).
Qed.

Lemma wp_summary_passes has l s s1 :
  reportable (ss_test s) -> reported_but_has s s1 ->
  wp (summary_passes has l) (fun _ s' => reported_but_has s s') s1.
Proof.
  intros Hs. revert s1. induction l as [|dir l IH]; intros s1 Hx; cbn [summary_passes]; [by wp_steps|].
  apply wp_bind. eapply wp_mono; [by apply wp_summary_pass|]. intros [] s2 H2. by apply IH.
Qed.

Lemma with_has_id s : with_has (t_sender_has_retransmits (ss_test s)) s = s.
Proof. destruct s as [[] tm c w]. reflexivity. Qed.

Lemma quiet_print_results : quiet iperf_print_results.
Proof.
  intros s Hs. unfold iperf_print_results. apply wp_bind, wp_gets, wp_bind. cbn [id].
  set (start := if nonzero _ then _ else _).
  assert (quiet start) as Hstart by (unfold start; quiet_steps).
  eapply wp_mono; [by apply Hstart|]. intros [] s1 H1. cbn in H1. apply wp_bind.
  eapply wp_mono; [apply (wp_summary_passes _ _ s); [done|]|].
  { exists (t_sender_has_retransmits (ss_test s)). split; [by right|]. by rewrite with_has_id. }
  intros [] s2 (x & Hm & H2). cbn in H2.
  destruct (t_mode (ss_test s)) eqn:E; [destruct Hm as [Hm| ->]; [done|]; rewrite with_has_id in H2; by wp_steps..|].
  apply wp_update. rewrite <- (with_has_id s) at 1. apply (reported_with_has _ _ _ H2).
Qed.
#[local] Hint Resolve quiet_print_results : quiet.

Lemma quiet_reporter : quiet iperf_reporter_callback.
Proof. unfold iperf_reporter_callback. quiet_steps. Qed.
End Reports.

(** C37: the report of a test, during it and at its end, never fails when the test has a protocol,
    every stream has an interval and no -F file, and the server output to be shown is a
    printable tree ([reportable]): every line and every object has arguments that fit its
    format. (With a -F file the percentage of it can overflow an [int], and without an
    interval the program follows a null pointer.) The report changes nothing but what is reported
    (the JSON tree, the lines kept for the client, the output of the server that was
    shown, the times of the two sides), and a server keeps for its client exactly the
    lines it wrote. *)
Theorem report_total {W} {terminal : Terminal W} {laws : TerminalLaws W} (s : session W) :
  reportable (ss_test s) ->
  exists s' new,
    iperf_reporter_callback s = Some (tt, s') /\
    unreported (ss_test s') = unreported (ss_test s) /\
    map forget_times (t_streams (ss_test s')) = map forget_times (t_streams (ss_test s)) /\
    ss_timers s' = ss_timers s /\ ss_cpu s' = ss_cpu s /\
    t_server_output_list (ss_test s') = (t_server_output_list (ss_test s) ++ new)%list /\
    (queues (ss_test s) ->
     out_log (ss_world s') = (out_log (ss_world s) ++ concat_lines new)%string).
Proof.
  intros Hs.
  destruct (wp_elim _ _ _ (quiet_reporter s Hs)) as ([] & s' & E & [H1 H2 H3 H4 _ (new & H5 & H6)]).
  by exists s', new.
Qed.

Import Recorder.

Definition ex_reporting : iperf_test :=
  ex_serving <| t_protocol := Some (mk_protocol Ptcp "TCP") |> <| t_state := DISPLAY_RESULTS |>
    <| t_num_streams := 1 |>
    <| t_streams := [zero_stream <| sp_result ::= fun r => r <| rs_interval_results := [zero_interval] |> |>
                                 <| sp_diskfile_fd := -1 |> ] |>.

Lemma ex_reporting_ready : reportable ex_reporting.
Proof.
  split; [by eexists|right; by eexists| |done].
  constructor; [|constructor]. by split.
Qed.

Lemma report_total_witness :
  exists s' new, iperf_reporter_callback (ex_session ex_reporting) = Some (tt, s') /\
    t_server_output_list (ss_test s') = new /\ out_log (ss_world s') = concat_lines new.
Proof.
  destruct (report_total (ex_session ex_reporting) ex_reporting_ready)
    as (s' & new & E & _ & _ & _ & _ & Hl & Hw).
  exists s', new. split; [exact E|]. split; [exact Hl|]. apply Hw. by split.
Defined.
