(* ===== verification/Callbacks.v ===== *)
(** * iperf_api.c: the callbacks of a test

    What [iperf_defaults] puts behind [on_new_stream], [on_test_start], [on_connect] and
    [on_test_finish], and the beginning and the end of the output of a run. *)

From S2P Require Import Prelude Double Bytes Posix IperfTime Timer Net CJson CString Printf.
From S2P Require Import JsonText Texts Test JsonTree Api Util Lifecycle Prog Output Report.

#[local] Open Scope string_scope.
#[local] Open Scope Z_scope.
#[local] Open Scope prog_scope.

Section Callbacks.
Context {W : Type} {terminal : Terminal W}.

Definition connect_msg (sp : iperf_stream) : prog W unit :=
  '(local, lport, remote, rport) ← sys (fun w => (out_ends sp w, w));
  let ipl := mapped_v4_to_regular_v4 local in
  let ipr := mapped_v4_to_regular_v4 remote in
  json ← gets t_json_output;
  if nonzero json then
    add_printf (json_append json_connected)
      "socket: %d  local_host: %s  local_port: %d  remote_host: %s  remote_port: %d"
      [ALong (sp_socket sp); AStr (Some ipl); ALong lport; AStr (Some ipr); ALong rport]
  else
    line report_connected
      [AInt (sp_socket sp); AStr (Some ipl); AInt lport; AStr (Some ipr); AInt rport].

Definition iperf_on_new_stream (sp : iperf_stream) : prog W unit := connect_msg sp.

Definition iperf_on_test_start : prog W unit :=
  test ← gets id;
  let st := t_settings test in
  let named (k : argument -> prog W unit) :=
    match t_protocol test with Some p => k (AStr (Some (pr_name p))) | None => crash end in
  if nonzero (t_json_output test) then
    named (fun name =>
    add_printf (json_add json_start "test_start")
      "protocol: %s  num_streams: %d  blksize: %d  omit: %d  duration: %d  bytes: %d  blocks: %d  reverse: %d  tos: %d"
      [name; ALong (t_num_streams test); ALong (st_blksize st); ALong (t_omit test);
       ALong (t_duration test); ALong (st_bytes st); ALong (st_blocks st);
       ALong (if nonzero (t_reverse test) then 1 else 0); ALong (st_tos st)])
  else if nonzero (t_verbose test) then
    named (fun name =>
    let head := [name; AInt (t_num_streams test); AInt (st_blksize st); AInt (t_omit test)] in
    (if nonzero (st_bytes st) then
       line test_start_bytes (head ++ [ALong (st_bytes st); AInt (st_tos st)])
     else if nonzero (st_blocks st) then
       line test_start_blocks (head ++ [ALong (st_blocks st); AInt (st_tos st)])
     else line test_start_time (head ++ [AInt (t_duration test); AInt (st_tos st)]))%list)
  else mret tt.

(** [test->cookie] as a string. *)
Definition cookie_text (test : iperf_test) : string := until_nul (bytes_string (t_cookie test)).

Definition on_connect_peer : prog W unit :=
  test ← gets id;
  let json := nonzero (t_json_output test) in
  if decide (t_role test = "c"%char) then
    let host := AStr (t_server_hostname test) in
    if json then
      add_printf (json_add json_start "connecting_to") "host: %s  port: %d"
        [host; ALong (t_server_port test)]
    else
      line report_connecting [host; AInt (t_server_port test)];;
      if nonzero (t_reverse test) then line report_reverse [host] else mret tt
  else
    '(address, port) ← sys (fun w => (out_peer (t_ctrl_sck test) w, w));
    let ipr := mapped_v4_to_regular_v4 address in
    if json then
      add_printf (json_add json_start "accepted_connection") "host: %s  port: %d"
        [AStr (Some ipr); ALong port]
    else line report_accepted [AStr (Some ipr); AInt port].

Definition on_connect_settings : prog W unit :=
  test ← gets id;
  let st := t_settings test in
  let by_stream := match t_protocol test with Some p => Some (pr_id p =? Ptcp) | None => None end in
  let add name z := json_add json_start name (cJSON_CreateNumber (d_of_Z z)) in
  if nonzero (t_json_output test) then
    json_add json_start "cookie" (JString (cookie_text test));;
    match by_stream with
    | None => crash
    | Some false => mret tt
    | Some true =>
        (if nonzero (st_mss st) then add "tcp_mss" (st_mss st)
         else add "tcp_mss_default" (t_ctrl_sck_mss test));;
        if nonzero (st_rate st) then add "target_bitrate" (st_rate st) else mret tt
    end
  else if nonzero (t_verbose test) then
    line report_cookie [AStr (Some (cookie_text test))];;
    match by_stream with
    | None => crash
    | Some false => mret tt
    | Some true =>
        if nonzero (st_mss st) then line ("      TCP MSS: %d" ++ nl) [AInt (st_mss st)]
        else line ("      TCP MSS: %d (default)" ++ nl) [AInt (t_ctrl_sck_mss test)]
    end;;
    if nonzero (st_rate st) then line ("      Target Bitrate: %lu" ++ nl) [ALong (st_rate st)]
    else mret tt
  else mret tt.

Definition iperf_on_connect : prog W unit :=
  '(now_str, now_secs) ← sys out_date;
  test ← gets id;
  (if nonzero (t_json_output test) then
     add_printf (json_add json_start "timestamp") "time: %s  timesecs: %d"
       [AStr (Some now_str); ALong now_secs]
   else if nonzero (t_verbose test) then line report_time [AStr (Some now_str)] else mret tt);;
  on_connect_peer;;
  on_connect_settings.

Definition iperf_on_test_finish : prog W unit := mret tt.

(** The beginning of [iperf_run_client] and [iperf_run_server] after the affinity: the
    JSON tree, or the version; false when it returns. *)
Definition start_output : prog W bool :=
  json ← gets t_json_output;
  started ← (if nonzero json then iperf_json_start else mret 0);
  if started <? 0 then mret false
  else
    (if nonzero json then
       json_add json_start "version" (JString version);;
       info ← get_system_info;
       json_add json_start "system_info" (JString info)
     else
       verbose ← gets t_verbose;
       if nonzero verbose then
         line ("%s" ++ nl) [AStr (Some version)];;
         text_line "";;
         info ← get_system_info;
         line ("%s" ++ nl) [AStr (Some info)];;
         iflush;; mret tt
       else mret tt);;
    mret true.

(** The end of [iperf_run_client]. *)
Definition client_output_end : prog W Z :=
  json ← gets t_json_output;
  r ← (if nonzero json then iperf_json_finish
       else line nl [];; text_line report_done;; mret 0);
  if r <? 0 then mret (-1) else iflush;; mret 0.
End Callbacks.
