(* ===== verification/Session.v ===== *)
(** * A running session: what the server and the client share

    The control messages, the exchange of parameters and results, processors,
    congestion control, and the timers of a test with their procedures. *)

From Stdlib Require Import Ascii.
From S2P Require Import Prelude Double Bytes Posix IperfTime Timer Net CJson Test Api Stats Stream.
From S2P Require Import Params Results Sockets Dial Connect Util Lifecycle Prog CString Printf.
From S2P Require Import JsonText JsonParse Texts Auth Output Report Callbacks.

#[local] Open Scope Z_scope.
#[local] Open Scope prog_scope.

Section Session.
Context {W : Type} {posix : Posix W} {clock : Clock W} {sockets : Sockets W}
  {files : Files W} {tcpinfo : TcpInfo W} {usage : Usage W} {machine : Machine W}
  {kernel : Kernel W} {crypto : Crypto W} {terminal : Terminal W}.

(** The clock, in a variable that held [x]: 0 or -1, and the variable. *)
Definition clock_now (x : W -> iperf_time) : prog W (Z * iperf_time) :=
  sys (fun w => let '(c, w') := sys_clock w in (iperf_time_now c (x w), w')).
Definition now : prog W iperf_time := '(_, x) ← clock_now mc_time; mret x.

(** [stats_callback], [reporter_callback] as [iperf_defaults] sets it, and [cpu_util] *)
Definition stats : prog W unit :=
  on_test (fun test w =>
    '(test, w') ← iperf_stats_callback (mc_interval w) test w; Some (tt, test, w')).
Definition report : prog W unit := iperf_reporter_callback.
Definition start_cpu : prog W unit := fun s =>
  let '(c, w) := cpu_start (ss_cpu s) (ss_world s) in
  Some (tt, mk_session (ss_test s) (ss_timers s) c w).
Definition measure_cpu : prog W unit := fun s =>
  let '(l, w) := cpu_util (mc_time (ss_world s)) (ss_cpu s) (ss_world s) in
  Some (tt, mk_session ((ss_test s) <| t_cpu_util := l |>) (ss_timers s) (ss_cpu s) w).

Definition close_fd (fd : Z) : prog W unit := sys (fun w => (tt, sys_close fd w)).

(** [saved_errno = errno; m; errno = saved_errno;] *)
Definition keeping_errno (m : prog W unit) : prog W unit :=
  saved_errno ← sys (fun w => (mc_errno w, w));
  m;;
  sys (fun w => (tt, mc_set_errno saved_errno w)).

(** ** Control messages *)

Definition iperf_set_send_state (state : Z) : prog W Z :=
  ctrl ← gets t_ctrl_sck;
  if 0 <=? ctrl then
    update (fun t => t <| t_state := state |>);;
    r ← io (Nwrite ctrl [u8 state]);
    if r <? 0 then fails IESENDMESSAGE else mret 0
  else mret 0.

(** [write] of a 32-bit error number in network order *)
Definition send_error (e : Z) : prog W Z :=
  ctrl ← gets t_ctrl_sck;
  r ← io (Nwrite ctrl (mem_store mc_endian 4 (hton mc_endian 4 (u32 e))));
  if r <? 0 then fails IECTRLWRITE else mret 0.

Definition test_is_authorized : prog W Z :=
  test ← gets id;
  match t_server_rsa_private_key test, t_server_authorized_users test with
  | Some key, Some users =>
      match st_authtoken (t_settings test) with
      | Some token =>
          d ← io (fun w =>
                d ← decode_auth_setting (mc_alloc 0 w) (mc_alloc 1 w) token key; Some (d, w));
          match d with
          | None => mret (-1)
          | Some (username, password, ts) =>
              ret ← io (fun w =>
                      ret ← check_authentication username password ts users
                              (t_server_skew_threshold test) w;
                      Some (ret, w));
              if ret =? 0 then mret 0 else mret (-1)
          end
      | None => mret (-1)
      end
  | _, _ => mret 0
  end.

Definition protocol_listen : prog W Z :=
  p ← gets t_protocol;
  match p with
  | None => crash
  | Some p =>
      if pr_id p =? Ptcp then on_test' iperf_tcp_listen
      else if pr_id p =? Pudp then on_test' iperf_udp_listen
      else crash
  end.

Definition iperf_exchange_parameters : prog W Z :=
  role ← gets t_role;
  if decide (role = "c"%char) then
    r ← on_test (fun test w =>
          send_parameters (print_bytes (fun k => mc_alloc (2 * k + 1) w))
            (fun username password key =>
               encode_auth_setting (mc_alloc 0 w) username password key w)
            mc_endian test w);
    mret (if r <? 0 then -1 else 0)
  else
    r ← on_test (fun test w =>
          get_parameters (parse_bytes (fun k => mc_alloc (2 * k + 2) w)) mc_endian (mc_stack w)
            (mc_alloc 0 w) test w);
    if r <? 0 then mret (-1)
    else
      r ← test_is_authorized;
      if r <? 0 then
        must iperf_set_send_state SERVER_ERROR;
        update (fun t => t <| t_i_errno := IEAUTHTEST |>);;
        must send_error IEAUTHTEST;
        mret (-1)
      else
        s ← protocol_listen;
        if s <? 0 then
          must iperf_set_send_state SERVER_ERROR;
          ie ← gets t_i_errno;
          must send_error ie;
          e ← sys (fun w => (mc_errno w, w));
          must send_error e;
          mret (-1)
        else
          update (fun t => t <| t_read_set ::= fun l => {[s]} ∪ l |>
                             <| t_max_fd ::= Z.max s |>
                             <| t_prot_listener := s |>);;
          must iperf_set_send_state CREATE_STREAMS;
          mret 0.

Definition exchange_results : prog W Z :=
  on_test (fun test w =>
    iperf_exchange_results (print_bytes (fun k => mc_alloc (2 * k + 1) w))
      (parse_bytes (fun k => mc_alloc (2 * k + 2) w)) mc_endian (mc_stack w) (mc_alloc 0 w) test w).

(** ** Processors *)

Definition iperf_setaffinity (affinity : Z) : prog W Z :=
  r ← sys (sys_setaffinity (Some affinity));
  match r with Ok _ => mret 0 | Err _ => fails IEAFFINITY end.

Definition iperf_clearaffinity : prog W Z :=
  r ← sys (sys_setaffinity None);
  match r with Ok _ => mret 0 | Err _ => fails IEAFFINITY end.

(** ** Streams *)

Definition ENOENT : Z := 2.

(** The descriptor [s] gets the congestion algorithm of the test, and the test
    the one it has. -1 when that failed, and [s] is closed; a server only warns
    about [ENOENT]. [failed] is what else is done before [errno] is restored. *)
Definition set_congestion (lenient : bool) (failed : prog W unit) (s : Z) : prog W Z :=
  congestion ← gets t_congestion;
  let abandon : prog W Z :=
    keeping_errno (close_fd s;; failed);;
    fails IESETCONGESTION in
  let used : prog W Z :=
    rc ← sys (sys_getcongestion s);
    match rc, congestion with
    | Err _, Some _ => abandon
    | Err _, None =>
        update (fun t => t <| t_congestion_used := Some "unknown"%string |>);; mret 0
    | Ok ca, _ => update (fun t => t <| t_congestion_used := Some ca |>);; mret 0
    end in
  match congestion with
  | Some c =>
      r ← sys (sys_setsockopt s (TCP_CONGESTION c) 0);
      match r with
      | Ok _ => used
      | Err e =>
          if lenient && (e =? ENOENT) then
            warning "TCP congestion control algorithm not supported";; used
          else abandon
      end
  | None => used
  end.

Definition new_stream (s sender : Z) : prog W (option nat) :=
  on_test (fun test w =>
    iperf_new_stream (mc_alloc 0 w) (mc_alloc 1 w) mc_getenv test s sender w).

(** [iperf_init_test] with its callback at the end. *)
Definition init_test : prog W Z :=
  r ← on_test' (fun test w => iperf_init_test (mc_time w) test w);
  if r <? 0 then mret r else iperf_on_test_start;; mret 0.

(** [test->on_new_stream(sp)] for the stream at place [i] *)
Definition on_new_stream (i : nat) : prog W unit :=
  sps ← gets t_streams;
  match sps !! i with Some sp => iperf_on_new_stream sp | None => crash end.

Definition create_send_timers : prog W Z := fun s =>
  match iperf_create_send_timers mc_timer (mc_time (ss_world s)) (ss_test s) (ss_timers s)
          (ss_world s) with
  | Some (r, test, tm, w) => Some (r, mk_session test tm (ss_cpu s) w)
  | None => None
  end.

(** ** Timers of a test *)

(** A conversion to [int64_t]; what does not fit is undefined. *)
Definition d_to_i64 (x : double) : option Z :=
  z ← d_trunc x; if (- 2 ^ 63 <=? z) && (z <? 2 ^ 63) then Some z else None.

Definition create (at_ : iperf_time) (p : proc) (us per : Z) : prog W ptr :=
  tm ← get_timers;
  match tmr_create (mc_timer tm) at_ p O us per tm with
  | Some (t, tm) => set_timers tm;; mret t
  | None => crash
  end.

Definition periodic_timer (at_ : iperf_time) (p : proc) (interval : double) : prog W ptr :=
  match d_to_i64 (d_mul interval (d_of_Z 1000000)) with
  | Some us => create at_ p us 1
  | None => crash
  end.

(** A new timer is stored in its member, and must not be null. *)
Definition keep_timer (member : ptr -> iperf_test -> iperf_test) (m : prog W ptr)
    (k : prog W Z) : prog W Z :=
  t ← m;
  update (member t);;
  match t with Some _ => k | None => fails IEINITTEST end.

(** [create_server_timers] and [create_client_timers] differ in their
    procedures and in the time the server grants beyond the test's end. *)
Definition create_timers (test_proc stats_proc reporter_proc : proc) (grace : Z)
    : prog W Z :=
  '(r, at_) ← clock_now mc_time;
  if r <? 0 then fails IEINITTEST
  else
    update (fun t => t <| t_timer := None |> <| t_stats_timer := None |>
                       <| t_reporter_timer := None |>);;
    duration ← gets t_duration;
    omit ← gets t_omit;
    stats_interval ← gets t_stats_interval;
    reporter_interval ← gets t_reporter_interval;
    let reporter : prog W Z :=
      if d_eq reporter_interval d_zero then mret 0
      else
        keep_timer (fun t test => test <| t_reporter_timer := t |>)
          (periodic_timer at_ reporter_proc reporter_interval) (mret 0) in
    let stats : prog W Z :=
      if d_eq stats_interval d_zero then reporter
      else
        keep_timer (fun t test => test <| t_stats_timer := t |>)
          (periodic_timer at_ stats_proc stats_interval) reporter in
    if duration =? 0 then stats
    else
      update (fun test => test <| t_done := 0 |>);;
      keep_timer (fun t test => test <| t_timer := t |>)
        (create at_ test_proc (i32 (duration + omit + grace) * 1000000) 0) stats.

Definition create_omit_timer (omit_proc : proc) : prog W Z :=
  omit ← gets t_omit;
  if omit =? 0 then
    update (fun t => t <| t_omit_timer := None |> <| t_omitting := 0 |>);; mret 0
  else
    '(r, at_) ← clock_now mc_time;
    if r <? 0 then fails IEINITTEST
    else
      update (fun t => t <| t_omitting := 1 |>);;
      keep_timer (fun t test => test <| t_omit_timer := t |>)
        (create at_ omit_proc (omit * 1000000) 0) (mret 0).

(** [if (t != NULL) tmr_reset(nowP, t);] *)
Definition reset_timer (at_ : iperf_time) (t : ptr) : prog W unit :=
  match t with
  | None => mret tt
  | Some t =>
      tm ← get_timers;
      match tmr_reset at_ t tm with Some tm => set_timers tm | None => crash end
  end.

(** [tmr_cancel(t); t = NULL;] for a member that is not null *)
Definition drop_timer (get : iperf_test -> ptr) (clear : iperf_test -> iperf_test)
    : prog W unit :=
  t ← gets get;
  tm ← get_timers;
  match cancel_timer t tm with Some tm => set_timers tm;; update clear | None => crash end.

(** ** What the timers do *)

Definition if_running (m : prog W unit) : prog W unit :=
  done ← gets t_done;
  if negb (done =? 0) then mret tt else m.

(** The end of the omitted part. *)
Definition omit_proc (at_ : iperf_time) : prog W unit :=
  update (fun t => t <| t_omit_timer := None |> <| t_omitting := 0 |>);;
  on_test' (fun test w =>
    let '(test, w') := iperf_reset_stats (mc_interval w) (mc_time w) test w in (tt, test, w'));;
  test ← gets id;
  (if nonzero (t_verbose test) && negb (nonzero (t_json_output test))
      && d_eq (t_reporter_interval test) d_zero
   then text_line report_omit_done else mret tt);;
  t ← gets t_stats_timer; reset_timer at_ t;;
  t ← gets t_reporter_timer; reset_timer at_ t.

(** [while (!SLIST_EMPTY(&test->streams))]: close the sockets, free the streams. *)
Fixpoint close_streams (sps : list iperf_stream) : prog W unit :=
  match sps with
  | [] => mret tt
  | sp :: sps =>
      update (fun t => t <| t_streams := sps |>);;
      close_fd (sp_socket sp);;
      tm ← get_timers;
      io (fun w =>
        '(tm, w) ← iperf_free_stream sp tm w; Some (tm, w)) ≫= set_timers;;
      close_streams sps
  end.

Definition server_timer_proc : prog W unit :=
  update (fun t => t <| t_timer := None |>);;
  if_running (
    update (fun t => t <| t_done := 1 |>);;
    sps ← gets t_streams;
    close_streams sps;;
    ctrl ← gets t_ctrl_sck;
    close_fd ctrl).

Definition test_timer_proc : prog W unit :=
  update (fun t => t <| t_timer := None |> <| t_done := 1 |>).

(** The stream of a send timer is named by its place in the list: a stream that
    has been freed is not there. *)
Definition send_timer_proc (i : nat) (at_ : iperf_time) : prog W unit :=
  on_test (fun test w => test ← throttle_stream i at_ test; Some (tt, test, w)).

Definition timer_proc (p : proc) (i : nat) (at_ : iperf_time) : prog W unit :=
  match p with
  | TestTimer => test_timer_proc
  | ServerTimer => server_timer_proc
  | ClientStats | ServerStats =>
      if_running (b ← gets t_stats_callback; if (b : bool) then stats else mret tt)
  | ClientReporter | ServerReporter =>
      if_running (b ← gets t_reporter_callback; if (b : bool) then report else mret tt)
  | ClientOmit | ServerOmit => omit_proc at_
  | SendTimer => send_timer_proc i at_
  end.

(** A timer's procedure, as [tmr_run] calls it. *)
Definition run_proc (p : proc) (i : nat) (at_ : iperf_time) (st : timer_state * session W)
    : option (timer_state * session W) :=
  let '(tm, s) := st in
  '(_, s) ← timer_proc p i at_ (mk_session (ss_test s) tm (ss_cpu s) (ss_world s));
  Some (ss_timers s, s).

Definition run_due (fuel : nat) (at_ : iperf_time) : prog W unit := fun s =>
  match tmr_run run_proc fuel at_ (ss_timers s, s) with
  | Some (tm, s) => Some (tt, mk_session (ss_test s) tm (ss_cpu s) (ss_world s))
  | None => None
  end.

(** A periodic timer with an interval of 0 would fire for ever: [fuel] bounds
    how many timers fire. *)
Definition run_timers (fuel : nat) : prog W unit := at_ ← now; run_due fuel at_.
End Session.
