(* ===== verification/Server.v ===== *)
(** * iperf_server_api.c: the server

    One session of [iperf_run_server]: the listener, the control connection,
    the streams, the end. A step of the loop answers whether the loop goes on;
    its local variables are [locals]. What --debug prints is not modelled. *)

From S2P Require Import Prelude Double Bytes Posix IperfTime Timer Net CJson CString Printf Test.
From S2P Require Import Api Stats Stream Params Sockets Dial Connect Util Lifecycle Auth Prog.
From S2P Require Import Output Report Callbacks Session.

#[local] Open Scope Z_scope.
#[local] Open Scope prog_scope.

Definition EAFNOSUPPORT : Z := 97.

(** [FD_SET(fd, &test->read_set)] and [max_fd] *)
Definition watch (fd : Z) (test : iperf_test) : iperf_test :=
  test <| t_read_set ::= fun l => {[fd]} ∪ l |> <| t_max_fd ::= Z.max fd |>.
Definition watch_write (fd : Z) (test : iperf_test) : iperf_test :=
  test <| t_write_set ::= fun l => {[fd]} ∪ l |> <| t_max_fd ::= Z.max fd |>.
Definition unwatch (fd : Z) (test : iperf_test) : iperf_test :=
  test <| t_read_set ::= fun l => l ∖ {[fd]} |>.

(** The local variables that live from one turn to the next, and the sets of
    [select], which do not. *)
Record locals := mk_locals {
  send_streams_accepted : Z; rec_streams_accepted : Z;
  streams_to_send : Z; streams_to_rec : Z; flag_ : Z; last_receive_time : iperf_time;
  read_set : gset Z; write_set : gset Z }.

#[export] Instance eta_locals : Eta locals := fun l => mk_locals
  (send_streams_accepted l) (rec_streams_accepted l) (streams_to_send l) (streams_to_rec l)
  (flag_ l) (last_receive_time l) (read_set l) (write_set l).

Definition fd_clr (fd : Z) (l : locals) : locals := l <| read_set ::= fun s => s ∖ {[fd]} |>.

Section Server.
Context {W : Type} {posix : Posix W} {clock : Clock W} {sockets : Sockets W}
  {files : Files W} {tcpinfo : TcpInfo W} {usage : Usage W} {machine : Machine W}
  {kernel : Kernel W} {crypto : Crypto W} {terminal : Terminal W}.

Definition announce (test : iperf_test) : prog W Z :=
  sys (netannounce (st_domain (t_settings test)) SOCK_STREAM (t_bind_address test)
         (t_bind_dev test) (t_server_port test)).

(** A kernel without IPv6 makes the server try once more with IPv4. *)
Definition server_listener : prog W Z :=
  test ← gets id;
  s ← announce test;
  e ← sys (fun w => (mc_errno w, w));
  if (s <? 0) && (e =? EAFNOSUPPORT)
     && ((st_domain (t_settings test) =? AF_INET6) || (st_domain (t_settings test) =? AF_UNSPEC))
  then
    warning "this system does not seem to support IPv6 - trying IPv4";;
    update (set_st (fun st => st <| st_domain := AF_INET |>));;
    test ← gets id;
    announce test
  else mret s.

(** What a server that waits says. *)
Definition listening_lines : prog W unit :=
  test ← gets id;
  if nonzero (t_json_output test) then mret tt
  else
    let first := negb (t_server_last_run_rc test =? 2) in
    (if first then update (fun t => t <| t_server_test_number ::= fun n => n + 1 |>) else mret tt);;
    if nonzero (t_debug test) || first then
      test ← gets id;
      line ("-----------------------------------------------------------" ++ nl)%string [];;
      line ("Server listening on %d (test #%d)" ++ nl)%string
        [AInt (t_server_port test); AInt (t_server_test_number test)];;
      line ("-----------------------------------------------------------" ++ nl)%string [];;
      if nonzero (t_forceflush test) then iflush;; mret tt else mret tt
    else mret tt.

Definition iperf_server_listen : prog W Z :=
  s ← server_listener;
  update (fun t => t <| t_listener := s |>);;
  if s <? 0 then fails IELISTEN
  else
    listening_lines;;
    update (fun t => watch s (t <| t_read_set := ∅ |> <| t_write_set := ∅ |>));;
    mret 0.

Definition iperf_accept : prog W Z :=
  listener ← gets t_listener;
  r ← sys (sys_accept listener);
  match r with
  | Err _ => fails IEACCEPT
  | Ok s =>
      ctrl ← gets t_ctrl_sck;
      if ctrl =? -1 then
        update (fun t => t <| t_ctrl_sck := s |>);;
        r ← sys (sys_setsockopt s TCP_NODELAY 1);
        match r with
        | Err _ => fails IESETNODELAY
        | Ok _ =>
            '(r, bytes) ← io (Nread s COOKIE_SIZE);
            update (fun t => t <| t_cookie ::= fun c => bytes ++ drop (length bytes) c |>);;
            if r <? 0 then fails IERECVCOOKIE
            else
              update (watch s);;
              must iperf_set_send_state PARAM_EXCHANGE;
              must iperf_exchange_parameters;
              affinity ← gets t_server_affinity;
              must iperf_setaffinity affinity if negb (affinity =? -1);
              iperf_on_connect;;
              mret 0
        end
      else
        io (Nwrite s [u8 ACCESS_DENIED]);;
        close_fd s;;
        mret 0
  end.

(** [FD_CLR] in both sets and [close], for every stream *)
Fixpoint close_sockets (sps : list iperf_stream) : prog W unit :=
  match sps with
  | [] => mret tt
  | sp :: sps =>
      update (fun t => t <| t_read_set ::= fun l => l ∖ {[sp_socket sp]} |>
                         <| t_write_set ::= fun l => l ∖ {[sp_socket sp]} |>);;
      close_fd (sp_socket sp);;
      close_sockets sps
  end.

Definition iperf_handle_message_server : prog W Z :=
  ctrl ← gets t_ctrl_sck;
  '(rval, bytes) ← io (Nread ctrl 1);
  update (fun t => t <| t_state := match bytes with b :: _ => i8 b | [] => t_state t end |>);;
  if rval =? 0 then
    iperf_err "the client has unexpectedly closed the connection" [];;
    update (fun t => t <| t_i_errno := IECTRLCLOSE |> <| t_state := IPERF_DONE |>);; mret 0
  else if rval <? 0 then fails IERECVMESSAGE
  else
    state ← gets t_state;
    if state =? TEST_START then mret 0
    else if state =? TEST_END then
      update (fun t => t <| t_done := 1 |>);;
      measure_cpu;;
      stats;;
      sps ← gets t_streams;
      close_sockets sps;;
      report;;
      must iperf_set_send_state EXCHANGE_RESULTS;
      must exchange_results;
      must iperf_set_send_state DISPLAY_RESULTS;
      iperf_on_test_finish;;
      mret 0
    else if state =? IPERF_DONE then mret 0
    else if state =? CLIENT_TERMINATE then
      update (fun t => t <| t_i_errno := IECLIENTTERM |>);;
      measure_cpu;;
      update (fun t => t <| t_state := DISPLAY_RESULTS |>);;
      report;;
      update (fun t => t <| t_state := state |>);;
      iperf_err "the client has terminated" [];;
      sps ← gets t_streams;
      close_sockets sps;;
      update (fun t => t <| t_state := IPERF_DONE |>);;
      mret 0
    else fails IEMESSAGE.

(** ** The timers *)

(** [max_rtt * state_transitions] *)
Definition grace_period : Z := 40.

Definition create_server_timers : prog W Z :=
  create_timers ServerTimer ServerStats ServerReporter grace_period.
Definition create_server_omit_timer : prog W Z := create_omit_timer ServerOmit.

(** ** The end of a session *)

Definition cleanup_server : prog W unit :=
  test ← gets id;
  close_sockets (t_streams test);;
  (if t_ctrl_sck test =? 0 then mret tt else close_fd (t_ctrl_sck test));;
  (if t_listener test =? 0 then mret tt else close_fd (t_listener test));;
  (if t_prot_listener test >? -1 then close_fd (t_prot_listener test) else mret tt);;
  drop_timer t_stats_timer (fun t => t <| t_stats_timer := None |>);;
  drop_timer t_reporter_timer (fun t => t <| t_reporter_timer := None |>);;
  drop_timer t_omit_timer (fun t => t <| t_omit_timer := None |>);;
  update (fun t => t <| t_congestion_used := None |>);;
  drop_timer t_timer (fun t => t <| t_timer := None |>).

(** ** The loop *)

Inductive outcome := Continue (l : locals) | Return (r : Z).

Definition abort : prog W outcome := cleanup_server;; mret (Return (-1)).
Definition abort_with (ie : Z) : prog W outcome :=
  cleanup_server;; update (fun t => t <| t_i_errno := ie |>);; mret (Return (-1)).

(** [if (m < 0) { cleanup_server(test); return -1; }] *)
Notation "'guard_' m ';' k" := (mbind (fun r : Z => if r <? 0 then abort else k) m)
  (at level 200, m at level 100, k at level 200) : prog_scope.

Definition then_ (m : prog W outcome) (k : locals -> prog W outcome) : prog W outcome :=
  o ← m;
  match o with Continue l => k l | Return r => mret (Return r) end.

Definition rcv_timeout_us (test : iperf_test) : Z :=
  let t := st_rcv_timeout (t_settings test) in secs t * 1000000 + usecs t.

(** The timeout of [select], from the one of the timers. *)
Definition server_timeout (test : iperf_test) (rcv_us : Z) (timeout : option (Z * Z))
    : option (Z * Z) :=
  let st := t_settings test in
  if t_state test =? IPERF_START then
    match timeout with
    | None => if 0 <? st_idle_timeout st then Some (st_idle_timeout st, 0) else None
    | Some _ => timeout
    end
  else if decide (t_mode test = SENDER) then timeout
  else
    let timeout_us := match timeout with Some (s, u) => s * 1000000 + u | None => -1 end in
    if (timeout_us <? 0) || (rcv_us <? timeout_us)
    then Some (secs (st_rcv_timeout st), usecs (st_rcv_timeout st))
    else timeout.

(** Nothing was received for the time that was waited. *)
Definition server_idle (rcv_us : Z) (l : locals) : prog W outcome :=
  at_ ← now;
  let '(past, diff) := iperf_time_diff at_ (last_receive_time l) in
  if past =? 0 then
    let t_usecs := i64 (iperf_time_in_usecs diff) in
    test ← gets id;
    if t_state test =? IPERF_START then
      let idle := st_idle_timeout (t_settings test) in
      if (0 <? idle) && (idle * 1000000 <=? t_usecs) then
        update (fun t => t <| t_server_forced_idle_restarts_count ::= fun n => n + 1 |>);;
        cleanup_server;;
        mret (Return 2)
      else mret (Continue l)
    else if negb (bool_decide (t_mode test = SENDER)) && (rcv_us <? t_usecs) then
      update (fun t => t <| t_server_forced_no_msg_restarts_count ::= fun n => n + 1 |>
                         <| t_i_errno := IENOMSG |>);;
      count ← gets t_server_forced_no_msg_restarts_count;
      (if nonzero (iperf_get_verbose test)
       then iperf_err "Server restart (#%d) during active test due to idle data for receiving data"
              [AInt count]
       else mret tt);;
      abort
    else mret (Continue l)
  else mret (Continue l).

(** How many streams the server has to make, once a client has been let in. *)
Definition set_streams (test : iperf_test) (l : locals) : locals :=
  let n := t_num_streams test in
  let '(to_send, to_rec) :=
    match t_mode test with
    | BIDIRECTIONAL => (n, n)
    | RECEIVER => (0, n)
    | SENDER => (n, 0)
    end in
  l <| streams_to_send := to_send |> <| streams_to_rec := to_rec |>.

Definition protocol_accept : prog W Z :=
  p ← gets t_protocol;
  match p with
  | None => crash
  | Some p =>
      if pr_id p =? Ptcp then
        on_test (fun test w => iperf_tcp_accept (mc_stack w) test w)
      else if pr_id p =? Pudp then on_test' (iperf_udp_accept mc_endian)
      else crash
  end.

Definition is_tcp (p : option protocol) : bool := bool_decide (pr_id <$> p = Some Ptcp).
Definition is_udp (p : option protocol) : bool := bool_decide (pr_id <$> p = Some Pudp).

(** Which way the next stream goes: receivers first. *)
Definition next_flag (l : locals) : locals :=
  if negb (rec_streams_accepted l =? streams_to_rec l) then
    l <| flag_ := 0 |> <| rec_streams_accepted ::= Z.succ |>
  else if negb (send_streams_accepted l =? streams_to_send l) then
    l <| flag_ := 1 |> <| send_streams_accepted ::= Z.succ |>
  else l.

(** The stream of an accepted connection. *)
Definition add_stream (s : Z) (l : locals) : prog W outcome :=
  let l := next_flag l in
  if flag_ l =? -1 then mret (Continue l)
  else
    sp ← new_stream s (flag_ l);
    match sp with
    | None => abort
    | Some i =>
        update (if nonzero (flag_ l) then watch_write s else watch s);;
        p ← gets t_protocol;
        (if negb (is_udp p) || (flag_ l =? 0)
         then _ ← sys (setnonblocking s true); mret tt else mret tt);;
        on_new_stream i;;
        mret (Continue (l <| flag_ := -1 |>))
    end.

Definition accept_stream (l : locals) : prog W outcome :=
  s ← protocol_accept;
  if s <? 0 then abort
  else
    closed ← sys (fun w => (is_closed s w, w));
    if (closed : bool) then mret (Continue l)
    else
      p ← gets t_protocol;
      if is_tcp p then
        r ← set_congestion true cleanup_server s;
        if r <? 0 then mret (Return (-1)) else add_stream s l
      else add_stream s l.

(** The listener of the streams is not needed any more; for TCP it is the one of
    the server, which is made anew without the options of the test. *)
Definition close_listener (k : prog W outcome) : prog W outcome :=
  test ← gets id;
  let st := t_settings test in
  if negb (is_tcp (t_protocol test)) then
    update (unwatch (t_prot_listener test));; close_fd (t_prot_listener test);; k
  else if nonzero (t_no_delay test) || nonzero (st_mss st) || nonzero (st_socket_bufsize st) then
    update (unwatch (t_listener test));;
    close_fd (t_listener test);;
    update (fun t => t <| t_listener := 0 |>);;
    s ← announce test;
    if s <? 0 then abort_with IELISTEN
    else
      update (fun t => watch s (t <| t_listener := s |>));; k
  else k.

Definition total_requested_rate (test : iperf_test) : Z :=
  u64 (t_num_streams test * st_rate (t_settings test)
       * (if decide (t_mode test = BIDIRECTIONAL) then 2 else 1)).

(** All streams are there. *)
Definition start_test (l : locals) : prog W outcome :=
  close_listener (
  update (fun t => t <| t_prot_listener := -1 |>);;
  test ← gets id;
  let limit := st_bitrate_limit (t_settings test) in
  if (0 <? limit) && (limit <? total_requested_rate test) then
    (if nonzero (iperf_get_verbose test)
     then iperf_err "Client total requested throughput rate of %lu bps exceeded %lu bps limit"
            [ALong (total_requested_rate test); ALong limit]
     else mret tt);;
    abort_with IETOTALRATE
  else
    start_cpu;;
    guard_ iperf_set_send_state TEST_START;
    guard_ init_test;
    guard_ create_server_timers;
    guard_ create_server_omit_timer;
    guard_ (mode ← gets t_mode;
            if decide (mode = RECEIVER) then mret 0 else create_send_timers);
    guard_ iperf_set_send_state TEST_RUNNING;
    mret (Continue l)).

(** [state == CREATE_STREAMS] *)
Definition make_streams (l : locals) : prog W outcome :=
  listener ← gets t_prot_listener;
  then_ (if bool_decide (listener ∈ read_set l) then
           then_ (accept_stream l) (fun l =>
             listener ← gets t_prot_listener; mret (Continue (fd_clr listener l)))
         else mret (Continue l))
    (fun l =>
      if (rec_streams_accepted l =? streams_to_rec l)
         && (send_streams_accepted l =? streams_to_send l)
      then start_test l else mret (Continue l)).

Definition recv_data (ready : gset Z) : prog W Z :=
  on_test (fun test w =>
    '(r, _, test, w) ← iperf_recv mc_endian test ready w; Some (r, test, w)).
Definition send_data (ready : gset Z) : prog W Z :=
  on_test (fun test w =>
    '(r, _, test, w) ← iperf_send mc_endian test (Some ready) (mc_time w) w; Some (r, test, w)).

Definition server_data (l : locals) : prog W outcome :=
  mode ← gets t_mode;
  match mode with
  | BIDIRECTIONAL =>
      guard_ recv_data (read_set l);
      guard_ send_data (write_set l);
      mret (Continue l)
  | SENDER => guard_ send_data (write_set l); mret (Continue l)
  | RECEIVER => guard_ recv_data (read_set l); mret (Continue l)
  end.

(** [FD_ISSET(test->listener, &read_set)] *)
Definition server_listening (l : locals) : prog W outcome :=
  test ← gets id;
  if bool_decide (t_listener test ∈ read_set l) && negb (t_state test =? CREATE_STREAMS) then
    guard_ iperf_accept;
    test ← gets id;
    mret (Continue (set_streams test (fd_clr (t_listener test) l)))
  else mret (Continue l).

(** [FD_ISSET(test->ctrl_sck, &read_set)] *)
Definition server_control (l : locals) : prog W outcome :=
  ctrl ← gets t_ctrl_sck;
  if bool_decide (ctrl ∈ read_set l) then
    guard_ iperf_handle_message_server;
    ctrl ← gets t_ctrl_sck;
    mret (Continue (fd_clr ctrl l))
  else mret (Continue l).

(** [result > 0] *)
Definition server_events (l : locals) : prog W outcome :=
  at_ ← now;
  then_ (server_listening (l <| last_receive_time := at_ |>)) (fun l =>
  then_ (server_control l) (fun l =>
  then_ (state ← gets t_state;
         if state =? CREATE_STREAMS then make_streams l else mret (Continue l)) (fun l =>
  state ← gets t_state;
  if state =? TEST_RUNNING then server_data l else mret (Continue l)))).

(** One turn of the loop. *)
Definition server_step (fuel : nat) (rcv_us : Z) (l : locals) : prog W outcome :=
  test ← gets id;
  if nonzero (t_bitrate_limit_exceeded test) then abort_with IETOTALRATE
  else
    at_ ← now;
    tm ← get_timers;
    match tmr_timeout at_ tm with
    | None => crash
    | Some timeout =>
        '(r, rest) ← sys (sys_select (t_read_set test) (t_write_set test)
                            (server_timeout test rcv_us timeout));
        let timers (always : bool) (l : locals) : prog W outcome :=
          if always || bool_decide (rest = Some (0, 0)) then run_timers fuel;; mret (Continue l)
          else mret (Continue l) in
        match r with
        | Err e => if e =? EINTR then timers false l else abort_with IESELECT
        | Ok (n, rd, wr) =>
            if n =? 0 then then_ (server_idle rcv_us l) (timers true)
            else then_ (server_events (l <| read_set := rd |> <| write_set := wr |>)) (timers false)
        end
    end.

Fixpoint server_loop (turns fuel : nat) (rcv_us : Z) (l : locals) : prog W Z :=
  match turns with
  | O => crash
  | S turns =>
      state ← gets t_state;
      if state =? IPERF_DONE then
        cleanup_server;;
        json ← gets t_json_output;
        must iperf_json_finish if nonzero json;
        iflush;;
        affinity ← gets t_server_affinity;
        must iperf_clearaffinity if negb (affinity =? -1);
        mret 0
      else
        o ← server_step fuel rcv_us l;
        match o with
        | Continue l => server_loop turns fuel rcv_us l
        | Return r => mret r
        end
  end.

(** [flag0] is what the uninitialised [flag] holds. *)
Definition iperf_run_server (turns fuel : nat) (flag0 : Z) : prog W Z :=
  logfile ← gets t_logfile;
  must iperf_open_logfile if bool_decide (is_Some logfile);
  affinity ← gets t_affinity;
  r ← (if affinity =? -1 then mret 0 else iperf_setaffinity affinity);
  if r <? 0 then mret (-2)
  else
    started ← start_output;
    if negb started then mret (-2)
    else
      r ← iperf_server_listen;
      if r <? 0 then mret (-2)
      else
        at_ ← now;
        update (fun t => t <| t_state := IPERF_START |>);;
        rcv_us ← gets rcv_timeout_us;
        server_loop turns fuel rcv_us (mk_locals 0 0 0 0 flag0 at_ ∅ ∅).
End Server.
