(* ===== verification/Client.v ===== *)
(** * iperf_client_api.c: the client

    [iperf_run_client]: connecting, answering the server's states, running the
    test. On a failure the client exits in [iperf_errexit], so that what follows it
    behind the label [cleanup_and_fail] is never reached. What --debug prints is not
    modelled. *)

From Stdlib Require Import Ascii.
From S2P Require Import Prelude Double Bytes Posix IperfTime Timer Net CJson CString Printf Texts.
From S2P Require Import Test Api Stats Stream Params Sockets Dial Connect Util Lifecycle Auth Prog.
From S2P Require Import Output Report Callbacks Session Server.

#[local] Open Scope Z_scope.
#[local] Open Scope prog_scope.

(** The numbers of [enum iperf_mode]. *)
Definition mode_number (m : iperf_mode) : Z :=
  match m with SENDER => 1 | RECEIVER => 0 | BIDIRECTIONAL => -1 end.

Record client_locals := mk_client {
  startup : bool; c_last_receive_time : iperf_time;
  c_read_set : gset Z; c_write_set : gset Z }.

#[export] Instance eta_client : Eta client_locals := fun l => mk_client
  (startup l) (c_last_receive_time l) (c_read_set l) (c_write_set l).

Section Client.
Context {W : Type} {posix : Posix W} {clock : Clock W} {sockets : Sockets W}
  {files : Files W} {tcpinfo : TcpInfo W} {usage : Usage W} {machine : Machine W}
  {kernel : Kernel W} {crypto : Crypto W} {terminal : Terminal W}.

Definition protocol_connect : prog W Z :=
  p ← gets t_protocol;
  match p with
  | None => crash
  | Some p =>
      if pr_id p =? Ptcp then on_test (iperf_tcp_connect mc_endian)
      else if pr_id p =? Pudp then on_test' (iperf_udp_connect mc_endian)
      else crash
  end.

(** The streams from number [i] on. *)
Fixpoint create_streams (k : nat) (i orig_bind_port sender : Z) : prog W Z :=
  match k with
  | O => mret 0
  | S k =>
      update (fun t => t <| t_bind_port :=
        if nonzero orig_bind_port then orig_bind_port + i else orig_bind_port |>);;
      s ← protocol_connect;
      if s <? 0 then mret (-1)
      else
        p ← gets t_protocol;
        r ← (if is_tcp p then set_congestion false (mret tt) s else mret 0);
        if r <? 0 then mret (-1)
        else
          update (if nonzero sender then watch_write s else watch s);;
          sp ← new_stream s sender;
          match sp with
          | None => mret (-1)
          | Some j => on_new_stream j;; create_streams k (i + 1) orig_bind_port sender
          end
  end.

Definition iperf_create_streams (sender : Z) : prog W Z :=
  orig_bind_port ← gets t_bind_port;
  n ← gets t_num_streams;
  create_streams (Z.to_nat n) 0 orig_bind_port sender.

Definition create_client_timers : prog W Z :=
  create_timers TestTimer ClientStats ClientReporter 0.
Definition create_client_omit_timer : prog W Z := create_omit_timer ClientOmit.

Fixpoint close_all (sps : list iperf_stream) : prog W unit :=
  match sps with
  | [] => mret tt
  | sp :: sps => close_fd (sp_socket sp);; close_all sps
  end.

Definition iperf_client_end : prog W Z :=
  sps ← gets t_streams;
  close_all sps;;
  report;;
  state ← gets t_state;
  must iperf_set_send_state IPERF_DONE if 0 <? state;
  ctrl ← gets t_ctrl_sck;
  (if 0 <=? ctrl then close_fd ctrl else mret tt);;
  mret 0.

(** An [int32_t] read into a variable that held [old], in host order. *)
Definition read_int (old : list Z) : prog W (Z * list Z) :=
  ctrl ← gets t_ctrl_sck;
  '(r, bytes) ← io (Nread ctrl 4);
  mret (r, bytes ++ drop (length bytes) old).

(** The error numbers of a server, for [i_errno] and [errno]. *)
Definition read_server_error : prog W Z :=
  stack ← sys (fun w => (take 4 (mc_stack w), w));
  '(r, err) ← read_int stack;
  if r <? 0 then fails IECTRLREAD
  else
    update (fun t => t <| t_i_errno :=
      i32 (hton mc_endian 4 (mem_load mc_endian err)) |>);;
    '(r, err) ← read_int err;
    if r <? 0 then fails IECTRLREAD
    else
      sys (fun w => (tt, mc_set_errno (i32 (hton mc_endian 4 (mem_load mc_endian err))) w));;
      mret (-1).

(** What the client does in a new state. *)
Definition enter_state (state : Z) : prog W Z :=
  if state =? PARAM_EXCHANGE then
    must iperf_exchange_parameters;
    iperf_on_connect;;
    mret 0
  else if state =? CREATE_STREAMS then
    mode ← gets t_mode;
    if decide (mode = BIDIRECTIONAL) then
      must iperf_create_streams 1;
      must iperf_create_streams 0;
      mret 0
    else
      must iperf_create_streams (mode_number mode);
      mret 0
  else if state =? TEST_START then
    must init_test;
    must create_client_timers;
    must create_client_omit_timer;
    mode ← gets t_mode;
    must create_send_timers if nonzero (mode_number mode);
    mret 0
  else if state =? TEST_RUNNING then mret 0
  else if state =? EXCHANGE_RESULTS then exchange_results
  else if state =? DISPLAY_RESULTS then iperf_on_test_finish;; iperf_client_end;; mret 0
  else if state =? IPERF_DONE then mret 0
  else if state =? SERVER_TERMINATE then
    update (fun t => t <| t_i_errno := IESERVERTERM |>);;
    measure_cpu;;
    update (fun t => t <| t_state := DISPLAY_RESULTS |>);;
    report;;
    update (fun t => t <| t_state := state |>);;
    mret (-1)
  else if state =? ACCESS_DENIED then fails IEACCESSDENIED
  else if state =? SERVER_ERROR then read_server_error
  else fails IEMESSAGE.

Definition iperf_handle_message_client : prog W Z :=
  ctrl ← gets t_ctrl_sck;
  r ← sys (sys_read ctrl 1);
  match r with
  | Err _ => fails IERECVMESSAGE
  | Ok [] => fails IECTRLCLOSE
  | Ok (b :: _) =>
      update (fun t => t <| t_state := i8 b |>);;
      enter_state (i8 b)
  end.

(** [snprintf] into 128 bytes, and [warning] *)
Definition warning_text (format : string) (args : list argument) : prog W unit :=
  str ← formatted format args;
  warning (str_take 127 str).
(** [if (test->verbose) printf(...)] *)
Definition verbose_stdout (format : string) (args : list argument) : prog W unit :=
  verbose ← gets t_verbose;
  if nonzero verbose then
    text ← formatted format args;
    sys (fun w => (tt, std_write text w))
  else mret tt.

(** The largest segment the control connection carries, or 0. *)
Definition control_mss : prog W Z :=
  ctrl ← gets t_ctrl_sck;
  r ← sys (sys_getsockopt ctrl TCP_MAXSEG);
  match r with
  | Ok opt =>
      if (0 <? opt) && (opt <=? MAX_UDP_BLOCKSIZE) then mret opt
      else warning_text "Ignoring nonsense TCP MSS %d" [AInt opt];; mret 0
  | Err _ => mret 0
  end.

(** The block size of a UDP test that was given none. *)
Definition default_blksize (test : iperf_test) : iperf_test :=
  set_st (fun st => st <| st_blksize :=
    if nonzero (t_ctrl_sck_mss test) then t_ctrl_sck_mss test else DEFAULT_UDP_BLKSIZE |>) test.

(** A UDP test gets its block size; one that is too large is warned about. *)
Definition udp_blksize : prog W unit :=
  test ← gets id;
  match t_protocol test with
  | None => crash
  | Some p =>
      if pr_id p =? Pudp then
        (if st_blksize (t_settings test) =? 0 then
           update default_blksize;;
           test ← gets id;
           verbose_stdout ("Setting UDP block size to %d" ++ nl)%string
             [AInt (st_blksize (t_settings test))]
         else mret tt);;
        test ← gets id;
        let mss := t_ctrl_sck_mss test in
        let blksize := st_blksize (t_settings test) in
        if (0 <? mss) && (mss <? blksize) then
          warning_text "UDP block size %d exceeds TCP MSS %d, may result in fragmentation / drops"
            [AInt blksize; AInt mss]
        else mret tt
      else mret tt
  end.

Definition iperf_connect : prog W Z :=
  cookie ← io make_cookie;
  update (fun t => t <| t_read_set := ∅ |> <| t_write_set := ∅ |> <| t_cookie := cookie |>);;
  test ← gets id;
  (if t_ctrl_sck test <? 0 then
     s ← sys (netdial (st_domain (t_settings test)) SOCK_STREAM (t_bind_address test)
                (t_bind_dev test) 0 (t_server_hostname test) (t_server_port test)
                (st_connect_timeout (t_settings test)));
     update (fun t => t <| t_ctrl_sck := s |>)
   else mret tt);;
  ctrl ← gets t_ctrl_sck;
  if ctrl <? 0 then fails IECONNECT
  else
    r ← sys (sys_setsockopt ctrl TCP_NODELAY 1);
    match r with
    | Err _ => fails IESETNODELAY
    | Ok _ =>
        r ← io (Nwrite ctrl cookie);
        if r <? 0 then fails IESENDCOOKIE
        else
          update (watch ctrl);;
          mss ← control_mss;
          update (fun t => t <| t_ctrl_sck_mss := mss |>);;
          verbose_stdout ("Control connection MSS %d" ++ nl)%string [AInt mss];;
          udp_blksize;;
          mret 0
    end.

(** ** The loop *)

(** [goto cleanup_and_fail] ends the process. *)
Inductive turn := Goes_on (l : client_locals) | Exits.

Notation "'ok_or_exit' m ';' k" := (mbind (fun r : Z => if r <? 0 then mret Exits else k) m)
  (at level 200, m at level 100, k at level 200) : prog_scope.

Definition then_turn (m : prog W turn) (k : client_locals -> prog W turn) : prog W turn :=
  o ← m;
  match o with Goes_on l => k l | Exits => mret Exits end.

Definition exit_with (ie : Z) : prog W turn :=
  update (fun t => t <| t_i_errno := ie |>);; mret Exits.

(** The timeout of [select]: a client that receives waits no longer than
    [rcv_timeout]. *)
Definition client_timeout (test : iperf_test) (rcv_us : Z) (timeout : option (Z * Z))
    : option (Z * Z) :=
  if (t_state test =? TEST_RUNNING) && (0 <? rcv_us) then
    let timeout_us := match timeout with Some (s, u) => s * 1000000 + u | None => -1 end in
    let st := t_settings test in
    if (timeout_us <? 0) || (rcv_us <? timeout_us)
    then Some (secs (st_rcv_timeout st), usecs (st_rcv_timeout st))
    else timeout
  else timeout.

(** Nothing was received for the time that was waited. *)
Definition client_idle (rcv_us : Z) (l : client_locals) : prog W turn :=
  at_ ← now;
  let '(past, diff) := iperf_time_diff at_ (c_last_receive_time l) in
  if (past =? 0) && (rcv_us <? i64 (iperf_time_in_usecs diff))
  then exit_with IENOMSG else mret (Goes_on l).

(** [result > 0] *)
Definition client_events (rcv_us : Z) (l : client_locals) : prog W turn :=
  l ← (if 0 <? rcv_us then at_ ← now; mret (l <| c_last_receive_time := at_ |>) else mret l);
  ctrl ← gets t_ctrl_sck;
  if bool_decide (ctrl ∈ c_read_set l) then
    ok_or_exit iperf_handle_message_client;
    ctrl ← gets t_ctrl_sck;
    mret (Goes_on (l <| c_read_set ::= fun s => s ∖ {[ctrl]} |>))
  else mret (Goes_on l).

Fixpoint set_blocking (nonblocking : bool) (sps : list iperf_stream) : prog W unit :=
  match sps with
  | [] => mret tt
  | sp :: sps => _ ← sys (setnonblocking (sp_socket sp) nonblocking); set_blocking nonblocking sps
  end.

(** [SLIST_FOREACH(sp, &test->streams, streams) setnonblocking(sp->socket, ...)] *)
Definition streams_blocking (nonblocking : bool) : prog W unit :=
  test ← gets id;
  if is_udp (t_protocol test) then mret tt else set_blocking nonblocking (t_streams test).

Definition client_data (l : client_locals) : prog W turn :=
  mode ← gets t_mode;
  match mode with
  | BIDIRECTIONAL =>
      ok_or_exit send_data (c_write_set l);
      ok_or_exit recv_data (c_read_set l);
      mret (Goes_on l)
  | SENDER => ok_or_exit send_data (c_write_set l); mret (Goes_on l)
  | RECEIVER => ok_or_exit recv_data (c_read_set l); mret (Goes_on l)
  end.

(** The test is over: by time, by bytes or by blocks. *)
Definition test_over (test : iperf_test) : bool :=
  let st := t_settings test in
  (t_omitting test =? 0) &&
  (nonzero (t_done test)
   || nonzero (st_bytes st)
      && ((st_bytes st <=? t_bytes_sent test) || (st_bytes st <=? t_bytes_received test))
   || nonzero (st_blocks st)
      && ((st_blocks st <=? t_blocks_sent test) || (st_blocks st <=? t_blocks_received test))).

Definition end_test (l : client_locals) : prog W turn :=
  streams_blocking false;;
  update (fun t => t <| t_done := 1 |>);;
  measure_cpu;;
  stats;;
  ok_or_exit iperf_set_send_state TEST_END;
  mret (Goes_on l).

(** [state == TEST_RUNNING] *)
Definition client_running (fuel : nat) (l : client_locals) : prog W turn :=
  (if startup l then streams_blocking true else mret tt);;
  then_turn (client_data (l <| startup := false |>)) (fun l =>
  run_timers fuel;;
  over ← gets test_over;
  if (over : bool) then end_test l else mret (Goes_on l)).

(** One turn of the loop. *)
Definition client_step (fuel : nat) (rcv_us : Z) (l : client_locals) : prog W turn :=
  test ← gets id;
  at_ ← now;
  tm ← get_timers;
  match tmr_timeout at_ tm with
  | None => crash
  | Some timeout =>
      '(r, _) ← sys (sys_select (t_read_set test) (t_write_set test)
                       (client_timeout test rcv_us timeout));
      let l := l <| c_read_set := t_read_set test |> <| c_write_set := t_write_set test |> in
      then_turn
        match r with
        | Err e => if e =? EINTR then mret (Goes_on l) else exit_with IESELECT
        | Ok (n, rd, wr) =>
            let l := l <| c_read_set := rd |> <| c_write_set := wr |> in
            if n =? 0 then
              if (t_state test =? TEST_RUNNING) && (0 <? rcv_us) then client_idle rcv_us l
              else mret (Goes_on l)
            else client_events rcv_us l
        end
        (fun l =>
          test ← gets id;
          if t_state test =? TEST_RUNNING then client_running fuel l
          else if bool_decide (t_mode test = RECEIVER) && (t_state test =? TEST_END) then
            ok_or_exit recv_data (c_read_set l); mret (Goes_on l)
          else mret (Goes_on l))
  end.

(** How the client ends: with a result, or in [exit]. *)
Inductive ending := Returns (r : Z) | Exit.

(** [iperf_errexit(test, "error - %s", iperf_strerror(i_errno))] *)
Definition exit_error (format : string) : prog W ending :=
  text ← error_message;
  iperf_errexit format [AStr (Some text)];;
  mret Exit.

(** [cleanup_and_fail] *)
Definition cleanup_and_fail : prog W ending := exit_error "error - %s".

Fixpoint client_loop (turns fuel : nat) (rcv_us : Z) (l : client_locals) : prog W ending :=
  match turns with
  | O => crash
  | S turns =>
      state ← gets t_state;
      if state =? IPERF_DONE then r ← client_output_end; mret (Returns r)
      else
        o ← client_step fuel rcv_us l;
        match o with
        | Goes_on l => client_loop turns fuel rcv_us l
        | Exits => cleanup_and_fail
        end
  end.

Definition iperf_run_client (turns fuel : nat) : prog W ending :=
  logfile ← gets t_logfile;
  r ← (if bool_decide (is_Some logfile) then iperf_open_logfile else mret 0);
  if r <? 0 then mret (Returns (-1))
  else
    affinity ← gets t_affinity;
    r ← (if affinity =? -1 then mret 0 else iperf_setaffinity affinity);
    if r <? 0 then mret (Returns (-1))
    else
      started ← start_output;
      if negb started then mret (Returns (-1))
      else
        r ← iperf_connect;
        if r <? 0 then cleanup_and_fail
        else
          start_cpu;;
          test ← gets id;
          last ← sys (fun w => (mc_time w, w));
          let rcv_us := if decide (t_mode test = SENDER) then 0 else rcv_timeout_us test in
          client_loop turns fuel rcv_us (mk_client true last ∅ ∅).
End Client.
