(* ===== verification/SessionProps.v ===== *)
(** * Reasoning about a session

    The timers a session holds, and a host to run sessions on. *)

From S2P Require Import Prelude Double Bytes Posix IperfTime Timer TimerLists TimerSpec Net CJson.
From S2P Require Import CString Printf Auth AuthProps Test Api Stats Stream Params Results Sockets.
From S2P Require Import Dial Connect ConnectProps Util Lifecycle LifecycleProps Prog Output.
From S2P Require Import OutputProps Report Session.

#[local] Open Scope Z_scope.
#[local] Open Scope prog_scope.

Lemma wp_close_fd {W} {sockets : Sockets W} fd Q (s : session W) :
  Q tt (mk_session (ss_test s) (ss_timers s) (ss_cpu s) (sys_close fd (ss_world s))) ->
  wp (close_fd fd) Q s.
Proof. done. Qed.

(** ** Timers that are running *)

(** The timers [ts] are all on the list, once each. *)
Definition held (tm : timer_state) (ts : list loc) : Prop :=
  NoDup ts /\ exists L F, tmr_inv tm [] L F /\ forall t, t ∈ ts -> t ∈ L.*1.

Lemma held_perm tm ts ts' : ts ≡ₚ ts' -> held tm ts -> held tm ts'.
Proof.
  intros E (Hn & L & F & Hi & Ht). split; [by rewrite <- E|]. exists L, F.
  split; [done|]. intros t. rewrite <- E. apply Ht.
Qed.

(** What the timers are is not changed, only where they are linked. *)
Definition same_pay (tm tm' : timer_state) : Prop :=
  forall a, pay (heap tm') a = pay (heap tm) a.

Lemma cancel_held tm t ts :
  held tm (t :: ts) ->
  exists tm', tmr_cancel t tm = Some tm' /\ held tm' ts /\ same_pay tm tm'.
Proof.
  intros ([Ht Hn]%NoDup_cons & L & F & Hi & Hin).
  destruct (list_elem_of_fmap_1 fst L t) as ([t' e] & -> & HL); [apply Hin; set_solver|].
  apply list_elem_of_split in HL as (A & B & ->). cbn [fst] in *.
  destruct (tmr_cancel_spec _ _ _ _ _ _ Hi) as (tm' & E & Hi' & Hpay).
  exists tm'. split; [done|]. split; [|done].
  split; [done|]. exists (A ++ B), (t' :: F). split; [done|].
  intros u Hu. assert (u ∈ (A ++ (t', e) :: B).*1) as H by (apply Hin; set_solver).
  rewrite fmap_app in *. cbn in H. set_solver.
Qed.

Lemma timeout_held now tm ts : held tm ts -> is_Some (tmr_timeout now tm).
Proof.
  intros (_ & L & F & [Hrep _ _] & _). unfold tmr_timeout.
  pose proof (rep_active _ _ _ _ Hrep) as Ha. destruct L as [|[t e] L]; cbn in Ha.
  - by rewrite Ha.
  - destruct Ha as (-> & n & Hn & _). unfold load. rewrite Hn. cbn.
    by destruct (iperf_time_diff _ _).
Qed.

Lemma held_none : held (mk_tmr ∅ None None) [].
Proof.
  split; [constructor|]. exists [], []. split; [|set_solver]. split; [|constructor..].
  split; cbn; [constructor|done|done|set_solver|].
  intros a. rewrite lookup_empty. split; [by intros []|set_solver].
Qed.

(** A member of the test that may hold a timer. *)
Definition timer_list (t : ptr) : list loc := match t with Some t => [t] | None => [] end.

Lemma cancel_timer_held tm t ts :
  held tm (timer_list t ++ ts) ->
  exists tm', cancel_timer t tm = Some tm' /\ held tm' ts /\ same_pay tm tm'.
Proof. destruct t; [apply cancel_held|by exists tm]. Qed.

Lemma wp_drop_timer {W} get clear ts Q (s : session W) :
  held (ss_timers s) (timer_list (get (ss_test s)) ++ ts) ->
  (forall tm, held tm ts -> Q tt (mk_session (clear (ss_test s)) tm (ss_cpu s) (ss_world s))) ->
  wp (drop_timer get clear) Q s.
Proof.
  intros Hh HQ. unfold drop_timer. wp_steps.
  destruct (cancel_timer_held _ _ _ Hh) as (tm & -> & H & _). wp_steps. auto.
Qed.

(** ** Messages *)

(** Printing opens and closes nothing. *)
Class QuietTerminal (W : Type) {posix : Posix W} {sockets : Sockets W} {laws : SocketLaws W}
    {terminal : Terminal W} := {
  out_write_live text w : live (out_write text w).2 = live w;
  err_write_live text w : live (err_write text w) = live w;
  out_timestamp_live f w : live (out_timestamp f w).2 = live w }.

Section Messages.
Context {W : Type} {posix : Posix W} {sockets : Sockets W} {laws : SocketLaws W}
  {terminal : Terminal W} {silent : QuietTerminal W}.

Lemma set_json_top_id test : test <| t_json_top := t_json_top test |> = test.
Proof. by destruct test. Qed.

(** Between [s] and [s'] there were only messages. *)
Definition said (s s' : session W) : Prop :=
  (exists top, ss_test s' = (ss_test s) <| t_json_top := top |>) /\
  ss_timers s' = ss_timers s /\ ss_cpu s' = ss_cpu s /\ live (ss_world s') = live (ss_world s).

Lemma said_world s w :
  live w = live (ss_world s) -> said s (mk_session (ss_test s) (ss_timers s) (ss_cpu s) w).
Proof. intros H. split; [|done]. exists (t_json_top (ss_test s)). by rewrite set_json_top_id. Qed.

Lemma said_refl s : said s s.
Proof. destruct s as [test tm c w]. by apply (said_world (mk_session test tm c w)). Qed.

Lemma said_trans s1 s2 s3 : said s1 s2 -> said s2 s3 -> said s1 s3.
Proof.
  intros ([t1 E1] & H1 & H2 & H3) ([t2 E2] & H4 & H5 & H6). split_and!; [|congruence..].
  exists t2. by rewrite E2, E1.
Qed.

Lemma wp_error_timestamp f s :
  (t_timestamps (ss_test s) = 0 \/ is_Some (f (ss_test s))) ->
  wp (timestamp f) (fun _ s' => said s s') s.
Proof.
  intros Hs. unfold timestamp. wp_steps.
  destruct (Z.eqb_spec (t_timestamps (ss_test s)) 0) as [E|E].
  { wp_steps. destruct s. by apply said_world. }
  wp_steps. destruct Hs as [Hs|[t ->]]; [done|]. wp_steps. apply said_world.
  pose proof (out_timestamp_live t (ss_world s)) as Hl. by destruct (out_timestamp t _); simplify_eq.
Qed.

Lemma wp_error_line ct str s : wp (error_line ct str) (fun _ s' => said s s') s.
Proof.
  unfold error_line, out. apply wp_bind, wp_sys. intros b w [= <- <-].
  destruct (out_is_stdout _), ct as [ct|]; wp_steps; apply said_world;
    repeat match goal with
    | H : out_write ?t ?w = _ |- _ =>
        pose proof (out_write_live t w); destruct (out_write t w); simplify_eq; cbn [snd] in *; clear H
    | H : (tt, _) = _ |- _ => injection H as <- <-
    end; cbn [ss_world] in *; rewrite ?err_write_live; congruence.
Qed.

Lemma wp_iperf_err format args text s :
  stamped (ss_test s) -> printf_text format args = Some text ->
  wp (iperf_err format args) (fun _ s' => said s s') s.
Proof.
  intros Hs Ht. unfold iperf_err. apply wp_bind. eapply wp_mono; [by apply wp_error_timestamp|].
  intros ct s1 H1. cbn in H1. unfold error_text, formatted. rewrite Ht. wp_steps. unfold json_active.
  wp_steps. destruct (_ && _).
  - unfold json_add. wp_steps. eapply said_trans; [exact H1|]. split; [|done].
    eexists. reflexivity.
  - eapply wp_mono; [apply wp_error_line|]. intros [] s2 H2. by eapply said_trans.
Qed.
End Messages.

(** ** An environment

    For the kernel of [Host]: nothing is allocated, printed or reported, and
    what was asked for is ready as long as there is something to read. *)
Module HostMachine.
Import Host.
#[global] Instance host_usage : Usage host := {
  sys_cputime := quiet 0;
  sys_getrusage := quiet (mk_timeval 0 0, mk_timeval 0 0) }.
#[global] Instance host_tcpinfo : TcpInfo host := fun _ => quiet None.
(** Nothing is heard of what is printed. *)
#[global] Instance host_terminal : Terminal host := {
  out_write text := quiet (strlen text);
  out_flush := quiet 0;
  err_write _ w := w;
  std_write _ w := w;
  out_close w := w;
  out_strerror _ := EmptyString;
  out_gai_strerror _ := EmptyString;
  out_gerror _ := 0;
  out_set_gerror _ w := w;
  out_open _ := quiet true;
  out_is_stdout _ := true;
  out_timestamp _ := quiet EmptyString;
  out_date w := (EmptyString, 0, w);
  out_uname _ := ("Linux", "host", "6", "1", "x86_64")%string;
  out_fstat _ := quiet None;
  out_peer _ _ := (EmptyString, 0);
  out_ends _ _ := (EmptyString, 0, EmptyString, 0) }.
#[global] Instance host_silent : QuietTerminal host.
Proof. done. Qed.
#[global] Instance host_machine : Machine host := {
  mc_endian := LittleEndian;
  mc_timer tm := Some (fresh (dom (heap tm)));
  mc_alloc _ _ := true;
  mc_errno _ := 0;
  mc_set_errno _ w := w;
  mc_stack _ := replicate 64 0;
  mc_time _ := time_zero;
  mc_interval _ := zero_interval;
  mc_getenv _ := None }.
#[global] Instance host_crypto : Crypto host := HostCrypto.host_crypto.
#[global] Instance host_crypto_laws public private : CryptoLaws host public private :=
  HostCrypto.host_crypto_laws public private.
#[global] Instance host_kernel : Kernel host := {
  sys_select rd wr t w :=
    (Ok (if decide (h_in w = []) then (0, ∅, ∅)
         else (Z.of_nat (size rd + size wr), rd, wr)), Some (0, 0), w);
  sys_setaffinity _ := planned (quiet tt);
  sys_getcongestion _ := planned (quiet "cubic"%string) }.
End HostMachine.
