(* ===== verification/Main.v ===== *)
(** * main.c: the process

    [main], running a test as a server or a client, the pid file, the end on a signal.
    The installation of signal handlers is not modelled: [iperf_got_sigend] is what a
    signal leads to. A function that may leave in [iperf_errexit] answers an [ending]. *)

From S2P Require Import Prelude Double Bytes Posix IperfTime Timer Net CJson CString Printf Texts.
From S2P Require Import Auth AuthProps Test Api Stats Stream Params Sockets Dial Connect Util.
From S2P Require Import Lifecycle Args Prog Output Report Callbacks Session Server Client.
From S2P Require Import SessionProps.

#[local] Open Scope Z_scope.
#[local] Open Scope prog_scope.

Class Process (W : Type) := {
  (** [kill(pid, 0)] finds the process; [getpid] *)
  sys_exists : Z -> W -> bool;
  sys_getpid : W -> Z;
  (** [daemon(0, 0)] *)
  sys_daemon : W -> sysres unit * W }.

Section Main.
Context {W : Type} {posix : Posix W} {clock : Clock W} {sockets : Sockets W}
  {files : Files W} {tcpinfo : TcpInfo W} {usage : Usage W} {machine : Machine W}
  {kernel : Kernel W} {crypto : Crypto W} {terminal : Terminal W} {process : Process W}.

(** ** The pid file *)

(** [atoi] of the 8 bytes of [buf]: nothing puts a zero behind what was read, and
    reading beyond the 8 bytes is undefined. *)
Definition read_pid (data junk : list Z) : option Z :=
  let buf := bytes_string (take 8 (data ++ junk)) in
  let '(_, _, rest) := scan_digits 10 0 0 (snd (scan_sign (skip_spaces buf))) in
  if strcmp_0 rest EmptyString then None else Some (atoi buf).

Definition write_pidfile (name : string) : prog W ending :=
  fd ← sys (sys_open name false);
  match fd with
  | Err _ => mret (Client.Returns (-1))
  | Ok fd =>
      pid ← sys (fun w => (sys_getpid w, w));
      r ← sys (sys_write fd (string_bytes (String.substring 0 7 (print_int pid))));
      match r with
      | Err _ => mret (Client.Returns (-1))
      | Ok _ => close_fd fd;; mret (Client.Returns 0)
      end
  end.

Definition iperf_create_pidfile : prog W ending :=
  pidfile ← gets t_pidfile;
  match pidfile with
  | None => mret (Client.Returns 0)
  | Some name =>
      fd ← sys (sys_open name true);
      match fd with
      | Err _ => write_pidfile name
      | Ok fd =>
          r ← sys (sys_read fd 7);
          match r with
          | Err _ => write_pidfile name
          | Ok data =>
              pid ← io (fun w => pid ← read_pid data (mc_stack w); Some (pid, w));
              running ← sys (fun w => (sys_exists pid w, w));
              if (0 <? pid) && running then
                update (fun t => t <| t_pidfile := None |>);;
                iperf_errexit "Another instance of iperf3 appears to be running" [];;
                mret Exit
              else write_pidfile name
          end
      end
  end.

(** ** The end on a signal *)

Definition iperf_got_sigend : prog W ending :=
  test ← gets id;
  let client := bool_decide (t_role test = "c"%char) in
  (if client || (bool_decide (t_role test = "s"%char) && (t_state test =? TEST_RUNNING)) then
     update (fun t => t <| t_done := 1 |>);;
     measure_cpu;;
     stats;;
     update (fun t => t <| t_state := DISPLAY_RESULTS |>);;
     iperf_on_test_finish;;
     report
   else mret tt);;
  (if 0 <=? t_ctrl_sck test then
     update (fun t => t <| t_state := if client then CLIENT_TERMINATE else SERVER_TERMINATE |>);;
     state ← gets t_state;
     _ ← io (Nwrite (t_ctrl_sck test) [u8 state]);
     mret tt
   else mret tt);;
  update (fun t => t <| t_i_errno := if client then IECLIENTTERM else IESERVERTERM |>);;
  exit_error "interrupt - %s".

(** ** Running *)

Definition reset_test : prog W unit := fun s =>
  '(test, tm, w) ← iperf_reset_test (ss_test s) (ss_timers s) (ss_world s);
  Some (tt, mk_session test tm (ss_cpu s) w).

(** What follows a session that ended in an error; true when the loop goes on. *)
Definition session_error (rc : Z) : prog W (bool + ending) :=
  text ← error_message;
  iperf_err "error - %s" [AStr (Some text)];;
  json ← gets t_json_output;
  r ← (if nonzero json then iperf_json_finish else mret 0);
  if r <? 0 then mret (inr (Client.Returns (-1)))
  else
    iflush;;
    if rc <? -1 then iperf_errexit "exiting" [];; mret (inr Exit) else mret (inl true).

(** The loop of the server over its clients: [runs] bounds the number of sessions,
    [turns] and [fuel] the loops within one; [flag0] as in [iperf_run_server]. *)
Fixpoint serve (runs turns fuel : nat) (flag0 : Z) : prog W ending :=
  match runs with
  | O => crash
  | S runs =>
      rc ← iperf_run_server turns fuel flag0;
      update (fun t => t <| t_server_last_run_rc := rc |>);;
      e ← (if rc <? 0 then session_error rc else mret (inl true));
      match e with
      | inr e => mret e
      | inl _ =>
          reset_test;;
          test ← gets id;
          if nonzero (iperf_get_test_one_off test) && negb (rc =? 2) then
            if (rc <? 0) && (t_i_errno test =? IEAUTHTEST) then serve runs turns fuel flag0
            else mret (Client.Returns 0)
          else serve runs turns fuel flag0
      end
  end.

Definition fail_with (ie : Z) : prog W ending :=
  update (fun t => t <| t_i_errno := ie |>);; exit_error "error - %s".

(** [if (iperf_create_pidfile(test) < 0) ...], and what follows. *)
Definition with_pidfile (k : prog W ending) : prog W ending :=
  r ← iperf_create_pidfile;
  match r with
  | Exit => mret Exit
  | Client.Returns r => if r <? 0 then fail_with IEPIDFILE else k
  end.

Definition become_daemon (k : prog W ending) : prog W ending :=
  daemon ← gets t_daemon;
  if nonzero daemon then
    r ← sys sys_daemon;
    match r with Ok _ => k | Err _ => fail_with IEDAEMON end
  else k.

(** [run] *)
Definition run_test (runs turns fuel : nat) (flag0 : Z) : prog W ending :=
  role ← gets t_role;
  if decide (role = "s"%char) then
    become_daemon (with_pidfile (
      e ← serve runs turns fuel flag0;
      match e with
      | Client.Returns 0 => iperf_delete_pidfile;; mret (Client.Returns 0)
      | e => mret e
      end))
  else if decide (role = "c"%char) then
    with_pidfile (
      e ← iperf_run_client turns fuel;
      match e with
      | Exit => mret Exit
      | Client.Returns r =>
          if r <? 0 then exit_error "error - %s"
          else iperf_delete_pidfile;; mret (Client.Returns 0)
      end)
  else Output.usage;; mret (Client.Returns 0).

(** The storage of a test is given back; what else that changes are the descriptors of its
    streams, the timers and the log file. *)
Definition iperf_free_test : prog W unit :=
  test ← gets id;
  tm ← get_timers;
  tm ← io (fun w =>
    '(tm, w) ← free_streams (t_streams test) tm w;
    tm ← cancel_timer (t_omit_timer test) tm;
    tm ← cancel_timer (t_timer test) tm;
    tm ← cancel_timer (t_stats_timer test) tm;
    tm ← cancel_timer (t_reporter_timer test) tm;
    Some (tm, w));
  set_timers tm;;
  if bool_decide (is_Some (t_logfile test)) then sys (fun w => (tt, out_close w)) else mret tt.

(** The exit status. [getpass] is what the user answers to the prompt for a password. *)
Definition main (getpass : option (Z * option string)) (argv : list string)
    (runs turns fuel : nat) (flag0 : Z) : prog W Z :=
  new ← sys (fun w =>
    (iperf_new_test (mc_alloc 0 w) (mc_alloc 1 w) (mc_alloc 2 w) (mc_stack w), w));
  match new with
  | inr ie =>
      update (fun t => t <| t_i_errno := ie |>);;
      text ← error_message;
      sys (fun w => (tt, err_write ("iperf3: create new test error - " ++ text ++ nl)%string w));;
      mret 1
  | inl test =>
      update (fun _ => test);;
      on_test (fun test w =>
        '(r, test) ← iperf_defaults (mc_alloc 3 w) (mc_alloc 4 w) test; Some (r, test, w));;
      test ← gets id;
      parsed ← io (fun w =>
        p ← iperf_parse_arguments mc_getenv getpass w argv test; Some (p, w));
      match parsed with
      | Exited status => mret status
      | Args.Returns rc test =>
          update (fun _ => test);;
          if rc <? 0 then
            text ← error_message;
            iperf_err "parameter error - %s" [AStr (Some text)];;
            sys (fun w => (tt, err_write nl w));;
            usage_long std_write;;
            mret 1
          else
            e ← run_test runs turns fuel flag0;
            match e with
            | Exit => mret 1
            | Client.Returns r =>
                if r <? 0 then exit_error "error - %s";; mret 1
                else iperf_free_test;; mret 0
            end
      end
  end.
End Main.

(** * The pid file *)


Section Pidfile.
Context {W : Type} {posix : Posix W} {clock : Clock W} {sockets : Sockets W}
  {files : Files W} {machine : Machine W} {terminal : Terminal W} {process : Process W}
  {laws : SocketLaws W} {flaws : FileSysLaws W}.
Implicit Types (s : session W).

(** Writing the file closes nothing that was open before. *)
Lemma wp_write_pidfile name s :
  wp (write_pidfile name) (fun _ s' => live (ss_world s) ⊆ live (ss_world s')) s.
Proof.
  unfold write_pidfile. apply wp_bind, wp_sys. intros [fd|e] w1 H1; cbn [ss_world].
  2:{ wp_steps. by rewrite (open_err _ _ _ _ _ H1). }
  destruct (open_ok _ _ _ _ _ H1) as (_ & Hfresh & Hlive).
  apply wp_bind, wp_sys. intros pid w2 [= <- <-]. cbn [ss_world].
  apply wp_bind, wp_sys. intros r w3 H3. cbn [ss_world] in H3 |- *.
  pose proof (passive_step _ _ _ _ (passive_write _ _ _) H3) as E3.
  destruct r; wp_steps; [|rewrite E3, Hlive; set_solver].
  apply wp_close_fd. wp_steps. rewrite close_live, E3, Hlive. set_solver.
Qed.

(** When a readable pid file names no running process, the descriptor through which it was
    read stays open: the program closes only the one it writes through. *)
Theorem pidfile_leaks s name fd w1 data w2 pid :
  t_pidfile (ss_test s) = Some name -> sys_open name true (ss_world s) = (Ok fd, w1) ->
  sys_read fd 7 w1 = (Ok data, w2) -> read_pid data (mc_stack w2) = Some pid ->
  (0 <? pid) && sys_exists pid w2 = false ->
  wp iperf_create_pidfile
    (fun _ s' => Fd fd ∉ live (ss_world s) /\ Fd fd ∈ live (ss_world s')) s.
Proof.
  intros Hname H1 H2 H3 Hpid. destruct (open_ok _ _ _ _ _ H1) as (_ & Hfresh & Hlive).
  pose proof (passive_step _ _ _ _ (passive_read _ _ _) H2) as E2.
  assert (Fd fd ∈ live w2) as Hin by (rewrite E2, Hlive; set_solver).
  unfold iperf_create_pidfile. wp_step. apply wp_gets. rewrite Hname.
  apply wp_bind, wp_sys. intros r w1' H1'. rewrite H1 in H1'. injection H1' as <- <-.
  apply wp_bind, wp_sys. cbn [ss_world]. intros r w2' H2'. rewrite H2 in H2'. injection H2' as <- <-.
  apply wp_bind. eapply wp_intro; [unfold io; cbn [ss_world]; rewrite H3; reflexivity|].
  apply wp_bind, wp_sys. intros running w3 [= <- <-]. cbn [ss_world ss_test].
  rewrite Hpid.
  eapply wp_mono; [apply wp_write_pidfile|]. cbn [ss_world]. set_solver.
Qed.
End Pidfile.
