(* ===== verification/ServerProps.v ===== *)
(** * The server: who it serves, how long it waits, what it leaves *)

From S2P Require Import Prelude Double Bytes Posix IperfTime Timer TimerLists TimerSpec Net CJson.
From S2P Require Import Printf Auth Test Api Stats Stream Params Results Sockets Dial Connect.
From S2P Require Import ConnectProps Util Lifecycle LifecycleProps Prog Output OutputProps Report.
From S2P Require Import Session Server SessionProps.

#[local] Open Scope Z_scope.
#[local] Open Scope prog_scope.
#[local] Set Default Proof Using "Type*".

Section Waiting.
Context {W : Type}.

Lemma timeout_us_some (timeout : option (Z * Z)) :
  (match timeout with Some (s, u) => s * 1000000 + u | None => -1 end <? 0) = false ->
  is_Some timeout.
Proof. by destruct timeout. Qed.

(** C24: when the server waits for ever. The server's [select] has no timeout
    exactly when no timer is set and either the server is idle without an idle
    timeout, or it is in a test in which it only sends; in a test in which it
    receives it never waits longer than [rcv_timeout]. *)
Theorem server_waits_iff test timeout :
  let wait := server_timeout test (rcv_timeout_us test) timeout in
  (wait = None <->
     timeout = None /\
     ((t_state test = IPERF_START /\ st_idle_timeout (t_settings test) <= 0) \/
      (t_state test <> IPERF_START /\ t_mode test = SENDER))) /\
  (t_state test <> IPERF_START -> t_mode test <> SENDER ->
     exists s u, wait = Some (s, u) /\ s * 1000000 + u <= rcv_timeout_us test).
Proof.
  cbv zeta. unfold server_timeout.
  destruct (Z.eqb_spec (t_state test) IPERF_START) as [Hs|Hs].
  { split; [|done].
    destruct timeout; [naive_solver|].
    destruct (Z.ltb_spec 0 (st_idle_timeout (t_settings test))); naive_solver lia. }
  destruct (decide (t_mode test = SENDER)) as [Hm|Hm]; [naive_solver|].
  destruct (_ || _) eqn:E.
  { split; [naive_solver|]. intros _ _. eexists _, _. by split. }
  apply orb_false_iff in E as [E1 E2].
  destruct (timeout_us_some _ E1) as [[s u] ->].
  split; [naive_solver|]. intros _ _. exists s, u. split; [done|].
  apply Z.ltb_ge in E2. lia.
Qed.
End Waiting.

(** ** One client at a time *)

Section Server.
Context {W : Type} {posix : Posix W} {clock : Clock W} {sockets : Sockets W}
  {files : Files W} {tcpinfo : TcpInfo W} {usage : Usage W} {machine : Machine W}
  {kernel : Kernel W} {crypto : Crypto W} {terminal : Terminal W} {laws : SocketLaws W} {plaws : PosixLaws W} {stream : StreamLaws W}
  {silent : QuietTerminal W}.
Implicit Types (s : session W) (L : gset resource).

(** C22: a server with a client turns every other client away. While the control
    socket of a client is open, [iperf_accept] accepts a new connection, writes
    the byte ACCESS_DENIED to it once and closes it, or reports that there was
    none: the test, the timers and the open descriptors stay as they were,
    nothing was read, and the byte is on its way whenever that write takes it. *)
Theorem busy_server_denies s :
  t_ctrl_sck (ss_test s) <> -1 ->
  match sys_accept (t_listener (ss_test s)) (ss_world s) with
  | (Ok fd, w1) =>
      let '(wrote, w2) := sys_write fd [u8 ACCESS_DENIED] w1 in
      exists s', iperf_accept s = Some (0, s') /\ world_only s s' /\
        live (ss_world s') = live (ss_world s) /\
        ss_world s' = sys_close fd w2 /\ inbox w2 = inbox w1 /\
        outbox w2 fd = outbox w1 fd ++
          match wrote with Ok 1 => [u8 ACCESS_DENIED] | _ => [] end
  | (Err _, w1) =>
      exists s', iperf_accept s = Some (-1, s') /\
        ss_test s' = (ss_test s) <| t_i_errno := IEACCEPT |> /\
        ss_timers s' = ss_timers s /\ live (ss_world s') = live (ss_world s)
  end.
Proof.
  intros Hbusy. unfold iperf_accept, sys, mbind, prog_bind, gets.
  destruct (sys_accept _ _) as [[fd|e] w1] eqn:E; cbn [ss_test ss_timers ss_cpu ss_world].
  - apply Z.eqb_neq in Hbusy. rewrite Hbusy.
    destruct (deny_writes fd w1) as (r & HW).
    unfold io. cbn [ss_test ss_timers ss_cpu ss_world].
    destruct (sys_write fd [u8 ACCESS_DENIED] w1) as [wrote w2] eqn:Hw. cbn [snd] in HW. rewrite HW.
    pose proof (Nwrite_live _ _ _ _ _ HW) as Hl.
    apply (@accept_ok W _ _ _) in E as (_ & Hn & E).
    eexists. split; [done|]. split; [done|].
    split; [cbn; rewrite close_live, Hl, E; set_solver|].
    split; [done|]. destruct wrote as [d|e].
    + pose proof (write_bound _ _ _ _ _ Hw) as Hd. change (Z.of_nat (length [_])) with 1 in Hd.
      apply write_ok in Hw as [Hi Ho].
      assert (d = 0 \/ d = 1) as [-> | ->] by lia; cbn in Ho; split; by try (rewrite Ho; f_equal).
    + apply write_err in Hw as [Hi Ho]. split; [done|]. cbn. by rewrite Ho, app_nil_r.
  - apply (@accept_err W _ _ _) in E. by eexists.
Qed.

(** ** What a session leaves *)

(** The sockets [cleanup_server] closes: those of the streams, the control
    connection and the listeners. The file descriptors of a stream (its buffer
    and its -F file) are not among them, and stay open. *)
Definition session_sockets (test : iperf_test) : gset resource :=
  list_to_set (Fd ∘ sp_socket <$> t_streams test)
  ∪ (if t_ctrl_sck test =? 0 then ∅ else {[Fd (t_ctrl_sck test)]})
  ∪ (if t_listener test =? 0 then ∅ else {[Fd (t_listener test)]})
  ∪ (if t_prot_listener test >? -1 then {[Fd (t_prot_listener test)]} else ∅).

(** Two tests that differ in their descriptor sets at most. *)
Definition forget_sets (test : iperf_test) : iperf_test :=
  test <| t_read_set := ∅ |> <| t_write_set := ∅ |>.
Definition same_but_sets (test test' : iperf_test) : Prop := forget_sets test = forget_sets test'.

Lemma same_member {A} (f : iperf_test -> A) test test' :
  (forall t, f (forget_sets t) = f t) -> same_but_sets test test' -> f test = f test'.
Proof. intros Hf E. rewrite <- (Hf test), <- (Hf test'). by f_equal. Qed.

Lemma wp_close_sockets sps Q s :
  (forall test w,
     same_but_sets test (ss_test s) ->
     live w = live (ss_world s) ∖ list_to_set (Fd ∘ sp_socket <$> sps) ->
     Q tt (mk_session test (ss_timers s) (ss_cpu s) w)) ->
  wp (close_sockets sps) Q s.
Proof.
  revert s. induction sps as [|sp sps IH]; intros s H; cbn [close_sockets].
  - apply wp_ret. destruct s as [test tm c w]. apply H; [done|]. cbn. set_solver.
  - wp_steps. apply wp_close_fd. apply IH.
    cbn [ss_test ss_timers ss_cpu ss_world]. intros test w Hf Hl. apply H; [done|].
    rewrite Hl, close_live. cbn. set_solver.
Qed.

(** The timers of a test. *)
Definition test_timers (test : iperf_test) : list loc :=
  timer_list (t_stats_timer test) ++ timer_list (t_reporter_timer test)
  ++ timer_list (t_omit_timer test) ++ timer_list (t_timer test).

(** What a finished session looks like. *)
Definition cleaned (s s' : session W) (ts : list loc) : Prop :=
  live (ss_world s') = live (ss_world s) ∖ session_sockets (ss_test s) /\
  held (ss_timers s') ts /\ test_timers (ss_test s') = [] /\
  t_congestion_used (ss_test s') = None /\
  t_i_errno (ss_test s') = t_i_errno (ss_test s) /\
  t_streams (ss_test s') = t_streams (ss_test s) /\ ss_cpu s' = ss_cpu s.

Lemma wp_close_unless (b : bool) fd Q s :
  (forall w, live w = live (ss_world s) ∖ (if b then ∅ else {[Fd fd]}) ->
     Q tt (mk_session (ss_test s) (ss_timers s) (ss_cpu s) w)) ->
  wp (if b then mret tt else close_fd fd) Q s.
Proof.
  intros H. destruct b; [|by apply wp_close_fd, H, close_live].
  apply wp_ret. destruct s. apply H. cbn. set_solver.
Qed.

Lemma wp_cleanup ts s :
  held (ss_timers s) (test_timers (ss_test s) ++ ts) ->
  wp cleanup_server (fun _ s' => cleaned s s' ts) s.
Proof.
  intros Hh. unfold cleanup_server. wp_steps. apply wp_close_sockets.
  cbn [ss_test ss_timers ss_cpu ss_world]. intros test w1 Hsame Hl1.
  wp_steps. apply wp_close_unless. intros w2 Hl2.
  wp_steps. apply wp_close_unless. intros w3 Hl3. cbn [ss_test ss_timers ss_cpu ss_world].
  wp_steps.
  replace (if t_prot_listener (ss_test s) >? -1
           then close_fd (t_prot_listener (ss_test s)) else mret tt : prog W unit)
    with (if negb (t_prot_listener (ss_test s) >? -1) then mret tt
          else close_fd (t_prot_listener (ss_test s)) : prog W unit)
    by by destruct (_ >? _).
  apply wp_close_unless. intros w4 Hl4. cbn [ss_test ss_timers ss_cpu ss_world].
  assert (t_stats_timer test = t_stats_timer (ss_test s) /\
          t_reporter_timer test = t_reporter_timer (ss_test s) /\
          t_omit_timer test = t_omit_timer (ss_test s) /\
          t_timer test = t_timer (ss_test s)) as (E1 & E2 & E3 & E4)
    by (split_and!; by apply same_member).
  unfold test_timers in Hh. rewrite <- E1, <- E2, <- E3, <- E4, <- !app_assoc in Hh.
  wp_steps. eapply wp_drop_timer; [exact Hh|]. intros tm1 H1.
  wp_steps. eapply wp_drop_timer; [exact H1|]. intros tm2 H2.
  wp_steps. eapply wp_drop_timer; [exact H2|]. intros tm3 H3.
  wp_steps. eapply wp_drop_timer; [exact H3|]. intros tm4 H4.
  unfold cleaned. cbn [ss_test ss_timers ss_cpu ss_world] in *.
  split_and!; [|done|done|done|by apply (same_member t_i_errno) in Hsame
              |by apply (same_member t_streams) in Hsame|done].
  rewrite Hl4, Hl3, Hl2, Hl1. unfold session_sockets.
  destruct (t_prot_listener (ss_test s) >? -1); cbn [negb]; set_solver.
Qed.

(** The end of a session behind a message. *)
Lemma wp_said_cleanup ts s s' n ie :
  held (ss_timers s) (test_timers (ss_test s) ++ ts) ->
  let dropped := (ss_test s) <| t_server_forced_no_msg_restarts_count ::= n |> <| t_i_errno := ie |> in
  said (mk_session dropped (ss_timers s) (ss_cpu s) (ss_world s)) s' ->
  wp cleanup_server (fun _ s'' =>
    t_i_errno (ss_test s'') = ie /\ live (ss_world s'') = live (ss_world s) ∖ session_sockets (ss_test s) /\
    test_timers (ss_test s'') = [] /\ held (ss_timers s'') ts) s'.
Proof.
  intros Hheld dropped ([top E1] & E2 & E3 & E4). cbn in E1, E2, E3, E4.
  eapply wp_mono; [apply (wp_cleanup ts)|].
  - rewrite E1, E2. exact Hheld.
  - intros _ s'' (Hl & Hh & Ht & _ & He & _). rewrite E1 in Hl, He. rewrite E4 in Hl. by split_and!.
Qed.

Lemma wp_now c w Q s :
  sys_clock (ss_world s) = (c, w) ->
  Q (iperf_time_now c (mc_time (ss_world s))).2
    (mk_session (ss_test s) (ss_timers s) (ss_cpu s) w) ->
  wp now Q s.
Proof.
  intros Hc HQ. unfold now, clock_now. wp_step. apply wp_sys. intros a w'. rewrite Hc.
  intros [= <- <-]. by destruct (iperf_time_now c _).
Qed.

(** C6: a server that receives gives up on a silent client. When a test runs in
    which the server receives, [select] has answered that nothing arrived and
    more than [rcv_timeout] has passed since something last did, the turn ends
    the session, after a message if the server is verbose: the error is IENOMSG, every socket of the session and no other descriptor is closed
    (the files its streams hold stay open), and no timer of the test is left;
    timers that belong to others stay. *)
Theorem silent_client_dropped fuel l s ts c1 w1 rd wr w2 sec nsec w3 :
  let test := ss_test s in
  t_bitrate_limit_exceeded test = 0 ->
  t_state test <> IPERF_START -> t_mode test <> SENDER ->
  held (ss_timers s) (test_timers test ++ ts) ->
  sys_clock (ss_world s) = (c1, w1) ->
  (forall timeout, exists rest,
     sys_select (t_read_set test) (t_write_set test) timeout w1 = (Ok (0, rd, wr), rest, w2)) ->
  sys_clock w2 = (Some (sec, nsec), w3) ->
  time_norm (iperf_time_now (Some (sec, nsec)) time_zero).2 ->
  time_norm (last_receive_time l) ->
  to_us (last_receive_time l) + rcv_timeout_us test
    < to_us (iperf_time_now (Some (sec, nsec)) time_zero).2 ->
  0 <= rcv_timeout_us test -> stamped test ->
  exists s', server_step fuel (rcv_timeout_us test) l s = Some (Return (-1), s') /\
    t_i_errno (ss_test s') = IENOMSG /\
    live (ss_world s') = live w3 ∖ session_sockets test /\
    test_timers (ss_test s') = [] /\ held (ss_timers s') ts.
Proof.
  intros test Hlimit Hstate Hmode Hheld Hc1 Hsel Hc2 Hn1 Hn2 Htime Hrcv Hstamp.
  set (at_ := (iperf_time_now (Some (sec, nsec)) time_zero).2) in *.
  destruct (diff_spec at_ (last_receive_time l) Hn1 Hn2) as [Hpast Hus].
  assert (wp (server_step fuel (rcv_timeout_us test) l)
    (fun o s' => o = Return (-1) /\ t_i_errno (ss_test s') = IENOMSG /\
       live (ss_world s') = live w3 ∖ session_sockets test /\
       test_timers (ss_test s') = [] /\ held (ss_timers s') ts) s) as Hwp.
  2: { apply wp_elim in Hwp as (a & s' & E & -> & H). by exists s'. }
  unfold server_step. wp_steps. fold test. rewrite Hlimit. cbn [nonzero Z.eqb negb].
  wp_step. eapply wp_now; [exact Hc1|]. wp_steps.
  match goal with |- wp (match tmr_timeout ?t _ with _ => _ end) _ _ =>
    destruct (timeout_held t _ _ Hheld) as [timeout ->] end.
  wp_step. apply wp_sys. cbn [ss_world]. intros [r rest] w H.
  destruct (Hsel (server_timeout test (rcv_timeout_us test) timeout)) as [rest' E].
  rewrite E in H. injection H as <- <- <-. cbn [Z.eqb]. unfold then_. wp_step.
  unfold server_idle. wp_step. eapply wp_now; [exact Hc2|].
  change (iperf_time_now (Some (sec, nsec)) _).2 with at_.
  destruct (iperf_time_diff at_ (last_receive_time l)) as [past diff].
  cbn [fst snd] in Hpast, Hus. rewrite Hpast, Hus. clear Hpast Hus.
  destruct (Z.leb_spec (to_us at_) (to_us (last_receive_time l))); [lia|]. cbn [Z.eqb].
  wp_steps. fold test. apply Z.eqb_neq in Hstate. rewrite Hstate, bool_decide_eq_false_2 by done.
  pose proof (to_us_range _ Hn1). pose proof (to_us_range _ Hn2).
  rewrite Z.abs_eq, sint_id by (unfold is_sint; lia).
  destruct (Z.ltb_spec (rcv_timeout_us test) (to_us at_ - to_us (last_receive_time l))); [|lia].
  cbn [negb andb]. wp_steps. unfold abort.
  destruct (nonzero (iperf_get_verbose test)).
  - eapply wp_mono; [eapply wp_iperf_err; [exact Hstamp|reflexivity]|]. intros [] s' Hsaid.
    wp_steps. eapply wp_mono; [eapply (wp_said_cleanup ts (mk_session test (ss_timers s) (ss_cpu s) w3)); [exact Hheld|exact Hsaid]|].
    intros [] s'' H'. wp_steps. by split.
  - wp_steps. eapply wp_mono; [eapply (wp_said_cleanup ts (mk_session test (ss_timers s) (ss_cpu s) w3)); [exact Hheld|apply said_refl]|].
    intros [] s'' H'. wp_steps. by split.
Qed.
End Server.

(** ** A server in a test

    Its listener is 3, its client's control connection 4, a stream 5. *)
Import Host HostMachine.

Definition ex_test : iperf_test :=
  zero_test <| t_role := "s"%char |> <| t_mode := RECEIVER |> <| t_state := TEST_RUNNING |>
    <| t_protocol := Some tcp_protocol |> <| t_protocols := [tcp_protocol; udp_protocol] |>
    <| t_listener := 3 |> <| t_ctrl_sck := 4 |> <| t_prot_listener := -1 |>
    <| t_streams := [zero_stream <| sp_socket := 5 |>] |> <| t_num_streams := 1 |>
    <| t_settings ::= (fun st => st <| st_rcv_timeout := mk_time 120 0 |>) |>.

Definition ex_cpu : cpu_static :=
  mk_cpu time_zero 0 (mk_timeval 0 0, mk_timeval 0 0).

Definition ex_session (test : iperf_test) (fds plan input : list Z) : session host :=
  mk_session test (mk_tmr ∅ None None) ex_cpu
    (mk_host (list_to_set (Fd <$> fds)) plan AF_INET input []).

Lemma busy_server_denies_witness :
  exists s', iperf_accept (ex_session ex_test [3; 4; 5] [] []) = Some (0, s') /\
    ss_test s' = ex_test /\ h_out (ss_world s') = [255] /\
    h_live (ss_world s') = {[Fd 3; Fd 4; Fd 5]}.
Proof.
  pose proof (busy_server_denies (ex_session ex_test [3; 4; 5] [] [])
                ltac:(vm_compute; discriminate)) as H.
  destruct H as (s' & E & [Ht _] & Hl & _). exists s'. split; [exact E|].
  split; [exact Ht|]. vm_compute in E. injection E as <-. split; reflexivity.
Defined.

Definition ex_locals : locals := mk_locals 0 1 0 1 (-1) time_zero ∅ ∅.

Lemma silent_client_dropped_witness :
  exists s', server_step 10 120000000 ex_locals (ex_session ex_test [3; 4; 5] [] [])
      = Some (Return (-1), s') /\
    t_i_errno (ss_test s') = IENOMSG /\ live (ss_world s') = ∅.
Proof.
  destruct (silent_client_dropped 10 ex_locals (ex_session ex_test [3; 4; 5] [] []) []
    (Some (1000, 0)) (ss_world (ex_session ex_test [3; 4; 5] [] [])) ∅ ∅
    (ss_world (ex_session ex_test [3; 4; 5] [] [])) 1000 0
    (ss_world (ex_session ex_test [3; 4; 5] [] []))) as (s' & E & He & Hl & _).
  - reflexivity.
  - vm_compute. discriminate.
  - vm_compute. discriminate.
  - apply held_none.
  - reflexivity.
  - intros timeout. eexists. reflexivity.
  - reflexivity.
  - split; vm_compute; split; discriminate || reflexivity.
  - split; vm_compute; split; discriminate || reflexivity.
  - reflexivity.
  - vm_compute. discriminate.
  - by left.
  - exists s'. split; [exact E|]. split; [exact He|]. rewrite Hl. vm_compute. reflexivity.
Defined.
