(* ===== verification/PairingProps.v ===== *)
(** * The streams of the two ends belong together

    The client makes its senders first, the server accepts its receivers first:
    the i-th stream of one end has the identifier of the i-th stream of the
    other, and the other direction. *)

From S2P Require Import Prelude Double Bytes Posix IperfTime Timer TimerLists TimerSpec Net CJson.
From S2P Require Import Auth Test Api Stats Stream Params ParamsProps Results Sockets Dial Connect.
From S2P Require Import ConnectProps Util Lifecycle LifecycleProps Prog Output Report Callbacks.
From S2P Require Import Session Server Client SessionProps ServerProps.

#[local] Open Scope Z_scope.
#[local] Open Scope prog_scope.
#[local] Set Default Proof Using "Type*".

(** ** What connecting and accepting leave of the test *)

Section Frames.
Context {W : Type} {posix : Posix W} {sockets : Sockets W}.

Definition tests {A} (P : iperf_test -> Prop) (m : act W (A * iperf_test)) : Prop :=
  forall w, P (m w).1.2.

Lemma tests_give {A} P (a : A) test : P test -> tests P (give (a, test)).
Proof. by intros H w. Qed.

Lemma tests_attempt {A B} P (m : act W (sysres A)) (h : Z -> act W (B * iperf_test)) k :
  (forall e, tests P (h e)) -> (forall a, tests P (k a)) -> tests P (attempt m h k).
Proof. intros Hh Hk w. unfold attempt. destruct (m w) as [[a|e] w']; [apply Hk|apply Hh]. Qed.

Lemma tests_do {B} P f (k : act W (B * iperf_test)) : tests P k -> tests P (do_ f k).
Proof. intros Hk w. apply Hk. Qed.

Lemma tests_andthen {A B} P (m : act W A) (k : A -> act W (B * iperf_test)) :
  (forall a, tests P (k a)) -> tests P (andthen m k).
Proof. intros Hk w. unfold andthen. destruct (m w) as [a w']. apply Hk. Qed.

Lemma tests_through {A B} (P P' : iperf_test -> Prop) (m : act W (A * iperf_test))
    (k : A * iperf_test -> act W (B * iperf_test)) :
  tests P' m -> (forall a test, P' test -> tests P (k (a, test))) -> tests P (andthen m k).
Proof.
  intros Hm Hk w. unfold andthen. specialize (Hm w). destruct (m w) as [[a test] w'].
  by apply Hk.
Qed.
End Frames.

Ltac tests_step :=
  lazymatch goal with
  | |- tests _ (give _) => apply tests_give
  | |- tests _ (failed _ _) => apply tests_give
  | |- tests _ (attempt _ _ _) => apply tests_attempt; intros ?
  | |- tests _ (attempt_if _ _ _ _) => unfold attempt_if
  | |- tests _ (do_ _ _) => apply tests_do
  | |- tests _ (match ?x with _ => _ end) => destruct x
  end.

(** The streams, and how many there are to be, stay as they are. *)
Definition view (test : iperf_test) := (t_streams test, t_num_streams test).
Notation keeps v := (fun test : iperf_test => view test = v).

Section Streams.
Context {W : Type} {posix : Posix W} {clock : Clock W} {sockets : Sockets W} {files : Files W}.
Implicit Types (l : list iperf_stream).

Lemma view_buffers snd rcv test : view (buffers_json snd rcv test) = view test.
Proof. unfold buffers_json. by destruct (negb _). Qed.

Lemma view_errno ie test : view (test <| t_i_errno := ie |>) = view test.
Proof. done. Qed.

Lemma buffercheck_streams s test :
  tests (keeps (view test)) (iperf_udp_buffercheck s test : act W _).
Proof.
  unfold iperf_udp_buffercheck. cbv zeta. repeat tests_step; rewrite ?view_buffers; done.
Qed.

Lemma udp_buffers_streams s test (k : iperf_test -> act W (Z * iperf_test)) :
  (forall test', view test' = view test ->
     tests (keeps (view test)) (k test')) ->
  tests (keeps (view test)) (udp_buffers s test k).
Proof.
  intros Hk. unfold udp_buffers. eapply tests_through; [apply buffercheck_streams|].
  intros rc test' Ht. cbn beta iota. destruct (rc <? 0); [by apply tests_give|].
  destruct (_ && _); [|by apply Hk].
  eapply tests_through; [apply buffercheck_streams|]. intros rc' test'' Ht'. cbn beta iota.
  rewrite <- Ht in *. destruct (rc' <? 0); [by apply tests_give|]. apply Hk. by rewrite Ht'.
Qed.

Lemma pacing_streams {A} P s test (k : act W (A * iperf_test)) :
  tests P k -> tests P (set_pacing s test k).
Proof. intros Hk. unfold set_pacing. cbv zeta. case_match; [by apply tests_andthen|done]. Qed.

Lemma udp_connect_streams h test :
  tests (keeps (view test)) (iperf_udp_connect h test : act W _).
Proof.
  unfold iperf_udp_connect. apply tests_andthen. intros s. destruct (s <? 0); [by apply tests_give|].
  apply udp_buffers_streams. intros test' Ht. apply pacing_streams, tests_andthen. intros _.
  repeat tests_step; done.
Qed.

Lemma udp_accept_streams h test :
  tests (keeps (view test)) (iperf_udp_accept h test : act W _).
Proof.
  unfold iperf_udp_accept. cbv zeta. do 2 (tests_step; [by apply tests_give|]).
  apply udp_buffers_streams. intros test' Ht. apply pacing_streams, tests_andthen. intros fd.
  repeat tests_step; done.
Qed.

Lemma tcp_connect_streams h test (w : W) r test' w' :
  iperf_tcp_connect h test w = Some (r, test', w') -> view test' = view test.
Proof.
  unfold iperf_tcp_connect.
  assert (tests (keeps (view test)) (tcp_connect_socket h test : act W _)) as H.
  { unfold tcp_connect_socket, option_or, verify_buffer, set_flowlabel. cbv zeta.
    repeat first [tests_step | apply pacing_streams | apply tests_andthen; intros ?
                 | by rewrite ?view_errno, ?view_buffers]. }
  specialize (H w). destruct (tcp_connect_socket h test w) as [[s test1] w1]. cbn [fst snd] in H.
  destruct (s <? 0); [by intros [= _ <- _]|].
  destruct (Nwrite _ _ _) as [[k w2]|]; [|done]. cbn [mbind option_bind].
  destruct (k <? 0); by intros [= _ <- _].
Qed.

Lemma tcp_accept_streams stack test (w : W) r test' w' :
  iperf_tcp_accept stack test w = Some (r, test', w') -> view test' = view test.
Proof.
  unfold iperf_tcp_accept. destruct (sys_accept _ _) as [[s|e] w1]; [|by intros [= _ <- _]].
  destruct (Nread _ _ _) as [[[k bytes] w2]|]; [|done]. cbn [mbind option_bind].
  destruct (k <? 0); [by intros [= _ <- _]|]. cbv zeta.
  destruct (strcmp_eq _ _); [by intros [= _ <- _]|].
  destruct (Nwrite _ _ _) as [[? w3]|]; [|done]. by intros [= _ <- _].
Qed.

(** The identifier and the direction of each stream. *)
Definition tags l : list (Z * Z) := (fun sp => (sp_id sp, sp_sender sp)) <$> l.

Lemma new_stream_tags m1 m2 getenv test s sender (w : W) r test' w' :
  iperf_new_stream m1 m2 getenv test s sender w = Some (r, test', w') ->
  is_Some r ->
  tags (t_streams test') = tags (t_streams test) ++ [(next_id (t_streams test), sender)] /\
  t_num_streams test' = t_num_streams test.
Proof.
  unfold iperf_new_stream. destruct (_ || _); [by intros [= <- _ _] []|].
  destruct (t_protocol test) as [p|]; [|done]. cbn [mbind option_bind].
  destruct (stream_files _ _ _ w) as [[fs test1] w1] eqn:E1.
  assert (tests (keeps (view test)) (stream_files (template getenv test) sender test : act W _)) as H1.
  { unfold stream_files. cbv zeta. by repeat tests_step. }
  specialize (H1 w). rewrite E1 in H1. cbn [fst snd] in H1.
  destruct fs as [[[bfd buf] dfd]|]; [|by intros [= <- _ _] []].
  match goal with |- context [(if ?c then ?x else ?y) ≫= _] =>
    destruct (if c then x else y) as [[buffer w2]|] end; [|done].
  cbn [mbind option_bind].
  destruct (iperf_init_stream s test1 w2) as [[r2 test2] w3] eqn:E2.
  assert (tests (keeps (view test1)) (iperf_init_stream s test1 : act W _)) as H2.
  { unfold iperf_init_stream. cbv zeta.
    repeat first [tests_step | apply tests_andthen; intros ? | done]. }
  specialize (H2 w2). rewrite E2 in H2. cbn [fst snd] in H2.
  destruct (r2 <? 0); [by intros [= <- _ _] []|]. intros [= _ <- _] _.
  rewrite H1 in H2. injection H2 as Hs Hn. unfold iperf_add_stream, tags. rsimpl.
  by rewrite Hs, Hn, fmap_app.
Qed.

(** ** Numbering *)

Definition stream_id (i : nat) : Z := if (i =? 0)%nat then 1 else 2 + Z.of_nat i.

(** The streams made in the directions [flags], in this order. *)
Definition numbered (flags : list Z) : list (Z * Z) := imap (fun i f => (stream_id i, f)) flags.

Lemma numbered_snoc flags f : numbered (flags ++ [f]) = numbered flags ++ [(stream_id (length flags), f)].
Proof. unfold numbered. rewrite imap_app. do 2 f_equal. cbn. by rewrite Nat.add_0_r. Qed.

Lemma next_id_numbered l flags :
  tags l = numbered flags -> next_id l = stream_id (length flags).
Proof.
  intros H. apply (f_equal length) in H. unfold tags, numbered in H.
  rewrite length_fmap, length_imap in H. rewrite <- H. by destruct l.
Qed.

(** Both ends of the streams: the same identifiers, opposite directions. *)
Definition paired (c s : list (Z * Z)) : Prop := s = (fun t => (t.1, 1 - t.2)) <$> c.

Lemma numbered_paired flags : paired (numbered flags) (numbered ((fun f => 1 - f) <$> flags)).
Proof.
  unfold paired, numbered. rewrite imap_fmap, fmap_imap. by apply imap_ext.
Qed.
End Streams.

(** ** Making the streams *)

Section Making.
Context {W : Type} {posix : Posix W} {clock : Clock W} {sockets : Sockets W}
  {files : Files W} {tcpinfo : TcpInfo W} {usage : Usage W} {machine : Machine W}
  {kernel : Kernel W} {crypto : Crypto W} {terminal : Terminal W}.
Implicit Types (s : session W).

Lemma bind_some {A B} (m : prog W A) (k : A -> prog W B) s b s' :
  (m ≫= k) s = Some (b, s') -> exists a s1, m s = Some (a, s1) /\ k a s1 = Some (b, s').
Proof. unfold mbind, prog_bind. destruct (m s) as [[a s1]|]; [eauto|done]. Qed.

Lemma on_test_some {A} (f : iperf_test -> W -> option (A * iperf_test * W)) s a s' :
  on_test f s = Some (a, s') ->
  exists test w, f (ss_test s) (ss_world s) = Some (a, test, w) /\ ss_test s' = test.
Proof. unfold on_test. destruct (f _ _) as [[[b test] w]|]; [|done]. intros [= -> <-]. eauto. Qed.

(** The answer of an action, as one of [on_test']. *)
Lemma on_test'_keeps {A} (f : iperf_test -> act W (A * iperf_test)) s a s' v :
  (forall test, tests (keeps (view test)) (f test)) ->
  on_test' f s = Some (a, s') -> view (ss_test s) = v -> view (ss_test s') = v.
Proof.
  unfold on_test'. intros Hf (test & w & E & ->)%on_test_some <-. specialize (Hf (ss_test s) (ss_world s)).
  injection E as E. rewrite E in Hf. exact Hf.
Qed.

Lemma protocol_connect_keeps s r s' :
  protocol_connect s = Some (r, s') -> view (ss_test s') = view (ss_test s).
Proof.
  intros (p & s1 & [= <- <-] & H)%bind_some.
  destruct (t_protocol (ss_test s)) as [p|]; [|done].
  destruct (pr_id p =? Ptcp).
  { apply on_test_some in H as (test & w & H & ->). by apply tcp_connect_streams in H. }
  destruct (pr_id p =? Pudp); [|done].
  eapply on_test'_keeps; [|exact H|done]. intros test. apply udp_connect_streams.
Qed.

Lemma protocol_accept_keeps s r s' :
  protocol_accept s = Some (r, s') -> view (ss_test s') = view (ss_test s).
Proof.
  intros (p & s1 & [= <- <-] & H)%bind_some.
  destruct (t_protocol (ss_test s)) as [p|]; [|done].
  destruct (pr_id p =? Ptcp).
  { apply on_test_some in H as (test & w & H & ->). by apply tcp_accept_streams in H. }
  destruct (pr_id p =? Pudp); [|done].
  eapply on_test'_keeps; [|exact H|done]. intros test. apply udp_accept_streams.
Qed.

(** Programs that leave the streams alone, if they end. *)
Definition leaves {A} (m : prog W A) : Prop :=
  forall s a s', m s = Some (a, s') -> view (ss_test s') = view (ss_test s).

Lemma leaves_ret {A} (a : A) : leaves (mret a).
Proof. by intros s b s' [= _ <-]. Qed.
Lemma leaves_crash {A} : leaves (crash : prog W A).
Proof. by intros s a s'. Qed.
Lemma leaves_gets {A} (f : iperf_test -> A) : leaves (gets f).
Proof. by intros s a s' [= _ <-]. Qed.
Lemma leaves_update f : (forall t, view (f t) = view t) -> leaves (update f).
Proof. intros H s a s' [= _ <-]. apply H. Qed.
Lemma leaves_sys {A} (f : W -> A * W) : leaves (sys f).
Proof. intros s a s'. unfold sys. destruct (f _). by intros [= _ <-]. Qed.
Lemma leaves_bind {A B} (m : prog W A) (k : A -> prog W B) :
  leaves m -> (forall a, leaves (k a)) -> leaves (m ≫= k).
Proof.
  intros Hm Hk s b s' (a & s1 & H1 & H2)%bind_some. by rewrite (Hk _ _ _ _ H2), (Hm _ _ _ H1).
Qed.

Ltac leaves_steps :=
  repeat lazymatch goal with
  | |- leaves (mret _) => apply leaves_ret
  | |- leaves crash => apply leaves_crash
  | |- leaves (gets _) => apply leaves_gets
  | |- leaves (update _) => apply leaves_update; intros ?; done
  | |- leaves (sys _) => apply leaves_sys
  | |- leaves (mbind _ _) => apply leaves_bind; [|intros ?]
  | |- leaves (match ?x with _ => _ end) => destruct x
  | |- leaves (let _ := _ in _) => cbv zeta
  end.

Lemma on_new_stream_leaves i : leaves (on_new_stream i).
Proof.
  unfold on_new_stream, iperf_on_new_stream, connect_msg, line, iperf_printf, client_out, add_printf,
    formatted, timestamp, out, json_append.
  leaves_steps.
Qed.

Lemma sys_keeps {A} (f : W -> A * W) s a s' : sys f s = Some (a, s') -> ss_test s' = ss_test s.
Proof. unfold sys. destruct (f _). by intros [= _ <-]. Qed.

Lemma set_congestion_leaves lenient failed fd : leaves failed -> leaves (set_congestion lenient failed fd).
Proof.
  intros Hf. unfold set_congestion, keeping_errno, close_fd, warning, fails. leaves_steps; exact Hf.
Qed.

Lemma close_sockets_leaves sps : leaves (close_sockets sps).
Proof.
  induction sps as [|sp sps IH]; cbn [close_sockets]; unfold close_fd; leaves_steps. exact IH.
Qed.

Lemma cleanup_leaves : leaves cleanup_server.
Proof.
  unfold cleanup_server, close_fd, drop_timer. leaves_steps; try apply close_sockets_leaves;
    by intros ? ? ? [= _ <-].
Qed.

Lemma new_stream_some fd sender s r s' flags :
  new_stream fd sender s = Some (Some r, s') ->
  tags (t_streams (ss_test s)) = numbered flags ->
  tags (t_streams (ss_test s')) = numbered (flags ++ [sender]) /\
  t_num_streams (ss_test s') = t_num_streams (ss_test s).
Proof.
  unfold new_stream. intros (test & w & H & ->)%on_test_some Ht.
  apply new_stream_tags in H as [H Hn]; [|done].
  by rewrite H, Hn, Ht, numbered_snoc, (next_id_numbered _ _ Ht).
Qed.

(** The client's streams, from number [i] on. *)
Lemma create_streams_spec k i orig sender s s' flags :
  create_streams k i orig sender s = Some (0, s') ->
  tags (t_streams (ss_test s)) = numbered flags ->
  tags (t_streams (ss_test s')) = numbered (flags ++ replicate k sender) /\
  t_num_streams (ss_test s') = t_num_streams (ss_test s).
Proof.
  revert i s flags. induction k as [|k IH]; intros i s flags; cbn [create_streams replicate].
  { intros [= <-] Ht. by rewrite app_nil_r. }
  intros H Ht. apply bind_some in H as ([] & s1 & [= <-] & H).
  apply bind_some in H as (fd & s2 & H2 & H). apply protocol_connect_keeps in H2.
  destruct (fd <? 0); [done|].
  apply bind_some in H as (p & ? & [= <- <-] & H).
  apply bind_some in H as (r & s3 & H3 & H).
  assert (view (ss_test s3) = view (ss_test s2)) as Hv.
  { destruct (is_tcp _); [|by injection H3 as _ <-].
    eapply set_congestion_leaves; [|exact H3]. apply leaves_ret. }
  clear H3. rewrite H2 in Hv. injection Hv as Hs Hn. clear H2. cbn [ss_test] in Hs, Hn.
  destruct (r <? 0); [done|].
  apply bind_some in H as ([] & s4 & [= <-] & H).
  apply bind_some in H as (sp & s5 & H5 & H). destruct sp as [sp|]; [|done].
  assert (tags (t_streams (ss_test s3)) = numbered flags) as Ht3 by (by rewrite Hs).
  apply (new_stream_some _ _ _ _ _ flags) in H5 as [Ht5 Hn5];
    [|cbn [ss_test]; by destruct (nonzero sender)].
  apply bind_some in H as ([] & s6 & H6 & H). apply on_new_stream_leaves in H6.
  injection H6 as Hs6 Hn6. rewrite <- Hs6 in Ht5. rewrite <- Hn6 in Hn5.
  apply (IH _ _ (flags ++ [sender])) in H as [Ht' Hn']; [|done].
  split; [by rewrite Ht', <- app_assoc|]. rewrite Hn', Hn5. cbn [ss_test].
  destruct (nonzero sender); exact Hn.
Qed.

Lemma create_streams_result k i orig sender s r s' :
  create_streams k i orig sender s = Some (r, s') -> 0 <= r -> r = 0.
Proof.
  revert i s. induction k as [|k IH]; intros i s; cbn [create_streams]; [by intros [= <- _]|].
  intros H Hr. apply bind_some in H as ([] & s1 & _ & H).
  apply bind_some in H as (fd & s2 & _ & H). destruct (fd <? 0); [by injection H as <- _|].
  apply bind_some in H as (p & s3 & _ & H). apply bind_some in H as (c & s4 & _ & H).
  destruct (c <? 0); [by injection H as <- _|].
  apply bind_some in H as ([] & s5 & _ & H). apply bind_some in H as (sp & s6 & _ & H).
  destruct sp; [|by injection H as <- _].
  apply bind_some in H as ([] & s7 & _ & H). eauto.
Qed.

Lemma iperf_create_streams_spec sender s r s' flags :
  iperf_create_streams sender s = Some (r, s') -> 0 <= r ->
  tags (t_streams (ss_test s)) = numbered flags ->
  tags (t_streams (ss_test s'))
    = numbered (flags ++ replicate (Z.to_nat (t_num_streams (ss_test s))) sender) /\
  t_num_streams (ss_test s') = t_num_streams (ss_test s).
Proof.
  intros H Hr Ht. apply bind_some in H as (o & ? & [= <- <-] & H).
  apply bind_some in H as (n & ? & [= <- <-] & H).
  rewrite (create_streams_result _ _ _ _ _ _ _ H Hr) in H. by eapply create_streams_spec.
Qed.

(** The directions of the client's streams, and of the server's. *)
Definition client_flags (m : iperf_mode) (n : nat) : list Z :=
  match m with
  | SENDER => replicate n 1
  | RECEIVER => replicate n 0
  | BIDIRECTIONAL => replicate n 1 ++ replicate n 0
  end.

Lemma create_all_spec s s' :
  enter_state CREATE_STREAMS s = Some (0, s') -> t_streams (ss_test s) = [] ->
  tags (t_streams (ss_test s'))
  = numbered (client_flags (t_mode (ss_test s)) (Z.to_nat (t_num_streams (ss_test s)))).
Proof.
  intros H Hs. assert (tags (t_streams (ss_test s)) = numbered []) as Ht by (by rewrite Hs).
  apply bind_some in H as (m & ? & [= <- <-] & H).
  destruct (decide (t_mode (ss_test s) = BIDIRECTIONAL)) as [Hm|Hm].
  - rewrite Hm. apply bind_some in H as (r & s1 & H1 & H).
    destruct (r <? 0) eqn:Hr; [done|].
    apply bind_some in H as (r' & s2 & H2 & H).
    destruct (r' <? 0) eqn:Hr'; [done|]. injection H as <-.
    apply iperf_create_streams_spec with (flags := []) in H1 as [Ht1 Hn1]; [|lia|done].
    eapply iperf_create_streams_spec in H2 as [Ht2 _]; [|lia|exact Ht1].
    by rewrite Ht2, Hn1.
  - apply bind_some in H as (r & s1 & H1 & H).
    destruct (r <? 0) eqn:Hr; [done|]. injection H as <-.
    apply iperf_create_streams_spec with (flags := []) in H1 as [Ht1 _]; [|lia|done].
    rewrite Ht1. by destruct (t_mode (ss_test s)).
Qed.

(** *** The server *)

Definition server_flags (m : iperf_mode) (n : nat) : list Z :=
  match m with
  | SENDER => replicate n 1
  | RECEIVER => replicate n 0
  | BIDIRECTIONAL => replicate n 0 ++ replicate n 1
  end.

(** All streams have been accepted. *)
Definition full (l : locals) : bool :=
  (rec_streams_accepted l =? streams_to_rec l) && (send_streams_accepted l =? streams_to_send l).

(** At most [k] connections are accepted, as many as there are streams to make. *)
Fixpoint accepts (k : nat) (l : locals) : prog W outcome :=
  match k with
  | O => mret (Continue l)
  | S k => if full l then mret (Continue l) else then_ (accept_stream l) (accepts k)
  end.

(** What has been accepted so far: receivers first. *)
Definition serving (l : locals) s : Prop :=
  0 <= rec_streams_accepted l <= streams_to_rec l /\
  0 <= send_streams_accepted l <= streams_to_send l /\
  (0 < send_streams_accepted l -> rec_streams_accepted l = streams_to_rec l) /\
  tags (t_streams (ss_test s)) =
    numbered (replicate (Z.to_nat (rec_streams_accepted l)) 0
              ++ replicate (Z.to_nat (send_streams_accepted l)) 1).

Definition goals (l : locals) : Z * Z := (streams_to_rec l, streams_to_send l).

Lemma replicate_S_end {A} n (x : A) : replicate (S n) x = replicate n x ++ [x].
Proof. induction n as [|n IH]; [done|]. cbn in *. by f_equal. Qed.

Lemma next_flag_serving l s :
  full l = false -> serving l s ->
  exists f, (f = 0 \/ f = 1) /\ flag_ (next_flag l) = f /\ goals (next_flag l) = goals l /\
    (forall s1,
       tags (t_streams (ss_test s1)) =
       numbered ((replicate (Z.to_nat (rec_streams_accepted l)) 0
         ++ replicate (Z.to_nat (send_streams_accepted l)) 1) ++ [f]) ->
       serving ((next_flag l) <| flag_ := -1 |>) s1).
Proof.
  intros Hfull (Hr & Hs & Ho & Ht). unfold next_flag, full in *.
  destruct (Z.eqb_spec (rec_streams_accepted l) (streams_to_rec l)) as [Er|Er]; cbn [negb andb] in *.
  - rewrite Hfull. cbn [negb]. apply Z.eqb_neq in Hfull.
    exists 1. do 3 (split; [by auto|]).
    intros s1 E. unfold serving. cbn. split_and!; [lia|lia|lia|lia|done|].
    rewrite E, <- app_assoc, <- replicate_S_end. do 3 f_equal. lia.
  - exists 0. do 3 (split; [by auto|]).
    intros s1 E. unfold serving. cbn. split_and!; [lia|lia|lia|lia|lia|].
    rewrite E. assert (send_streams_accepted l = 0) as -> by lia.
    cbn. rewrite !app_nil_r, <- replicate_S_end. do 2 f_equal. lia.
Qed.

Lemma add_stream_serving fd l s l' s' :
  add_stream fd l s = Some (Continue l', s') -> full l = false -> serving l s ->
  serving l' s' /\ goals l' = goals l.
Proof.
  intros H Hfull Hs. destruct (next_flag_serving l s Hfull Hs) as (f & Hf01 & Hf & Hg & Hserve).
  destruct Hs as (_ & _ & _ & Ht). unfold add_stream in H. cbv zeta in H. rewrite Hf in H.
  destruct (f =? -1) eqn:Hm; [lia|].
  apply bind_some in H as (sp & s1 & H1 & H). destruct sp as [sp|].
  2: { by apply bind_some in H as (? & ? & _ & ?). }
  eapply new_stream_some in H1 as [Ht1 _]; [|exact Ht].
  apply bind_some in H as ([] & s2 & [= <-] & H).
  apply bind_some in H as (p & ? & [= <- <-] & H).
  apply bind_some in H as ([] & s3 & H3 & H).
  apply bind_some in H as ([] & s5 & H5 & H). injection H as <- <-.
  apply on_new_stream_leaves in H5. injection H5 as Hs5 _.
  assert (tags (t_streams (ss_test s3)) = tags (t_streams (ss_test s1))) as E3.
  { destruct (negb _ || _).
    - apply bind_some in H3 as (? & s4 & H4 & [= <-]). apply sys_keeps in H4. rewrite H4.
      cbn [ss_test]. by destruct (nonzero f).
    - injection H3 as <-. cbn [ss_test]. by destruct (nonzero f). }
  split; [|done]. apply Hserve. by rewrite Hs5, E3.
Qed.

Lemma accept_stream_serving l s l' s' :
  accept_stream l s = Some (Continue l', s') -> full l = false -> serving l s ->
  serving l' s' /\ goals l' = goals l.
Proof.
  intros H Hfull Hs. apply bind_some in H as (fd & s1 & H1 & H).
  apply protocol_accept_keeps in H1. injection H1 as Hv _.
  destruct (fd <? 0); [by apply bind_some in H as (? & ? & _ & ?)|].
  apply bind_some in H as (closed & s2 & H2 & H). apply sys_keeps in H2.
  assert (serving l s2) as Hs2 by (unfold serving; rewrite H2, Hv; exact Hs).
  destruct closed; [by injection H as <- <-|].
  apply bind_some in H as (p & ? & [= <- <-] & H).
  destruct (is_tcp _); [|eapply add_stream_serving; eassumption].
  apply bind_some in H as (r & s3 & H3 & H).
  apply set_congestion_leaves in H3; [|apply cleanup_leaves]. injection H3 as Hv3 _.
  destruct (r <? 0); [done|].
  eapply add_stream_serving; [exact H|done|]. unfold serving. rewrite Hv3. exact Hs2.
Qed.

Lemma accepts_serving k l s l' s' :
  accepts k l s = Some (Continue l', s') -> serving l s ->
  serving l' s' /\ goals l' = goals l.
Proof.
  revert l s. induction k as [|k IH]; intros l s; cbn [accepts]; [by intros [= <- <-]|].
  destruct (full l) eqn:Hfull; [by intros [= <- <-]|]. intros H Hs.
  apply bind_some in H as (o & s1 & H1 & H). destruct o as [l1|]; [|done].
  destruct (accept_stream_serving _ _ _ _ H1 Hfull Hs) as [Hs1 <-]. eapply IH; eassumption.
Qed.

(** The mode of the server of a client in mode [m]. *)
Definition facing (m : iperf_mode) : iperf_mode :=
  match m with SENDER => RECEIVER | RECEIVER => SENDER | BIDIRECTIONAL => BIDIRECTIONAL end.

Lemma flags_facing m n : server_flags (facing m) n = (fun f => 1 - f) <$> client_flags m n.
Proof. destruct m; cbn; by rewrite ?fmap_app, !fmap_replicate. Qed.
End Making.

(** C5: the streams of the two ends belong together. When a client and a server
    that has taken over its parameters have made all their streams, in whatever
    order the connections of strangers were turned away in between, the i-th
    stream of the one has the identifier of the i-th stream of the other and
    the opposite direction, so that the results exchanged by identifier are
    those of the same connection. *)
Theorem streams_paired {WC WS} {cposix : Posix WC} {cclock : Clock WC} {csockets : Sockets WC}
    {cfiles : Files WC} {ctcpinfo : TcpInfo WC} {cusage : Usage WC} {cmachine : Machine WC}
    {ckernel : Kernel WC} {ccrypto : Crypto WC} {cterminal : Terminal WC} {posix : Posix WS} {clock : Clock WS} {sockets : Sockets WS}
    {files : Files WS} {tcpinfo : TcpInfo WS} {usage : Usage WS} {machine : Machine WS}
    {kernel : Kernel WS} {crypto : Crypto WS} {terminal : Terminal WS}
    (c c' : session WC) (s s' : session WS) (l0 l' : locals) (k : nat) :
  t_mode (ss_test s) = facing (t_mode (ss_test c)) ->
  t_num_streams (ss_test s) = t_num_streams (ss_test c) ->
  0 <= t_num_streams (ss_test c) ->
  t_streams (ss_test c) = [] -> t_streams (ss_test s) = [] ->
  rec_streams_accepted l0 = 0 -> send_streams_accepted l0 = 0 ->
  enter_state CREATE_STREAMS c = Some (0, c') ->
  accepts k (set_streams (ss_test s) l0) s = Some (Continue l', s') -> full l' = true ->
  paired (tags (t_streams (ss_test c'))) (tags (t_streams (ss_test s'))).
Proof.
  intros Hm Hn Hn0 Hc Hs Hl1 Hl2 HC HS Hfull.
  apply create_all_spec in HC; [|done]. rewrite HC. clear HC.
  set (n := t_num_streams (ss_test c)) in *. set (l := set_streams (ss_test s) l0) in *.
  assert (goals l = (if decide (t_mode (ss_test s) = SENDER) then 0 else n,
                     if decide (t_mode (ss_test s) = RECEIVER) then 0 else n) /\
          rec_streams_accepted l = 0 /\ send_streams_accepted l = 0) as (Hg & Hr0 & Hs0).
  { subst l. unfold set_streams, goals. rewrite Hn. by destruct (t_mode (ss_test s)). }
  apply accepts_serving in HS as [(Hr & Hsd & _ & Ht) Hg'].
  2: { unfold serving. rewrite Hr0, Hs0, Hs. injection Hg as -> ->.
       split_and!; [lia|destruct (decide _); lia|lia|destruct (decide _); lia|done|done]. }
  unfold full in Hfull. apply andb_true_iff in Hfull as [Er Es].
  apply Z.eqb_eq in Er, Es. rewrite Hg in Hg'. injection Hg' as Gr Gs.
  rewrite Ht, Er, Es, Gr, Gs.
  replace (replicate _ 0 ++ replicate _ 1)
    with ((fun f => 1 - f) <$> client_flags (t_mode (ss_test c)) (Z.to_nat n)).
  { apply numbered_paired. }
  rewrite <- flags_facing, Hm. by destruct (t_mode (ss_test c)); cbn; rewrite ?app_nil_r.
Qed.

(** ** A bidirectional test with one stream each way *)
Import Host HostMachine.

Definition ex_ends (role : Ascii.ascii) : iperf_test :=
  zero_test <| t_role := role |> <| t_mode := BIDIRECTIONAL |> <| t_state := CREATE_STREAMS |>
    <| t_protocol := Some tcp_protocol |> <| t_protocols := [tcp_protocol; udp_protocol] |>
    <| t_listener := 3 |> <| t_ctrl_sck := 4 |> <| t_prot_listener := 3 |>
    <| t_server_hostname := Some "localhost"%string |> <| t_num_streams := 1 |>
    <| t_cookie := ex_cookie |>
    <| t_settings ::= (fun st => st <| st_blksize := 4 |>) |>.

Lemma streams_paired_witness :
  exists tc ts,
    tags tc = [(1, 1); (3, 0)] /\ tags ts = [(1, 0); (3, 1)] /\ paired (tags tc) (tags ts).
Proof.
  set (c := ex_session (ex_ends "c"%char) [4] [] []).
  set (s := ex_session (ex_ends "s"%char) [3; 4] [] (ex_cookie ++ ex_cookie)).
  destruct (enter_state CREATE_STREAMS c) as [[r c']|] eqn:HC; [|vm_compute in HC; discriminate].
  destruct (accepts 2 (set_streams (ss_test s) (mk_locals 0 0 0 0 7 time_zero ∅ ∅)) s)
    as [[[l' | r'] s']|] eqn:HS; [|vm_compute in HS; discriminate..].
  assert (r = 0) as -> by (vm_compute in HC; by injection HC as <- _).
  assert (full l' = true) as Hfull by (vm_compute in HS; by injection HS as <- _).
  assert (tags (t_streams (ss_test c')) = [(1, 1); (3, 0)]) as Ec
    by (vm_compute in HC; by injection HC as <-).
  assert (tags (t_streams (ss_test s')) = [(1, 0); (3, 1)]) as Es
    by (vm_compute in HS; by injection HS as _ <-).
  exists (t_streams (ss_test c')), (t_streams (ss_test s')). split; [exact Ec|]. split; [exact Es|].
  eapply (streams_paired c c' s s' (mk_locals 0 0 0 0 7 time_zero ∅ ∅) l' 2);
    [reflexivity|reflexivity|vm_compute; discriminate|reflexivity..|exact HC|exact HS|exact Hfull].
Defined.
