(* ===== verification/TimeoutProps.v ===== *)
(** * The server's own timeout

    [server_timer_proc] ends a test that lasts too long. It frees the streams of
    the test while [tmr_run] may hold a pointer to one of their timers. *)

From S2P Require Import Prelude Double Bytes Posix IperfTime Timer TimerLists TimerSpec Net CJson.
From S2P Require Import Auth Test Api Stats Stream Params Results Sockets Dial Connect.
From S2P Require Import ConnectProps Util Lifecycle LifecycleProps Prog Output Report Session.
From S2P Require Import Server SessionProps ServerProps.

#[local] Open Scope Z_scope.
#[local] Open Scope prog_scope.
#[local] Set Default Proof Using "Type*".

Section Timeout.
Context {W : Type} {posix : Posix W} {clock : Clock W} {sockets : Sockets W}
  {files : Files W} {tcpinfo : TcpInfo W} {usage : Usage W} {machine : Machine W}
  {kernel : Kernel W} {crypto : Crypto W} {terminal : Terminal W} {laws : SocketLaws W} {flaws : FileSysLaws W}.
Implicit Types (s : session W).

(** The timers of the streams, and all that the streams hold open. *)
Definition send_timer_list (sps : list iperf_stream) : list loc :=
  sps ≫= fun sp => timer_list (sp_send_timer sp).
Definition stream_fds (sps : list iperf_stream) : gset resource :=
  ⋃ ((fun sp => {[Fd (sp_socket sp)]} ∪ owned sp) <$> sps).

Lemma free_stream_held sp tm ts (w : W) :
  held tm (timer_list (sp_send_timer sp) ++ ts) ->
  exists tm' w', iperf_free_stream sp tm w = Some (tm', w') /\ held tm' ts /\
    same_pay tm tm' /\ live w' = live w ∖ owned sp.
Proof.
  intros Hh. destruct (cancel_timer_held _ _ _ Hh) as (tm' & E & Hh' & Hp).
  assert (exists w', iperf_free_stream sp tm w = Some (tm', w')) as [w' Ef].
  { unfold iperf_free_stream. destruct (sp_send_timer sp) as [t|]; cbn in E.
    - rewrite E. by eexists.
    - injection E as ->. by eexists. }
  exists tm', w'. by apply free_stream_live in Ef as ?.
Qed.

Lemma wp_close_streams sps ts Q s :
  held (ss_timers s) (send_timer_list sps ++ ts) ->
  (forall test tm w, t_streams test = [] -> held tm ts -> same_pay (ss_timers s) tm ->
     t_ctrl_sck test = t_ctrl_sck (ss_test s) ->
     live w = live (ss_world s) ∖ stream_fds sps ->
     Q tt (mk_session test tm (ss_cpu s) w)) ->
  t_streams (ss_test s) = sps ->
  wp (close_streams sps) Q s.
Proof.
  revert s. induction sps as [|sp sps IH]; intros s Hh HQ Hs; cbn [close_streams].
  - apply wp_ret. destruct s as [test tm c w]. apply HQ; [done|done|done|done|].
    unfold stream_fds. cbn. set_solver.
  - wp_steps. apply wp_close_fd. wp_steps.
    cbn in Hh. rewrite <- app_assoc in Hh.
    destruct (free_stream_held sp (ss_timers s) _ (sys_close (sp_socket sp) (ss_world s)) Hh)
      as (tm & w & E & Hh' & Hp & Hl).
    apply wp_io; cbn [ss_world].
    { rewrite E. cbn. by exists tm, w. }
    rewrite E. cbn. intros ? ? [= <- <-]. wp_steps. apply IH.
    + exact Hh'.
    + cbn [ss_test ss_timers ss_cpu ss_world]. intros test' tm' w' H1 H2 H3 H4 H5.
      apply HQ; [done|done| |done|].
      * intros a. by rewrite H3, Hp.
      * rewrite H5, Hl, close_live. unfold stream_fds. cbn. set_solver.
    + done.
Qed.

(** Freeing the streams of a test that lasts too long. *)
Lemma server_timer_ends s ts i at_ :
  t_done (ss_test s) = 0 ->
  held (ss_timers s) (send_timer_list (t_streams (ss_test s)) ++ ts) ->
  exists tm s', run_proc ServerTimer i at_ (ss_timers s, s) = Some (tm, s') /\
    t_streams (ss_test s') = [] /\ held tm ts /\ same_pay (ss_timers s) tm /\
    live (ss_world s')
      = live (ss_world s) ∖ stream_fds (t_streams (ss_test s)) ∖ {[Fd (t_ctrl_sck (ss_test s))]}.
Proof.
  intros Hd Hh. unfold run_proc.
  assert (wp server_timer_proc (fun _ s' =>
    t_streams (ss_test s') = [] /\ held (ss_timers s') ts /\
    same_pay (ss_timers s) (ss_timers s') /\
    live (ss_world s')
      = live (ss_world s) ∖ stream_fds (t_streams (ss_test s)) ∖ {[Fd (t_ctrl_sck (ss_test s))]})
    (mk_session (ss_test s) (ss_timers s) (ss_cpu s) (ss_world s))) as H.
  { unfold server_timer_proc, if_running. wp_steps.
    change (t_done (ss_test s <| t_timer := None |>)) with (t_done (ss_test s)).
    rewrite Hd. cbn [Z.eqb negb]. wp_steps.
    change (t_streams (ss_test s <| t_timer := None |> <| t_done := 1 |>))
      with (t_streams (ss_test s)).
    apply wp_close_streams with ts; cbn [ss_test ss_timers ss_cpu ss_world]; [done| |done].
    intros test tm w H1 H2 H3 H4 H5. wp_steps. apply wp_close_fd.
    cbn [ss_test ss_timers ss_cpu ss_world]. split_and!; [done..|].
    by rewrite close_live, H5, H4. }
  apply wp_elim in H as ([] & s' & E & H). cbn [timer_proc]. rewrite E. by exists (ss_timers s'), s'.
Qed.

Lemma pay_lookup (tm tm' : timer_state) t n :
  same_pay tm tm' -> heap tm !! t = Some n ->
  exists n', heap tm' !! t = Some n' /\ payload n' = payload n.
Proof.
  intros Hp Hn. specialize (Hp t). unfold pay in Hp. rewrite Hn in Hp. cbn in Hp.
  apply fmap_Some in Hp as (n' & -> & E). by exists n'.
Qed.

(** C23: a server that times out uses a stream it has freed. When the timer that
    ends a test is due and the next timer of the list paces a stream and is due
    as well, the timer procedure itself does what it should: it closes and
    frees every stream, with its timer, and closes the control connection. But
    [tmr_run] has already read the pointer to the next timer, and goes on to
    call the procedure of the stream's timer, which reads the freed stream. *)
Theorem timeout_uses_freed_stream fuel s ts at_ t1 n1 t2 n2 :
  t_done (ss_test s) = 0 ->
  held (ss_timers s) (send_timer_list (t_streams (ss_test s)) ++ t1 :: ts) ->
  timers (ss_timers s) = Some t1 ->
  heap (ss_timers s) !! t1 = Some n1 -> Timer.timer_proc n1 = ServerTimer ->
  periodic n1 = 0 -> tm_next n1 = Some t2 ->
  heap (ss_timers s) !! t2 = Some n2 -> Timer.timer_proc n2 = SendTimer ->
  iperf_time_compare (tm_time n1) at_ <= 0 -> iperf_time_compare (tm_time n2) at_ <= 0 ->
  (exists tm s', run_proc ServerTimer (client_data n1) at_ (ss_timers s, s) = Some (tm, s') /\
     t_streams (ss_test s') = [] /\ held tm (t1 :: ts) /\
     live (ss_world s')
       = live (ss_world s) ∖ stream_fds (t_streams (ss_test s)) ∖ {[Fd (t_ctrl_sck (ss_test s))]}) /\
  run_due (S (S fuel)) at_ s = None.
Proof.
  intros Hd Hh Ht1 Hn1 Hp1 Hper Hnext Hn2 Hp2 Hdue1 Hdue2.
  destruct (server_timer_ends s (t1 :: ts) (client_data n1) at_ Hd Hh)
    as (tm & s' & E & Hs & Hh' & Hpay & Hl).
  split; [by exists tm, s'|].
  unfold run_due, tmr_run, load. cbn [fst snd]. rewrite Ht1. cbn [tmr_run_loop fst snd].
  unfold load. rewrite Hn1.
  cbn [mbind option_bind]. destruct (Z.gtb_spec (iperf_time_compare (tm_time n1) at_) 0); [lia|].
  rewrite Hp1, E. cbn [mbind option_bind fst snd].
  destruct (pay_lookup _ _ _ _ Hpay Hn1) as (n1' & E1 & P1).
  assert (periodic n1' = 0) as Hper' by (by injection P1 as _ _ _ -> _).
  rewrite E1. cbn [mbind option_bind]. rewrite Hper', Hnext. cbn [Z.eqb negb].
  destruct (cancel_held _ _ _ Hh') as (tm2 & E2 & _ & Hpay2). rewrite E2. cbn [mbind option_bind].
  assert (same_pay (ss_timers s) tm2) as Hpay3 by (intros a; by rewrite Hpay2, Hpay).
  destruct (pay_lookup _ _ _ _ Hpay3 Hn2) as (n2' & E3 & P3). injection P3 as Q1 _ _ _ Q2.
  cbn [fst]. rewrite E3. cbn [mbind option_bind]. rewrite Q1, Q2, Hp2.
  destruct (Z.gtb_spec (iperf_time_compare (tm_time n2) at_) 0); [lia|].
  unfold run_proc, timer_proc, send_timer_proc, on_test, throttle_stream. cbn [ss_test].
  by rewrite Hs.
Qed.
End Timeout.

(** ** A server that sends, and has been waiting too long *)
Import Host HostMachine.

(** The timer of the test and that of its stream, both due. *)
Definition ex_due : timer_state :=
  mk_tmr {[1%positive := mk_timer ServerTimer O 50000000 0 (mk_time 900 0) None (Some 2%positive);
           2%positive := mk_timer SendTimer O 1000 1 (mk_time 900 0) (Some 1%positive) None]}
    (Some 1%positive) None.

Definition ex_sender : session host :=
  mk_session (ex_test <| t_mode := SENDER |>
      <| t_streams := [zero_stream <| sp_socket := 5 |> <| sp_sender := 1 |> <| sp_buffer_fd := 6 |>
                                   <| sp_diskfile_fd := -1 |>
                                   <| sp_send_timer := Some 2%positive |>] |>)
    ex_due ex_cpu (mk_host {[Fd 3; Fd 4; Fd 5; Fd 6]} [] AF_INET [] []).

Lemma ex_due_held : held ex_due [2%positive; 1%positive].
Proof.
  split; [apply (bool_decide_unpack _); vm_compute; exact I|].
  exists [(1%positive, mk_entry ServerTimer O 50000000 0 (mk_time 900 0));
          (2%positive, mk_entry SendTimer O 1000 1 (mk_time 900 0))], [].
  split; [|intros t Ht; cbn; set_solver].
  split.
  - split.
    + apply (bool_decide_unpack _). vm_compute. exact I.
    + cbn. split; [done|]. eexists. split; [reflexivity|]. split; [done|]. split; [done|].
      eexists. split; [reflexivity|]. by split.
    + reflexivity.
    + intros a e. rewrite !elem_of_cons. intros [[= -> ->]|[[= -> ->]|[]%elem_of_nil]]; reflexivity.
    + intros a. cbn. split.
      * intros [n [[<- _]|[_ [<- _]%lookup_singleton_Some]]%lookup_insert_Some]; set_solver.
      * rewrite !elem_of_cons. intros [->|[->|[]%elem_of_nil]]; by eexists.
  - repeat constructor; vm_compute; discriminate.
  - repeat constructor; vm_compute; try split; discriminate || reflexivity.
Qed.

Lemma timeout_uses_freed_stream_witness : run_due 2 (mk_time 1000 0) ex_sender = None.
Proof.
  refine (proj2 (timeout_uses_freed_stream 0 ex_sender [] (mk_time 1000 0) 1%positive _
    2%positive _ _ _ _ _ _ _ _ _ _ _ _)).
  - reflexivity.
  - apply ex_due_held.
  - reflexivity.
  - reflexivity.
  - reflexivity.
  - reflexivity.
  - reflexivity.
  - reflexivity.
  - reflexivity.
  - vm_compute. discriminate.
  - vm_compute. discriminate.
Defined.
