(* ===== verification/AuthorizeProps.v ===== *)
(** * Who is let in

    The token a client makes and the check the server makes of it, put together. *)

From S2P Require Import Prelude Double Bytes Posix IperfTime Timer CJson CString CStringProps Auth.
From S2P Require Import AuthProps Test Api Stats Stream Params Sockets Dial Connect Util Lifecycle.
From S2P Require Import Prog Output Report Session SessionProps.

#[local] Open Scope Z_scope.
#[local] Open Scope prog_scope.

Section Authorize.
Context {W : Type} {crypto : Crypto W} {machine : Machine W}.
Context (public private : string) {laws : CryptoLaws W public private}.
Implicit Types (s : session W).

(** The digest under which the users file lists a user. *)
Definition credentials_hash (username password : string) : string :=
  sha256 (W:=W) ("{" ++ username ++ "}" ++ password).

Lemma check_authentication_file u p ts users threshold w ls :
  cr_file users w = Some (users_file ls) -> Forall line_ok ls ->
  - 2 ^ 62 <= cr_utc w < 2 ^ 62 -> - 2 ^ 62 <= ts < 2 ^ 62 ->
  check_authentication u p ts users threshold w
  = Some (if Z.abs (cr_utc w - ts) <=? threshold
          then if existsb (admits u (credentials_hash u p)) ls then 0 else 3
          else 1).
Proof.
  intros Hf Hok Hw Hts. unfold check_authentication.
  rewrite (proj2 (Z.leb_le _ _)), (proj2 (Z.ltb_lt _ _)) by lia. cbn [negb andb].
  destruct (Z.leb_spec (Z.abs (cr_utc w - ts)) threshold).
  - rewrite (proj2 (Z.ltb_ge _ _)), (proj2 (Z.ltb_ge _ _)) by lia. cbn [orb].
    rewrite Hf. by apply check_lines_file.
  - destruct (Z.ltb_spec threshold (cr_utc w - ts)); [done|].
    destruct (Z.ltb_spec (cr_utc w - ts) (- threshold)); [done|lia].
Qed.

(** C7: for a user name and a password that are single words (neither is empty or has a
    blank in it; of other users the token cannot be read), and a users file of entries,
    comments and blank lines that fit the buffer, a server that demands credentials lets
    the client in exactly when its clock and the client's differ by at most the threshold and
    some entry of the file has the client's name and the digest of its name and password; it
    changes nothing. *)
Theorem authorized_iff s username password token users ls w0 :
  t_server_rsa_private_key (ss_test s) = Some private ->
  t_server_authorized_users (ss_test s) = Some users ->
  st_authtoken (t_settings (ss_test s)) = Some token ->
  encode_auth_setting true username password public w0 = Some token ->
  no_nul username -> no_nul password -> word username -> word password ->
  cr_file users (ss_world s) = Some (users_file ls) -> Forall line_ok ls ->
  - 2 ^ 62 <= cr_utc (ss_world s) < 2 ^ 62 -> - 2 ^ 62 <= cr_utc w0 < 2 ^ 62 ->
  mc_alloc 0 (ss_world s) = true -> mc_alloc 1 (ss_world s) = true ->
  test_is_authorized s
  = Some (if (Z.abs (cr_utc (ss_world s) - cr_utc w0) <=? t_server_skew_threshold (ss_test s))
             && existsb (admits username (credentials_hash username password)) ls
          then 0 else -1, s).
Proof.
  intros Hk Hu Ht He Hnu Hnp Hwu Hwp Hf Hok Hs H0 Ha0 Ha1.
  assert (decode_auth_setting true true token private
          = Some (Some (username, password, cr_utc w0))) as Hd.
  { rewrite (decode_encode public private username password w0 token) by (done || lia).
    rewrite until_nul_id by by apply no_nul_auth_text. by rewrite sscanf_auth_text by (done || lia). }
  unfold test_is_authorized, gets, mbind, prog_bind. cbn [id]. rewrite Hk, Hu, Ht.
  unfold io. rewrite Ha0, Ha1, Hd. cbn [mbind option_bind ss_world ss_test].
  rewrite (check_authentication_file username password (cr_utc w0) users _ _ ls) by done.
  cbn [mbind option_bind].
  destruct (Z.abs _ <=? _), (existsb _ ls); destruct s; reflexivity.
Qed.
End Authorize.

(** ** A server with a users file *)

Import Host HostMachine.

Definition users_lines : list users_line :=
  [Other "# user, digest"; Entry "mario" "00"; Other ""].

Definition auth_session (token : string) : session host :=
  mk_session
    (zero_test <| t_server_rsa_private_key := Some "priv"%string |>
       <| t_server_authorized_users := Some "users.csv"%string |>
       <| t_server_skew_threshold := 10 |>
       <| t_settings ::= (fun st => st <| st_authtoken := Some token |>) |>)
    (mk_tmr ∅ None None) (mk_cpu time_zero 0 (mk_timeval 0 0, mk_timeval 0 0))
    (mk_host ∅ [] AF_INET [] []).

Definition auth_token (user : string) : string :=
  default ""%string (encode_auth_setting true user "rossi" "pub" (mk_host ∅ [] AF_INET [] [])).

Lemma authorized_iff_witness :
  test_is_authorized (auth_session (auth_token "mario")) = Some (0, auth_session (auth_token "mario")) /\
  test_is_authorized (auth_session (auth_token "luigi")) = Some (-1, auth_session (auth_token "luigi")).
Proof.
  assert (Forall line_ok users_lines) as Hok.
  { repeat constructor; vm_compute; (done || lia || discriminate). }
  assert (forall user, encode_auth_setting true user "rossi" "pub" (mk_host ∅ [] AF_INET [] [])
                       = Some (auth_token user)) as Htoken by done.
  assert (forall user, no_nul user -> word user ->
            test_is_authorized (auth_session (auth_token user))
            = Some (if existsb (admits user "00") users_lines then 0 else -1,
                    auth_session (auth_token user))) as H.
  { intros user Hn Hw.
    refine (authorized_iff "pub" "priv" (auth_session (auth_token user)) user "rossi"
      (auth_token user) "users.csv" users_lines (mk_host ∅ [] AF_INET [] [])
      eq_refl eq_refl eq_refl (Htoken user) Hn eq_refl Hw _ eq_refl Hok _ _ eq_refl eq_refl);
      [split; [discriminate|reflexivity]|cbn; lia..]. }
  split; apply H; (reflexivity || (split; [discriminate|reflexivity])).
Defined.
