(* ===== verification/ConversationProps.v ===== *)
(** * Both ends exchange their results

    The client's and the server's [iperf_exchange_results] run against each
    other: what the one writes on the control connection is what the other
    reads. *)

From S2P Require Import Prelude Double Bytes Posix IperfTime Net CJson CString JsonText JsonParse.
From S2P Require Import JsonTextProps JsonParseProps Test Api Params Results ResultsProps.
From S2P Require Import PairingProps.

#[local] Open Scope Z_scope.

(** ** One message *)

Section Message.
Context {W : Type} {posix : Posix W} {laws : PosixLaws W} {stream : StreamLaws W}
  {reliable : ReliableLaws W}.
Variable alloc : nat -> bool.
Hypothesis alloc_ok : forall k, alloc k = true.

(** The text of a report. *)
Definition results_text (test : iperf_test) : list Z :=
  string_bytes (render false 0 (results_json test)).

Lemma send_results_frame h test (w : W) :
  sendable (results_json test) ->
  exists w', send_results (print_bytes alloc) h test w = Some (0, test, w') /\
    outbox w' (t_ctrl_sck test) = outbox w (t_ctrl_sck test) ++ frame (results_text test) /\
    inbox w' = inbox w.
Proof.
  intros (str & Hp & _ & E & Hl & _)%(sendable_bytes alloc); [|done]. unfold results_text. rewrite <- E.
  unfold send_results. rewrite Hp.
  destruct (JSON_write_frame h (t_ctrl_sck test) str w Hl) as (w' & -> & Ho & Hi).
  by exists w'.
Qed.

Lemma get_results_frame h stack test from test' rest (w : W) :
  sendable (results_json from) -> length stack = 4%nat ->
  apply_results (results_json from) test = Some (0, test') ->
  inbox w (t_ctrl_sck test) = frame (results_text from) ++ rest ->
  exists w', get_results (parse_bytes alloc) h stack true test w = Some (0, test', w') /\
    inbox w' (t_ctrl_sck test) = rest /\ outbox w' = outbox w.
Proof.
  intros (str & _ & Hp & E & Hl & Hn)%(sendable_bytes alloc) Hs Ha; [|done].
  unfold results_text. rewrite <- E. intros Hin. unfold get_results.
  destruct (JSON_read_frame h (parse_bytes alloc) stack (t_ctrl_sck test) str rest w Hl Hn Hs Hin)
    as (w' & -> & Hi & Ho).
  cbn [mbind option_bind]. rewrite Hp, Ha. by exists w'.
Qed.
End Message.

(** ** What each end knows afterwards *)

(** Counters that a JSON number and the fields of a stream hold exactly. *)
Definition counters_fit (sp : iperf_stream) : Prop :=
  is_sint 32 (sp_id sp) /\ 0 <= bytes_transferred sp < 2 ^ 53 /\
  is_sint 32 (rs_stream_retrans (sp_result sp)) /\ is_sint 32 (sp_cnt_error sp) /\
  is_sint 32 (sp_packet_count sp) /\ (sp_sender sp = 0 \/ sp_sender sp = 1).

Lemma counters_fit_ok test sp : counters_fit sp -> stream_ok test sp.
Proof.
  intros (H1 & H2 & H3 & H4 & H5 & _). unfold stream_ok, retransmits.
  refine (conj H1 (conj H2 (conj _ (conj H4 H5)))).
  destruct (_ && _); [done|]. unfold is_sint. lia.
Qed.

(** Taking a report over keeps the counters in range. *)
Lemma merged_fits a sa sp :
  counters_fit sa -> counters_fit sp -> counters_fit (merged a sa sp).
Proof.
  intros Ha (H1 & H2 & H3 & H4 & H5 & H6). pose proof (counters_fit_ok a sa Ha) as (_ & _ & Hr & _ & _).
  destruct Ha as (A1 & A2 & A3 & A4 & A5 & _).
  unfold counters_fit, merged, merge_stream, bytes_transferred in *.
  destruct (nonzero (sp_sender sp)) eqn:E; rsimpl; rewrite ?E;
    refine (conj H1 (conj _ (conj _ (conj _ (conj H5 H6))))); done.
Qed.

Lemma merged_sender a sa sp : sp_sender (merged a sa sp) = sp_sender sp.
Proof. unfold merged, merge_stream. by destruct (nonzero _). Qed.

(** The two streams of a connection after the exchange: the sender has learned
    what arrived, the receiver what was sent, each keeps what it counted. *)
Definition agreed (sender sender' receiver receiver' : iperf_stream) : Prop :=
  rs_bytes_sent (sp_result sender') = rs_bytes_sent (sp_result sender) /\
  rs_bytes_received (sp_result sender') = rs_bytes_received (sp_result receiver) /\
  rs_bytes_sent (sp_result receiver') = bytes_transferred sender /\
  rs_bytes_received (sp_result receiver') = rs_bytes_received (sp_result receiver) /\
  sp_jitter sender' = sp_jitter receiver' /\ sp_cnt_error sender' = sp_cnt_error receiver' /\
  sp_peer_packet_count sender' = sp_packet_count receiver /\
  sp_peer_packet_count receiver' = sp_packet_count sender.

Lemma merged_agreed a b sender receiver :
  sp_sender sender = 1 -> sp_sender receiver = 0 ->
  (let receiver' := merged a sender receiver in
   agreed sender (merged b receiver' sender) receiver receiver') /\
  (let sender' := merged a receiver sender in
   agreed sender sender' receiver (merged b sender' receiver)).
Proof.
  intros Hs Hr. unfold agreed, merged, merge_stream, bytes_transferred.
  split; cbv zeta; rewrite ?Hs, ?Hr; cbn [nonzero Z.eqb negb]; rsimpl; rewrite ?Hs, ?Hr;
    cbn [nonzero Z.eqb negb]; done.
Qed.

Lemma paired_ids tc ts : paired (tags tc) (tags ts) -> sp_id <$> ts = sp_id <$> tc.
Proof.
  intros H. apply (f_equal (fmap fst)) in H. unfold tags in H.
  rewrite <- !list_fmap_compose in H. exact H.
Qed.

Lemma paired_sender tc ts i sc ss :
  paired (tags tc) (tags ts) -> tc !! i = Some sc -> ts !! i = Some ss ->
  sp_id ss = sp_id sc /\ sp_sender ss = 1 - sp_sender sc.
Proof.
  intros H Hc Hs. apply (f_equal (fun l => l !! i)) in H. unfold tags in H.
  rewrite !list_lookup_fmap, Hc, Hs in H. by injection H as -> ->.
Qed.

(** Taking over the report of a test whose streams have the same identifiers. *)
Lemma absorb_all a l :
  NoDup (sp_id <$> t_streams a) -> sp_id <$> l = sp_id <$> t_streams a ->
  absorb a (t_streams a) <$> l = zip_with (merged a) (t_streams a) l.
Proof.
  intros Hnd Hids. apply list_eq. intros i.
  rewrite list_lookup_fmap, lookup_zip_with.
  pose proof (f_equal (fun l => l !! i) Hids) as Hi. rewrite !list_lookup_fmap in Hi.
  destruct (l !! i) as [sp|] eqn:E, (t_streams a !! i) as [sa|] eqn:Ea; try done.
  injection Hi as Hi. cbn. f_equal. apply absorb_match; [done| |done].
  by eapply list_elem_of_lookup_2.
Qed.

Lemma merged_all_fit a sas l :
  Forall counters_fit sas -> Forall counters_fit l ->
  Forall counters_fit (zip_with (merged a) sas l).
Proof.
  rewrite !Forall_lookup. intros Ha Hl i sp. rewrite lookup_zip_with_Some.
  intros (sa & sb & -> & Hsa & Hsb). apply merged_fits; eauto.
Qed.

Lemma has_retransmits_fits a :
  is_sint 32 (t_sender_has_retransmits a) -> is_sint 32 (has_retransmits a).
Proof. intros H. unfold has_retransmits. destruct (decide _); [unfold is_sint; lia|done]. Qed.

Section Conversation.
Context {WC : Type} {cposix : Posix WC} {claws : PosixLaws WC} {cstream : StreamLaws WC}
  {creliable : ReliableLaws WC}.
Context {WS : Type} {sposix : Posix WS} {slaws : PosixLaws WS} {sstream : StreamLaws WS}
  {sreliable : ReliableLaws WS}.

(** The report of [a] taken over by [b], their streams being the same. *)
Lemma report_taken a b :
  Forall counters_fit (t_streams a) -> Forall counters_fit (t_streams b) ->
  is_sint 32 (t_sender_has_retransmits a) -> is_sint 32 (t_sender_has_retransmits b) ->
  NoDup (sp_id <$> t_streams a) -> sp_id <$> t_streams b = sp_id <$> t_streams a ->
  exists b', apply_results (results_json a) b = Some (0, b') /\ taken a b b' /\
    t_streams b' = zip_with (merged a) (t_streams a) (t_streams b) /\
    Forall counters_fit (t_streams b') /\ is_sint 32 (t_sender_has_retransmits b') /\
    sp_id <$> t_streams b' = sp_id <$> t_streams b.
Proof.
  intros Ha Hb Hra Hrb Hnd Hids.
  destruct (results_taken a b) as (b' & E & Ht).
  - eapply Forall_impl; [exact Ha|]. intros sp. apply counters_fit_ok.
  - done.
  - by rewrite Hids.
  - apply Forall_forall. intros sa Hsa. rewrite Hids. by apply list_elem_of_fmap_2.
  - assert (t_streams b' = zip_with (merged a) (t_streams a) (t_streams b)) as Hz.
    { destruct Ht as (-> & _). by apply absorb_all. }
    exists b'. split; [done|]. split; [done|]. split; [done|]. rewrite Hz.
    split; [by apply merged_all_fit|]. split.
    + destruct Ht as (_ & _ & _ & -> & _).
      destruct (decide _); [by apply has_retransmits_fits|done].
    + rewrite <- Hz. destruct Ht as (-> & _). rewrite <- list_fmap_compose.
      apply list_fmap_ext. intros i sp _. apply absorb_id.
Qed.

(** C4: the two ends agree on the results. Let a client and a server whose
    streams are paired run [iperf_exchange_results] over one connection, each
    reading what the other writes, as cJSON prints and parses it: reports whose numbers
    the text has exactly and whose nesting it accepts. Both return 0, whatever the byte orders of
    the hosts and however the connection splits the messages, each has read
    exactly the other's message, and afterwards the two ends of every stream
    agree: the sender knows what arrived, the receiver what was sent, both the
    loss and the jitter, and what each end counted itself has not changed. *)
Theorem results_conversation hc hs stc sts tc ts (wc : WC) (ws : WS) allocc allocs restc rests :
  t_role tc = "c"%char -> t_role ts = "s"%char ->
  length stc = 4%nat -> length sts = 4%nat ->
  Forall counters_fit (t_streams tc) -> Forall counters_fit (t_streams ts) ->
  is_sint 32 (t_sender_has_retransmits tc) -> is_sint 32 (t_sender_has_retransmits ts) ->
  NoDup (sp_id <$> t_streams tc) -> paired (tags (t_streams tc)) (tags (t_streams ts)) ->
  (forall k, allocc k = true) -> (forall k, allocs k = true) -> sendable (results_json tc) ->
  (forall ts', apply_results (results_json tc) ts = Some (0, ts') -> sendable (results_json ts')) ->
  inbox ws (t_ctrl_sck ts) = frame (results_text tc) ++ rests ->
  exists ts' ws',
    iperf_exchange_results (print_bytes allocs) (parse_bytes allocs) hs sts true ts ws
      = Some (0, ts', ws') /\
    inbox ws' (t_ctrl_sck ts) = rests /\
    outbox ws' (t_ctrl_sck ts) = outbox ws (t_ctrl_sck ts) ++ frame (results_text ts') /\
    (inbox wc (t_ctrl_sck tc) = frame (results_text ts') ++ restc ->
     exists tc' wc',
       iperf_exchange_results (print_bytes allocc) (parse_bytes allocc) hc stc true tc wc
         = Some (0, tc', wc') /\
       inbox wc' (t_ctrl_sck tc) = restc /\
       outbox wc' (t_ctrl_sck tc) = outbox wc (t_ctrl_sck tc) ++ frame (results_text tc) /\
       forall i sc ss, t_streams tc !! i = Some sc -> t_streams ts !! i = Some ss ->
         exists sc' ss', t_streams tc' !! i = Some sc' /\ t_streams ts' !! i = Some ss' /\
           if nonzero (sp_sender sc) then agreed sc sc' ss ss' else agreed ss ss' sc sc').
Proof.
  intros Hrc Hrs Hstc Hsts Hfc Hfs Hhc Hhs Hnd Hpair Hac Has Hpc Hps Hin.
  pose proof (paired_ids _ _ Hpair) as Hids.
  destruct (report_taken tc ts Hfc Hfs Hhc Hhs Hnd Hids)
    as (ts' & Hap & Htak & Hzs & Hfs' & Hhs' & Hids').
  pose proof (Hps ts' Hap) as Hpstr.
  assert (t_ctrl_sck ts' = t_ctrl_sck ts) as Hctrl by apply Htak.
  destruct (get_results_frame allocs Has hs sts ts tc ts' rests ws Hpc Hsts Hap Hin)
    as (ws1 & Hg & Hi1 & Ho1).
  destruct (send_results_frame allocs Has hs ts' ws1 Hpstr) as (ws2 & Hs & Ho2 & Hi2).
  rewrite Hctrl in Ho2. rewrite Ho1 in Ho2.
  exists ts', ws2. split; [|split; [by rewrite Hi2|split; [done|]]].
  { unfold iperf_exchange_results. rewrite decide_False by (by rewrite Hrs).
    rewrite Hg. cbn [mbind option_bind Z.ltb Z.compare]. by rewrite Hs. }
  intros Hinc.
  destruct (report_taken ts' tc Hfs' Hfc Hhs' Hhc) as (tc' & Hap' & _ & Hzc & _);
    [rewrite Hids', Hids; exact Hnd|rewrite Hids', Hids; reflexivity|].
  destruct (send_results_frame allocc Hac hc tc wc Hpc) as (wc1 & Hs' & Ho1' & Hi1').
  destruct (get_results_frame allocc Hac hc stc tc ts' tc' restc wc1
              Hpstr Hstc Hap') as (wc2 & Hg' & Hi2' & Ho2'); [by rewrite Hi1'|].
  exists tc', wc2. split; [|split; [done|split; [by rewrite Ho2'|]]].
  { unfold iperf_exchange_results. rewrite decide_True by done.
    rewrite Hs'. cbn [mbind option_bind Z.ltb Z.compare]. by rewrite Hg'. }
  intros i sc ss Hsc Hss. exists (merged ts' (merged tc sc ss) sc), (merged tc sc ss).
  assert (t_streams ts' !! i = Some (merged tc sc ss)) as Hss'
    by (by rewrite Hzs, lookup_zip_with, Hsc; cbn; rewrite Hss).
  split; [by rewrite Hzc, lookup_zip_with, Hss'; cbn; rewrite Hsc|]. split; [done|].
  destruct (paired_sender _ _ _ _ _ Hpair Hsc Hss) as [_ Hopp].
  pose proof (Forall_lookup_1 _ _ _ _ Hfc Hsc) as (_ & _ & _ & _ & _ & Hd).
  destruct Hd as [E|E]; rewrite E; cbn [nonzero Z.eqb negb].
  - apply (merged_agreed tc ts' ss sc); [by rewrite Hopp, E|done].
  - apply (merged_agreed tc ts' sc ss); [done|by rewrite Hopp, E].
Qed.
End Conversation.

(** ** A client that has sent 1200 bytes, of which 1000 arrived *)

Definition ex_report_c : iperf_test :=
  zero_test <| t_role := "c"%char |> <| t_mode := SENDER |> <| t_ctrl_sck := 4 |>
    <| t_cpu_util := [d_of_Z 1; d_zero; d_zero] |> <| t_streams := [ex_end 1 1 1200 0] |>.
Definition ex_report_s : iperf_test :=
  zero_test <| t_role := "s"%char |> <| t_mode := RECEIVER |> <| t_ctrl_sck := 4 |>
    <| t_streams := [ex_end 1 0 0 1000] |>.

(** What the server's report says once it has the client's. *)
Definition ex_answer : iperf_test :=
  match apply_results (results_json ex_report_c) ex_report_s with
  | Some (_, ts) => ts | None => ex_report_s end.

Lemma results_conversation_witness :
  exists tc' ts' sc' ss',
    (exists w, iperf_exchange_results (print_bytes (fun _ => true)) (parse_bytes (fun _ => true))
       LittleEndian [0; 0; 0; 0] true ex_report_c
       (Pipe.mk_pipe 2 (frame (results_text ex_answer)) []) = Some (0, tc', w)) /\
    (exists w, iperf_exchange_results (print_bytes (fun _ => true)) (parse_bytes (fun _ => true))
       BigEndian [0; 0; 0; 0] true ex_report_s
       (Pipe.mk_pipe 3 (frame (results_text ex_report_c)) []) = Some (0, ts', w)) /\
    t_streams tc' = [sc'] /\ t_streams ts' = [ss'] /\
    rs_bytes_received (sp_result sc') = 1000 /\ rs_bytes_sent (sp_result ss') = 1200.
Proof.
  destruct (results_conversation LittleEndian BigEndian
    [0; 0; 0; 0] [0; 0; 0; 0] ex_report_c ex_report_s
    (Pipe.mk_pipe 2 (frame (results_text ex_answer)) [])
    (Pipe.mk_pipe 3 (frame (results_text ex_report_c)) []) (fun _ => true) (fun _ => true) [] [])
    as (ts' & ws' & ES & _ & Hout & HC).
  - reflexivity.
  - reflexivity.
  - reflexivity.
  - reflexivity.
  - repeat constructor; unfold is_sint; vm_compute; intuition congruence.
  - repeat constructor; unfold is_sint; vm_compute; intuition congruence.
  - unfold is_sint. cbn. lia.
  - unfold is_sint. cbn. lia.
  - apply (bool_decide_unpack _). vm_compute. exact I.
  - reflexivity.
  - reflexivity.
  - reflexivity.
  - vm_compute. intuition (congruence || reflexivity).
  - intros ts' Hap. vm_compute in Hap. injection Hap as <-. vm_compute.
    intuition (congruence || reflexivity).
  - rewrite app_nil_r. reflexivity.
  - assert (ts' = ex_answer) as ->.
    { vm_compute in ES. injection ES as <- _. reflexivity. }
    destruct HC as (tc' & wc' & EC & _ & _ & Hagree); [rewrite app_nil_r; reflexivity|].
    destruct (Hagree 0%nat _ _ eq_refl eq_refl) as (sc' & ss' & Hsc & Hss & Ha).
    destruct Ha as (_ & Hr & Hs & _).
    exists tc', ex_answer, sc', ss'. split; [by exists wc'|]. split; [by exists ws'|].
    assert (t_streams tc' = [sc']) as E1.
    { vm_compute in EC. injection EC as <- _. vm_compute in Hsc. injection Hsc as <-. reflexivity. }
    split; [exact E1|]. split; [vm_compute in Hss |- *; injection Hss as <-; reflexivity|].
    split; [exact Hr|exact Hs].
Defined.
